(* ===== verification/_CoqProject ===== *)
-Q . S2P
Prelude.v
Base64.v
Sha1.v
Utf8.v
Ws.v
WsRx.v
WsRxFacts.v
WsRxInv.v
WsRxBulk.v
WsRxProps.v
WsRxSafety.v
WsTx.v
WsTxFacts.v
WsTxProps.v
WsTxHttp.v
Close.v
CloseProps.v
CloseTree.v
Service.v
ServiceProps.v
WsClient.v
WsClientFacts.v
WsClientProps.v
Lextable.v
HttpHdr.v
HttpHdrFacts.v
HttpHdrInv.v
HttpUri.v
HttpHdrProps.v
HttpReq.v
Ranges.v
RangesProps.v
HeaderPool.v
HeaderPoolFacts.v
HeaderPoolProps.v
Region.v
Handshake.v
HandshakeFacts.v
HandshakeProps.v
HttpOut.v
HttpOutProps.v
PollFds.v
PollLists.v
PollTable.v
PollProps.v
Pending.v
Subprotocol.v
Escape.v
UriParts.v
Json.v
JsonReader.v
JsonFacts.v
JsonProps.v
EscapeProps.v
Session.v
Commands.v
SessionFacts.v
SessionProps.v
AppFacts.v
CommandFacts.v
AppProps.v
AppSafety.v
