(* ===== verification/Prelude.v ===== *)
(** * Verification of UCClient: the transport, the messages and the application

    UCClient (src/dev/trunk/UCClient) is a Windows program that lets web pages use a
    telephony SDK.  It runs a WebSocket server on libwebsockets
    (src/libwebsockets-2.2.1/lib); a page sends commands as JSON texts, read and
    written with jsoncpp (src/jsoncpp-src-0.5.0), the program calls the SDK and sends
    the results and the reports of the SDK back.  This library models these parts as
    executable functions and proves what makes them correct, where they are, and
    evaluates the inputs on which they are not.

    ** The path of a message

    A browser connects: the connection waits for a header table of the pool
    ([HeaderPool]), the bytes of its request go through the header parser
    ([HttpHdr], with the names recognised by [Lextable]) into the table, the handshake
    ([Handshake], with [Sha1] and [Base64]) answers and makes the connection a
    WebSocket.  From then on the frames of the page pass the receiver ([WsRx],
    with [Utf8]; [WsClient] is the receiver of the other side), and the writer
    ([WsTx]) frames what the application sends.  The application's callback
    ([Session]) gives whole messages to [OnMessage] ([Commands]), which reads the JSON
    text ([Json], [JsonReader]), calls the SDK (a class of functions) and queues the
    answer for the writer.

    ** Files

    - [Prelude]: the C operators and integer types on [Z], buffers, tactics ([zbool],
      [forall_inv], ...), lemmas on lists and bytes shared by all files.
    - [Base64]: lib/base64-decode.c.  [Sha1]: lib/sha-1.c.  [Utf8]: lws_check_utf8.
    - [Ws]: struct lws, the class [LwsEnv] of what the frame code calls outside (the
      socket, the callbacks, the clock, malloc, the random source), timeouts and flow
      control.  [WsRx]: lws_rx_sm (parsers.c) and lws_interpret_incoming_packet
      (server.c), with [WsRxFacts], [WsRxInv], [WsRxBulk] and the theorems in
      [WsRxProps] and [WsRxSafety].  [WsTx]: lws_issue_raw, lws_write (output.c),
      the extension calls (extension.c), lws_handle_POLLOUT_event (service.c), with
      [WsTxFacts], [WsTxProps] and, for text that is sent as it is, [WsTxHttp].  [WsClient]: lws_client_rx_sm (client-parser.c), with
      [WsClientFacts] and [WsClientProps].
    - [Close], [CloseProps], [CloseTree]: lws_close_free_wsi (libwebsockets.c), the check of
      a connection's timer and the service of a writable socket (service.c).  [Service],
      [ServiceProps]: lws_service_fd_tsi for a WebSocket and lws_read; [Pending]: service
      without network activity.
    - [PollFds], [PollLists], [PollTable], [PollProps]: pollfd.c and the socket tables of
      lws-plat-win.c.  [Subprotocol]: the choice of a protocol (server.c).
    - [Lextable]: lextable_decode and its table.  [HttpHdr]: lws_parse and the table of
      headers (parsers.c), with [HttpHdrFacts], [HttpHdrInv], [HttpUri], [HttpHdrProps];
      [HttpReq] has the lines of a whole request.
    - [Ranges], [RangesProps]: ranges.c.
    - [HeaderPool], [HeaderPoolFacts], [HeaderPoolProps]: lws_header_table_attach, _detach
      and _reset (parsers.c), with the list of waiting connections as pointers.
    - [Region]: text in a memory.  [Handshake], [HandshakeFacts], [HandshakeProps]:
      server-handshake.c, lws_find_mount, lws_ensure_user_space.
    - [HttpOut], [HttpOutProps]: header.c, the writer of HTTP headers and the answers for
      a status and a redirect.
    - [Escape], [EscapeProps], [UriParts]: lws_urlencode, lws_urldecode, lws_sql_purify,
      lws_json_purify, lws_parse_uri (libwebsockets.c).
    - [Json], [JsonReader], [JsonFacts], [JsonProps]: Json::Value, FastWriter, Reader.
    - [Session], [SessionFacts], [SessionProps]: websocket.cpp.  [Commands],
      [CommandFacts]: UCClientWebSocket.cpp and WinSDKBase.cpp.  [AppFacts], [AppProps],
      [AppSafety]: the application as a whole.

    A function of the source is a definition of the same name; a long one is cut at
    its cases, loops and labels, and its state is a record with the members it reads
    or changes.  A loop is a [Fixpoint] on the list it walks or with fuel.  [None]
    stands for what C leaves undefined (an access outside of an array, a null or
    freed pointer), for a failed assert and for fuel that runs out; a theorem that a
    function returns says that it is [Some].  The two asserts of the frame code (in
    lws_issue_raw and lws_client_rx_sm) are recorded as the event [EAssert], and the
    model goes on behind them, as a build without asserts does.

    ** Assumptions about callbacks

    What the application's callback does is a parameter.  [LwsEnvOk]: it does not
    change the parser's own members.  [TakingCallback]: for the reasons of the
    receivers it returns 0 and does no more to the connection than send, ask for
    writability, set a timeout and a close reason; [callback_takes] and
    [callback_poll] show that [callback_lws] keeps to this.  [ModestCallback] and
    [ModestVhost]: it changes neither the state nor the receiver, may write, stop the
    flow and start timers.  [PollOk]: the lock of the poll table is granted, and
    without extensions no request is taken over; the other callbacks of the poll loop
    and WSAEventSelect may fail.  [SdkOk]: the SDK has a version string.

    ** What the theorems show

    - Frames.  The bytes of a frame, in any segmentation, deliver its payload to the
      callback of the protocol, if it takes them ([server_delivers]), the packet loop
      refines the byte-wise machine ([packet_refines_bytes]), no input leaves the buffers
      ([receiver_in_bounds]), malformed headers are refused ([malformed_refused], and by
      a client exactly these: [client_refuses]).
      The bytes on the wire are those issued, whatever the socket takes when
      ([tx_stream], [tx_drains]); what one side writes the other receives
      ([client_to_server], [server_to_client], [client_message]).  Lemmas beside them
      cover pings, pongs, closes and single frames.
    - Closes.  Whatever calls, timers and packets follow each other, a WebSocket connection
      is told of its end once and last ([closed_once]); a close that waits has a timer
      that ends it ([close_completes]); the children of a connection end before it
      ([children_end_first]); the lemma [close_gaps] has connections for which it goes
      otherwise.
    - Service.  Whenever the protocol stops and allows the flow of data, while there is
      memory, every byte that came has gone through the receiver once and in order or is still kept
      ([flow_keeps_bytes]); the lemmas [flow_gaps] and [upgraded_frame_waits] have the
      bytes that are lost without memory and those that wait for others.
    - Sockets.  The array of polled sockets, the hash table and the lists of a protocol's
      connections refine a finite map ([poll_refines]), also when WSAEventSelect fails; the
      lemma [poll_gaps] has two orders of calls after which they do not.
    - Codecs.  [lws_SHA1_correct] and [encode_correct] against the definitions of
      FIPS 180 and RFC 4648, [decode_encode], [check_utf8_correct], [lextable_correct].
    - Headers.  [header_parser_safe] on every input, [header_roundtrip], [uri_sanitised]
      and [ranges_served]; the lemmas [uri_sanitising_gaps], [hdr_copy_overruns] and
      [ranges_gaps] have inputs that go wrong.
    - Tables.  The pool, pointers and all, refines a set of holders with a queue
      ([pool_refines_fifo]); who waits is served ([waiter_served]); a table that is
      handed out is one the parser can start with ([attached_table_parses]).  The lemma
      [detach_reentered]: a detach that is re-entered breaks the list.
    - Handshake.  The bytes of an upgrade request lead to the response of RFC 6455 and to
      an established connection ([upgrade_accepted]); the first protocol of the client's
      list that is supported is taken ([protocol_chosen], and the lemma [protocol_gaps]);
      the lemma [extension_options_hang] has a list of extensions that never ends.
    - Answers.  What lws_return_http_status and lws_http_redirect send is what the header
      parser reads back, with the text behind it ([response_understood] and the lemma
      [redirect_understood]); headers stay in their buffer ([headers_in_bounds]).  The
      lemma [status_answer_gaps]: what the result of a status hides.
    - Text.  [url_roundtrip], [purified_text_stays_inside] (with the JSON reader as the
      judge), [parse_uri_parts]; the lemmas [encoders_in_bounds], [urldecode_overruns].
    - JSON.  [json_roundtrip], [json_reader_total] and the lemma [json_reader_gaps].
    - Application.  The queue of a session and the writer are a reliable channel
      ([session_fifo]); a command is answered once, or stops the application for one of two
      reasons ([command_answered]); where a report of the SDK goes
      ([event_reaches_all]; the lemma [event_gaps] has what pages lose thereby);
      no order of callbacks uses an object that is gone ([app_safe]).

    ** Bounds and fuel

    The chains of header fragments have NFRAGS = 176 rounds, the number of fragments;
    backing up over a fragment as many as it has bytes; a walk over the name table as
    many as the table.  The reader of JSON has 2n+2 calls for n bytes, which
    [json_reader_total] shows to be enough.  lws_write takes its rounds as an argument;
    without extensions one is enough.  The loops of the handshake, of the URL decoder,
    of the URI and of the ranges have the size of their buffer; the walks of the pool
    have the number of connections and one more, that over a protocol's connections their
    number, and the choice of a protocol the length of the list.  A close goes as deep as the tree of
    children is high, and flushes extensions once when there are none; a service has as
    many rounds of the receiver as there are bytes, and one of the extensions.  [HttpCtxOk] limits
    the header memory to what fits the types of the C code; the classes [SocketOk] and
    [RandomOk] state what the system calls promise.  Each theorem that needs such a
    class or one of those for the callbacks has a witness with a concrete instance.

    ** Not modelled

    Threads other than the service thread: libwebsockets is used from one, and the
    mutex of the application is taken to work.  The user interface (DuiLib, the
    windows of UCClient), the installer and the browser plug-in; log4cplus and
    OpenSSL; the SDK, a binary library.  Of libwebsockets: the event loop (poll and
    the walk over all connections) and the other platform files, the serving of files and CGI, HTTP/2 and HPACK, TLS, compression,
    the client's side of connecting.  Of jsoncpp: StyledWriter, Path and the
    alternative containers, which the application does not use.  The manifest lists
    them with the reason. *)

From stdpp Require Export base list numbers strings sets.
From coqutil Require Export Datatypes.RecordSetters.
From Stdlib Require Export ZArith Lia ZifyNat.
From Stdlib Require Export Btauto.
From Stdlib Require Import Ascii.
Export DoubleBraceUpdate.

#[global] Open Scope Z_scope.

(** ** Notations for the C operators

    [c_scope] holds the bitwise operators under names close to the C ones. *)

Declare Scope c_scope.
Delimit Scope c_scope with C.
Notation "a .& b" := (Z.land a b) (at level 40, left associativity) : c_scope.
Notation "a .| b" := (Z.lor a b) (at level 50, left associativity) : c_scope.
Notation "a .^ b" := (Z.lxor a b) (at level 50, left associativity) : c_scope.
Notation "a .<< n" := (Z.shiftl a n) (at level 38, left associativity) : c_scope.
Notation "a .>> n" := (Z.shiftr a n) (at level 38, left associativity) : c_scope.
#[global] Open Scope c_scope.

(** ** Machine integers

    Every C integer is a [Z]; the functions below are the conversions to an
    unsigned or signed type of the given width. *)

Definition wrap (w x : Z) : Z := x mod 2 ^ w.
Definition u8 (x : Z) : Z := wrap 8 x.
Definition u16 (x : Z) : Z := wrap 16 x.
Definition u32 (x : Z) : Z := wrap 32 x.
Definition u64 (x : Z) : Z := wrap 64 x.

(** Conversion to a signed type of [w] bits (two's complement). *)
Definition swrap (w x : Z) : Z := (x + 2 ^ (w - 1)) mod 2 ^ w - 2 ^ (w - 1).
Definition s8 (x : Z) : Z := swrap 8 x.
Definition s32 (x : Z) : Z := swrap 32 x.

(** The value of a C condition or of [!!e]. *)
Definition nz (x : Z) : bool := negb (x =? 0).
Definition b2z (b : bool) : Z := if b then 1 else 0.

(** A value that fits an unsigned byte, and a buffer of such values. *)
Definition is_u8 (x : Z) : Prop := 0 <= x < 256.
Abbreviation bytes := (list Z).
Abbreviation all_u8 := (Forall is_u8).

#[global] Instance is_u8_dec x : Decision (is_u8 x).
Proof. unfold is_u8. apply _. Defined.

(** ** Buffers *)

Definition zlen {A} (l : list A) : Z := Z.of_nat (length l).

(** [l[i]] for an index inside the buffer; 0 outside of it. *)
Definition znth (l : bytes) (i : Z) : Z := nth (Z.to_nat i) l 0.

(** [memcpy(&dst[i], src, |src|)] into a buffer that is large enough. *)
Definition splice {A} (i : nat) (src dst : list A) : list A :=
  take i dst ++ src ++ drop (i + length src) dst.

(** The bytes of a string literal, without the terminating NUL. *)
Fixpoint bstr (s : string) : bytes :=
  match s with
  | EmptyString => []
  | String a r => Z.of_nat (nat_of_ascii a) :: bstr r
  end.

(** A C string seen through a pointer: the bytes up to the first NUL; the end
    of the list stands for the terminator. *)
Definition deref (p : bytes) : Z := match p with [] => 0 | x :: _ => x end.

Definition beqb (a b : bytes) : bool := bool_decide (a = b).

Arguments znth : simpl never.
Arguments zlen : simpl never.
Arguments wrap : simpl never.
Arguments swrap : simpl never.
Arguments u8 : simpl never.
Arguments u16 : simpl never.
Arguments u32 : simpl never.
Arguments u64 : simpl never.
Arguments nz : simpl never.
Arguments splice : simpl never.

(** ** Tactics *)

(** Split a boolean condition of the code found in the goal or in a hypothesis
    and turn it into the proposition it decides. *)
Ltac zbool :=
  repeat match goal with
  | H : (_ =? _) = true |- _ => apply Z.eqb_eq in H
  | H : (_ =? _) = false |- _ => apply Z.eqb_neq in H
  | H : (_ <? _) = true |- _ => apply Z.ltb_lt in H
  | H : (_ <? _) = false |- _ => apply Z.ltb_ge in H
  | H : (_ <=? _) = true |- _ => apply Z.leb_le in H
  | H : (_ <=? _) = false |- _ => apply Z.leb_gt in H
  | H : (_ <? _)%nat = true |- _ => apply Nat.ltb_lt in H
  | H : (_ <? _)%nat = false |- _ => apply Nat.ltb_ge in H
  | H : (_ <=? _)%nat = true |- _ => apply Nat.leb_le in H
  | H : (_ <=? _)%nat = false |- _ => apply Nat.leb_gt in H
  | H : (_ >? _) = _ |- _ => rewrite Z.gtb_ltb in H
  | H : (_ >=? _) = _ |- _ => rewrite Z.geb_leb in H
  | H : (_ && _) = true |- _ => apply andb_prop in H; destruct H
  | H : (_ || _) = false |- _ => apply orb_false_elim in H; destruct H
  | H : negb _ = true |- _ => apply negb_true_iff in H
  | H : negb _ = false |- _ => apply negb_false_iff in H
  | H : nz _ = _ |- _ => unfold nz in H
  end.

Ltac case_if :=
  match goal with
  | |- context [if ?b then _ else _] => let E := fresh "E" in destruct b eqn:E
  | H : context [if ?b then _ else _] |- _ => let E := fresh "E" in destruct b eqn:E
  end.

(** Take apart [Forall] on a cons or an append, without simplifying the goal. *)
Ltac forall_inv :=
  repeat match goal with
  | H : Forall _ (_ :: _) |- _ => apply Forall_cons in H as [? H]
  | H : Forall _ (_ ++ _) |- _ => apply Forall_app in H as [? H]
  end.

(** Equations between bitwise expressions, up to the boolean laws. *)
Ltac bit_ac :=
  apply Z.bits_inj'; intros ?i ?Hi; rewrite ?Z.lor_spec, ?Z.land_spec, ?Z.lxor_spec; btauto.

(** Linear arithmetic with [div] and [mod] by constants. *)
Ltac dm_lia := zify; Z.to_euclidean_division_equations; lia.

(** Simplify record updates ([constant] is the update with a value). *)
Ltac rcbn := repeat progress (cbn; unfold constant).
Ltac rcbn_all := repeat progress (cbn in *; unfold constant in *).

(** Case analysis on every condition of the goal, simplifying record updates. *)
Ltac case_ifs := repeat match goal with |- context [if ?b then _ else _] => destruct b eqn:?; rcbn end.

(** Case analysis on every remaining [match] of the goal. *)
Ltac case_all := repeat (case_match; simplify_eq/=; try done).

(** ** Hint databases: [bits] rewrites bit tests, [bytes] closes range goals. *)
Create HintDb bytes.
Create Rewrite HintDb zlen.

(** ** Ranges of the machine operations *)

Lemma wrap_range w x : 0 <= w -> 0 <= wrap w x < 2 ^ w.
Proof. intros. apply Z.mod_pos_bound, Z.pow_pos_nonneg; lia. Qed.

Lemma wrap_small w x : 0 <= x < 2 ^ w -> wrap w x = x.
Proof. intros. by apply Z.mod_small. Qed.

Lemma u8_range x : is_u8 (u8 x).
Proof. apply (wrap_range 8); lia. Qed.

Lemma u8_small x : is_u8 x -> u8 x = x.
Proof. intros. by apply (wrap_small 8). Qed.

Lemma u32_small x : 0 <= x < 2 ^ 32 -> u32 x = x.
Proof. apply wrap_small. Qed.

Lemma u64_small x : 0 <= x < 2 ^ 64 -> u64 x = x.
Proof. apply wrap_small. Qed.

Lemma s32_small x : 0 <= x < 2 ^ 31 -> s32 x = x.
Proof. intros. unfold s32, swrap. rewrite Z.mod_small by lia. lia. Qed.

Lemma testbit_high w x i : 0 <= x < 2 ^ w -> w <= i -> Z.testbit x i = false.
Proof.
  intros Hx Hi.
  destruct (decide (w < 0)) as [Hw|Hw].
  { rewrite Z.pow_neg_r in Hx by lia. lia. }
  rewrite <- (Z.mod_small x (2 ^ w)) by done.
  apply Z.mod_pow2_bits_high. lia.
Qed.

(** A value all of whose high bits are clear fits in [w] bits. *)
Lemma bits_bounded w x :
  0 <= w -> 0 <= x -> (forall i, w <= i -> Z.testbit x i = false) -> 0 <= x < 2 ^ w.
Proof.
  intros Hw Hx Hb. split; [done|].
  destruct (decide (x < 2 ^ w)) as [|Hge]; [done|exfalso].
  assert (0 < x) by (pose proof (Z.pow_pos_nonneg 2 w); lia).
  assert (Hl : w <= Z.log2 x) by (apply Z.log2_le_pow2; lia).
  pose proof (Z.bit_log2 x) as Hlog. rewrite Hb in Hlog by done. intuition discriminate.
Qed.

Lemma lxor_bound w x y :
  0 <= w -> 0 <= x < 2 ^ w -> 0 <= y < 2 ^ w -> 0 <= Z.lxor x y < 2 ^ w.
Proof.
  intros Hw Hx Hy. apply bits_bounded; [done|apply Z.lxor_nonneg; lia|].
  intros i Hi. by rewrite Z.lxor_spec, !(testbit_high w) by done.
Qed.

Lemma lor_bound w x y :
  0 <= w -> 0 <= x < 2 ^ w -> 0 <= y < 2 ^ w -> 0 <= Z.lor x y < 2 ^ w.
Proof.
  intros Hw Hx Hy. apply bits_bounded; [done|apply Z.lor_nonneg; lia|].
  intros i Hi. by rewrite Z.lor_spec, !(testbit_high w) by done.
Qed.

Lemma land_bound_r w x y :
  0 <= w -> 0 <= y < 2 ^ w -> 0 <= Z.land x y < 2 ^ w.
Proof.
  intros Hw Hy. apply bits_bounded; [done|apply Z.land_nonneg; lia|].
  intros i Hi. by rewrite Z.land_spec, (testbit_high w y), andb_false_r by done.
Qed.

Lemma lxor_u8 x y : is_u8 x -> is_u8 y -> is_u8 (Z.lxor x y).
Proof. apply (lxor_bound 8); lia. Qed.

Lemma lxor_cancel x k : Z.lxor (Z.lxor x k) k = x.
Proof. by rewrite Z.lxor_assoc, Z.lxor_nilpotent, Z.lxor_0_r. Qed.

#[export] Hint Resolve u8_range lxor_u8 : bytes.

(** Disjoint bits add up. *)
Lemma lor_add x y : Z.land x y = 0 -> Z.lor x y = x + y.
Proof. intros H. rewrite <- Z.lxor_lor by done. symmetry. by apply Z.add_nocarry_lxor. Qed.

(** [hi << n | lo] with [lo] of at most [n] bits is a sum. *)
Lemma shift_lor_add hi lo n :
  0 <= n -> 0 <= lo < 2 ^ n -> Z.lor (Z.shiftl hi n) lo = hi * 2 ^ n + lo.
Proof.
  intros Hn Hlo. rewrite lor_add; [by rewrite Z.shiftl_mul_pow2|].
  apply Z.bits_inj'. intros i Hi. rewrite Z.land_spec, Z.bits_0.
  destruct (decide (i < n)).
  - by rewrite Z.shiftl_spec_low by done.
  - rewrite (testbit_high n lo) by lia. apply andb_false_r.
Qed.

Lemma land_ones_mod x n : 0 <= n -> Z.land x (2 ^ n - 1) = x mod 2 ^ n.
Proof. intros. rewrite <- Z.land_ones by done. by rewrite Z.ones_equiv. Qed.

(** ** Lists *)

Lemma zlen_nonneg {A} (l : list A) : 0 <= zlen l.
Proof. unfold zlen. lia. Qed.

Lemma zlen_app {A} (l k : list A) : zlen (l ++ k) = zlen l + zlen k.
Proof. unfold zlen. rewrite length_app. lia. Qed.

Lemma zlen_cons {A} (x : A) l : zlen (x :: l) = 1 + zlen l.
Proof. unfold zlen. cbn [length]. lia. Qed.

Lemma zlen_nil {A} : zlen (@nil A) = 0.
Proof. done. Qed.

#[export] Hint Rewrite @zlen_app @zlen_cons @zlen_nil : zlen.

Lemma all_u8_app l k : all_u8 (l ++ k) <-> all_u8 l /\ all_u8 k.
Proof. apply Forall_app. Qed.

Lemma splice_nil {A} i (l : list A) : splice i [] l = l.
Proof. unfold splice. cbn [app length]. by rewrite Nat.add_0_r, take_drop. Qed.

Lemma length_splice {A} i (src dst : list A) :
  (i + length src <= length dst)%nat -> length (splice i src dst) = length dst.
Proof. intros. unfold splice. rewrite !length_app, length_take, length_drop. lia. Qed.

Lemma splice_take {A} i (src dst : list A) :
  (i + length src <= length dst)%nat -> take (i + length src) (splice i src dst) = take i dst ++ src.
Proof.
  intros. unfold splice. rewrite app_assoc.
  replace (i + length src)%nat with (length (take i dst ++ src))
    by (rewrite length_app, length_take; lia).
  apply take_app_length.
Qed.

Lemma bstr_u8 s : all_u8 (bstr s).
Proof.
  induction s as [|a s IH]; constructor; [|done].
  pose proof (nat_ascii_bounded a). unfold is_u8. lia.
Qed.

(** Induction over a list three elements at a time. *)
Lemma list_ind3 {A} (P : list A -> Prop) :
  P [] -> (forall a, P [a]) -> (forall a b, P [a; b]) ->
  (forall a b c l, P l -> P (a :: b :: c :: l)) -> forall l, P l.
Proof.
  intros H0 H1 H2 H3.
  enough (Hn : forall n l, (length l <= n)%nat -> P l) by (intros l; by apply (Hn (length l))).
  induction n as [|n IH]; intros l Hl.
  - destruct l; [done|cbn in Hl; lia].
  - destruct l as [|a [|b [|c l]]]; auto. apply H3, IH. cbn in Hl. lia.
Qed.

(** ** Exhaustive checks over bytes *)

Definition byte_range : list Z := map Z.of_nat (seq 0 256).

Lemma forall_u8 (P : Z -> bool) :
  forallb P byte_range = true -> forall x, is_u8 x -> P x = true.
Proof.
  intros H x Hx. rewrite forallb_forall in H. apply H.
  unfold byte_range. apply in_map_iff. exists (Z.to_nat x). split.
  - rewrite Z2Nat.id; [done|]. apply Hx.
  - apply in_seq. unfold is_u8 in Hx. lia.
Qed.

Lemma forall_u8_2 (P : Z -> Z -> bool) :
  forallb (fun a => forallb (P a) byte_range) byte_range = true ->
  forall x y, is_u8 x -> is_u8 y -> P x y = true.
Proof. intros H x y Hx Hy. by apply (forall_u8 (P x)), Hy; apply (forall_u8 _ H). Qed.

(** ** Buffers filled from an offset *)

(** Storing one byte at the fill position extends the filled part. *)
Lemma fill_insert {A} (k n : nat) (x : A) l : (k + n < length l)%nat ->
  take (S n) (drop k (<[(k + n)%nat := x]> l)) = take n (drop k l) ++ [x].
Proof.
  intros Hl. rewrite drop_insert_ge by lia. replace (k + n - k)%nat with n by lia.
  rewrite (take_S_r _ n x).
  - by rewrite take_insert_ge by lia.
  - apply list_lookup_insert_eq. rewrite length_drop. lia.
Qed.

(** A store at or after the end of the filled part does not change it. *)
Lemma fill_insert_ge {A} (k n i : nat) (x : A) l : (k + n <= i)%nat ->
  take n (drop k (<[i := x]> l)) = take n (drop k l).
Proof. intros Hi. rewrite drop_insert_ge by lia. by rewrite take_insert_ge by lia. Qed.

(** Copying a block at the fill position extends the filled part. *)
Lemma fill_splice {A} (k n : nat) (src l : list A) : (k + n + length src <= length l)%nat ->
  take (n + length src) (drop k (splice (k + n) src l)) = take n (drop k l) ++ src.
Proof.
  intros Hl. unfold splice. rewrite drop_app_le by (rewrite length_take; lia).
  rewrite skipn_firstn_comm. replace (k + n - k)%nat with n by lia. rewrite app_assoc.
  rewrite take_app_le by (rewrite !length_app, length_take, length_drop; lia).
  apply take_ge. rewrite !length_app, length_take, length_drop. lia.
Qed.

(** ** Big-endian assembly *)

(** Adding the next byte below the bits already assembled. *)
Lemma lor_next_byte n j : 0 <= j ->
  ((n .>> (j + 8)) .<< (j + 8)) .| (((n .>> j) .& 255) .<< j) = (n .>> j) .<< j.
Proof.
  intros Hj. apply Z.bits_inj'. intros i Hi. rewrite Z.lor_spec, !Z.shiftl_spec by done.
  destruct (decide (i < j)) as [Hij|Hij].
  { by rewrite !(Z.testbit_neg_r _ (i - _)) by lia. }
  rewrite Z.land_spec, !(Z.shiftr_spec _ j) by lia.
  change 255 with (Z.ones 8). destruct (decide (i < j + 8)) as [Hi8|Hi8].
  - rewrite (Z.testbit_neg_r _ (i - (j + 8))) by lia.
    rewrite Z.ones_spec_low by lia. by rewrite andb_true_r.
  - rewrite Z.ones_spec_high by lia. rewrite Z.shiftr_spec by lia.
    rewrite andb_false_r, orb_false_r. f_equal. lia.
Qed.

Lemma land_255 x : x .& 255 = x mod 256.
Proof. apply (land_ones_mod x 8). lia. Qed.

Lemma land_255_u8 x : is_u8 (x .& 255).
Proof. rewrite land_255. apply Z.mod_pos_bound. lia. Qed.

Lemma shiftr_range x j w : 0 <= j -> 0 <= w -> 0 <= x < 2 ^ (j + w) -> 0 <= x .>> j < 2 ^ w.
Proof.
  intros Hj Hw Hx. rewrite Z.shiftr_div_pow2 by done. rewrite Z.pow_add_r in Hx by done.
  split; [apply Z.div_pos; lia|]. apply Z.div_lt_upper_bound; lia.
Qed.
