(* ===== verification/Base64.v ===== *)
(** * Base64 codec (lib/base64-decode.c)

    [lws_b64_encode_string] and [lws_b64_decode_string]: the codec behind the
    [Sec-WebSocket-Accept] header and basic authentication.  A buffer the
    caller passes as [in, in_len] is a list of bytes; the output pointer is the
    list of bytes stored through [*out++] so far, in order.  Both functions
    give the bytes stored and the returned [int]. *)

From S2P Require Import Prelude.

Module Base64.

Definition encode : bytes :=
  bstr "ABCDEFGHIJKLMNOPQRSTUVWXYZabcdefghijklmnopqrstuvwxyz0123456789+/".

Definition decode : bytes :=
  bstr "|$$$}rstuvwxyz{$$$$$$$>?@ABCDEFGHIJKLMNOPQRSTUVW$$$$$$XYZ[\]^_`abcdefghijklmnopq".

(** ['='], ['$']. *)
Definition EQ : Z := 61.
Definition DOLLAR : Z := 36.

(** The four characters stored for one [triple] of which [len] bytes are input. *)
Definition enc_quad (t0 t1 t2 len : Z) : bytes :=
  [ znth encode (t0 .>> 2);
    znth encode (((t0 .& 3) .<< 4) .| ((t1 .& 240) .>> 4));
    if len >? 1 then znth encode (((t1 .& 15) .<< 2) .| ((t2 .& 192) .>> 6)) else EQ;
    if len >? 2 then znth encode (t2 .& 63) else EQ ].

(** The [while (in_len)] loop and the code after it; [out] is what has been
    stored, [done] the count kept beside it. *)
Fixpoint encode_loop (inp out : bytes) (done out_size : Z) : bytes * Z :=
  match inp with
  | [] => if done + 1 >=? out_size then (out, -1) else (out ++ [0], done)
  | t0 :: r0 =>
      if done + 4 >=? out_size then (out, -1) else
      match r0 with
      | [] => encode_loop r0 (out ++ enc_quad t0 0 0 1) (done + 4) out_size
      | t1 :: r1 =>
          match r1 with
          | [] => encode_loop r1 (out ++ enc_quad t0 t1 0 2) (done + 4) out_size
          | t2 :: r2 => encode_loop r2 (out ++ enc_quad t0 t1 t2 3) (done + 4) out_size
          end
      end
  end.

Definition lws_b64_encode_string (inp : bytes) (out_size : Z) : bytes * Z :=
  encode_loop inp [] 0 out_size.

(** The value of one input character: 0 when it is not of the alphabet, the
    6-bit value plus one otherwise. *)
Definition dec_val (x : Z) : Z :=
  let v := if (x <? 43) || (x >? 122) then 0 else znth decode (x - 43) in
  if nz v then (if v =? DOLLAR then 0 else u8 (v - 61)) else v.

(** [while ( *in && !v )]: skip to the next character of the alphabet. *)
Fixpoint dec_char (inp : bytes) (c v : Z) : Z * Z * bytes :=
  match inp with
  | [] => (c, v, inp)
  | x :: r => if (x =? 0) || nz v then (c, v, inp) else dec_char r x (dec_val x)
  end.

(** [for (i = 0; i < 4 && *in; i++)], with [n = 4 - i] rounds left. *)
Fixpoint dec_group (n i : nat) (inp : bytes) (c len : Z) (quad : bytes)
  : bytes * Z * Z * bytes :=
  match n with
  | O => (inp, c, len, quad)
  | S n =>
      if deref inp =? 0 then (inp, c, len, quad) else
      let '(c, v, inp) := dec_char inp 0 0 in
      if nz c
      then dec_group n (S i) inp c (len + 1) (if nz v then <[i := u8 (v - 1)]> quad else quad)
      else dec_group n (S i) inp c len (<[i := 0]> quad)
  end.

(** The bytes one group stores. *)
Definition dec_out (len : Z) (quad : bytes) : bytes :=
  (if len >=? 2 then [u8 ((znth quad 0 .<< 2) .| (znth quad 1 .>> 4))] else []) ++
  (if len >=? 3 then [u8 ((znth quad 1 .<< 4) .| (znth quad 2 .>> 2))] else []) ++
  (if len >=? 4 then [u8 (((znth quad 2 .<< 6) .& 192) .| znth quad 3)] else []).

(** The outer [while ( *in )] loop; every round consumes at least a character,
    so [fuel] larger than the input is enough.  [quad] keeps its contents from
    one round to the next and starts with whatever the stack holds. *)
Fixpoint decode_loop (fuel : nat) (inp out : bytes) (c done : Z) (quad : bytes) (out_size : Z)
  : option (bytes * Z) :=
  match fuel with
  | O => None
  | S fuel =>
      if deref inp =? 0
      then Some (if done + 1 >=? out_size then (out, -1) else (out ++ [0], done))
      else
        let '(inp, c, len, quad) := dec_group 4 0 inp c 0 quad in
        if out_size <? done + len - 1 then Some (out, -1) else
        let len := if (deref inp =? 0) && (c =? EQ) then len - 1 else len in
        decode_loop fuel inp (out ++ dec_out len quad) c (done + (len - 1)) quad out_size
  end.

(** [quad0] is the indeterminate initial content of the local [quad]. *)
Definition lws_b64_decode_string (quad0 inp : bytes) (out_size : Z) : option (bytes * Z) :=
  decode_loop (S (length inp)) inp [] 0 0 quad0 out_size.


(** ** Specification: RFC 4648 on the bit string of the input *)

Definition byte_bits (x : Z) : list bool :=
  map (Z.testbit x) [7; 6; 5; 4; 3; 2; 1; 0].

Definition bits_val (l : list bool) : Z := foldl (fun a b => 2 * a + b2z b) 0 l.

(** Cut a bit string in groups of six, the last one filled up with zeros. *)
Fixpoint sextets (l : list bool) : list (list bool) :=
  match l with
  | a :: b :: c :: d :: e :: f :: r => [a; b; c; d; e; f] :: sextets r
  | [] => []
  | _ => [take 6 (l ++ replicate 6 false)]
  end.

Definition b64_pad (n : nat) : bytes :=
  match (n mod 3)%nat with 1%nat => [EQ; EQ] | 2%nat => [EQ] | _ => [] end.

Definition rfc4648 (inp : bytes) : bytes :=
  map (fun g => znth encode (bits_val g)) (sextets (concat (map byte_bits inp)))
  ++ b64_pad (length inp).

(** Characters the encoding of [n] bytes has. *)
Definition b64_len (n : Z) : Z := 4 * ((n + 2) / 3).

(** ** The encoder *)

Lemma enc_index_hi a b : is_u8 a -> is_u8 b ->
  ((a .& 3) .<< 4) .| ((b .& 240) .>> 4) =
  bits_val (map (Z.testbit a) [1; 0] ++ map (Z.testbit b) [7; 6; 5; 4]).
Proof.
  intros Ha Hb. apply Z.eqb_eq. revert a b Ha Hb. apply forall_u8_2. by vm_compute.
Qed.

Lemma enc_index_mid a b : is_u8 a -> is_u8 b ->
  ((a .& 15) .<< 2) .| ((b .& 192) .>> 6) =
  bits_val (map (Z.testbit a) [3; 2; 1; 0] ++ map (Z.testbit b) [7; 6]).
Proof.
  intros Ha Hb. apply Z.eqb_eq. revert a b Ha Hb. apply forall_u8_2. by vm_compute.
Qed.

Lemma enc_index_first a : is_u8 a ->
  a .>> 2 = bits_val (map (Z.testbit a) [7; 6; 5; 4; 3; 2]).
Proof. intros Ha. apply Z.eqb_eq. revert a Ha. apply forall_u8. by vm_compute. Qed.

Lemma enc_index_last a : is_u8 a ->
  a .& 63 = bits_val (map (Z.testbit a) [5; 4; 3; 2; 1; 0]).
Proof. intros Ha. apply Z.eqb_eq. revert a Ha. apply forall_u8. by vm_compute. Qed.

Lemma is_u8_0 : is_u8 0.
Proof. unfold is_u8. lia. Qed.

Lemma rfc4648_1 a : is_u8 a -> rfc4648 [a] = enc_quad a 0 0 1.
Proof.
  intros Ha. unfold enc_quad.
  rewrite (enc_index_hi a 0), enc_index_first by (done || apply is_u8_0). done.
Qed.

Lemma rfc4648_2 a b : is_u8 a -> is_u8 b -> rfc4648 [a; b] = enc_quad a b 0 2.
Proof.
  intros Ha Hb. unfold enc_quad.
  rewrite (enc_index_hi a b), (enc_index_mid b 0), enc_index_first by (done || apply is_u8_0).
  done.
Qed.

Lemma rfc4648_3 a b c l : is_u8 a -> is_u8 b -> is_u8 c ->
  rfc4648 (a :: b :: c :: l) = enc_quad a b c 3 ++ rfc4648 l.
Proof.
  intros Ha Hb Hc. unfold enc_quad.
  rewrite (enc_index_hi a b), (enc_index_mid b c), enc_index_first, enc_index_last by done.
  unfold rfc4648. cbn [length].
  replace (b64_pad (S (S (S (length l))))) with (b64_pad (length l)); [done|].
  unfold b64_pad. replace (S (S (S (length l)))) with (length l + 1 * 3)%nat by lia.
  by rewrite Nat.Div0.mod_add.
Qed.

Lemma b64_len_3 n : b64_len (3 + n) = 4 + b64_len n.
Proof. unfold b64_len. replace (3 + n + 2) with (n + 2 + 1 * 3) by lia. rewrite Z.div_add; lia. Qed.

Lemma b64_len_nonneg n : 0 <= n -> 0 <= b64_len n.
Proof. intros. unfold b64_len. pose proof (Z.div_pos (n + 2) 3). lia. Qed.

Ltac len_simp := autorewrite with zlen in *; rewrite ?Z.add_0_r in *.

Lemma zlen_enc_quad a b c n : zlen (enc_quad a b c n) = 4.
Proof. done. Qed.
#[local] Hint Rewrite zlen_enc_quad : zlen.

Lemma encode_loop_fits inp : forall out done out_size,
  all_u8 inp -> done + b64_len (zlen inp) + 1 < out_size ->
  encode_loop inp out done out_size = (out ++ rfc4648 inp ++ [0], done + b64_len (zlen inp)).
Proof.
  induction inp as [|a|a b|a b c l IH] using list_ind3; intros out done out_size Hu Hs;
    forall_inv; cbn [encode_loop].
  - change (b64_len (zlen [])) with 0 in *. rewrite Z.geb_leb, (proj2 (Z.leb_gt _ _)) by lia.
    by rewrite Z.add_0_r.
  - change (b64_len (zlen [a])) with 4 in *.
    rewrite !Z.geb_leb, !(proj2 (Z.leb_gt _ _)) by lia. by rewrite rfc4648_1, <- app_assoc.
  - change (b64_len (zlen [a; b])) with 4 in *.
    rewrite !Z.geb_leb, !(proj2 (Z.leb_gt _ _)) by lia. by rewrite rfc4648_2, <- app_assoc.
  - assert (E : b64_len (zlen (a :: b :: c :: l)) = 4 + b64_len (zlen l)).
    { rewrite <- b64_len_3. f_equal. len_simp. lia. }
    pose proof (b64_len_nonneg (zlen l) (zlen_nonneg l)).
    rewrite E in *. rewrite Z.geb_leb, (proj2 (Z.leb_gt _ _)) by lia.
    rewrite IH by (done || lia). rewrite rfc4648_3, <- !app_assoc by done. f_equal. lia.
Qed.

Lemma encode_loop_small inp : forall out done out_size,
  zlen out = done -> done <= Z.max 0 out_size ->
  zlen (fst (encode_loop inp out done out_size)) <= Z.max 0 out_size /\
  (snd (encode_loop inp out done out_size) = -1 <->
     out_size <= done + b64_len (zlen inp) + 1).
Proof.
  induction inp as [|a|a b|a b c l IH] using list_ind3; intros out done out_size Ho Hd;
    cbn [encode_loop]; pose proof (zlen_nonneg out).
  - change (b64_len (zlen [])) with 0. case_if; zbool; cbn [fst snd]; len_simp; lia.
  - change (b64_len (zlen [a])) with 4.
    repeat case_if; zbool; cbn [fst snd]; len_simp; lia.
  - change (b64_len (zlen [a; b])) with 4.
    repeat case_if; zbool; cbn [fst snd]; len_simp; lia.
  - assert (E : b64_len (zlen (a :: b :: c :: l)) = 4 + b64_len (zlen l)).
    { rewrite <- b64_len_3. f_equal. len_simp. lia. }
    pose proof (b64_len_nonneg (zlen l) (zlen_nonneg l)).
    rewrite E. case_if; zbool; cbn [fst snd]; [lia|].
    destruct (IH (out ++ enc_quad a b c 3) (done + 4) out_size) as [H1 H2].
    + len_simp. lia.
    + lia.
    + split; [done|]. rewrite H2. lia.
Qed.

Lemma encode_string_fits inp out_size : all_u8 inp -> b64_len (zlen inp) + 1 < out_size ->
  lws_b64_encode_string inp out_size = (rfc4648 inp ++ [0], b64_len (zlen inp)).
Proof. intros. unfold lws_b64_encode_string. by rewrite encode_loop_fits. Qed.

(** C39: Base64 encoding is that of RFC 4648.  Whatever the bytes and the size declared for
    the output, nothing is stored past it.  With room for the text, its NUL and one byte
    more, exactly the text of RFC 4648 (the bits in groups of six, padded) and a NUL are
    stored and the length of the text is returned; with less room, and only then,
    the result is -1. *)
Theorem encode_correct inp out_size : all_u8 inp ->
  let r := lws_b64_encode_string inp out_size in
  zlen r.1 <= Z.max 0 out_size /\
  if b64_len (zlen inp) + 1 <? out_size then r = (rfc4648 inp ++ [0], b64_len (zlen inp)) else r.2 = -1.
Proof.
  intros Hu. destruct (encode_loop_small inp [] 0 out_size) as [Hb Hn]; [done|lia|]. split; [exact Hb|].
  destruct (_ <? _) eqn:E; zbool; [by apply encode_string_fits|by apply Hn].
Qed.

Lemma encode_correct_witness :
  lws_b64_encode_string (bstr "any carnal pleas") 26 = (bstr "YW55IGNhcm5hbCBwbGVhcw==" ++ [0], 24) /\
  (lws_b64_encode_string (bstr "any carnal pleas") 25).2 = -1.
Proof.
  split; [apply (encode_correct (bstr "any carnal pleas") 26), bstr_u8|].
  apply (encode_correct (bstr "any carnal pleas") 25), bstr_u8.
Defined.

(** ** The decoder *)

Lemma dec_val_encode k : 0 <= k < 64 -> dec_val (znth encode k) = k + 1.
Proof.
  intros Hk. apply Z.eqb_eq.
  pose (P := fun k => (k >=? 64) || (dec_val (znth encode k) =? k + 1)).
  assert (HP : P k = true) by (apply forall_u8; [by vm_compute|unfold is_u8; lia]).
  unfold P in HP. apply orb_prop in HP as [HP|HP]; [zbool; lia|done].
Qed.

Lemma encode_nonzero k : 0 <= k < 64 -> znth encode k <> 0.
Proof. intros Hk E. pose proof (dec_val_encode k Hk) as H. rewrite E in H. change (dec_val 0) with 0 in H. lia. Qed.

(** The text has no NUL and the length announced. *)
Lemma rfc4648_nonzero inp : 0 ∉ rfc4648 inp.
Proof.
  intros Hin. unfold rfc4648 in Hin. apply elem_of_app in Hin as [Hin|Hin].
  - apply list_elem_of_fmap in Hin as (g & Hg & Hin). symmetry in Hg. revert Hg. apply encode_nonzero.
    assert (Hs : forall n l, (length l <= n)%nat -> g ∈ sextets l -> length g = 6%nat).
    { induction n as [|n IH]; intros l Hl Hg.
      - destruct l; [by apply not_elem_of_nil in Hg|cbn in Hl; lia].
      - destruct l as [|x0 [|x1 [|x2 [|x3 [|x4 [|x5 l]]]]]]; cbn in Hg;
          try (by apply not_elem_of_nil in Hg); apply elem_of_cons in Hg as [->|Hg]; try done;
          try (by apply not_elem_of_nil in Hg). apply (IH l); [cbn in Hl; lia|done]. }
    pose proof (Hs _ _ (le_n _) Hin) as Hg6. destruct g as [|b0 [|b1 [|b2 [|b3 [|b4 [|b5 [|]]]]]]]; try done.
    destruct b0, b1, b2, b3, b4, b5; vm_compute; (split; [discriminate|reflexivity]).
  - unfold b64_pad in Hin. destruct (length inp mod 3)%nat as [|[|[|]]];
      repeat (apply elem_of_cons in Hin as [Hin|Hin]; [done|]); by apply not_elem_of_nil in Hin.
Qed.

Lemma zlen_rfc4648 inp : all_u8 inp -> zlen (rfc4648 inp) = b64_len (zlen inp).
Proof.
  induction inp as [|a|a b|a b c l IH] using list_ind3; intros Hu; forall_inv; try done.
  rewrite rfc4648_3, zlen_app, IH by done. rewrite !zlen_cons.
  replace (1 + (1 + (1 + zlen l))) with (3 + zlen l) by lia. rewrite b64_len_3.
  change (zlen (enc_quad a b c 3)) with 4. lia.
Qed.

(** A character of the alphabet is read in one step. *)
Lemma dec_char_encode k r : 0 <= k < 64 ->
  dec_char (znth encode k :: r) 0 0 = (znth encode k, k + 1, r).
Proof.
  intros Hk. cbn [dec_char]. rewrite dec_val_encode by done.
  rewrite (proj2 (Z.eqb_neq _ _)) by (by apply encode_nonzero). cbn [nz orb].
  change (nz 0) with false. cbn [orb].
  destruct r as [|y r]; cbn [dec_char]; [done|].
  unfold nz at 1. rewrite (proj2 (Z.eqb_neq (k + 1) 0)) by lia. by rewrite orb_true_r.
Qed.

(** One round of the [for] loop on a character of the alphabet. *)
Lemma dec_group_encode n i k r c len quad : 0 <= k < 64 ->
  dec_group (S n) i (znth encode k :: r) c len quad =
  dec_group n (S i) r (znth encode k) (len + 1) (<[i := k]> quad).
Proof.
  intros Hk. cbn [dec_group deref].
  pose proof (encode_nonzero k Hk) as Hnz. rewrite (proj2 (Z.eqb_neq _ _)) by done.
  rewrite dec_char_encode by done. unfold nz.
  rewrite (proj2 (Z.eqb_neq _ _)) by done. rewrite (proj2 (Z.eqb_neq (k + 1) 0)) by lia. cbn [negb].
  rewrite Z.add_simpl_r, u8_small by (unfold is_u8; lia). done.
Qed.

(** The 6-bit values of a group, and their ranges. *)
Definition six (a b c : Z) : bytes :=
  [a .>> 2; ((a .& 3) .<< 4) .| ((b .& 240) .>> 4);
   ((b .& 15) .<< 2) .| ((c .& 192) .>> 6); c .& 63].

Lemma foldl_bits l : forall a,
  foldl (fun a b => 2 * a + b2z b) a l = a * 2 ^ zlen l + bits_val l.
Proof.
  unfold bits_val. induction l as [|b l IH]; intros a; cbn [foldl]; [rewrite zlen_nil; lia|].
  rewrite IH, (IH (2 * 0 + b2z b)), zlen_cons, Z.pow_add_r by (done || apply zlen_nonneg). lia.
Qed.

Lemma bits_val_range l : 0 <= bits_val l < 2 ^ zlen l.
Proof.
  induction l as [|b l IH]; [done|]. unfold bits_val in *. cbn [foldl].
  rewrite foldl_bits, zlen_cons, Z.pow_add_r by (done || apply zlen_nonneg).
  unfold bits_val in *. destruct b; cbn [b2z]; lia.
Qed.

Lemma six_range a b c : is_u8 a -> is_u8 b -> is_u8 c ->
  Forall (fun k => 0 <= k < 64) (six a b c).
Proof.
  intros Ha Hb Hc. unfold six.
  rewrite enc_index_hi, enc_index_mid, enc_index_first, enc_index_last by done.
  repeat apply Forall_cons_2; [..|apply Forall_nil_2];
    match goal with |- context [bits_val ?l] => exact (bits_val_range l) end.
Qed.

Lemma dec_byte_0 a b : is_u8 a -> is_u8 b ->
  u8 (((a .>> 2) .<< 2) .| ((((a .& 3) .<< 4) .| ((b .& 240) .>> 4)) .>> 4)) = a.
Proof. intros Ha Hb. apply Z.eqb_eq. revert a b Ha Hb. apply forall_u8_2. by vm_compute. Qed.

Lemma dec_byte_mid q r : 0 <= q < 64 -> 0 <= r < 64 ->
  u8 ((q .<< 4) .| (r .>> 2)) = (q mod 16) * 16 + r / 4.
Proof.
  intros Hq Hr. apply Z.eqb_eq.
  pose (P := fun q r => (q >=? 64) || (r >=? 64) || (u8 ((q .<< 4) .| (r .>> 2)) =? (q mod 16) * 16 + r / 4)).
  assert (HP : P q r = true) by (apply forall_u8_2; [by vm_compute|unfold is_u8; lia..]).
  unfold P in HP. rewrite (proj2 (Z.eqb_eq _ _)); [done|].
  apply orb_prop in HP as [HP|HP]; [apply orb_prop in HP as [HP|HP]|]; zbool; lia.
Qed.

Lemma dec_byte_1 a b c : is_u8 a -> is_u8 b -> is_u8 c ->
  u8 (((((a .& 3) .<< 4) .| ((b .& 240) .>> 4)) .<< 4) .|
      ((((b .& 15) .<< 2) .| ((c .& 192) .>> 6)) .>> 2)) = b.
Proof.
  intros Ha Hb Hc.
  pose proof (six_range a b c Ha Hb Hc) as Hr. unfold six in Hr. forall_inv.
  rewrite dec_byte_mid by done.
  assert (E1 : (((a .& 3) .<< 4) .| ((b .& 240) .>> 4)) mod 16 = b / 16).
  { apply Z.eqb_eq. clear - Ha Hb. revert a b Ha Hb. apply forall_u8_2. by vm_compute. }
  assert (E2 : (((b .& 15) .<< 2) .| ((c .& 192) .>> 6)) / 4 = b mod 16).
  { apply Z.eqb_eq. clear - Hb Hc. revert b c Hb Hc. apply forall_u8_2. by vm_compute. }
  rewrite E1, E2. pose proof (Z.div_mod b 16). lia.
Qed.

Lemma dec_byte_2 b c : is_u8 b -> is_u8 c ->
  u8 ((((((b .& 15) .<< 2) .| ((c .& 192) .>> 6)) .<< 6) .& 192) .| (c .& 63)) = c.
Proof. intros Hb Hc. apply Z.eqb_eq. revert b c Hb Hc. apply forall_u8_2. by vm_compute. Qed.

(** What a group of four characters, or a padded one, puts back in [quad]. *)
Lemma dec_group_3 a b c r c0 quad : is_u8 a -> is_u8 b -> is_u8 c -> length quad = 4%nat ->
  dec_group 4 0 (enc_quad a b c 3 ++ r) c0 0 quad =
  (r, znth encode (c .& 63), 4, six a b c).
Proof.
  intros Ha Hb Hc Hq. pose proof (six_range a b c Ha Hb Hc) as Hr. unfold six in Hr. forall_inv.
  unfold enc_quad. cbn [app Z.gtb Z.compare Pos.compare Pos.compare_cont].
  rewrite !dec_group_encode by done.
  destruct quad as [|q0 [|q1 [|q2 [|q3 [|]]]]]; try done.
Qed.

Lemma dec_group_2 a b c0 quad : is_u8 a -> is_u8 b -> length quad = 4%nat ->
  exists quad', dec_group 4 0 (enc_quad a b 0 2) c0 0 quad = ([], EQ, 4, quad') /\
    take 3 quad' = take 3 (six a b 0) /\ length quad' = 4%nat.
Proof.
  intros Ha Hb Hq. pose proof (six_range a b 0 Ha Hb is_u8_0) as Hr. unfold six in Hr. forall_inv.
  unfold enc_quad. cbn [app Z.gtb Z.compare Pos.compare Pos.compare_cont].
  rewrite !dec_group_encode by done.
  destruct quad as [|q0 [|q1 [|q2 [|q3 [|]]]]]; try done. eexists. split; [reflexivity|done].
Qed.

Lemma dec_group_1 a c0 quad : is_u8 a -> length quad = 4%nat ->
  exists quad', dec_group 4 0 (enc_quad a 0 0 1) c0 0 quad = ([], EQ, 3, quad') /\
    take 2 quad' = take 2 (six a 0 0) /\ length quad' = 4%nat.
Proof.
  intros Ha Hq. pose proof (six_range a 0 0 Ha is_u8_0 is_u8_0) as Hr. unfold six in Hr. forall_inv.
  unfold enc_quad. cbn [app Z.gtb Z.compare Pos.compare Pos.compare_cont].
  rewrite !dec_group_encode by done.
  destruct quad as [|q0 [|q1 [|q2 [|q3 [|]]]]]; try done. eexists. split; [reflexivity|done].
Qed.

Lemma dec_out_4 a b c : is_u8 a -> is_u8 b -> is_u8 c -> dec_out 4 (six a b c) = [a; b; c].
Proof.
  intros Ha Hb Hc. change (dec_out 4 (six a b c)) with
    [u8 (((a .>> 2) .<< 2) .| ((((a .& 3) .<< 4) .| ((b .& 240) .>> 4)) .>> 4));
     u8 (((((a .& 3) .<< 4) .| ((b .& 240) .>> 4)) .<< 4) .|
         ((((b .& 15) .<< 2) .| ((c .& 192) .>> 6)) .>> 2));
     u8 ((((((b .& 15) .<< 2) .| ((c .& 192) .>> 6)) .<< 6) .& 192) .| (c .& 63))].
  by rewrite dec_byte_0, dec_byte_1, dec_byte_2.
Qed.

Lemma dec_out_take n quad quad' : 2 <= n <= 3 -> take (Z.to_nat n) quad = take (Z.to_nat n) quad' ->
  dec_out n quad = dec_out n quad'.
Proof.
  intros Hn H. unfold dec_out.
  assert (Hi : forall i, 0 <= i < n -> znth quad i = znth quad' i).
  { intros i Hi. unfold znth. rewrite !nth_lookup.
    rewrite <- (lookup_take_lt quad (Z.to_nat n)) by lia. rewrite H. by rewrite lookup_take_lt by lia. }
  rewrite (Hi 0), (Hi 1) by lia.
  destruct (decide (n = 2)) as [->|]; [done|]. assert (n = 3) as -> by lia. by rewrite (Hi 2).
Qed.

Lemma dec_out_partial a b : is_u8 a -> is_u8 b -> dec_out 3 (six a b 0) = [a; b].
Proof. intros Ha Hb. pose proof (dec_out_4 a b 0 Ha Hb is_u8_0) as H. injection H as H1 H2 H3.
  unfold dec_out. cbn [Z.geb Z.compare Pos.compare Pos.compare_cont app]. by rewrite H1, H2.
Qed.

Lemma deref_enc_quad a b c n r : is_u8 a -> (deref (enc_quad a b c n ++ r) =? 0) = false.
Proof.
  intros Ha. apply Z.eqb_neq. cbn [enc_quad app deref]. apply encode_nonzero.
  pose proof (six_range a 0 0 Ha is_u8_0 is_u8_0) as Hr. unfold six in Hr. by forall_inv.
Qed.

Lemma encode_not_EQ k : 0 <= k < 64 -> (znth encode k =? EQ) = false.
Proof.
  intros Hk. apply Z.eqb_neq. intros E. pose proof (dec_val_encode k Hk) as H.
  rewrite E in H. change (dec_val EQ) with 0 in H. lia.
Qed.

Ltac leb_gt := rewrite ?Z.geb_leb, (proj2 (Z.leb_gt _ _)) by lia.

Lemma decode_end fuel out c done quad out_size : done + 1 < out_size ->
  decode_loop (S fuel) [] out c done quad out_size = Some (out ++ [0], done).
Proof. intros. cbn [decode_loop deref Z.eqb]. by leb_gt. Qed.

Lemma decode_step_1 fuel a out c done quad out_size :
  is_u8 a -> length quad = 4%nat -> 0 <= done -> done + 2 < out_size ->
  decode_loop (S (S fuel)) (enc_quad a 0 0 1) out c done quad out_size =
  Some (out ++ [a] ++ [0], done + 1).
Proof.
  intros Ha Hq Hd Hs. remember (S fuel) as f eqn:Ef. cbn [decode_loop].
  pose proof (deref_enc_quad a 0 0 1 [] Ha) as Hz. rewrite app_nil_r in Hz. rewrite Hz.
  destruct (dec_group_1 a c quad) as (q & -> & Ht & _); [done..|].
  rewrite (proj2 (Z.ltb_ge _ _)) by lia. change ((deref [] =? 0) && (EQ =? EQ)) with true.
  cbn [andb]. change (3 - 1) with 2. rewrite (dec_out_take 2 q (six a 0 0)) by (done || lia).
  change (dec_out 2 (six a 0 0)) with (take 1 (dec_out 4 (six a 0 0))).
  rewrite dec_out_4 by (done || apply is_u8_0). subst f. change (2 - 1) with 1.
  rewrite decode_end by lia. by rewrite <- app_assoc.
Qed.

Lemma decode_step_2 fuel a b out c done quad out_size :
  is_u8 a -> is_u8 b -> length quad = 4%nat -> 0 <= done -> done + 3 < out_size ->
  decode_loop (S (S fuel)) (enc_quad a b 0 2) out c done quad out_size =
  Some (out ++ [a; b] ++ [0], done + 2).
Proof.
  intros Ha Hb Hq Hd Hs. remember (S fuel) as f eqn:Ef. cbn [decode_loop].
  pose proof (deref_enc_quad a b 0 2 [] Ha) as Hz. rewrite app_nil_r in Hz. rewrite Hz.
  destruct (dec_group_2 a b c quad) as (q & -> & Ht & _); [done..|].
  rewrite (proj2 (Z.ltb_ge _ _)) by lia. change ((deref [] =? 0) && (EQ =? EQ)) with true.
  cbn [andb]. change (4 - 1) with 3. rewrite (dec_out_take 3 q (six a b 0)) by (done || lia).
  rewrite dec_out_partial by done. subst f. change (3 - 1) with 2.
  rewrite decode_end by lia. by rewrite <- app_assoc.
Qed.

Lemma decode_step_3 fuel a b d r out c done quad out_size :
  is_u8 a -> is_u8 b -> is_u8 d -> length quad = 4%nat -> done + 3 <= out_size ->
  decode_loop (S fuel) (enc_quad a b d 3 ++ r) out c done quad out_size =
  decode_loop fuel r (out ++ [a; b; d]) (znth encode (d .& 63)) (done + 3) (six a b d) out_size.
Proof.
  intros Ha Hb Hd Hq Hs. cbn [decode_loop]. rewrite deref_enc_quad by done.
  rewrite dec_group_3 by done. rewrite (proj2 (Z.ltb_ge _ _)) by lia.
  pose proof (six_range a b d Ha Hb Hd) as Hr. unfold six in Hr. forall_inv.
  rewrite (encode_not_EQ (d .& 63)) by done. rewrite andb_false_r, dec_out_4 by done. done.
Qed.

Lemma decode_loop_round inp : forall fuel out c done quad out_size,
  all_u8 inp -> length quad = 4%nat -> (length (rfc4648 inp) < fuel)%nat ->
  0 <= done -> done + zlen inp + 1 < out_size ->
  decode_loop fuel (rfc4648 inp) out c done quad out_size = Some (out ++ inp ++ [0], done + zlen inp).
Proof.
  induction inp as [|a|a b|a b d l IH] using list_ind3;
    intros fuel out c done quad out_size Hu Hq Hf Hd Hs; forall_inv.
  - destruct fuel; [lia|]. rewrite zlen_nil in *. change (rfc4648 []) with (@nil Z).
    rewrite decode_end by lia. by rewrite Z.add_0_r.
  - rewrite rfc4648_1 in * by done. destruct fuel as [|[|fuel]]; cbn in Hf; [lia..|].
    change (zlen [a]) with 1 in *. by apply decode_step_1; try lia.
  - rewrite rfc4648_2 in * by done. destruct fuel as [|[|fuel]]; cbn in Hf; [lia..|].
    change (zlen [a; b]) with 2 in *. by apply decode_step_2; try lia.
  - rewrite rfc4648_3 in * by done. rewrite length_app in Hf. cbn [enc_quad length] in Hf.
    destruct fuel as [|fuel]; [lia|]. rewrite !zlen_cons in *. pose proof (zlen_nonneg l).
    rewrite decode_step_3 by (done || lia). rewrite IH by (done || lia).
    rewrite <- app_assoc. do 2 f_equal. lia.
Qed.

(** C28: decoding an encoded buffer gives the buffer back, for every content of
    the uninitialised local [quad] and every output buffer with room for the
    bytes, a NUL and one byte more. *)
Theorem decode_encode quad0 inp enc_size out_size :
  all_u8 inp -> length quad0 = 4%nat ->
  b64_len (zlen inp) + 1 < enc_size -> zlen inp + 1 < out_size ->
  let text := take (Z.to_nat (snd (lws_b64_encode_string inp enc_size)))
                   (fst (lws_b64_encode_string inp enc_size)) in
  lws_b64_decode_string quad0 text out_size = Some (inp ++ [0], zlen inp).
Proof.
  intros Hu Hq He Ho. unfold lws_b64_encode_string. rewrite encode_loop_fits by (done || lia).
  cbn [fst snd app]. rewrite Z.add_0_l. unfold lws_b64_decode_string.
  assert (E : Z.to_nat (b64_len (zlen inp)) = length (rfc4648 inp)) by (rewrite <- zlen_rfc4648 by done; unfold zlen; lia).
  rewrite E, take_app_length. apply decode_loop_round; auto; lia.
Qed.

Lemma decode_encode_witness :
  lws_b64_decode_string [9; 9; 9; 9] (bstr "QWRtaW46a2xvaWtsb2k=") 64 =
  Some (bstr "Admin:kloikloi" ++ [0], 14).
Proof.
  apply (decode_encode [9; 9; 9; 9] (bstr "Admin:kloikloi") 64 64);
    [apply bstr_u8|done|done|done].
Defined.

(** Progress of the scanners. *)
Lemma dec_char_spec inp : forall c v c' v' r, dec_char inp c v = (c', v', r) ->
  (length r <= length inp)%nat /\ (c <> 0 -> c' <> 0) /\
  (v = 0 -> deref inp <> 0 -> c' <> 0 /\ (length r < length inp)%nat).
Proof.
  induction inp as [|x inp IH]; intros c v c' v' r H; cbn [dec_char] in H.
  { simplify_eq. done. }
  destruct (Z.eqb_spec x 0) as [->|Hx]; cbn [orb] in H.
  { simplify_eq. done. }
  destruct (nz v) eqn:Ev.
  - simplify_eq. split; [done|]. split; [done|]. intros ->. done.
  - apply IH in H as (H1 & H2 & _). cbn [length]. split; [lia|]. split; [auto|].
    intros _ _. split; [auto|lia].
Qed.

Lemma dec_group_spec n : forall i inp c len quad inp' c' len' quad',
  dec_group n i inp c len quad = (inp', c', len', quad') ->
  (length inp' <= length inp)%nat /\ len <= len' <= len + Z.of_nat n /\
  length quad' = length quad /\
  (n <> 0%nat -> deref inp <> 0 -> len < len' /\ (length inp' < length inp)%nat).
Proof.
  induction n as [|n IH]; intros i inp c len quad inp' c' len' quad' H; cbn [dec_group] in H.
  { simplify_eq. repeat split; try lia; done. }
  destruct (Z.eqb_spec (deref inp) 0) as [E|E].
  { simplify_eq. repeat split; try lia; done. }
  destruct (dec_char inp 0 0) as [[c1 v1] r1] eqn:Ec.
  apply dec_char_spec in Ec as (_ & _ & Hc). destruct (Hc eq_refl E) as [Hc1 Hr1].
  unfold nz at 1 in H. rewrite (proj2 (Z.eqb_neq c1 0)) in H by done. cbn [negb] in H.
  apply IH in H as (H1 & H2 & H3 & _). rewrite H3. repeat split; try lia.
  destruct (nz v1); [apply length_insert|done].
Qed.

Lemma zlen_dec_out len quad : 0 <= len <= 4 -> zlen (dec_out len quad) = Z.max 0 (len - 1).
Proof.
  intros H. unfold dec_out. rewrite !zlen_app.
  destruct (len >=? 2) eqn:E2, (len >=? 3) eqn:E3, (len >=? 4) eqn:E4; zbool;
    unfold zlen; cbn [length]; lia.
Qed.

(** The invariant of the outer loop: [done] counts the bytes stored, except
    that a lone final ['='] takes one off it. *)
Lemma decode_loop_spec fuel : forall inp out c done quad out_size,
  (length inp < fuel)%nat -> zlen out <= Z.max 0 out_size ->
  zlen out - 1 <= done <= zlen out -> (done = zlen out \/ deref inp = 0) ->
  exists o ret, decode_loop fuel inp out c done quad out_size = Some (o, ret) /\
    zlen o <= Z.max 0 out_size /\ (ret <= zlen o).
Proof.
  induction fuel as [|fuel IH]; intros inp out c done quad out_size Hf Hs Hd He; [lia|].
  cbn [decode_loop]. destruct (Z.eqb_spec (deref inp) 0) as [E|E].
  { case_if; zbool; eexists _, _; (split; [reflexivity|]); len_simp; pose proof (zlen_nonneg out); lia. }
  destruct (dec_group 4 0 inp c 0 quad) as [[[inp1 c1] len1] quad1] eqn:Eg.
  apply dec_group_spec in Eg as (_ & Hl & _ & Hp). destruct (Hp ltac:(done) E) as [Hl1 Hi1].
  change (Z.of_nat 4) with 4 in Hl. assert (done = zlen out) by (by destruct He).
  destruct (out_size <? done + len1 - 1) eqn:Ew; zbool.
  { eexists _, _; (split; [reflexivity|]). pose proof (zlen_nonneg out). lia. }
  destruct ((deref inp1 =? 0) && (c1 =? EQ)) eqn:Ef; zbool;
    (apply IH; [lia|rewrite ?zlen_app, ?zlen_dec_out by lia; lia..|]).
  - by right.
  - left. rewrite zlen_app, zlen_dec_out by lia. lia.
Qed.

(** On every input the decoder terminates, stores no byte past the output
    buffer, and never reports more bytes than it stored. *)
Lemma decode_bounds quad0 inp out_size :
  exists o ret, lws_b64_decode_string quad0 inp out_size = Some (o, ret) /\
    zlen o <= Z.max 0 out_size /\ ret <= zlen o.
Proof. apply decode_loop_spec; change (zlen []) with 0; lia || auto. Qed.

(** A character that is neither of the alphabet nor ['='] after the last
    full character (a line feed, say) makes the decoder store a byte computed
    from the uninitialised [quad[2]] and count it: the result depends on what
    the stack held. *)
Lemma decode_uninitialised q :
  is_u8 q ->
  lws_b64_decode_string [0; 0; q; 0] (bstr "QQ" ++ [10]) 16 = Some ([65; q .>> 2; 0], 2).
Proof.
  intros Hq. eapply bool_decide_eq_true_1.
  revert q Hq. apply forall_u8. by vm_compute.
Qed.

Lemma decode_uninitialised_witness :
  lws_b64_decode_string [0; 0; 255; 0] (bstr "QQ" ++ [10]) 16 = Some ([65; 63; 0], 2).
Proof. apply (decode_uninitialised 255). unfold is_u8. lia. Defined.

End Base64.
