(* ===== verification/Sha1.v ===== *)
(** * SHA-1 (lib/sha-1.c)

    The digest of the WebSocket opening handshake.  The file models the
    little-endian build (BYTE_ORDER == LITTLE_ENDIAN, as on the Windows targets
    of the client): the unions [h] and [c] of [struct sha1_ctxt] are kept as
    words, [m] as its byte view [b8], from which [sha1_step] takes the word view
    [b32] after swapping the bytes.  The specification at the end of the
    definitions is FIPS 180-1 with the 80-word message schedule; the code uses
    the 16-word circular queue. *)

From S2P Require Import Prelude.

Module Sha1.

Record sha1_ctxt := mkCtxt {
  h : list Z;       (* h.b32[5] *)
  c : Z;            (* c.b64[0] *)
  m : bytes;        (* m.b8[64] *)
  count : Z         (* unsigned char *)
}.

(** ** The macros *)

Definition K (t : nat) : Z :=
  nth (t / 20) [0x5a827999; 0x6ed9eba1; 0x8f1bbcdc; 0xca62c1d6] 0.

(** [~x] on an [unsigned int]. *)
Definition not32 (x : Z) : Z := u32 (Z.lnot x).

Definition F0 (b c d : Z) : Z := (b .& c) .| (not32 b .& d).
Definition F1 (b c d : Z) : Z := (b .^ c) .^ d.
Definition F2 (b c d : Z) : Z := ((b .& c) .| (b .& d)) .| (c .& d).
Definition F3 (b c d : Z) : Z := (b .^ c) .^ d.

(** [S(n, x)]: rotate left. *)
Definition S_rot (n x : Z) : Z := u32 (x .<< n) .| (x .>> (32 - n)).

Definition W (w : list Z) (n : nat) : Z := nth n w 0.

(** ** sha1_step *)

(** The byte swap of every word of the block. *)
Fixpoint swap4 (l : bytes) : bytes :=
  match l with
  | b0 :: b1 :: b2 :: b3 :: r => b3 :: b2 :: b1 :: b0 :: swap4 r
  | _ => []
  end.

(** The [b32] view of a [b8] buffer on a little-endian machine. *)
Fixpoint b32 (l : bytes) : list Z :=
  match l with
  | b0 :: b1 :: b2 :: b3 :: r => (b0 .| (b1 .<< 8) .| (b2 .<< 16) .| (b3 .<< 24)) :: b32 r
  | _ => []
  end.

Definition abcde : Type := Z * Z * Z * Z * Z.

(** [W(s) = S(1, W((s+13) & 0x0f) ^ W((s+8) & 0x0f) ^ W((s+2) & 0x0f) ^ W(s))]. *)
Definition update_w (w : list Z) (s : nat) : list Z :=
  <[s := S_rot 1 (((W w ((s + 13) mod 16) .^ W w ((s + 8) mod 16)) .^
                   W w ((s + 2) mod 16)) .^ W w s)]> w.

(** The body the four loops share, with [F] the macro of the loop. *)
Definition round (F : Z -> Z -> Z -> Z) (t s : nat) (w : list Z) (r : abcde) : abcde :=
  let '(a, b, c, d, e) := r in
  let tmp := u32 (S_rot 5 a + F b c d + e + W w s + K t) in
  (tmp, a, S_rot 30 b, c, d).

(** [for (t = 0; t < 20; t++)]: the first sixteen rounds use the block itself. *)
Definition loop0_body (st : list Z * abcde) (t : nat) : list Z * abcde :=
  let '(w, r) := st in
  let s := (t mod 16)%nat in
  let w := if (16 <=? t)%nat then update_w w s else w in
  (w, round F0 t s w r).

(** The other three loops. *)
Definition loop_body (F : Z -> Z -> Z -> Z) (st : list Z * abcde) (t : nat) : list Z * abcde :=
  let '(w, r) := st in
  let s := (t mod 16)%nat in
  let w := update_w w s in
  (w, round F t s w r).

Definition sha1_rounds (w : list Z) (r : abcde) : list Z * abcde :=
  let st := foldl loop0_body (w, r) (seq 0 20) in
  let st := foldl (loop_body F1) st (seq 20 20) in
  let st := foldl (loop_body F2) st (seq 40 20) in
  foldl (loop_body F3) st (seq 60 20).

Definition sha1_step (ctxt : sha1_ctxt) : sha1_ctxt :=
  let w := b32 (swap4 (m ctxt)) in
  match h ctxt with
  | [h0; h1; h2; h3; h4] =>
      let '(a, b, c, d, e) := snd (sha1_rounds w (h0, h1, h2, h3, h4)) in
      ctxt {{ h := [u32 (h0 + a); u32 (h1 + b); u32 (h2 + c); u32 (h3 + d); u32 (h4 + e)];
              m := replicate 64 0 }}
  | _ => ctxt
  end.

(** ** The streaming interface *)

Definition sha1_init : sha1_ctxt :=
  mkCtxt [0x67452301; 0xefcdab89; 0x98badcfe; 0x10325476; 0xc3d2e1f0] 0 (replicate 64 0) 0.

Definition PUTPAD (x : Z) (ctxt : sha1_ctxt) : sha1_ctxt :=
  let ctxt := ctxt {{ m := <[Z.to_nat (count ctxt mod 64) := x]> (m ctxt);
                      count := u8 (count ctxt + 1) mod 64 }} in
  if count ctxt mod 64 =? 0 then sha1_step ctxt else ctxt.

(** Byte [i] of [c.b8], the little-endian view of the bit counter. *)
Definition c_b8 (ctxt : sha1_ctxt) (i : Z) : Z := u8 (c ctxt .>> (8 * i)).

Definition bzero_at (i n : nat) (l : bytes) : bytes := splice i (replicate n 0) l.

Definition sha1_pad (ctxt : sha1_ctxt) : sha1_ctxt :=
  let ctxt := PUTPAD 0x80 ctxt in
  let padstart := count ctxt mod 64 in
  let padlen := 64 - padstart in
  let '(ctxt, padstart, padlen) :=
    if padlen <? 8 then
      let ctxt := ctxt {{ m := bzero_at (Z.to_nat padstart) (Z.to_nat padlen) (m ctxt);
                          count := u8 (count ctxt + u8 padlen) mod 64 }} in
      let ctxt := sha1_step ctxt in
      let padstart := count ctxt mod 64 in
      (ctxt, padstart, 64 - padstart)
    else (ctxt, padstart, padlen) in
  let ctxt := ctxt {{ m := bzero_at (Z.to_nat padstart) (Z.to_nat (padlen - 8)) (m ctxt);
                      count := u8 (count ctxt + (u8 padlen - 8)) mod 64 }} in
  foldl (fun x i => PUTPAD (c_b8 x i) x) ctxt [7; 6; 5; 4; 3; 2; 1; 0].

(** [while (off < len)]: [input] is what is left of the buffer. Every round
    takes at least a byte, so the length of the input is enough fuel. *)
Fixpoint sha1_loop_fuel (fuel : nat) (ctxt : sha1_ctxt) (input : bytes) : sha1_ctxt :=
  match fuel, input with
  | S fuel, _ :: _ =>
      let gapstart := count ctxt mod 64 in
      let gaplen := 64 - gapstart in
      let copysiz := if gaplen <? zlen input then gaplen else zlen input in
      let piece := take (Z.to_nat copysiz) input in
      let ctxt := ctxt {{ m := splice (Z.to_nat gapstart) piece (m ctxt);
                          count := u8 (count ctxt + u8 copysiz) mod 64;
                          c := u64 (c ctxt + copysiz * 8) }} in
      let ctxt := if count ctxt mod 64 =? 0 then sha1_step ctxt else ctxt in
      sha1_loop_fuel fuel ctxt (drop (Z.to_nat copysiz) input)
  | _, _ => ctxt
  end.

Definition sha1_loop (ctxt : sha1_ctxt) (input : bytes) : sha1_ctxt :=
  sha1_loop_fuel (length input) ctxt input.

(** The bytes of a word in little-endian memory order, and the digest order. *)
Definition le_bytes (x : Z) : bytes := [u8 x; u8 (x .>> 8); u8 (x .>> 16); u8 (x .>> 24)].

Definition sha1_result (ctxt : sha1_ctxt) : bytes :=
  let ctxt := sha1_pad ctxt in
  swap4 (concat (map le_bytes (h ctxt))).

Definition lws_SHA1 (d : bytes) : bytes := sha1_result (sha1_loop sha1_init d).

(** ** Specification: FIPS 180-1 *)

Fixpoint be_words (l : bytes) : list Z :=
  match l with
  | b0 :: b1 :: b2 :: b3 :: r => ((b0 .<< 24) .| (b1 .<< 16) .| (b2 .<< 8) .| b3) :: be_words r
  | _ => []
  end.

(** Append [n] words to the message schedule. *)
Fixpoint extend (n : nat) (l : list Z) : list Z :=
  match n with
  | O => l
  | S n =>
      let t := length l in
      extend n (l ++ [S_rot 1 (((W l (t - 3) .^ W l (t - 8)) .^ W l (t - 14)) .^ W l (t - 16))])
  end.

Definition schedule (block : bytes) : list Z := extend 64 (be_words block).

(** The logical function of round [t]. *)
Definition f (t : nat) : Z -> Z -> Z -> Z :=
  if (t <? 20)%nat then F0 else if (t <? 40)%nat then F1 else if (t <? 60)%nat then F2 else F3.

Definition fips_round (ws : list Z) (r : abcde) (t : nat) : abcde :=
  let '(a, b, c, d, e) := r in
  (u32 (S_rot 5 a + f t b c d + e + W ws t + K t), a, S_rot 30 b, c, d).

Definition compress (H : list Z) (block : bytes) : list Z :=
  match H with
  | [h0; h1; h2; h3; h4] =>
      let '(a, b, c, d, e) := foldl (fips_round (schedule block)) (h0, h1, h2, h3, h4) (seq 0 80) in
      [u32 (h0 + a); u32 (h1 + b); u32 (h2 + c); u32 (h3 + d); u32 (h4 + e)]
  | _ => H
  end.

Fixpoint blocks (n : nat) (l : bytes) : list bytes :=
  match n with O => [] | S n => take 64 l :: blocks n (drop 64 l) end.

(** Process the complete 64-byte blocks of a message. *)
Definition hash_blocks (H : list Z) (l : bytes) : list Z :=
  foldl compress H (blocks (length l / 64) l).

Definition H0 : list Z := [0x67452301; 0xefcdab89; 0x98badcfe; 0x10325476; 0xc3d2e1f0].

Definition be64 (x : Z) : bytes := map (fun i => u8 (x .>> (8 * i))) [7; 6; 5; 4; 3; 2; 1; 0].

Definition fips_pad (msg : bytes) : bytes :=
  msg ++ [0x80] ++ replicate ((119 - length msg mod 64) mod 64) 0 ++ be64 (8 * zlen msg).

Definition be32 (x : Z) : bytes := [u8 (x .>> 24); u8 (x .>> 16); u8 (x .>> 8); u8 x].

Definition fips_sha1 (msg : bytes) : bytes :=
  concat (map be32 (hash_blocks H0 (fips_pad msg))).

(** ** The circular queue computes the message schedule *)

(** Induction over a list four elements at a time. *)
Lemma list_ind4 {A} (P : list A -> Prop) :
  (forall l, (length l < 4)%nat -> P l) ->
  (forall a b c d l, P l -> P (a :: b :: c :: d :: l)) -> forall l, P l.
Proof.
  intros Hs Hc. enough (Hn : forall n l, (length l <= n)%nat -> P l)
    by (intros l; by apply (Hn (length l))).
  induction n as [|n IH]; intros l Hl.
  { destruct l; [apply Hs; cbn; lia|cbn in Hl; lia]. }
  destruct l as [|a [|b [|c [|d l]]]]; try (apply Hs; cbn; lia).
  apply Hc, IH. cbn in Hl. lia.
Qed.

Lemma b32_swap4 l : b32 (swap4 l) = be_words l.
Proof.
  induction l as [l Hl|b0 b1 b2 b3 r IH] using list_ind4.
  { by destruct l as [|? [|? [|? [|]]]]; cbn in Hl; try lia. }
  cbn [swap4 b32 be_words]. rewrite IH. f_equal. bit_ac.
Qed.

Lemma length_be_words l : forall n, length l = (4 * n)%nat -> length (be_words l) = n.
Proof.
  induction l as [l Hl|b0 b1 b2 b3 r IH] using list_ind4; intros n Hn.
  { destruct n; [|lia]. by destruct l; cbn in Hn. }
  destruct n as [|n]; [cbn in Hn; lia|]. cbn [be_words length]. rewrite (IH n); [done|].
  cbn [length] in Hn. lia.
Qed.

Lemma W_app_l l k i : (i < length l)%nat -> W (l ++ k) i = W l i.
Proof. apply app_nth1. Qed.

Lemma W_app_r l x : W (l ++ [x]) (length l) = x.
Proof. unfold W. by rewrite app_nth2, Nat.sub_diag by lia. Qed.

Lemma length_extend n : forall l, length (extend n l) = (length l + n)%nat.
Proof.
  induction n as [|n IH]; intros l; cbn [extend]; [lia|].
  rewrite IH, length_app. cbn [length]. lia.
Qed.

(** The words already there stay, and every new one satisfies the recurrence. *)
Lemma extend_old n : forall l i, (i < length l)%nat -> W (extend n l) i = W l i.
Proof.
  induction n as [|n IH]; intros l i Hi; cbn [extend]; [done|].
  rewrite IH by (rewrite length_app; lia). by apply W_app_l.
Qed.

Lemma extend_new n : forall l t, (16 <= length l)%nat -> (length l <= t < length l + n)%nat ->
  let ws := extend n l in
  W ws t = S_rot 1 (((W ws (t - 3) .^ W ws (t - 8)) .^ W ws (t - 14)) .^ W ws (t - 16)).
Proof.
  induction n as [|n IH]; intros l t Hl Ht; [lia|]. cbn [extend].
  destruct (decide (t = length l)) as [->|Hne].
  - rewrite !extend_old by (rewrite length_app; cbn [length]; lia).
    rewrite W_app_r, !(W_app_l l) by lia. done.
  - apply IH; rewrite length_app; cbn [length]; lia.
Qed.

(** The queue holds the last sixteen words of the schedule. *)
Definition window (ws w : list Z) (t : nat) : Prop :=
  length w = 16%nat /\
  forall j, (j < t `max` 16)%nat -> (t `max` 16 <= j + 16)%nat -> W w (j mod 16) = W ws j.

Definition recurrence (ws : list Z) : Prop :=
  forall t, (16 <= t < 80)%nat ->
  W ws t = S_rot 1 (((W ws (t - 3) .^ W ws (t - 8)) .^ W ws (t - 14)) .^ W ws (t - 16)).

Lemma W_insert_eq w s x : (s < length w)%nat -> W (<[s := x]> w) s = x.
Proof. intros. unfold W. by rewrite nth_lookup, list_lookup_insert_eq. Qed.

Lemma W_insert_ne w s x i : i <> s -> W (<[s := x]> w) i = W w i.
Proof. intros. unfold W. by rewrite !nth_lookup, list_lookup_insert_ne. Qed.

Lemma update_w_window ws w t : recurrence ws -> (16 <= t < 80)%nat -> window ws w t ->
  W (update_w w (t mod 16)) (t mod 16) = W ws t /\ window ws (update_w w (t mod 16)) (S t).
Proof.
  intros Hr Ht [Hl Hw]. unfold update_w.
  assert (Hs : (t mod 16 < 16)%nat) by (apply Nat.mod_upper_bound; lia).
  assert (E : S_rot 1 (((W w ((t mod 16 + 13) mod 16) .^ W w ((t mod 16 + 8) mod 16)) .^
                   W w ((t mod 16 + 2) mod 16)) .^ W w (t mod 16)) = W ws t).
  { rewrite (Hr t) by done.
    rewrite <- (Hw (t - 3)%nat), <- (Hw (t - 8)%nat), <- (Hw (t - 14)%nat), <- (Hw (t - 16)%nat) by lia.
    replace ((t mod 16 + 13) mod 16)%nat with ((t - 3) mod 16)%nat by dm_lia.
    replace ((t mod 16 + 8) mod 16)%nat with ((t - 8) mod 16)%nat by dm_lia.
    replace ((t mod 16 + 2) mod 16)%nat with ((t - 14) mod 16)%nat by dm_lia.
    replace (t mod 16)%nat with ((t - 16) mod 16)%nat by dm_lia. done. }
  rewrite E. split; [apply W_insert_eq; lia|]. split; [by rewrite length_insert|].
  intros j Hj1 Hj2. destruct (decide (j = t)) as [->|Hne].
  - apply W_insert_eq. lia.
  - rewrite W_insert_ne.
    + apply Hw; lia.
    + intros Em. revert Em Hj1 Hj2 Hne. clear. intros. dm_lia.
Qed.

(** One iteration of a loop at round [t] is a FIPS round on the schedule. *)
Lemma loop_body_step ws w r t F : recurrence ws -> (16 <= t < 80)%nat -> f t = F -> window ws w t ->
  exists w', loop_body F (w, r) t = (w', fips_round ws r t) /\ window ws w' (S t).
Proof.
  intros Hr Ht <- Hw. destruct (update_w_window ws w t Hr Ht Hw) as [E Hw'].
  eexists. split; [|exact Hw']. cbn [loop_body]. unfold round, fips_round.
  destruct r as [[[[a b] c] d] e]. by rewrite E.
Qed.

Lemma loop0_body_step ws w r t : recurrence ws -> (t < 20)%nat -> window ws w t ->
  exists w', loop0_body (w, r) t = (w', fips_round ws r t) /\ window ws w' (S t).
Proof.
  intros Hr Ht Hw. assert (Ef : f t = F0) by (unfold f; by rewrite (proj2 (Nat.ltb_lt _ _))).
  destruct (decide (16 <= t)%nat) as [H16|H16].
  - destruct (loop_body_step ws w r t F0) as (w' & E & H); [done|lia|done..|].
    exists w'. split; [|done]. rewrite <- E. cbn [loop0_body loop_body].
    by rewrite (proj2 (Nat.leb_le _ _)).
  - exists w. destruct Hw as [Hl Hw]. split.
    + cbn [loop0_body]. rewrite (proj2 (Nat.leb_gt _ _)) by lia. unfold round, fips_round.
      destruct r as [[[[a b] c] d] e]. rewrite Ef.
      by rewrite <- (Hw t) by lia.
    + split; [done|]. intros j Hj1 Hj2. apply Hw; lia.
Qed.

(** A loop whose body is a FIPS round at every index it visits. *)
Lemma fold_rounds ws body n : forall t w r,
  (forall i w r, (t <= i < t + n)%nat -> window ws w i ->
     exists w', body (w, r) i = (w', fips_round ws r i) /\ window ws w' (S i)) ->
  window ws w t ->
  exists w', foldl body (w, r) (seq t n) = (w', foldl (fips_round ws) r (seq t n)) /\
             window ws w' (t + n).
Proof.
  induction n as [|n IH]; intros t w r Hb Hw; cbn [seq foldl].
  { exists w. by rewrite Nat.add_0_r. }
  destruct (Hb t w r) as (w1 & -> & Hw1); [lia|done|].
  destruct (IH (S t) w1 (fips_round ws r t)) as (w2 & E & Hw2); [|done|].
  { intros i w' r' Hi. apply Hb. lia. }
  exists w2. split; [done|]. by rewrite Nat.add_succ_r.
Qed.

Lemma sha1_rounds_spec ws w r : recurrence ws -> window ws w 0 ->
  snd (sha1_rounds w r) = foldl (fips_round ws) r (seq 0 80).
Proof.
  intros Hr Hw. unfold sha1_rounds.
  change (seq 0 80) with (((seq 0 20 ++ seq 20 20) ++ seq 40 20) ++ seq 60 20).
  rewrite !foldl_app.
  destruct (fold_rounds ws loop0_body 20 0 w r) as (w1 & -> & H1); [|done|].
  { intros. apply loop0_body_step; [done|lia|done]. }
  edestruct (fold_rounds ws (loop_body F1) 20 20 w1) as (w2 & -> & H2); [|done|].
  { intros i ? ? ? ?. apply loop_body_step; [done|lia| |done].
    unfold f. repeat case_match; zbool; done || lia. }
  edestruct (fold_rounds ws (loop_body F2) 20 40 w2) as (w3 & -> & H3); [|done|].
  { intros i ? ? ? ?. apply loop_body_step; [done|lia| |done].
    unfold f. repeat case_match; zbool; done || lia. }
  edestruct (fold_rounds ws (loop_body F3) 20 60 w3) as (w4 & -> & H4); [|done|done].
  intros i ? ? ? ?. apply loop_body_step; [done|lia| |done].
  unfold f. repeat case_match; zbool; done || lia.
Qed.

#[local] Opaque extend.

Lemma schedule_window l : length l = 64%nat ->
  recurrence (schedule l) /\ window (schedule l) (be_words l) 0.
Proof.
  intros Hl. assert (H16 : length (be_words l) = 16%nat) by (by apply length_be_words).
  split.
  - intros t Ht. unfold schedule. apply (extend_new 64 (be_words l) t); lia.
  - split; [done|]. intros j Hj1 _. unfold schedule. rewrite extend_old by lia.
    by rewrite Nat.mod_small by lia.
Qed.

(** [sha1_step] is one compression of the buffered block. *)
Lemma sha1_step_spec ctxt : length (m ctxt) = 64%nat -> length (h ctxt) = 5%nat ->
  sha1_step ctxt = mkCtxt (compress (h ctxt) (m ctxt)) (c ctxt) (replicate 64 0) (count ctxt).
Proof.
  intros Hm Hh. destruct ctxt as [hs cc mm cnt]. cbn [h m c count] in *. unfold sha1_step, compress.
  cbn [h m]. destruct hs as [|h0 [|h1 [|h2 [|h3 [|h4 [|]]]]]]; try done.
  rewrite b32_swap4. destruct (schedule_window mm Hm) as [Hr Hw].
  rewrite (sha1_rounds_spec _ _ _ Hr Hw).
  by destruct (foldl _ _ _) as [[[[a b] c] d] e].
Qed.

(** ** The buffer holds the unprocessed tail of the message *)

Definition tail (msg : bytes) : bytes := drop (64 * (length msg / 64)) msg.

Record Rep (ctxt : sha1_ctxt) (msg : bytes) : Prop := {
  rep_h : h ctxt = hash_blocks H0 msg;
  rep_m : m ctxt = tail msg ++ replicate (64 - length (tail msg)) 0;
  rep_count : count ctxt = Z.of_nat (length msg mod 64)
}.

Lemma length_tail msg : length (tail msg) = (length msg mod 64)%nat.
Proof. unfold tail. rewrite length_drop. pose proof (Nat.div_mod_eq (length msg) 64). lia. Qed.

Lemma rep_length_m ctxt msg : Rep ctxt msg -> length (m ctxt) = 64%nat.
Proof.
  intros R. rewrite (rep_m _ _ R), length_app, length_replicate, length_tail.
  pose proof (Nat.mod_upper_bound (length msg) 64). lia.
Qed.

Lemma length_compress H b : length H = 5%nat -> length (compress H b) = 5%nat.
Proof.
  intros. unfold compress. destruct H as [|h0 [|h1 [|h2 [|h3 [|h4 [|]]]]]]; try discriminate.
  by destruct (foldl _ _ _) as [[[[a ?] c] d] e].
Qed.

Lemma length_hash H l : length H = 5%nat -> length (hash_blocks H l) = 5%nat.
Proof.
  unfold hash_blocks. generalize (blocks (length l / 64) l) as bs. intros bs. revert H.
  induction bs as [|b bs IH]; intros H HH; [done|]. by apply IH, length_compress.
Qed.

Lemma blocks_app n : forall l k, (64 * n <= length l)%nat -> blocks n (l ++ k) = blocks n l.
Proof.
  induction n as [|n IH]; intros l k Hl; [done|]. cbn [blocks].
  rewrite take_app_le, drop_app_le by lia. by rewrite IH by (rewrite length_drop; lia).
Qed.

Lemma blocks_snoc n : forall l, (64 * n <= length l)%nat ->
  blocks (S n) l = blocks n l ++ [take 64 (drop (64 * n) l)].
Proof.
  induction n as [|n IH]; intros l Hl; [by rewrite Nat.mul_0_r|].
  change (blocks (S (S n)) l) with (take 64 l :: blocks (S n) (drop 64 l)).
  rewrite IH by (rewrite length_drop; lia). rewrite drop_drop. cbn [blocks app].
  by replace (64 + 64 * n)%nat with (64 * S n)%nat by lia.
Qed.

(** Store a piece that fits in the buffer and process the block when it is
    full: what the copy loop and both padding macros do. *)
Definition absorb (p : bytes) (ctxt : sha1_ctxt) : sha1_ctxt :=
  let ctxt := mkCtxt (h ctxt) (c ctxt) (splice (Z.to_nat (count ctxt)) p (m ctxt))
                     ((count ctxt + zlen p) mod 64) in
  if count ctxt =? 0 then sha1_step ctxt else ctxt.

Lemma splice_tail t p n : (length p <= n)%nat ->
  splice (length t) p (t ++ replicate n 0) = (t ++ p) ++ replicate (n - length p) 0.
Proof.
  intros. unfold splice. rewrite take_app_length, <- app_assoc. do 2 f_equal.
  rewrite drop_app_ge by lia. rewrite drop_replicate. f_equal. lia.
Qed.

Lemma absorb_c p ctxt : c (absorb p ctxt) = c ctxt.
Proof.
  unfold absorb, sha1_step. destruct ctxt as [hs cc mm cnt]. cbn [h c m count].
  case_match; [|done]. cbn [h]. repeat case_match; done.
Qed.

Lemma rep_absorb ctxt msg p : Rep ctxt msg -> (0 < length p)%nat ->
  zlen p <= 64 - count ctxt -> Rep (absorb p ctxt) (msg ++ p).
Proof.
  intros R Hp Hf. pose proof (rep_length_m _ _ R) as Hm64. destruct R as [Rh Rm Rc].
  rewrite Rc in Hf. unfold zlen in Hf.
  set (n := (length msg / 64)%nat). set (k := (length msg mod 64)%nat) in *.
  assert (Hnk : length msg = (64 * n + k)%nat) by (apply Nat.div_mod_eq).
  assert (Hk : (k < 64)%nat) by (apply Nat.mod_upper_bound; lia).
  assert (Htl : length (tail msg) = k) by apply length_tail.
  assert (Hsp : splice (Z.to_nat (count ctxt)) p (m ctxt) =
                (tail msg ++ p) ++ replicate (64 - k - length p) 0).
  { rewrite Rc, Nat2Z.id, Rm, <- Htl. rewrite splice_tail by lia. by rewrite Htl. }
  unfold absorb. rewrite Hsp, Rc. cbn [count].
  replace ((Z.of_nat k + zlen p) mod 64) with (Z.of_nat (length (msg ++ p) mod 64)).
  2: { rewrite length_app, Hnk. unfold zlen. clear. dm_lia. }
  destruct (Z.eqb_spec (Z.of_nat (length (msg ++ p) mod 64)) 0) as [E0|E0].
  - assert (Hfull : (k + length p = 64)%nat).
    { rewrite length_app, Hnk in E0. revert E0 Hf Hp Hk. clear. intros. dm_lia. }
    assert (Hlen : length (msg ++ p) = (64 * S n)%nat) by (rewrite length_app; lia).
    replace (64 - k - length p)%nat with 0%nat by lia. rewrite app_nil_r.
    rewrite sha1_step_spec; cbn [h m c count].
    2: { rewrite length_app. lia. }
    2: { rewrite Rh. by apply length_hash. }
    assert (Ediv : (length (msg ++ p) / 64 = S n)%nat) by (rewrite Hlen; clear; dm_lia).
    assert (Etl : tail (msg ++ p) = []).
    { unfold tail. rewrite Ediv, <- Hlen. apply drop_all. }
    split; cbn [h m c count]; [|by rewrite Etl|done].
    unfold hash_blocks. rewrite Ediv, blocks_snoc, foldl_app by lia. cbn [foldl].
    rewrite blocks_app by lia. rewrite Rh. unfold hash_blocks. fold n. f_equal.
    rewrite drop_app_le by lia. rewrite take_ge; [done|].
    rewrite length_app, length_drop. lia.
  - assert (Hpart : (k + length p < 64)%nat).
    { rewrite length_app, Hnk in E0.
      destruct (decide (k + length p = 64)%nat) as [E|]; [|lia]. exfalso. apply E0.
      revert E. clear. intros. replace (64 * n + k + length p)%nat with (64 * S n)%nat by lia. dm_lia. }
    assert (Ediv : (length (msg ++ p) / 64 = n)%nat).
    { rewrite length_app, Hnk. revert Hpart. clear. intros. dm_lia. }
    assert (Etl : tail (msg ++ p) = tail msg ++ p).
    { unfold tail. rewrite Ediv. fold n. apply drop_app_le. lia. }
    split; cbn [h m c count]; [|rewrite Etl, length_app, Htl; do 2 f_equal; lia|done].
    unfold hash_blocks. rewrite Ediv, blocks_app by lia. exact Rh.
Qed.

Lemma rep_count_range ctxt msg : Rep ctxt msg -> 0 <= count ctxt < 64.
Proof. intros R. rewrite (rep_count _ _ R). pose proof (Nat.mod_upper_bound (length msg) 64). lia. Qed.

Lemma rep_set_c ctxt msg x : Rep ctxt msg -> Rep (ctxt {{ c := x }}) msg.
Proof. by intros [? ? ?]; split. Qed.

(** The guarded update that the code repeats is [absorb]. *)
Lemma absorb_intro ctxt msg p cnt :
  Rep ctxt msg -> cnt = (count ctxt + zlen p) mod 64 ->
  (let ctxt' := mkCtxt (h ctxt) (c ctxt) (splice (Z.to_nat (count ctxt mod 64)) p (m ctxt)) cnt in
   if count ctxt' mod 64 =? 0 then sha1_step ctxt' else ctxt') = absorb p ctxt.
Proof.
  intros R ->. pose proof (rep_count_range _ _ R). cbn [count]. unfold absorb.
  rewrite (Z.mod_small (count ctxt) 64) by done. cbn [count]. by rewrite Z.mod_mod.
Qed.

Lemma u8_count k n : 0 <= k < 64 -> 0 <= n <= 64 -> u8 (k + u8 n) mod 64 = (k + n) mod 64.
Proof. intros. rewrite (u8_small n), u8_small by (unfold is_u8; lia). done. Qed.

Lemma rep_PUTPAD ctxt msg x : Rep ctxt msg ->
  Rep (PUTPAD x ctxt) (msg ++ [x]) /\ c (PUTPAD x ctxt) = c ctxt.
Proof.
  intros R. pose proof (rep_count_range _ _ R) as Hc.
  assert (E : PUTPAD x ctxt = absorb [x] ctxt).
  { rewrite <- (absorb_intro ctxt msg [x] (u8 (count ctxt + u8 1) mod 64)).
    - unfold PUTPAD, splice. rewrite insert_take_drop; [|rewrite (rep_length_m _ _ R); pose proof (Z.mod_pos_bound (count ctxt) 64); lia].
      rewrite Nat.add_1_r. done.
    - done.
    - apply (u8_count (count ctxt) 1); lia. }
  rewrite E. split; [|apply absorb_c]. apply rep_absorb; [done|cbn; lia|].
  change (zlen [x]) with 1. lia.
Qed.

Lemma rep_putpads ctxt msg l : Rep ctxt msg ->
  Rep (foldl (fun x i => PUTPAD (c_b8 x i) x) ctxt l)
      (msg ++ map (fun i => u8 (c ctxt .>> (8 * i))) l).
Proof.
  revert ctxt msg. induction l as [|i l IH]; intros ctxt msg R; cbn [foldl map].
  { by rewrite app_nil_r. }
  destruct (rep_PUTPAD ctxt msg (c_b8 ctxt i) R) as [R' Ec].
  specialize (IH _ _ R'). rewrite <- app_assoc in IH. rewrite Ec in IH. exact IH.
Qed.

(** Fill the buffer up with [n] zeros. *)
Lemma rep_zeros ctxt msg n : Rep ctxt msg -> (0 < n)%nat -> Z.of_nat n <= 64 - count ctxt ->
  Rep (absorb (replicate n 0) ctxt) (msg ++ replicate n 0).
Proof.
  intros R Hn Hf. apply rep_absorb; [done|rewrite length_replicate; lia|].
  unfold zlen. rewrite length_replicate. lia.
Qed.

Lemma absorb_zeros ctxt msg n : Rep ctxt msg -> 0 <= n <= 64 ->
  absorb (replicate (Z.to_nat n) 0) ctxt =
  (let ctxt' := mkCtxt (h ctxt) (c ctxt)
                  (bzero_at (Z.to_nat (count ctxt mod 64)) (Z.to_nat n) (m ctxt))
                  (u8 (count ctxt + u8 n) mod 64) in
   if count ctxt' mod 64 =? 0 then sha1_step ctxt' else ctxt').
Proof.
  intros R Hn. pose proof (rep_count_range _ _ R).
  rewrite <- (absorb_intro ctxt msg _ (u8 (count ctxt + u8 n) mod 64)); [done..|].
  rewrite u8_count by lia. unfold zlen. rewrite length_replicate, Z2Nat.id by lia. done.
Qed.

(** The first half of [sha1_pad]: a 1 bit, then zeros up to the length field. *)
Definition pad_zeros (k : Z) : nat := Z.to_nat (if 64 - k <? 8 then 64 - k + 56 else 64 - k - 8).

Lemma pad_tail ctxt msg k (n : Z) : Rep ctxt msg -> count ctxt = k -> 0 <= k <= 56 -> n = 64 - k ->
  Rep (ctxt {{ m := bzero_at (Z.to_nat k) (Z.to_nat (n - 8)) (m ctxt);
               count := u8 (count ctxt + (u8 n - 8)) mod 64 }})
      (msg ++ replicate (Z.to_nat (56 - k)) 0).
Proof.
  intros R Ek Hk ->. rewrite (u8_small (64 - k)) by (unfold is_u8; lia).
  replace (64 - k - 8) with (56 - k) by lia.
  destruct (decide (k = 56)) as [E56|H56].
  - rewrite E56, Z.sub_diag. cbn [Z.to_nat replicate]. rewrite app_nil_r.
    destruct R as [Rh Rm Rc]. split; cbn [h m count apply_update constant]; [done| |].
    + unfold bzero_at, constant. change (replicate (Z.to_nat 0) 0) with (@nil Z).
      by rewrite splice_nil.
    + rewrite Ek, E56. rewrite <- Rc, Ek, E56. done.
  - pose proof (rep_zeros ctxt msg (Z.to_nat (56 - k)) R ltac:(lia) ltac:(lia)) as R'.
    rewrite (absorb_zeros ctxt msg (56 - k) R ltac:(lia)) in R'. cbn [count] in R'.
    rewrite u8_count, Ek in R' by lia. replace (k + (56 - k)) with 56 in R' by lia.
    change (56 mod 64 mod 64 =? 0) with false in R'. cbn [m] in R'.
    rewrite Ek, (u8_small (k + (56 - k))) by (unfold is_u8; lia).
    replace (k + (56 - k)) with 56 by lia.
    rewrite (Z.mod_small k) in R' by lia. exact R'.
Qed.

Lemma sha1_step_c ctxt : c (sha1_step ctxt) = c ctxt.
Proof. unfold sha1_step. repeat case_match; done. Qed.

Lemma rep_pad ctxt msg : Rep ctxt msg ->
  h (sha1_pad ctxt) = hash_blocks H0 (msg ++ [0x80] ++
     replicate (pad_zeros (Z.of_nat ((length msg + 1) mod 64))) 0 ++
     map (fun i => u8 (c ctxt .>> (8 * i))) [7; 6; 5; 4; 3; 2; 1; 0]).
Proof.
  intros R. destruct (rep_PUTPAD ctxt msg 0x80 R) as [R1 Ec1].
  unfold sha1_pad. set (c1 := PUTPAD 0x80 ctxt) in *.
  pose proof (rep_count_range _ _ R1) as Hk.
  assert (Ek : Z.of_nat ((length msg + 1) mod 64) = count c1).
  { rewrite (rep_count _ _ R1), length_app. done. }
  rewrite Ek. set (k := count c1) in *. rewrite (Z.mod_small k) by done.
  unfold pad_zeros. destruct (64 - k <? 8) eqn:E8; zbool.
  - pose proof (rep_zeros c1 _ (Z.to_nat (64 - k)) R1 ltac:(lia) ltac:(fold k; lia)) as R2.
    rewrite (absorb_zeros c1 _ (64 - k) R1 ltac:(lia)) in R2. cbn [count] in R2. fold k in R2.
    rewrite (Z.mod_small k) in R2 by done.
    assert (E64 : u8 (k + u8 (64 - k)) mod 64 = 0).
    { rewrite u8_count by lia. by replace (k + (64 - k)) with 64 by lia. }
    rewrite E64 in *. cbn [Z.modulo Z.eqb] in R2. change (0 mod 64 =? 0) with true in R2. cbv iota in R2.
    match type of R2 with Rep (sha1_step ?x) _ => set (c2 := sha1_step x) in * end.
    assert (Ek2 : count c2 = 0).
    { rewrite (rep_count _ _ R2), !length_app, length_replicate. cbn [length].
      clear - Ek Hk. subst k. rewrite <- Ek in *. dm_lia. }
    change (sha1_step _) with c2. rewrite Ek2. change (0 mod 64) with 0.
    pose proof (pad_tail c2 _ 0 64 R2 Ek2 ltac:(lia) ltac:(lia)) as R3. rewrite Ek2 in R3.
    apply rep_putpads with (l := [7; 6; 5; 4; 3; 2; 1; 0]) in R3.
    etransitivity; [exact (rep_h _ _ R3)|]. f_equal. rewrite <- !app_assoc. do 2 f_equal.
    rewrite app_assoc, <- replicate_add. f_equal; [f_equal; lia|].
    assert (Ec2 : c c2 = c ctxt) by (unfold c2; by rewrite sha1_step_c).
    rewrite <- Ec2. reflexivity.
  - pose proof (pad_tail c1 _ k (64 - k) R1 eq_refl ltac:(lia) ltac:(lia)) as R3.
    apply rep_putpads with (l := [7; 6; 5; 4; 3; 2; 1; 0]) in R3.
    etransitivity; [exact (rep_h _ _ R3)|]. f_equal. rewrite <- !app_assoc. do 3 f_equal; [f_equal; lia|].
    rewrite <- Ec1. reflexivity.
Qed.

(** The copy loop appends the whole input and counts its bits. *)
Lemma rep_loop fuel : forall ctxt msg input, (length input <= fuel)%nat -> Rep ctxt msg ->
  c ctxt = u64 (8 * zlen msg) ->
  let ctxt' := sha1_loop_fuel fuel ctxt input in
  Rep ctxt' (msg ++ input) /\ c ctxt' = u64 (8 * zlen (msg ++ input)).
Proof.
  induction fuel as [|fuel IH]; intros ctxt msg input Hf R Ec;
    destruct input as [|x input]; cbn [sha1_loop_fuel]; try (by rewrite app_nil_r).
  { cbn in Hf. lia. }
  set (l := x :: input) in *. pose proof (rep_count_range _ _ R) as Hk.
  rewrite (Z.mod_small (count ctxt)) by done.
  set (n := if 64 - count ctxt <? zlen l then 64 - count ctxt else zlen l).
  assert (Hl : 0 < zlen l) by (unfold l; rewrite zlen_cons; pose proof (zlen_nonneg input); lia).
  assert (Hn : 0 < n <= 64 - count ctxt /\ n <= zlen l) by (unfold n; case_match; zbool; lia).
  set (p := take (Z.to_nat n) l).
  assert (Hlp : zlen p = n) by (unfold p, zlen in *; rewrite length_take; lia).
  set (ctxt1 := ctxt {{ c := u64 (c ctxt + n * 8) }}).
  assert (R1 : Rep ctxt1 msg) by (by apply rep_set_c).
  pose proof (rep_absorb ctxt1 msg p R1 ltac:(unfold zlen in *; lia) ltac:(rewrite Hlp; apply Hn)) as R2.
  pose proof (absorb_c p ctxt1) as Ec2.
  rewrite <- (absorb_intro ctxt1 msg p (u8 (count ctxt + u8 n) mod 64)) in R2, Ec2; try done;
    [|rewrite u8_count, Hlp by lia; done..].
  rewrite (Z.mod_small (count ctxt1)) in R2, Ec2 by done.
  assert (Hfd : (length (drop (Z.to_nat n) l) <= fuel)%nat) by (rewrite length_drop; clearbody n; lia).
  destruct (IH _ (msg ++ p) (drop (Z.to_nat n) l) Hfd R2) as [H1 H2].
  { rewrite Ec2. change (c ctxt1) with (u64 (c ctxt + n * 8)). rewrite Ec, zlen_app, Hlp.
    unfold u64, wrap. rewrite Zplus_mod_idemp_l. f_equal. lia. }
  rewrite <- app_assoc in H1, H2. unfold p in H1, H2. rewrite take_drop in H1, H2. done.
Qed.

Lemma rep_init : Rep sha1_init [] /\ c sha1_init = u64 (8 * zlen (@nil Z)).
Proof. done. Qed.

Lemma pad_zeros_spec n :
  pad_zeros (Z.of_nat ((n + 1) mod 64)) = ((119 - n mod 64) mod 64)%nat.
Proof.
  unfold pad_zeros. case_match; zbool; [|]; apply Nat2Z.inj; rewrite Z2Nat.id by dm_lia; dm_lia.
Qed.

Lemma swap4_words hs : swap4 (concat (map le_bytes hs)) = concat (map be32 hs).
Proof. induction hs as [|x hs IH]; [done|]. cbn [map concat le_bytes app swap4]. by rewrite IH. Qed.

Lemma sha1_fips d : zlen d < 2 ^ 61 -> lws_SHA1 d = fips_sha1 d.
Proof.
  intros Hd. unfold lws_SHA1, sha1_result, sha1_loop. rewrite swap4_words. unfold fips_sha1.
  destruct rep_init as [R0 E0].
  destruct (rep_loop (length d) sha1_init [] d (le_n _) R0 E0) as [R Ec].
  rewrite (rep_pad _ _ R), Ec. cbn [app]. rewrite u64_small by (pose proof (zlen_nonneg d); lia).
  rewrite pad_zeros_spec. reflexivity.
Qed.

(** C27: [lws_SHA1] computes the FIPS 180-1 digest of every message shorter than
    2^61 bytes: the circular 16-word queue, the streaming buffer, the padding
    and the byte swaps implement the standard. *)
Theorem lws_SHA1_correct d : zlen d < 2 ^ 61 -> lws_SHA1 d = fips_sha1 d.
Proof. apply sha1_fips. Qed.

Lemma lws_SHA1_correct_witness :
  fips_sha1 (bstr "abc") =
  [169; 153; 62; 54; 71; 6; 129; 106; 186; 62; 37; 113; 120; 80; 194; 108; 156; 208; 216; 157].
Proof. rewrite <- (lws_SHA1_correct (bstr "abc")); [by vm_compute|done]. Defined.

(** The published vectors of FIPS 180-1. *)
Definition hex (l : bytes) : Z := foldl (fun a b => 256 * a + b) 0 l.

Example sha1_vector_1 :
  hex (lws_SHA1 (bstr "abc")) = 0xa9993e364706816aba3e25717850c26c9cd0d89d.
Proof. by vm_compute. Qed.

Example sha1_vector_2 :
  hex (lws_SHA1 (bstr "abcdbcdecdefdefgefghfghighijhijkijkljklmklmnlmnomnopnopq"))
  = 0x84983e441c3bd26ebaae4aa1f95129e5e54670f1.
Proof. by vm_compute. Qed.

(** The digest has twenty bytes, for every input. *)
Lemma sha1_pad_length ctxt msg : Rep ctxt msg -> length (h (sha1_pad ctxt)) = 5%nat.
Proof. intros R. rewrite (rep_pad _ _ R). by apply length_hash. Qed.

Lemma length_lws_SHA1 d : length (lws_SHA1 d) = 20%nat.
Proof.
  unfold lws_SHA1, sha1_result, sha1_loop. rewrite swap4_words. destruct rep_init as [R0 E0].
  destruct (rep_loop (length d) sha1_init [] d (le_n _) R0 E0) as [R _].
  pose proof (sha1_pad_length _ _ R) as Hl.
  destruct (h (sha1_pad _)) as [|? [|? [|? [|? [|? [|]]]]]]; done.
Qed.

Lemma lws_SHA1_u8 d : all_u8 (lws_SHA1 d).
Proof.
  unfold lws_SHA1, sha1_result. rewrite swap4_words.
  induction (h (sha1_pad _)) as [|x l IH]; cbn [map concat]; [constructor|].
  apply Forall_app. split; [|done]. repeat constructor; apply u8_range.
Qed.

End Sha1.
