(* ===== verification/Utf8.v ===== *)
(** * UTF-8 validation (lib/libwebsockets.c, lws_check_utf8)

    The checker keeps one byte of state so that a text message can be checked in
    pieces.  The state of value 0 is between characters; otherwise the high nibble
    is the lower bound of the next byte, bits 2-3 the width of its range and bits
    0-1 what follows.  The specification is the grammar of RFC 3629. *)

From S2P Require Import Prelude.

Module Utf8.

Definition e0f4 : bytes :=
  [ 160 .| ((2 - 1) .<< 2) .| 1;
    128 .| ((4 - 1) .<< 2) .| 1; 128 .| ((4 - 1) .<< 2) .| 1; 128 .| ((4 - 1) .<< 2) .| 1;
    128 .| ((4 - 1) .<< 2) .| 1; 128 .| ((4 - 1) .<< 2) .| 1; 128 .| ((4 - 1) .<< 2) .| 1;
    128 .| ((4 - 1) .<< 2) .| 1; 128 .| ((4 - 1) .<< 2) .| 1; 128 .| ((4 - 1) .<< 2) .| 1;
    128 .| ((4 - 1) .<< 2) .| 1; 128 .| ((4 - 1) .<< 2) .| 1; 128 .| ((4 - 1) .<< 2) .| 1;
    128 .| ((2 - 1) .<< 2) .| 1;
    128 .| ((4 - 1) .<< 2) .| 1; 128 .| ((4 - 1) .<< 2) .| 1;
    144 .| ((3 - 1) .<< 2) .| 2;
    128 .| ((4 - 1) .<< 2) .| 2; 128 .| ((4 - 1) .<< 2) .| 2; 128 .| ((4 - 1) .<< 2) .| 2;
    128 .| ((1 - 1) .<< 2) .| 2;
    0;
    128 .| ((4 - 1) .<< 2) .| 0;
    128 .| ((4 - 1) .<< 2) .| 1 ].

(** One round of the loop; [None] is [return 1]. *)
Definition utf8_step (s c : Z) : option Z :=
  if s =? 0 then
    if c >=? 128 then
      if (c <? 194) || (c >? 244) then None
      else if c <? 224 then Some (128 .| ((4 - 1) .<< 2))
      else Some (znth e0f4 (c - 224))
    else Some s
  else
    if (c <? s .& 240) || (c >=? (s .& 240) + 16 + ((s .<< 2) .& 48)) then None
    else Some (znth e0f4 (21 + (s .& 3))).

Fixpoint utf8_loop (s : Z) (buf : bytes) : option Z :=
  match buf with
  | [] => Some s
  | c :: r => match utf8_step s c with Some s => utf8_loop s r | None => None end
  end.

(** Gives the new [*state] and the result; on failure the state is not stored. *)
Definition lws_check_utf8 (state : Z) (buf : bytes) : Z * Z :=
  match utf8_loop state buf with
  | Some s => (s, 0)
  | None => (state, 1)
  end.

(** ** Specification: RFC 3629, section 4 *)

Definition in_range (c : Z) (r : Z * Z) : Prop := r.1 <= c <= r.2.
Definition tail : Z * Z := (128, 191).

Inductive utf8_char : bytes -> Prop :=
| utf8_1 a : 0 <= a <= 127 -> utf8_char [a]
| utf8_2 a b : 194 <= a <= 223 -> in_range b tail -> utf8_char [a; b]
| utf8_3_e0 b c : 160 <= b <= 191 -> in_range c tail -> utf8_char [224; b; c]
| utf8_3_lo a b c : 225 <= a <= 236 -> in_range b tail -> in_range c tail -> utf8_char [a; b; c]
| utf8_3_ed b c : 128 <= b <= 159 -> in_range c tail -> utf8_char [237; b; c]
| utf8_3_hi a b c : 238 <= a <= 239 -> in_range b tail -> in_range c tail -> utf8_char [a; b; c]
| utf8_4_f0 b c d : 144 <= b <= 191 -> in_range c tail -> in_range d tail -> utf8_char [240; b; c; d]
| utf8_4_mid a b c d : 241 <= a <= 243 -> in_range b tail -> in_range c tail -> in_range d tail ->
    utf8_char [a; b; c; d]
| utf8_4_f4 b c d : 128 <= b <= 143 -> in_range c tail -> in_range d tail -> utf8_char [244; b; c; d].

Inductive utf8 : bytes -> Prop :=
| utf8_nil : utf8 []
| utf8_app ch l : utf8_char ch -> utf8 l -> utf8 (ch ++ l).

(** ** The automaton *)

(** The ranges of the bytes that may follow a first byte. *)
Definition lead (c : Z) : option (list (Z * Z)) :=
  if c <=? 127 then Some []
  else if c <? 194 then None
  else if c <=? 223 then Some [tail]
  else if c =? 224 then Some [(160, 191); tail]
  else if c <=? 236 then Some [tail; tail]
  else if c =? 237 then Some [(128, 159); tail]
  else if c <=? 239 then Some [tail; tail]
  else if c =? 240 then Some [(144, 191); tail; tail]
  else if c <=? 243 then Some [tail; tail; tail]
  else if c =? 244 then Some [(128, 143); tail; tail]
  else None.

(** What each state of the checker still waits for. *)
Definition needs (s : Z) : option (list (Z * Z)) :=
  if s =? 0 then Some []
  else if s =? 140 then Some [tail]
  else if s =? 141 then Some [tail; tail]
  else if s =? 142 then Some [tail; tail; tail]
  else if s =? 165 then Some [(160, 191); tail]
  else if s =? 133 then Some [(128, 159); tail]
  else if s =? 154 then Some [(144, 191); tail; tail]
  else if s =? 130 then Some [(128, 143); tail; tail]
  else None.

Lemma lead_char c t : utf8_char (c :: t) <-> is_u8 c /\ exists rs, lead c = Some rs /\ Forall2 in_range t rs.
Proof.
  split.
  - intros Hc. inversion Hc; subst; unfold in_range, tail, is_u8, lead in *; cbn in *; (split; [lia|]);
      repeat (case_match; zbool; try lia); eexists; (split; [done|]); repeat constructor; unfold in_range; cbn; lia.
  - intros (Hu & rs & Hl & Hf). unfold lead, is_u8 in *.
    repeat (case_match; zbool; simplify_eq);
      repeat match goal with H : Forall2 _ _ (_ :: _) |- _ => inversion H; clear H; subst
                           | H : Forall2 _ _ [] |- _ => inversion H; clear H; subst end;
      unfold in_range in *; cbn in *; subst;
      first [by constructor; unfold in_range; cbn; lia | constructor 4; unfold in_range; cbn; lia
            | constructor 6; unfold in_range; cbn; lia | constructor 8; unfold in_range; cbn; lia].
Qed.

(** Every step from a known state, checked for all bytes. *)
Definition step_ok (s c : Z) : bool :=
  match needs s with
  | None => true
  | Some [] =>
      match utf8_step s c, lead c with
      | Some s', Some rs => bool_decide (needs s' = Some rs)
      | None, None => true
      | _, _ => false
      end
  | Some (r :: rs) =>
      match utf8_step s c with
      | Some s' => (r.1 <=? c) && (c <=? r.2) && bool_decide (needs s' = Some rs)
      | None => negb ((r.1 <=? c) && (c <=? r.2))
      end
  end.

Lemma step_ok_all s c rs : needs s = Some rs -> is_u8 c -> step_ok s c = true.
Proof.
  intros Hs Hc. assert (Hss : is_u8 s).
  { unfold needs in Hs. unfold is_u8. repeat (case_match; zbool; try lia; try done). }
  apply (forall_u8_2 step_ok); [vm_compute; reflexivity|done|done].
Qed.

(** The loop from a state accepts what completes the pending character and goes
    on with well-formed text, and nothing else. *)
Lemma loop_accepts l : forall s rs, all_u8 l -> needs s = Some rs ->
  utf8_loop s l = Some 0 <-> exists t l', l = t ++ l' /\ Forall2 in_range t rs /\ utf8 l'.
Proof.
  induction l as [|c l IH]; intros s rs Hl Hs; cbn [utf8_loop].
  - split.
    + intros E. injection E as ->. injection Hs as <-. exists [], []. repeat constructor.
    + intros (t & l' & E & Hf & _). destruct t; [|done]. inversion Hf; subst.
      unfold needs in Hs. repeat (case_match; zbool; simplify_eq; try done).
  - forall_inv. pose proof (step_ok_all s c rs Hs ltac:(done)) as Hok. unfold step_ok in Hok. rewrite Hs in Hok.
    destruct rs as [|r rs].
    + destruct (utf8_step s c) as [s'|], (lead c) as [rs|] eqn:Elead; try done.
      * apply bool_decide_eq_true in Hok. rewrite (IH s' rs Hl Hok). split.
        -- intros (t & l' & -> & Hf & Hu). exists [], (c :: t ++ l'). split; [done|]. split; [constructor|].
           apply (utf8_app (c :: t)); [|done]. apply lead_char. split; [done|]. by exists rs.
        -- intros (t & l' & E & Hf & Hu). inversion Hf; subst. cbn in E. subst l'.
           inversion Hu as [|ch l0 Hch Hu0 E0]. destruct ch as [|c0 ch]; [by inversion Hch|].
           injection E0 as <- <-. apply lead_char in Hch as (_ & rs0 & El & Hf0). rewrite Elead in El.
           injection El as <-. by exists ch, l0.
      * split; [done|]. intros (t & l' & E & Hf & Hu). inversion Hf; subst. cbn in E. subst l'.
        inversion Hu as [|ch l0 Hch Hu0 E0]. destruct ch as [|c0 ch]; [by inversion Hch|].
        injection E0 as <- <-. apply lead_char in Hch as (_ & rs0 & El & _). congruence.
    + destruct (utf8_step s c) as [s'|].
      * rewrite !andb_true_iff, bool_decide_eq_true in Hok. destruct Hok as [[Hlo Hhi] Hn]. zbool.
        rewrite (IH s' rs Hl Hn). split.
        -- intros (t & l' & -> & Hf & Hu). exists (c :: t), l'. split; [done|]. split; [|done]. by constructor.
        -- intros (t & l' & E & Hf & Hu). inversion Hf as [|c0 r0 t0 rs0 Hr Hf0]; subst. cbn in E. injection E as <- ->.
           by exists t0, l'.
      * split; [done|]. intros (t & l' & E & Hf & Hu). inversion Hf as [|c0 r0 t0 rs0 Hr Hf0]; subst. cbn in E.
        injection E as <- ->. unfold in_range in Hr. rewrite negb_true_iff, andb_false_iff in Hok.
        destruct Hok; zbool; lia.
Qed.

Lemma loop_app s a b : utf8_loop s (a ++ b) =
  match utf8_loop s a with Some s' => utf8_loop s' b | None => None end.
Proof.
  revert s. induction a as [|c a IH]; intros s; cbn [app utf8_loop]; [done|].
  destruct (utf8_step s c); [apply IH|done].
Qed.

Lemma loop_state l : forall s rs s', all_u8 l -> needs s = Some rs -> utf8_loop s l = Some s' ->
  exists rs', needs s' = Some rs'.
Proof.
  induction l as [|c l IH]; intros s rs s' Hl Hs E; cbn [utf8_loop] in E; [injection E as <-; eauto|].
  forall_inv. pose proof (step_ok_all s c rs Hs ltac:(done)) as Hok. unfold step_ok in Hok. rewrite Hs in Hok.
  destruct (utf8_step s c) as [s1|]; [|done].
  assert (Hn : exists rs1, needs s1 = Some rs1).
  { destruct rs.
    - destruct (lead c); [|done]. apply bool_decide_eq_true in Hok. eauto.
    - rewrite !andb_true_iff, bool_decide_eq_true in Hok. destruct Hok. eauto. }
  destruct Hn as [rs1 Hn]. by apply (IH s1 rs1).
Qed.

(** Every pending character can be completed. *)
Lemma needs_completed s rs : needs s = Some rs -> exists m, all_u8 m /\ Forall2 in_range m rs.
Proof.
  intros Hs. exists (map fst rs). unfold needs in Hs.
  repeat (case_match; zbool; simplify_eq; try done); split; repeat constructor; unfold in_range, tail; cbn; lia.
Qed.

(** C23: lws_check_utf8 decides UTF-8.  A text checked from state 0 leaves state 0
    without error exactly if it is well-formed in the sense of RFC 3629, and the
    check fails exactly when no continuation could make the text well-formed, that
    is at the first offending byte and never later. *)
Theorem check_utf8_correct l : all_u8 l ->
  (lws_check_utf8 0 l = (0, 0) <-> utf8 l) /\
  ((lws_check_utf8 0 l).2 = 0 <-> exists m, all_u8 m /\ utf8 (l ++ m)).
Proof.
  intros Hl. assert (Hacc : forall k, all_u8 k -> utf8_loop 0 k = Some 0 <-> utf8 k).
  { intros k Hk. rewrite (loop_accepts k 0 [] Hk eq_refl). split.
    - intros (t & l' & -> & Hf & Hu). by inversion Hf; subst.
    - intros Hu. exists [], k. repeat split; [constructor|done]. }
  unfold lws_check_utf8. split.
  - rewrite <- (Hacc l Hl). destruct (utf8_loop 0 l); split; intros E; simplify_eq/=; done.
  - destruct (utf8_loop 0 l) as [s|] eqn:E; split; try done.
    + intros _. destruct (loop_state l 0 [] s Hl eq_refl E) as [rs Hs].
      destruct (needs_completed s rs Hs) as (m & Hm & Hf). exists m. split; [done|].
      apply Hacc; [by apply Forall_app|]. rewrite loop_app, E.
      apply (loop_accepts m s rs Hm Hs). exists m, []. rewrite app_nil_r. repeat split; [done|constructor].
    + intros (m & Hm & Hu). apply Hacc in Hu; [|by apply Forall_app]. by rewrite loop_app, E in Hu.
Qed.

(** Checking in pieces is checking the whole: the state carried from one piece of
    a message to the next makes the split invisible. *)
Lemma check_utf8_pieces s a b :
  lws_check_utf8 s (a ++ b) =
  let '(s1, r1) := lws_check_utf8 s a in
  if r1 =? 0 then let '(s2, r2) := lws_check_utf8 s1 b in ((if r2 =? 0 then s2 else s), r2) else (s, 1).
Proof.
  unfold lws_check_utf8. rewrite loop_app. destruct (utf8_loop s a) as [s1|]; cbn; [|done].
  by destruct (utf8_loop s1 b).
Qed.

(** The euro sign is accepted; a surrogate, an overlong form and a stray tail are not. *)
Lemma check_utf8_correct_witness : utf8 [226; 130; 172] /\
  (lws_check_utf8 0 [237; 160]).2 = 1 /\ ~ utf8 [192; 128].
Proof.
  split; [|split].
  - apply (proj1 (check_utf8_correct [226; 130; 172] ltac:(by repeat constructor))). reflexivity.
  - reflexivity.
  - intros Hu. apply (proj1 (check_utf8_correct [192; 128] ltac:(by repeat constructor))) in Hu. by vm_compute in Hu.
Defined.

End Utf8.
