(* ===== verification/Ws.v ===== *)
(** * The WebSocket connection (struct lws) and what the frame code shares

    The connection record holds the members of [struct lws] and of its
    [u.ws] part that the frame parsers and the writer read or change, under
    their C names.  Effects that leave the library (protocol callbacks, requests
    to be called when writable, changes of the poll mask, bytes handed to the
    socket) are appended to [events].  What is supplied from outside, the user's
    protocol callback, the active extensions, the poll layer, the socket, the
    random source and the build's data model, is the class [LwsEnv]. *)

From S2P Require Import Prelude.

(** private-libwebsockets.h, enum lws_rx_parse_state *)
Inductive rxps :=
| RXPS_NEW
| RXPS_04_mask_1 | RXPS_04_mask_2 | RXPS_04_mask_3
| RXPS_04_FRAME_HDR_1 | RXPS_04_FRAME_HDR_LEN
| RXPS_04_FRAME_HDR_LEN16_2 | RXPS_04_FRAME_HDR_LEN16_1
| RXPS_04_FRAME_HDR_LEN64_8 | RXPS_04_FRAME_HDR_LEN64_7
| RXPS_04_FRAME_HDR_LEN64_6 | RXPS_04_FRAME_HDR_LEN64_5
| RXPS_04_FRAME_HDR_LEN64_4 | RXPS_04_FRAME_HDR_LEN64_3
| RXPS_04_FRAME_HDR_LEN64_2 | RXPS_04_FRAME_HDR_LEN64_1
| RXPS_07_COLLECT_FRAME_KEY_1 | RXPS_07_COLLECT_FRAME_KEY_2
| RXPS_07_COLLECT_FRAME_KEY_3 | RXPS_07_COLLECT_FRAME_KEY_4
| RXPS_PAYLOAD_UNTIL_LENGTH_EXHAUSTED.

(** private-libwebsockets.h, enum lws_connection_states *)
Inductive lwss :=
| LWSS_HTTP | LWSS_HTTP_ISSUING_FILE | LWSS_HTTP_HEADERS | LWSS_HTTP_BODY
| LWSS_DEAD_SOCKET | LWSS_ESTABLISHED | LWSS_CLIENT_HTTP_ESTABLISHED
| LWSS_CLIENT_UNCONNECTED | LWSS_RETURNED_CLOSE_ALREADY | LWSS_AWAITING_CLOSE_ACK
| LWSS_FLUSHING_STORED_SEND_BEFORE_CLOSE | LWSS_SHUTDOWN
| LWSS_HTTP2_AWAIT_CLIENT_PREFACE | LWSS_HTTP2_ESTABLISHED_PRE_SETTINGS
| LWSS_HTTP2_ESTABLISHED | LWSS_CGI.

(** private-libwebsockets.h, enum connection_mode *)
Inductive lwscm :=
| LWSCM_HTTP_SERVING | LWSCM_HTTP_SERVING_ACCEPTED | LWSCM_PRE_WS_SERVING_ACCEPT
| LWSCM_WS_SERVING | LWSCM_WS_CLIENT | LWSCM_HTTP2_SERVING
| LWSCM_SSL_ACK_PENDING | LWSCM_SSL_INIT | LWSCM_SSL_ACK_PENDING_RAW | LWSCM_SSL_INIT_RAW
| LWSCM_SERVER_LISTENER | LWSCM_CGI | LWSCM_RAW | LWSCM_RAW_FILEDESC
| LWSCM_HTTP_CLIENT | LWSCM_HTTP_CLIENT_ACCEPTED | LWSCM_WSCL_WAITING_CONNECT
| LWSCM_WSCL_WAITING_PROXY_REPLY | LWSCM_WSCL_ISSUE_HANDSHAKE | LWSCM_WSCL_ISSUE_HANDSHAKE2
| LWSCM_WSCL_ISSUE_HTTP_BODY | LWSCM_WSCL_WAITING_SSL | LWSCM_WSCL_WAITING_SERVER_REPLY
| LWSCM_WSCL_WAITING_EXTENSION_CONNECT | LWSCM_WSCL_PENDING_CANDIDATE_CHILD.

#[global] Instance rxps_eq_dec : EqDecision rxps.
Proof. solve_decision. Defined.
#[global] Instance lwss_eq_dec : EqDecision lwss.
Proof. solve_decision. Defined.
#[global] Instance lwscm_eq_dec : EqDecision lwscm.
Proof. solve_decision. Defined.

(** libwebsockets.h: LWS_PRE is _LWS_PAD(4 + 10), 16 for every pad size used. *)
Definition LWS_PRE : Z := 16.

(** Opcodes *)
Definition LWSWSOPC_CONTINUATION : Z := 0.
Definition LWSWSOPC_TEXT_FRAME : Z := 1.
Definition LWSWSOPC_BINARY_FRAME : Z := 2.
Definition LWSWSOPC_CLOSE : Z := 8.
Definition LWSWSOPC_PING : Z := 9.
Definition LWSWSOPC_PONG : Z := 10.

(** Callback reasons *)
Definition LWS_CALLBACK_RECEIVE : Z := 6.
Definition LWS_CALLBACK_RECEIVE_PONG : Z := 7.
Definition LWS_CALLBACK_CLIENT_RECEIVE : Z := 8.
Definition LWS_CALLBACK_CLIENT_RECEIVE_PONG : Z := 9.
Definition LWS_CALLBACK_WS_PEER_INITIATED_CLOSE : Z := 38.

(** Pending timeouts *)
Definition NO_PENDING_TIMEOUT : Z := 0.
Definition PENDING_TIMEOUT_WS_PONG_CHECK_GET_PONG : Z := 17.

(** Receive flow control *)
Definition LWS_RXFLOW_ALLOW : Z := 1.
Definition LWS_RXFLOW_PENDING_CHANGE : Z := 2.
Definition LWS_POLLIN : Z := 1.
Definition LWS_POLLOUT : Z := 4.

(** What leaves the library. *)
Inductive event :=
| ECallback (reason : Z) (data : bytes)
| EWritable
| EPollfd (clear set : Z)
| ESend (data : bytes)
| EAssert.               (* an assert of the C code failed: a debug build stops here *)

(** Where the [token] of a [struct lws_tokens] points. *)
Inductive token :=
| TNull
| TUbuf                  (* &rx_ubuf[LWS_PRE] *)
| TUser                  (* the buffer of the caller: of lws_write, or the bytes read *)
| TExt (buf : bytes).    (* a buffer of an extension *)

Record lws_tokens := mkTok { tok : token; token_len : Z }.

(** Reasons passed to an extension. *)
Inductive ext_reason :=
| LWS_EXT_CB_EXTENDED_PAYLOAD_RX
| LWS_EXT_CB_PAYLOAD_RX
| LWS_EXT_CB_PACKET_RX_PREPARSE
| LWS_EXT_CB_PAYLOAD_TX (wp : Z)
| LWS_EXT_CB_PACKET_TX_PRESEND
| LWS_EXT_CB_PACKET_TX_DO_SEND
| LWS_EXT_CB_IS_WRITEABLE
| LWS_EXT_CB_CHECK_OK_TO_REALLY_CLOSE
| LWS_EXT_CB_FLUSH_PENDING_TX
| LWS_EXT_CB_DESTROY
| LWS_EXT_CB_1HZ (sec : Z).

(** The members only the sending side uses. *)
Record lws_tx := mkTx {
  trunc_alloc : option bytes;        (* the malloc'd buffer of a truncated send *)
  trunc_alloc_len : Z;
  trunc_offset : Z;
  trunc_len : Z;
  inside_frame : bool;
  clean_buffer : bool;
  tx_draining_ext : bool;
  tx_draining_stashed_wp : Z;
  stashed_write_pending : bool;
  stashed_write_type : Z;
  extension_data_pending : bool;
  pt_tx_draining_ext_list : list nat;
  send_check_ping : bool;
  time_next_ping_check : Z;
  ws_ping_pong_interval : Z;         (* context->ws_ping_pong_interval *)
  hdr_parsing_completed : bool;
  timeout_linked : bool;             (* timeout_list_prev != NULL *)
  pending_timeout_limit : Z;
  timeout_secs : Z;                  (* context->timeout_secs *)
  pt_timeout_list : list nat
}.

Record lws := mkLws {
  wsi_id : nat;
  state : lwss;
  mode : lwscm;
  ietf_spec_revision : Z;
  lws_rx_parse_state : rxps;
  socket_is_permanently_unusable : bool;
  pending_timeout : Z;
  rxflow_change_to : Z;
  rxflow_buffer : option bytes;
  rxflow_pos : Z;
  tx : lws_tx;
  count_act_ext : nat;
  rx_buffer_size : Z;                (* protocol->rx_buffer_size *)
  pt_serv_buf_size : Z;              (* context->pt_serv_buf_size *)
  opt_validate_utf8 : bool;          (* LWS_SERVER_OPTION_VALIDATE_UTF8 *)
  pt_rx_draining_ext_list : list nat;
  (* u.ws *)
  rx_ubuf : bytes;
  rx_ubuf_alloc : Z;
  rx_ubuf_head : Z;
  rx_packet_length : Z;
  mask : bytes;
  mask_idx : Z;
  opcode : Z;
  rsv : Z;
  rsv_first_msg : Z;
  final : bool;
  frame_is_binary : bool;
  all_zero_nonce : bool;
  this_frame_masked : bool;
  ping_payload_buf : bytes;
  ping_payload_len : Z;
  ping_pending_flag : bool;
  payload_is_close : bool;
  close_in_ping_buffer_len : Z;
  utf8 : Z;
  check_utf8 : bool;
  defeat_check_utf8 : bool;
  continuation_possible : bool;
  owed_a_fin : bool;
  rx_draining_ext : bool;
  events : list event
}.

(** The environment of a connection. *)
Class LwsEnv := {
  lp64 : bool;                                            (* __LP64__ defined *)
  has_callback : bool;                                    (* protocol->callback != NULL *)
  protocol_callback : lws -> Z -> bytes -> lws * Z;
  ext_callback : nat -> lws -> ext_reason -> lws_tokens -> lws * lws_tokens * Z;
  change_pollfd : lws -> Z -> Z -> Z;                     (* result of lws_change_pollfd *)
  socket_write : lws -> bytes -> Z;                       (* lws_ssl_capable_write *)
  random4 : lws -> option bytes;                          (* lws_get_random(.., 4) *)
  malloc_ok : lws -> Z -> bool;                           (* lws_malloc(n) != NULL *)
  send_pipe_choked : lws -> bool;                         (* lws_send_pipe_choked *)
  now_secs : lws -> Z                                     (* lws_now_secs *)
}.

(** The width of size_t: 64 bits on the LP64 builds, 32 on the Win32 ones. *)
Definition SIZE_W `{LwsEnv} : Z := if lp64 then 64 else 32.

Definition emit (e : event) (w : lws) : lws := w {{ events ::= (fun l => l ++ [e]) }}.

(** The request of a writable callback is recorded as an event. *)
Definition lws_callback_on_writable (w : lws) : lws := emit EWritable w.

(** Take one connection off a list of the thread (parsers.c, output.c and
    libwebsockets.c walk or splice linked lists). *)
Fixpoint unlink (i : nat) (l : list nat) : list nat :=
  match l with
  | [] => []
  | x :: r => if (x =? i)%nat then r else x :: unlink i r
  end.

(** libwebsockets.c *)
Definition lws_remove_from_timeout_list (w : lws) : lws :=
  if negb (timeout_linked (tx w)) then w
  else w {{ tx ::= (fun t => t {{ pt_timeout_list ::= unlink (wsi_id w); timeout_linked := false }}) }}.

Definition lws_set_timeout `{LwsEnv} (w : lws) (reason secs : Z) : lws :=
  let w := if nz reason && negb (timeout_linked (tx w))
           then w {{ tx ::= (fun t => t {{ pt_timeout_list ::= cons (wsi_id w); timeout_linked := true }}) }}
           else w in
  let w := w {{ tx ::= (fun t => t {{ pending_timeout_limit := now_secs w + secs }});
                pending_timeout := reason }} in
  if negb (nz reason) then lws_remove_from_timeout_list w else w.

(** [lws_set_timeout(wsi, NO_PENDING_TIMEOUT, 0)] *)
Definition clear_timeout `{LwsEnv} (w : lws) : lws := lws_set_timeout w NO_PENDING_TIMEOUT 0.

Definition lws_partial_buffered (w : lws) : bool := nz (trunc_len (tx w)).

(** The bytes gathered so far of the frame being received. *)
Definition ubuf_data (w : lws) (n : Z) : bytes :=
  take (Z.to_nat n) (drop (Z.to_nat LWS_PRE) (rx_ubuf w)).

Definition tok_data (w : lws) (t : lws_tokens) : bytes :=
  match tok t with
  | TNull | TUser => []
  | TUbuf => ubuf_data w (token_len t)
  | TExt buf => take (Z.to_nat (token_len t)) buf
  end.

(** [eff_buf.token[eff_buf.token_len] = '\0']; a buffer of an extension is the
    extension's own. *)
Definition store_nul (w : lws) (t : lws_tokens) : lws :=
  match tok t with
  | TUbuf => w {{ rx_ubuf ::= insert (Z.to_nat (LWS_PRE + token_len t)) 0 }}
  | _ => w
  end.

Section Shared.
Context `{LwsEnv}.

(** extension.c: call every active extension; the largest result wins, a
    negative one stops the loop. *)
Fixpoint ext_loop (k n : nat) (w : lws) (r : ext_reason) (t : lws_tokens) (handled : Z)
  : lws * lws_tokens * Z :=
  match k with
  | O => (w, t, handled)
  | S k =>
      let '(w, t, m) := ext_callback n w r t in
      if m <? 0 then (w, t, -1)
      else ext_loop k (S n) w r t (if m >? handled then m else handled)
  end.

Definition lws_ext_cb_active (w : lws) (r : ext_reason) (t : lws_tokens) : lws * lws_tokens * Z :=
  ext_loop (count_act_ext w) 0 w r t 0.

(** parsers.c: the list of connections whose extensions hold back output. *)
Definition lws_add_wsi_to_draining_ext_list (w : lws) : lws :=
  if rx_draining_ext w then w
  else w {{ rx_draining_ext := true;
            pt_rx_draining_ext_list ::= cons (wsi_id w) }}.

Definition lws_remove_wsi_from_draining_ext_list (w : lws) : lws :=
  if rx_draining_ext w
  then w {{ rx_draining_ext := false; pt_rx_draining_ext_list ::= unlink (wsi_id w) }}
  else w.

(** libwebsockets.c, for a connection without children. *)
Definition lws_rx_flow_control (w : lws) : lws * Z :=
  if negb (nz (rxflow_change_to w .& LWS_RXFLOW_PENDING_CHANGE)) then (w, 0) else
  match rxflow_buffer w with
  | Some _ => (lws_callback_on_writable w, 0)
  | None =>
      let w := w {{ rxflow_change_to ::= (fun x => Z.ldiff x LWS_RXFLOW_PENDING_CHANGE) }} in
      let '(c, s) := if nz (rxflow_change_to w .& LWS_RXFLOW_ALLOW)
                     then (0, LWS_POLLIN) else (LWS_POLLIN, 0) in
      let w := emit (EPollfd c s) w in
      if nz (change_pollfd w c s) then (w, -1) else (w, 0)
  end.

Definition run_callback (w : lws) (reason : Z) (data : bytes) : lws * Z :=
  protocol_callback (emit (ECallback reason data) w) reason data.

Definition user_callback_handle_rxflow (w : lws) (reason : Z) (data : bytes) : lws * Z :=
  let '(w, n) := run_callback w reason data in
  if n =? 0 then lws_rx_flow_control w else (w, n).

End Shared.

(** ** Laws of the shared operations *)

(** The callbacks among the events: what the user was told, without what was sent
    or asked for in between. *)
Definition is_call (e : event) : bool := match e with ECallback _ _ => true | _ => false end.
Definition calls (l : list event) : list event := List.filter is_call l.

Lemma calls_app l k : calls (l ++ k) = calls l ++ calls k.
Proof. apply List.filter_app. Qed.

Lemma calls_map {A} (f : A -> bytes) r l :
  calls (map (fun x => ECallback r (f x)) l) = map (fun x => ECallback r (f x)) l.
Proof. induction l as [|x l IH]; [done|]. cbn. by f_equal. Qed.

(** What a callback may do to its connection while it takes what was received:
    send (successfully; this works on [tx] and, on a client, draws a masking key), ask to be
    called when writable, set a timeout, and leave a reason for a close (which
    lies in the ping buffer).  It does not close the connection, stop the flow or
    send a frame of the closing handshake from within. *)
Definition user_acts (r : Z) (w w' : lws) : Prop :=
  exists t pt pb cl mk mi ev,
    w' = w {{ tx := t; pending_timeout := pt; ping_payload_buf := pb; close_in_ping_buffer_len := cl;
              mask := mk; mask_idx := mi; events := ev }} /\
    length pb = length (ping_payload_buf w) /\ length mk = length (mask w) /\
    (r = LWS_CALLBACK_RECEIVE -> mk = mask w /\ mi = mask_idx w) /\ calls ev = calls (events w).

(** The reasons the receivers call back with. *)
Definition rx_reason (r : Z) : Prop :=
  r = LWS_CALLBACK_RECEIVE \/ r = LWS_CALLBACK_RECEIVE_PONG \/ r = LWS_CALLBACK_CLIENT_RECEIVE \/
  r = LWS_CALLBACK_CLIENT_RECEIVE_PONG \/ r = LWS_CALLBACK_WS_PEER_INITIATED_CLOSE.

(** A callback that takes what it is given, as [callback_lws] of websocket.cpp
    does: for the reasons of the receivers it returns 0, and it acts on the
    connection only through the calls above ([callback_lws] requests writability
    when a message is answered).  Nothing is said of the other reasons. *)
Class TakingCallback `{LwsEnv} : Prop := {
  taking_present : has_callback = true;
  taking_result : forall w r d, rx_reason r -> (protocol_callback w r d).2 = 0;
  taking_acts : forall w r d, rx_reason r -> user_acts r w (protocol_callback w r d).1
}.

(** Solve [rx_reason r] for a reason of the receivers. *)
Ltac rx_reason_tac := unfold rx_reason; tauto.

Lemma acts_refl r w : user_acts r w w.
Proof.
  exists (tx w), (pending_timeout w), (ping_payload_buf w), (close_in_ping_buffer_len w), (mask w),
    (mask_idx w), (events w).
  by destruct w.
Qed.

Lemma acts_writable r w : user_acts r w (lws_callback_on_writable w).
Proof.
  exists (tx w), (pending_timeout w), (ping_payload_buf w), (close_in_ping_buffer_len w), (mask w),
    (mask_idx w), (events w ++ [EWritable]).
  split_and!; try done. rewrite calls_app. apply app_nil_r.
Qed.

Lemma acts_more r w w' : user_acts r w w' -> user_acts r w (lws_callback_on_writable w').
Proof.
  intros (t & pt & pb & cl & mk & mi & ev & -> & H1 & H2 & H3 & H4).
  exists t, pt, pb, cl, mk, mi, (ev ++ [EWritable]). split_and!; try done.
  rewrite calls_app, H4. apply app_nil_r.
Qed.

Lemma acts_iter r w k : user_acts r w (Nat.iter k lws_callback_on_writable w).
Proof. induction k as [|k IH]; [apply acts_refl|by apply acts_more]. Qed.

Lemma ext_none `{LwsEnv} w r t : count_act_ext w = 0%nat -> lws_ext_cb_active w r t = (w, t, 0).
Proof. intros E. unfold lws_ext_cb_active. by rewrite E. Qed.

(** A connection is on the draining list exactly when its flag says so. *)
Definition draining_ok (w : lws) : Prop :=
  NoDup (pt_rx_draining_ext_list w) /\
  (rx_draining_ext w = true <-> (wsi_id w ∈ pt_rx_draining_ext_list w)).

Lemma unlink_spec i l : NoDup l -> (i ∉ unlink i l) /\ NoDup (unlink i l) /\
  (forall j, j <> i -> (j ∈ unlink i l) <-> (j ∈ l)).
Proof.
  induction l as [|x l IH]; cbn [unlink]; intros Hnd.
  { repeat split; try done. apply not_elem_of_nil. }
  apply NoDup_cons in Hnd as [Hx Hnd]. destruct (Nat.eqb_spec x i) as [->|Hne].
  - split; [done|]. split; [done|]. intros j Hj. rewrite elem_of_cons. naive_solver.
  - destruct (IH Hnd) as (H1 & H2 & H3). rewrite not_elem_of_cons. split; [by split; [congruence|]|].
    split.
    + apply NoDup_cons. split; [|done]. by rewrite H3.
    + intros j Hj. by rewrite !elem_of_cons, H3.
Qed.

Lemma draining_ok_add w : draining_ok w -> draining_ok (lws_add_wsi_to_draining_ext_list w).
Proof.
  intros Hok. unfold lws_add_wsi_to_draining_ext_list.
  destruct (rx_draining_ext w) eqn:E; [done|]. destruct Hok as [Hnd Hiff]. destruct w. cbn in *.
  split; cbn; rewrite ?elem_of_cons; [|naive_solver].
  apply NoDup_cons. split; [|done]. intros Hin. apply Hiff in Hin. congruence.
Qed.

Lemma draining_ok_remove w : draining_ok w -> draining_ok (lws_remove_wsi_from_draining_ext_list w).
Proof.
  intros Hok. unfold lws_remove_wsi_from_draining_ext_list.
  destruct (rx_draining_ext w) eqn:E; [|done]. destruct Hok as [Hnd Hiff]. destruct w. cbn in *.
  destruct (unlink_spec wsi_id0 _ Hnd) as (H1 & H2 & _). by split.
Qed.
