(* ===== verification/WsRx.v ===== *)
(** * Server side of the WebSocket receiver (lib/parsers.c, lib/server.c)

    [lws_rx_sm] takes one byte: its [switch] is cut at the [case] groups, its
    labels [spill] and [drain_extension] are functions, a [goto] is a call.
    [lws_payload_until_length_exhausted] is the bulk path, and
    [lws_interpret_incoming_packet] the loop that combines both.  An operation
    gives the connection and the returned [int]. *)

From S2P Require Import Prelude Ws.

Section Rx.
Context `{LwsEnv}.

(** [already_done:] *)
Definition already_done (w : lws) (ret : Z) : lws * Z := (w {{ rx_ubuf_head := 0 }}, ret).

(** [drain_extension:] *)
Definition rx_drain_extension (w : lws) (action : Z) (draining : bool) (eff : lws_tokens) : lws * Z :=
  if bool_decide (state w = LWSS_RETURNED_CLOSE_ALREADY) || bool_decide (state w = LWSS_AWAITING_CLOSE_ACK)
  then already_done w 0 else
  let '(w, eff, n) := lws_ext_cb_active w LWS_EXT_CB_PAYLOAD_RX eff in
  if n <? 0 then (w {{ socket_is_permanently_unusable := true }}, -1) else
  if draining && (token_len eff =? 0) then already_done w 0 else
  let w := if nz n && nz (token_len eff)
           then lws_add_wsi_to_draining_ext_list w
           else lws_remove_wsi_from_draining_ext_list w in
  if (token_len eff >? 0) || (action =? LWS_CALLBACK_RECEIVE_PONG) then
    let w := store_nul w eff in
    if has_callback then
      let '(w, ret) := user_callback_handle_rxflow w action (tok_data w eff) in
      already_done w ret
    else already_done w 0
  else already_done w 0.

(** [ping_drop:] *)
Definition ping_drop (w : lws) : lws * Z := (w {{ rx_ubuf_head := 0 }}, 0).

(** [process_as_ping:] *)
Definition process_as_ping (w : lws) : lws * Z :=
  if rx_ubuf_head w >? 128 - 3 then ping_drop w else
  let w := w {{ ping_payload_buf ::= splice (Z.to_nat LWS_PRE) (ubuf_data w (rx_ubuf_head w));
                ping_payload_len := u8 (rx_ubuf_head w);
                ping_pending_flag := true }} in
  ping_drop (lws_callback_on_writable w).

(** The CLOSE branch of the spill. *)
Definition spill_close (w : lws) : lws * Z :=
  if bool_decide (state w = LWSS_AWAITING_CLOSE_ACK) then (w, -1) else
  if bool_decide (state w = LWSS_RETURNED_CLOSE_ALREADY) then (w, -1) else
  if lws_partial_buffered w then (w {{ socket_is_permanently_unusable := true }}, -1) else
  let '(w, n) := user_callback_handle_rxflow w LWS_CALLBACK_WS_PEER_INITIATED_CLOSE
                   (ubuf_data w (rx_ubuf_head w)) in
  if nz n then (w, -1) else
  process_as_ping (w {{ state := LWSS_RETURNED_CLOSE_ALREADY; payload_is_close := true }}).

(** [spill:] *)
Definition rx_spill (w : lws) : lws * Z :=
  let eff := mkTok TUbuf (rx_ubuf_head w) in
  if opcode w =? LWSWSOPC_CLOSE then spill_close w
  else if opcode w =? LWSWSOPC_PING then
    (if ping_pending_flag w then ping_drop w else process_as_ping w)
  else if opcode w =? LWSWSOPC_PONG then
    let w := if pending_timeout w =? PENDING_TIMEOUT_WS_PONG_CHECK_GET_PONG
             then clear_timeout w else w in
    rx_drain_extension w LWS_CALLBACK_RECEIVE_PONG false eff
  else if (opcode w =? LWSWSOPC_TEXT_FRAME) || (opcode w =? LWSWSOPC_BINARY_FRAME)
          || (opcode w =? LWSWSOPC_CONTINUATION) then
    rx_drain_extension w LWS_CALLBACK_RECEIVE false eff
  else
    let '(w, _, _) := lws_ext_cb_active w LWS_EXT_CB_EXTENDED_PAYLOAD_RX eff in
    (w {{ rx_ubuf_head := 0 }}, 0).

(** One byte of the masking key: [mask[i] = c; if (c) all_zero_nonce = 0]. *)
Definition store_mask (i : nat) (c : Z) (w : lws) : lws :=
  w {{ mask ::= insert i c; all_zero_nonce ::= (fun b => b && negb (nz c)) }}.

(** [case LWS_RXPS_04_FRAME_HDR_1: handle_first:] *)
Definition handle_first (w : lws) (c : Z) : lws * Z :=
  let op := c .& 15 in
  let w := w {{ opcode := op; rsv := c .& 112; final := nz ((c .>> 7) .& 1) }} in
  if ((3 <=? op) && (op <=? 7)) || ((11 <=? op) && (op <=? 15)) then (w, -1) else
  let w := if (op =? LWSWSOPC_TEXT_FRAME) || (op =? LWSWSOPC_BINARY_FRAME)
           then w {{ rsv_first_msg := c .& 112;
                     frame_is_binary := op =? LWSWSOPC_BINARY_FRAME }}
           else w in
  (w {{ lws_rx_parse_state := RXPS_04_FRAME_HDR_LEN }}, 0).

(** [case LWS_RXPS_04_FRAME_HDR_LEN:] *)
Definition hdr_len (w : lws) (c : Z) : lws * Z :=
  let w := w {{ this_frame_masked := nz (c .& 128) }} in
  if c .& 127 =? 126 then
    if nz (opcode w .& 8) then (w, -1)
    else (w {{ lws_rx_parse_state := RXPS_04_FRAME_HDR_LEN16_2 }}, 0)
  else if c .& 127 =? 127 then
    if nz (opcode w .& 8) then (w, -1)
    else (w {{ lws_rx_parse_state := RXPS_04_FRAME_HDR_LEN64_8 }}, 0)
  else
    let w := w {{ rx_packet_length := c .& 127 }} in
    if this_frame_masked w then (w {{ lws_rx_parse_state := RXPS_07_COLLECT_FRAME_KEY_1 }}, 0)
    else if nz (rx_packet_length w)
    then (w {{ lws_rx_parse_state := RXPS_PAYLOAD_UNTIL_LENGTH_EXHAUSTED }}, 0)
    else rx_spill (w {{ lws_rx_parse_state := RXPS_NEW }}).

(** Where an extended length leads. *)
Definition after_len (w : lws) : lws * Z :=
  (w {{ lws_rx_parse_state := if this_frame_masked w
                              then RXPS_07_COLLECT_FRAME_KEY_1
                              else RXPS_PAYLOAD_UNTIL_LENGTH_EXHAUSTED }}, 0).

(** [rx_packet_length |= ((size_t)c) << sh], compiled only under LP64 for the
    four high bytes. *)
Definition len64_byte (only_lp64 : bool) (sh : Z) (next : rxps) (w : lws) (c : Z) : lws * Z :=
  let w := if only_lp64 && negb lp64 then w
           else w {{ rx_packet_length ::= (fun l => l .| (c .<< sh)) }} in
  (w {{ lws_rx_parse_state := next }}, 0).

(** The extended length states. *)
Definition ext_len (w : lws) (c : Z) : lws * Z :=
  match lws_rx_parse_state w with
  | RXPS_04_FRAME_HDR_LEN16_2 =>
      (w {{ rx_packet_length := c .<< 8; lws_rx_parse_state := RXPS_04_FRAME_HDR_LEN16_1 }}, 0)
  | RXPS_04_FRAME_HDR_LEN16_1 =>
      after_len (w {{ rx_packet_length ::= (fun l => l .| c) }})
  | RXPS_04_FRAME_HDR_LEN64_8 =>
      if nz (c .& 128) then (w, -1)
      else (w {{ rx_packet_length := (if lp64 then c .<< 56 else 0);
                 lws_rx_parse_state := RXPS_04_FRAME_HDR_LEN64_7 }}, 0)
  | RXPS_04_FRAME_HDR_LEN64_7 => len64_byte true 48 RXPS_04_FRAME_HDR_LEN64_6 w c
  | RXPS_04_FRAME_HDR_LEN64_6 => len64_byte true 40 RXPS_04_FRAME_HDR_LEN64_5 w c
  | RXPS_04_FRAME_HDR_LEN64_5 => len64_byte true 32 RXPS_04_FRAME_HDR_LEN64_4 w c
  | RXPS_04_FRAME_HDR_LEN64_4 => len64_byte false 24 RXPS_04_FRAME_HDR_LEN64_3 w c
  | RXPS_04_FRAME_HDR_LEN64_3 => len64_byte false 16 RXPS_04_FRAME_HDR_LEN64_2 w c
  | RXPS_04_FRAME_HDR_LEN64_2 => len64_byte false 8 RXPS_04_FRAME_HDR_LEN64_1 w c
  | _ => after_len (w {{ rx_packet_length ::= (fun l => l .| c) }})
  end.

(** The last byte of the key; a frame without payload ends here. *)
Definition frame_key_4 (w : lws) (c : Z) : lws * Z :=
  let w := (store_mask 3 c w) {{ lws_rx_parse_state := RXPS_PAYLOAD_UNTIL_LENGTH_EXHAUSTED;
                                 mask_idx := 0 }} in
  if rx_packet_length w =? 0
  then rx_spill (w {{ lws_rx_parse_state := RXPS_NEW }})
  else (w, 0).

(** The states that collect the masking key. *)
Definition frame_key (w : lws) (c : Z) : lws * Z :=
  match lws_rx_parse_state w with
  | RXPS_07_COLLECT_FRAME_KEY_1 =>
      ((store_mask 0 c w) {{ lws_rx_parse_state := RXPS_07_COLLECT_FRAME_KEY_2 }}, 0)
  | RXPS_07_COLLECT_FRAME_KEY_2 =>
      ((store_mask 1 c w) {{ lws_rx_parse_state := RXPS_07_COLLECT_FRAME_KEY_3 }}, 0)
  | RXPS_07_COLLECT_FRAME_KEY_3 =>
      ((store_mask 2 c w) {{ lws_rx_parse_state := RXPS_07_COLLECT_FRAME_KEY_4 }}, 0)
  | _ => frame_key_4 w c
  end.

(** The length at which the receive buffer is spilled. *)
Definition spill_size (w : lws) : Z :=
  if nz (rx_buffer_size w) then rx_buffer_size w else pt_serv_buf_size w.

(** Unmask and store one byte of payload. *)
Definition payload_byte (w : lws) (c : Z) : lws :=
  let pos := Z.to_nat (LWS_PRE + rx_ubuf_head w) in
  let w := if all_zero_nonce w
           then w {{ rx_ubuf ::= insert pos c }}
           else w {{ rx_ubuf ::= insert pos (c .^ znth (mask w) (mask_idx w .& 3));
                     mask_idx ::= (fun i => u8 (i + 1)) }} in
  w {{ rx_ubuf_head ::= (fun h => u32 (h + 1));
       rx_packet_length ::= (fun l => wrap SIZE_W (l - 1)) }}.

(** [case LWS_RXPS_PAYLOAD_UNTIL_LENGTH_EXHAUSTED:] *)
Definition payload (w : lws) (c : Z) : lws * Z :=
  if rx_draining_ext w then rx_drain_extension w LWS_CALLBACK_RECEIVE false (mkTok TNull 0) else
  if rx_ubuf_head w + LWS_PRE >=? rx_ubuf_alloc w then (w, -1) else
  let w := payload_byte w c in
  if rx_packet_length w =? 0 then rx_spill (w {{ lws_rx_parse_state := RXPS_NEW }}) else
  if negb (rx_ubuf_head w =? spill_size w) then (w, 0) else rx_spill w.

Definition lws_rx_sm (w : lws) (c : Z) : lws * Z :=
  if socket_is_permanently_unusable w then (w, -1) else
  match lws_rx_parse_state w with
  | RXPS_NEW =>
      if rx_draining_ext w then
        rx_drain_extension (lws_remove_wsi_from_draining_ext_list w)
          LWS_CALLBACK_RECEIVE true (mkTok TNull 0)
      else if ietf_spec_revision w =? 13 then
        handle_first (w {{ all_zero_nonce := true }}) c
      else (w, 0)
  | RXPS_04_mask_1 => ((store_mask 1 c w) {{ lws_rx_parse_state := RXPS_04_mask_2 }}, 0)
  | RXPS_04_mask_2 => ((store_mask 2 c w) {{ lws_rx_parse_state := RXPS_04_mask_3 }}, 0)
  | RXPS_04_mask_3 =>
      ((store_mask 3 c w) {{ mask_idx := 0; lws_rx_parse_state := RXPS_04_FRAME_HDR_1 }}, 0)
  | RXPS_04_FRAME_HDR_1 => handle_first w c
  | RXPS_04_FRAME_HDR_LEN => hdr_len w c
  | RXPS_07_COLLECT_FRAME_KEY_1 | RXPS_07_COLLECT_FRAME_KEY_2
  | RXPS_07_COLLECT_FRAME_KEY_3 | RXPS_07_COLLECT_FRAME_KEY_4 => frame_key w c
  | RXPS_PAYLOAD_UNTIL_LENGTH_EXHAUSTED => payload w c
  | _ => ext_len w c
  end.

(** ** The bulk path *)

(** The key rotated to the current position. *)
Definition rot_mask (w : lws) : bytes :=
  map (fun n => znth (mask w) ((mask_idx w + n) .& 3)) [0; 1; 2; 3].

(** The unrolled loop over groups of four and the loop over the rest. *)
Fixpoint xor4 (m : bytes) (l : bytes) : bytes :=
  match l with
  | a :: b :: c :: d :: r =>
      (a .^ znth m 0) :: (b .^ znth m 1) :: (c .^ znth m 2) :: (d .^ znth m 3) :: xor4 m r
  | [a; b; c] => [a .^ znth m 0; b .^ znth m 1; c .^ znth m 2]
  | [a; b] => [a .^ znth m 0; b .^ znth m 1]
  | [a] => [a .^ znth m 0]
  | [] => []
  end.

(** Gives the connection, what is left of the buffer and the count consumed. *)
Definition lws_payload_until_length_exhausted (w : lws) (buf : bytes) : lws * bytes * Z :=
  let avail := u32 (spill_size w - rx_ubuf_head w) in
  let avail := if avail >? rx_packet_length w then u32 (rx_packet_length w) else avail in
  let avail := if avail >? zlen buf then u32 (zlen buf) else avail in
  if avail <=? 1 then (w, buf, 0) else
  let avail := avail - 1 in
  let src := take (Z.to_nat avail) buf in
  let pos := Z.to_nat (LWS_PRE + rx_ubuf_head w) in
  let w := if all_zero_nonce w
           then w {{ rx_ubuf ::= splice pos src }}
           else w {{ rx_ubuf ::= splice pos (xor4 (rot_mask w) src);
                     mask_idx ::= (fun i => (i + avail) .& 3) }} in
  (w {{ rx_ubuf_head ::= (fun h => u32 (h + avail));
        rx_packet_length ::= (fun l => wrap SIZE_W (l - avail)) }},
   drop (Z.to_nat avail) buf, avail).

(** service.c; when the allocation fails the rest of the packet is lost, the
    caller does not look at the result. *)
Definition lws_rxflow_cache (w : lws) (buf : bytes) : lws :=
  match rxflow_buffer w with
  | Some _ => w
  | None => if malloc_ok w (zlen buf) then w {{ rxflow_buffer := Some buf; rxflow_pos := 0 }} else w
  end.

(** server.c: the loop over a packet.  A round that drains an extension
    consumes nothing, so the rounds are bounded by [fuel]; [None] stands for
    running out of it. *)
Fixpoint lws_interpret_incoming_packet (fuel : nat) (w : lws) (buf : bytes) : option (lws * Z) :=
  match fuel with
  | O => None
  | S fuel =>
      match buf with
      | [] => Some (w, 0)
      | _ =>
          if negb (nz (rxflow_change_to w .& LWS_RXFLOW_ALLOW)) then
            Some (lws_rxflow_cache w buf, 1)
          else if rx_draining_ext w then
            let '(w, m) := lws_rx_sm w 0 in
            if m <? 0 then Some (w, -1) else lws_interpret_incoming_packet fuel w buf
          else
            let w := match rxflow_buffer w with
                     | Some _ => w {{ rxflow_pos ::= Z.add 1 }} | None => w end in
            let '(w, buf) :=
              if bool_decide (lws_rx_parse_state w = RXPS_PAYLOAD_UNTIL_LENGTH_EXHAUSTED) then
                let '(w, buf, m) := lws_payload_until_length_exhausted w buf in
                (match rxflow_buffer w with
                 | Some _ => w {{ rxflow_pos ::= Z.add m }} | None => w end, buf)
              else (w, buf) in
            match buf with
            | [] => Some (w, 0)
            | c :: buf =>
                let '(w, m) := lws_rx_sm w c in
                if m <? 0 then Some (w, -1) else lws_interpret_incoming_packet fuel w buf
            end
      end
  end.

End Rx.
