(* ===== verification/WsRxFacts.v ===== *)
(** * What the server receiver delivers

    RFC 6455 frames, the invariant of an established connection, and the
    theorems on [lws_rx_sm] and [lws_interpret_incoming_packet]. *)

From S2P Require Import Prelude Ws WsRx.

(** ** Specification: RFC 6455 framing *)

(** Masking with the key bytes taken from position [i] on. *)
Fixpoint mask_from (key : bytes) (i : Z) (p : bytes) : bytes :=
  match p with
  | [] => []
  | x :: r => (x .^ znth key (i mod 4)) :: mask_from key (i + 1) r
  end.

Lemma length_mask_from key src : forall i, length (mask_from key i src) = length src.
Proof. induction src as [|x src IH]; intros i; cbn [mask_from length]; by rewrite ?IH. Qed.

(** The length field: 7, 16 or 63 bits, big-endian. *)
Definition rfc_len (mbit n : Z) : bytes :=
  if n <? 126 then [mbit .| n]
  else if n <? 65536 then [mbit .| 126; n .>> 8; n .& 255]
  else (mbit .| 127) :: map (fun i => (n .>> (8 * i)) .& 255) [7; 6; 5; 4; 3; 2; 1; 0].

(** A frame with first byte [b0], masked when a key is given. *)
Definition rfc_frame (b0 : Z) (key : option bytes) (p : bytes) : bytes :=
  match key with
  | Some k => b0 :: rfc_len 128 (zlen p) ++ k ++ mask_from k 0 p
  | None => b0 :: rfc_len 0 (zlen p) ++ p
  end.

(** How a payload reaches the user: pieces of [S] bytes, the last one shorter;
    [g] is what has been gathered already. *)
Fixpoint deliver (S : Z) (g p : bytes) : list bytes :=
  match p with
  | [] => []
  | x :: r =>
      let g := g ++ [x] in
      match r with
      | [] => [g]
      | _ => if zlen g =? S then g :: deliver S [] r else deliver S g r
      end
  end.

Lemma deliver_concat S p : forall g, p <> [] -> concat (deliver S g p) = g ++ p.
Proof.
  induction p as [|x p IH]; intros g Hp; [done|]. cbn [deliver]. destruct p as [|y p].
  { cbn. by rewrite app_nil_r. }
  case_match; cbn [concat]; rewrite IH by done; by rewrite <- app_assoc.
Qed.

Lemma deliver_bounded S p : forall g, 0 < S -> zlen g < S ->
  Forall (fun d => 0 < zlen d <= S) (deliver S g p).
Proof.
  induction p as [|x p IH]; intros g HS Hg; cbn [deliver]; [constructor|].
  assert (E : zlen (g ++ [x]) = zlen g + 1) by (rewrite zlen_app; done).
  pose proof (zlen_nonneg g).
  destruct p as [|y p]; [constructor; [lia|constructor]|].
  case_match; zbool.
  - constructor; [lia|]. apply IH; [done|]. change (zlen []) with 0. lia.
  - apply IH; [done|lia].
Qed.

(** ** An established connection *)

Section Facts.
Context `{LwsEnv}.

(** Feed bytes to the state machine until it refuses one. *)
Fixpoint rx_bytes (w : lws) (l : bytes) : lws * Z :=
  match l with
  | [] => (w, 0)
  | c :: r => let '(w, m) := lws_rx_sm w c in if m <? 0 then (w, -1) else rx_bytes w r
  end.

(** What handshake_0405 and the handshake code of server.c set up. *)
Record Ready (w : lws) : Prop := {
  rd_usable : socket_is_permanently_unusable w = false;
  rd_rev : ietf_spec_revision w = 13;
  rd_ext : count_act_ext w = 0%nat;
  rd_drain : rx_draining_ext w = false;
  rd_state : state w = LWSS_ESTABLISHED;
  rd_size : 0 < spill_size w < 2 ^ 32 - LWS_PRE;
  rd_alloc : rx_ubuf_alloc w = LWS_PRE + spill_size w;
  rd_ubuf : length (rx_ubuf w) = Z.to_nat (rx_ubuf_alloc w + 4);
  rd_mask : length (mask w) = 4%nat;
  rd_flow : rxflow_change_to w = LWS_RXFLOW_ALLOW
}.

Lemma rx_bytes_app w l k :
  rx_bytes w (l ++ k) = (let '(w', m) := rx_bytes w l in if m <? 0 then (w', -1) else rx_bytes w' k).
Proof.
  revert w. induction l as [|c l IH]; intros w; cbn [rx_bytes app]; [done|].
  destruct (lws_rx_sm w c) as [w1 m1]. destruct (m1 <? 0); [done|]. apply IH.
Qed.

Lemma rx_bytes_cons0 w c l w' : lws_rx_sm w c = (w', 0) -> rx_bytes w (c :: l) = rx_bytes w' l.
Proof. intros E. cbn [rx_bytes]. by rewrite E. Qed.

(** [Ready] only depends on what the receiver does not change. *)
Lemma ready_ext w w' : Ready w ->
  socket_is_permanently_unusable w' = socket_is_permanently_unusable w ->
  ietf_spec_revision w' = ietf_spec_revision w -> count_act_ext w' = count_act_ext w ->
  rx_draining_ext w' = rx_draining_ext w -> state w' = state w -> spill_size w' = spill_size w ->
  rx_ubuf_alloc w' = rx_ubuf_alloc w -> length (rx_ubuf w') = length (rx_ubuf w) ->
  length (mask w') = 4%nat -> rxflow_change_to w' = rxflow_change_to w -> Ready w'.
Proof. intros [] E1 E2 E3 E4 E5 E6 E7 E8 E9 E10. constructor; congruence. Qed.

(** Storing one more byte of a frame. *)
Definition push (w : lws) (c : Z) : lws :=
  w {{ rx_ubuf ::= insert (Z.to_nat (LWS_PRE + rx_ubuf_head w))
         (if all_zero_nonce w then c else c .^ znth (mask w) (mask_idx w .& 3));
       mask_idx ::= (fun i => if all_zero_nonce w then i else u8 (i + 1));
       rx_ubuf_head ::= Z.add 1;
       rx_packet_length ::= Z.add (-1) }}.

Ltac ready := match goal with R : Ready _ |- _ => destruct R end; constructor; cbn in *; done || lia.

Lemma push_ready w c : Ready w -> Ready (push w c).
Proof.
  intros R. destruct w. destruct R. unfold spill_size in *. constructor; cbn in *; try done.
  by rewrite length_insert.
Qed.

Lemma push_data w c : Ready w -> 0 <= rx_ubuf_head w < spill_size w ->
  ubuf_data (push w c) (rx_ubuf_head w + 1) =
  ubuf_data w (rx_ubuf_head w) ++ [if all_zero_nonce w then c else c .^ znth (mask w) (mask_idx w .& 3)].
Proof.
  intros R Hh. destruct R as [_ _ _ _ _ Hs Ha Hu _ _]. unfold ubuf_data, push, spill_size in *.
  destruct w. cbn in *.
  replace (Z.to_nat (rx_ubuf_head + 1)) with (S (Z.to_nat rx_ubuf_head)) by lia.
  rewrite Z2Nat.inj_add by (unfold LWS_PRE; lia). apply fill_insert.
  rewrite Hu, Ha. unfold LWS_PRE in *. lia.
Qed.

(** A payload byte that neither ends the frame nor fills the buffer. *)
Lemma rx_payload_store w c : Ready w -> lws_rx_parse_state w = RXPS_PAYLOAD_UNTIL_LENGTH_EXHAUSTED ->
  0 <= rx_ubuf_head w < spill_size w -> 0 < rx_packet_length w < 2 ^ SIZE_W ->
  lws_rx_sm w c =
  if rx_packet_length w =? 1 then rx_spill ((push w c) {{ lws_rx_parse_state := RXPS_NEW }})
  else if rx_ubuf_head w + 1 =? spill_size w then rx_spill (push w c) else (push w c, 0).
Proof.
  intros R Hst Hh Hl. destruct R as [Hu _ _ Hd _ Hs Ha _ _ _]. unfold lws_rx_sm, payload, payload_byte.
  rewrite Hu, Hst, Hd, Ha, Z.geb_leb, (proj2 (Z.leb_gt _ _)) by lia.
  assert (Ew : wrap SIZE_W (rx_packet_length w - 1) = -1 + rx_packet_length w)
    by (rewrite wrap_small; lia).
  assert (Eh : u32 (rx_ubuf_head w + 1) = 1 + rx_ubuf_head w) by (rewrite u32_small; unfold LWS_PRE in *; lia).
  unfold push. destruct w. cbn in *. unfold spill_size in *. cbn in *.
  destruct all_zero_nonce; cbn; rewrite Ew, Eh.
  - replace (-1 + rx_packet_length =? 0) with (rx_packet_length =? 1) by (apply eq_true_iff_eq; rewrite !Z.eqb_eq; lia).
    destruct (rx_packet_length =? 1); [done|].
    rewrite (Z.add_comm 1). by destruct (rx_ubuf_head + 1 =? _).
  - replace (-1 + rx_packet_length =? 0) with (rx_packet_length =? 1) by (apply eq_true_iff_eq; rewrite !Z.eqb_eq; lia).
    destruct (rx_packet_length =? 1); [done|].
    rewrite (Z.add_comm 1). by destruct (rx_ubuf_head + 1 =? _).
Qed.

Definition data_op (op : Z) : Prop :=
  op = LWSWSOPC_TEXT_FRAME \/ op = LWSWSOPC_BINARY_FRAME \/ op = LWSWSOPC_CONTINUATION.

(** The connection after the gathered bytes have been given to the user. *)
Definition delivered (w : lws) : lws :=
  (if rx_ubuf_head w >? 0
   then (run_callback (store_nul w (mkTok TUbuf (rx_ubuf_head w))) LWS_CALLBACK_RECEIVE
           (ubuf_data w (rx_ubuf_head w))).1
   else w) {{ rx_ubuf_head := 0 }}.

Lemma ubuf_data_nul w n : 0 <= n -> ubuf_data (store_nul w (mkTok TUbuf n)) n = ubuf_data w n.
Proof.
  intros Hn. unfold ubuf_data, store_nul. destruct w. cbn.
  apply fill_insert_ge. unfold LWS_PRE. lia.
Qed.

Lemma flow_allowed w : rxflow_change_to w = LWS_RXFLOW_ALLOW -> lws_rx_flow_control w = (w, 0).
Proof. intros E. unfold lws_rx_flow_control. by rewrite E. Qed.

Context `{!TakingCallback}.

Lemma callback_run w r d : rx_reason r ->
  exists w', run_callback w r d = (w', 0) /\ user_acts r (emit (ECallback r d) w) w'.
Proof.
  intros Hr. unfold run_callback. pose proof (taking_result (emit (ECallback r d) w) r d Hr) as E.
  pose proof (taking_acts (emit (ECallback r d) w) r d Hr) as A.
  destruct (protocol_callback _ r d) as [w' n]. cbn in E, A. subst. by exists w'.
Qed.

(** What a callback that takes the data leaves of the connection. *)
Lemma acts_ready r w w' : user_acts r w w' -> Ready w -> Ready w'.
Proof.
  intros (t & pt & pb & cl & mk & mi & ev & -> & _ & Em & _) R.
  pose proof (rd_mask _ R) as Hm. apply (ready_ext w); [done|destruct w; try done..].
  unfold constant in *. cbn in *. by rewrite Em.
Qed.

Lemma acts_fields r w w' : user_acts r w w' ->
  rx_ubuf w' = rx_ubuf w /\ rx_ubuf_head w' = rx_ubuf_head w /\ lws_rx_parse_state w' = lws_rx_parse_state w /\
  rx_packet_length w' = rx_packet_length w /\ opcode w' = opcode w /\ all_zero_nonce w' = all_zero_nonce w /\
  spill_size w' = spill_size w /\ rxflow_change_to w' = rxflow_change_to w /\ state w' = state w /\
  calls (events w') = calls (events w).
Proof.
  intros (t & pt & pb & cl & mk & mi & ev & -> & _ & _ & _ & Ev). unfold spill_size.
  by destruct w.
Qed.

Lemma callback_taken w r d : rxflow_change_to w = LWS_RXFLOW_ALLOW -> rx_reason r ->
  user_callback_handle_rxflow w r d = ((run_callback w r d).1, 0).
Proof.
  intros E Hr. unfold user_callback_handle_rxflow. destruct (callback_run w r d Hr) as (w' & -> & A).
  cbn [Z.eqb fst]. apply flow_allowed. destruct (acts_fields _ _ _ A) as (_ & _ & _ & _ & _ & _ & _ & -> & _).
  by destruct w.
Qed.

(** With no extension a spilled data frame goes to the user callback as it is. *)
Lemma rx_spill_data w : Ready w -> 0 <= rx_ubuf_head w -> data_op (opcode w) ->
  rx_spill w = (delivered w, 0).
Proof.
  intros R Hh Hop. unfold rx_spill, rx_drain_extension, delivered.
  assert (E : (opcode w =? LWSWSOPC_CLOSE) = false /\ (opcode w =? LWSWSOPC_PING) = false /\
              (opcode w =? LWSWSOPC_PONG) = false /\
              ((opcode w =? LWSWSOPC_TEXT_FRAME) || (opcode w =? LWSWSOPC_BINARY_FRAME)
               || (opcode w =? LWSWSOPC_CONTINUATION)) = true)
    by (destruct Hop as [->|[->| ->]]; done).
  destruct E as (-> & -> & -> & ->). rewrite (rd_state _ R), (ext_none _ _ _ (rd_ext _ R)).
  cbn [bool_decide orb Z.ltb Z.compare andb token_len].
  change (nz 0) with false. cbn [andb]. unfold lws_remove_wsi_from_draining_ext_list. rewrite (rd_drain _ R).
  change (LWS_CALLBACK_RECEIVE =? LWS_CALLBACK_RECEIVE_PONG) with false. rewrite orb_false_r.
  destruct (rx_ubuf_head w >? 0) eqn:Eh; [|done].
  rewrite taking_present, callback_taken; [|destruct R; by destruct w|rx_reason_tac].
  cbn [tok_data tok token_len fst]. unfold already_done. by rewrite ubuf_data_nul.
Qed.

(** The bytes and the callback of a delivery. *)
Lemma delivered_acts w : 0 < rx_ubuf_head w -> exists v,
  delivered w = v {{ rx_ubuf_head := 0 }} /\
  user_acts LWS_CALLBACK_RECEIVE (emit (ECallback LWS_CALLBACK_RECEIVE (ubuf_data w (rx_ubuf_head w)))
                                    (store_nul w (mkTok TUbuf (rx_ubuf_head w)))) v.
Proof.
  intros Hh. unfold delivered. rewrite Z.gtb_ltb, (proj2 (Z.ltb_lt _ _)) by done.
  destruct (callback_run (store_nul w (mkTok TUbuf (rx_ubuf_head w))) LWS_CALLBACK_RECEIVE
    (ubuf_data w (rx_ubuf_head w)) ltac:(rx_reason_tac)) as (v & -> & A).
  by exists v.
Qed.

Lemma delivered_none w : ~ 0 < rx_ubuf_head w -> delivered w = w {{ rx_ubuf_head := 0 }}.
Proof. intros Hh. unfold delivered. by rewrite Z.gtb_ltb, (proj2 (Z.ltb_ge _ _)) by lia. Qed.

Lemma set_head_ready w n : Ready w -> Ready (w {{ rx_ubuf_head := n }}).
Proof. intros R. apply (ready_ext w); [done|destruct w; try done; apply R..]. Qed.

Lemma delivered_ready w : Ready w -> Ready (delivered w).
Proof.
  intros R. destruct (decide (0 < rx_ubuf_head w)) as [Hh|Hh].
  - destruct (delivered_acts w Hh) as (v & -> & A). apply set_head_ready, (acts_ready _ _ _ A).
    apply (ready_ext w); [done|destruct w; cbn; try done; apply R || by rewrite length_insert..].
  - rewrite delivered_none by done. by apply set_head_ready.
Qed.

Lemma mask_from_mod key p : forall i j, i mod 4 = j mod 4 -> mask_from key i p = mask_from key j p.
Proof.
  induction p as [|x p IH]; intros i j E; cbn [mask_from]; [done|].
  rewrite E. f_equal. apply IH. by rewrite (Zplus_mod i), (Zplus_mod j), E.
Qed.

Lemma land3_mod i : i .& 3 = i mod 4.
Proof. apply (land_ones_mod i 2). lia. Qed.

Lemma u8_mod4 i : u8 i mod 4 = i mod 4.
Proof. unfold u8, wrap. apply Z.mod_mod_divide. by exists 64. Qed.

(** The wire form of a payload at the connection's position in the key. *)
Definition wire (w : lws) (p : bytes) : bytes :=
  if all_zero_nonce w then p else mask_from (mask w) (mask_idx w) p.

(** One byte of payload off the wire. *)
Lemma wire_cons w x p : wire w (x :: p) =
  (if all_zero_nonce w then x else x .^ znth (mask w) (mask_idx w .& 3))
  :: wire (push w 0) p.
Proof.
  unfold wire, push. destruct w. cbn. destruct all_zero_nonce; [done|].
  cbn [mask_from]. rewrite land3_mod. f_equal. apply mask_from_mod. by rewrite u8_mod4.
Qed.

Lemma wire_ext w w' p : all_zero_nonce w = all_zero_nonce w' -> mask w = mask w' ->
  mask_idx w = mask_idx w' -> wire w p = wire w' p.
Proof. unfold wire. by intros -> -> ->. Qed.

(** The parse position inside a data frame whose payload [p] is still to come. *)
Record InPayload (w : lws) (p : bytes) : Prop := {
  ip_ready : Ready w;
  ip_state : lws_rx_parse_state w = RXPS_PAYLOAD_UNTIL_LENGTH_EXHAUSTED;
  ip_head : 0 <= rx_ubuf_head w < spill_size w;
  ip_len : rx_packet_length w = zlen p;
  ip_max : zlen p < 2 ^ SIZE_W;
  ip_op : data_op (opcode w)
}.

(** The connection between frames. *)
Record Idle (w : lws) : Prop := {
  id_ready : Ready w;
  id_state : lws_rx_parse_state w = RXPS_NEW;
  id_head : rx_ubuf_head w = 0
}.

(** The parts of the receive state a delivery leaves alone. *)
Definition same_frame (w w' : lws) : Prop :=
  lws_rx_parse_state w' = lws_rx_parse_state w /\ rx_packet_length w' = rx_packet_length w /\
  opcode w' = opcode w /\ mask w' = mask w /\ mask_idx w' = mask_idx w /\
  all_zero_nonce w' = all_zero_nonce w /\ spill_size w' = spill_size w.

Lemma delivered_frame w : same_frame w (delivered w).
Proof.
  destruct (decide (0 < rx_ubuf_head w)) as [Hh|Hh].
  - destruct (delivered_acts w Hh) as (v & -> & (t & pt & pb & cl & mk & mi & ev & -> & _ & _ & Em & _)).
    destruct (Em eq_refl) as [-> ->]. unfold same_frame, spill_size. by destruct w.
  - rewrite delivered_none by done. unfold same_frame, spill_size. by destruct w.
Qed.

Lemma delivered_head w : rx_ubuf_head (delivered w) = 0.
Proof. unfold delivered. by destruct (if rx_ubuf_head w >? 0 then _ else _). Qed.

Lemma delivered_events w : 0 < rx_ubuf_head w -> calls (events (delivered w)) =
  calls (events w) ++ [ECallback LWS_CALLBACK_RECEIVE (ubuf_data w (rx_ubuf_head w))].
Proof.
  intros Hh. destruct (delivered_acts w Hh) as (v & -> & A).
  destruct (acts_fields _ _ _ A) as (_ & _ & _ & _ & _ & _ & _ & _ & _ & E).
  replace (events (v {{ rx_ubuf_head := 0 }})) with (events v) by (by destruct v). rewrite E.
  unfold emit, store_nul. destruct w. cbn. by rewrite calls_app.
Qed.

Lemma zlen_ubuf w : Ready w -> 0 <= rx_ubuf_head w <= spill_size w ->
  zlen (ubuf_data w (rx_ubuf_head w)) = rx_ubuf_head w.
Proof.
  intros [_ _ _ _ _ _ Ha Hu _ _] Hh. unfold ubuf_data, zlen. rewrite length_take, length_drop, Hu, Ha.
  unfold LWS_PRE. lia.
Qed.

(** What the byte [c] on the wire stands for. *)
Definition plain (w : lws) (c : Z) : Z :=
  if all_zero_nonce w then c else c .^ znth (mask w) (mask_idx w .& 3).

Lemma plain_plain w x : plain w (plain w x) = x.
Proof. unfold plain. destruct (all_zero_nonce w); [done|apply lxor_cancel]. Qed.

Lemma push_fields w c :
  rx_ubuf_head (push w c) = rx_ubuf_head w + 1 /\ rx_packet_length (push w c) = rx_packet_length w - 1 /\
  lws_rx_parse_state (push w c) = lws_rx_parse_state w /\ opcode (push w c) = opcode w /\
  spill_size (push w c) = spill_size w /\ events (push w c) = events w.
Proof. unfold push, spill_size. destruct w. cbn. repeat split; lia. Qed.

Lemma set_state_ready w s : Ready w -> Ready (w {{ lws_rx_parse_state := s }}).
Proof. intros R. destruct w. destruct R. unfold spill_size in *. by constructor. Qed.

(** The last byte of the payload. *)
Lemma payload_last w x : InPayload w [x] ->
  exists w', lws_rx_sm w (plain w x) = (w', 0) /\ Idle w' /\ spill_size w' = spill_size w /\
    calls (events w') = calls (events w) ++ [ECallback LWS_CALLBACK_RECEIVE (ubuf_data w (rx_ubuf_head w) ++ [x])].
Proof.
  intros [R Hst Hh Hl Hm Hop]. change (zlen [x]) with 1 in *.
  rewrite (rx_payload_store w _ R Hst Hh) by lia. rewrite Hl. cbn [Z.eqb Pos.eqb].
  pose proof (push_data w (plain w x) R Hh) as Ed. fold (plain w (plain w x)) in Ed.
  rewrite plain_plain in Ed. destruct (push_fields w (plain w x)) as (Fh & _ & _ & Fo & Fs & Fe).
  pose proof (set_state_ready _ RXPS_NEW (push_ready w (plain w x) R)) as R1.
  set (w1 := push w (plain w x)) in *. set (w2 := w1 {{ lws_rx_parse_state := RXPS_NEW }}) in *.
  assert (F2 : rx_ubuf_head w2 = rx_ubuf_head w1 /\ opcode w2 = opcode w1 /\ events w2 = events w1 /\
    spill_size w2 = spill_size w1 /\ lws_rx_parse_state w2 = RXPS_NEW /\ rx_ubuf w2 = rx_ubuf w1)
    by (by destruct w1).
  destruct F2 as (F2h & F2o & F2e & F2s & F2p & F2u).
  rewrite rx_spill_data by (done || lia || by rewrite F2o, Fo).
  exists (delivered w2). destruct (delivered_frame w2) as (D1 & _ & _ & _ & _ & _ & D7).
  split; [done|]. split; [split; [by apply delivered_ready|congruence|apply delivered_head]|].
  split; [congruence|]. rewrite delivered_events by lia. rewrite F2e, Fe. do 3 f_equal.
  rewrite <- Ed, F2h, Fh. unfold ubuf_data. by rewrite F2u.
Qed.

(** A byte of the payload with more to come. *)
Lemma payload_more w x p : p <> [] -> InPayload w (x :: p) ->
  exists w', lws_rx_sm w (plain w x) = (w', 0) /\ InPayload w' p /\
    wire w (x :: p) = plain w x :: wire w' p /\ spill_size w' = spill_size w /\
    let g := ubuf_data w (rx_ubuf_head w) ++ [x] in
    if zlen g =? spill_size w
    then ubuf_data w' (rx_ubuf_head w') = [] /\
         calls (events w') = calls (events w) ++ [ECallback LWS_CALLBACK_RECEIVE g]
    else ubuf_data w' (rx_ubuf_head w') = g /\ calls (events w') = calls (events w).
Proof.
  intros Hp [R Hst Hh Hl Hm Hop]. rewrite zlen_cons in *.
  assert (Hpos : 0 < zlen p) by (destruct p; [done|rewrite zlen_cons; pose proof (zlen_nonneg p); lia]).
  rewrite (rx_payload_store w _ R Hst Hh) by lia. rewrite (proj2 (Z.eqb_neq _ 1)) by lia.
  pose proof (push_data w (plain w x) R Hh) as Ed. fold (plain w (plain w x)) in Ed.
  rewrite plain_plain in Ed. pose proof (zlen_ubuf w R ltac:(lia)) as Ez.
  destruct (push_fields w (plain w x)) as (Fh & Fl & Fp & Fo & Fs & Fe).
  pose proof (push_ready w (plain w x) R) as R1.
  assert (Ew : wire w (x :: p) = plain w x :: wire (push w (plain w x)) p).
  { rewrite wire_cons. fold (plain w x). apply f_equal. by apply wire_ext; destruct w. }
  set (w1 := push w (plain w x)) in *. cbv zeta. rewrite zlen_app, Ez. change (zlen [x]) with 1.
  destruct (rx_ubuf_head w + 1 =? spill_size w) eqn:Efull; zbool.
  - rewrite rx_spill_data by (done || lia || by rewrite Fo).
    destruct (delivered_frame w1) as (D1 & D2 & D3 & D4 & D5 & D6 & D7).
    pose proof (delivered_head w1) as Dh.
    exists (delivered w1). split; [done|]. split.
    { split; [by apply delivered_ready|congruence|rewrite Dh; pose proof (rd_size _ R); lia|lia|lia|by rewrite D3, Fo]. }
    split; [rewrite Ew; f_equal; by apply wire_ext|]. split; [congruence|].
    rewrite Dh. split; [done|]. rewrite delivered_events by lia. by rewrite Fe, Fh, Ed.
  - exists w1. split; [done|]. split; [split; [done|congruence|lia|lia|lia|by rewrite Fo]|].
    split; [done|]. split; [done|]. by rewrite Fh.
Qed.

Lemma wire_cons' w x p : exists q, wire w (x :: p) = plain w x :: q.
Proof. eexists. apply wire_cons. Qed.

Lemma rx_payload p : forall w, p <> [] -> InPayload w p ->
  exists w', rx_bytes w (wire w p) = (w', 0) /\ Idle w' /\ spill_size w' = spill_size w /\
    calls (events w') = calls (events w) ++ map (ECallback LWS_CALLBACK_RECEIVE)
                  (deliver (spill_size w) (ubuf_data w (rx_ubuf_head w)) p).
Proof.
  induction p as [|x p IH]; intros w Hp Hip; [done|]. destruct p as [|y p].
  - destruct (payload_last w x Hip) as (w' & E & Hid & Hs & He). exists w'.
    rewrite wire_cons. fold (plain w x). rewrite (rx_bytes_cons0 _ _ _ _ E).
    unfold wire. by case_match.
  - destruct (payload_more w x (y :: p) ltac:(done) Hip) as (w1 & E & Hip1 & Ew & Es & Hd).
    destruct (IH w1 ltac:(done) Hip1) as (w' & E' & Hid & Es' & He').
    exists w'. rewrite Ew, (rx_bytes_cons0 _ _ _ _ E). rewrite Es in *.
    split; [done|]. split; [done|]. split; [done|].
    change (deliver (spill_size w) (ubuf_data w (rx_ubuf_head w)) (x :: y :: p)) with
      (let g := ubuf_data w (rx_ubuf_head w) ++ [x] in
       if zlen g =? spill_size w then g :: deliver (spill_size w) [] (y :: p)
       else deliver (spill_size w) g (y :: p)).
    cbv zeta in Hd |- *. rewrite He'. destruct (zlen _ =? spill_size w); destruct Hd as [-> ->].
    + by rewrite <- app_assoc.
    + done.
Qed.

(** ** The header *)

(** Lengths the build can represent: 63 bits, or 32 where size_t is narrower. *)
Definition len_limit : Z := if lp64 then 2 ^ 63 else 2 ^ 32.

Lemma rx_sm_open w c : Ready w -> lws_rx_sm w c =
  match lws_rx_parse_state w with
  | RXPS_NEW => handle_first (w {{ all_zero_nonce := true }}) c
  | RXPS_04_mask_1 => ((store_mask 1 c w) {{ lws_rx_parse_state := RXPS_04_mask_2 }}, 0)
  | RXPS_04_mask_2 => ((store_mask 2 c w) {{ lws_rx_parse_state := RXPS_04_mask_3 }}, 0)
  | RXPS_04_mask_3 =>
      ((store_mask 3 c w) {{ mask_idx := 0; lws_rx_parse_state := RXPS_04_FRAME_HDR_1 }}, 0)
  | RXPS_04_FRAME_HDR_1 => handle_first w c
  | RXPS_04_FRAME_HDR_LEN => hdr_len w c
  | RXPS_07_COLLECT_FRAME_KEY_1 | RXPS_07_COLLECT_FRAME_KEY_2
  | RXPS_07_COLLECT_FRAME_KEY_3 | RXPS_07_COLLECT_FRAME_KEY_4 => frame_key w c
  | RXPS_PAYLOAD_UNTIL_LENGTH_EXHAUSTED => payload w c
  | _ => ext_len w c
  end.
Proof. intros R. unfold lws_rx_sm. by rewrite (rd_usable _ R), (rd_drain _ R), (rd_rev _ R). Qed.

(** The byte that carries the mask bit and the 7-bit length. *)
Definition mbit (msk : bool) : Z := if msk then 128 else 0.

Lemma mbit_len msk n : 0 <= n < 128 ->
  (mbit msk .| n) .& 127 = n /\ nz ((mbit msk .| n) .& 128) = msk.
Proof.
  intros Hn.
  pose (P := fun n => (n >=? 128) || (((mbit msk .| n) .& 127 =? n) && Bool.eqb (nz ((mbit msk .| n) .& 128)) msk)).
  assert (HP : P n = true) by (apply forall_u8; [by destruct msk; vm_compute|unfold is_u8; lia]).
  unfold P in HP. apply orb_prop in HP as [HP|HP]; zbool; [lia|].
  split; [done|]. by apply Bool.eqb_prop.
Qed.

Lemma data_op_ctl op : data_op op -> nz (op .& 8) = false.
Proof. by intros [->|[->| ->]]. Qed.

(** Where the parser is once the length is known. *)
Definition with_len (w : lws) (msk : bool) (n : Z) : lws :=
  w {{ this_frame_masked := msk; rx_packet_length := n;
       lws_rx_parse_state := if msk then RXPS_07_COLLECT_FRAME_KEY_1
                             else RXPS_PAYLOAD_UNTIL_LENGTH_EXHAUSTED }}.

Lemma rx_len7 w msk n : Ready w -> lws_rx_parse_state w = RXPS_04_FRAME_HDR_LEN ->
  0 <= n < 126 -> msk = true \/ 0 < n ->
  rx_bytes w [mbit msk .| n] = (with_len w msk n, 0).
Proof.
  intros R Hst Hn Hm. cbn [rx_bytes]. rewrite (rx_sm_open _ _ R), Hst. unfold hdr_len.
  destruct (mbit_len msk n) as [-> ->]; [lia|].
  rewrite (proj2 (Z.eqb_neq n 126)), (proj2 (Z.eqb_neq n 127)) by lia.
  unfold with_len. destruct w. rcbn. destruct msk; [done|].
  destruct Hm as [|Hm]; [done|]. unfold nz. by rewrite (proj2 (Z.eqb_neq n 0)) by lia.
Qed.

(** The states of the extended length, run in one go. *)
Lemma rx_len16 w msk n : Ready w -> lws_rx_parse_state w = RXPS_04_FRAME_HDR_LEN ->
  data_op (opcode w) -> 0 <= n < 65536 ->
  rx_bytes w [mbit msk .| 126; n .>> 8; n .& 255] = (with_len w msk n, 0).
Proof.
  intros R Hst Hop Hn. cbn [rx_bytes]. rewrite (rx_sm_open _ _ R), Hst. unfold hdr_len.
  destruct (mbit_len msk 126) as [-> ->]; [lia|]. cbn [Z.eqb Pos.eqb].
  replace (opcode (w {{ this_frame_masked := msk }})) with (opcode w) by (by destruct w).
  rewrite data_op_ctl by done. cbn [Z.ltb Z.compare].
  assert (En : ((n .>> 8) .<< 8) .| (n .& 255) = n).
  { pose proof (lor_next_byte n 0 ltac:(lia)) as E.
    rewrite Z.add_0_l, !Z.shiftl_0_r, !Z.shiftr_0_r in E. exact E. }
  unfold lws_rx_sm. pose proof (rd_usable _ R) as Hu. unfold with_len. destruct w. cbn in Hu. subst.
  rcbn. rewrite En. by destruct msk.
Qed.

(** The connection in a state of the extended length with [l] assembled. *)
Definition at_len (w : lws) (st : rxps) (l : Z) : lws :=
  w {{ rx_packet_length := l; lws_rx_parse_state := st }}.

Lemma at_len_ready w st l : Ready w -> Ready (at_len w st l).
Proof. intros R. destruct w. destruct R. unfold spill_size in *. by constructor. Qed.

(** One byte of the 63-bit length, [j] bits from the bottom. *)
Lemma len64_byte_at w n j only st st' : 0 <= n < len_limit -> 0 <= j -> (only = true -> 32 <= j) ->
  len64_byte only j st' (at_len w st ((n .>> (j + 8)) .<< (j + 8))) ((n .>> j) .& 255) =
    (at_len w st' ((n .>> j) .<< j), 0).
Proof.
  intros Hn Hj Ho. unfold len64_byte, at_len. unfold len_limit in Hn.
  rewrite <- (lor_next_byte n j) by done. destruct (only && negb lp64) eqn:E; [|by destruct w].
  apply andb_prop in E as [-> Elp]. destruct lp64; [done|]. specialize (Ho eq_refl).
  assert (Ez : forall k, 32 <= k -> n .>> k = 0).
  { intros k Hk. rewrite Z.shiftr_div_pow2 by lia. apply Z.div_small.
    pose proof (Z.pow_le_mono_r 2 32 k). lia. }
  rewrite !Ez, Z.land_0_l, !Z.shiftl_0_l by lia. by destruct w.
Qed.

Lemma len64_step w n j only st st' : Ready w -> 0 <= n < len_limit -> 0 <= j ->
  (only = true -> 32 <= j) ->
  lws_rx_sm (at_len w st ((n .>> (j + 8)) .<< (j + 8))) ((n .>> j) .& 255) =
    len64_byte only j st' (at_len w st ((n .>> (j + 8)) .<< (j + 8))) ((n .>> j) .& 255) ->
  lws_rx_sm (at_len w st ((n .>> (j + 8)) .<< (j + 8))) ((n .>> j) .& 255) =
    (at_len w st' ((n .>> j) .<< j), 0).
Proof. intros R Hn Hj Ho ->. by apply len64_byte_at. Qed.

Lemma rx_len64 w msk n : Ready w -> lws_rx_parse_state w = RXPS_04_FRAME_HDR_LEN ->
  data_op (opcode w) -> 0 <= n < len_limit ->
  rx_bytes w ((mbit msk .| 127) :: map (fun i => (n .>> (8 * i)) .& 255) [7; 6; 5; 4; 3; 2; 1; 0])
  = (with_len w msk n, 0).
Proof.
  intros R Hst Hop Hn. cbn [map].
  set (w1 := w {{ this_frame_masked := msk }}).
  assert (R1 : Ready w1) by (unfold w1; destruct w; destruct R; unfold spill_size in *; by constructor).
  assert (Ra : forall st l, Ready (at_len w1 st l)) by (intros; by apply at_len_ready).
  erewrite rx_bytes_cons0 with (w' := at_len w1 RXPS_04_FRAME_HDR_LEN64_8 (rx_packet_length w)).
  2: { rewrite (rx_sm_open _ _ R), Hst. unfold hdr_len.
       destruct (mbit_len msk 127) as [-> ->]; [lia|]. cbn [Z.eqb Pos.eqb]. fold w1.
       replace (opcode w1) with (opcode w) by (by destruct w). rewrite data_op_ctl by done.
       unfold w1. by destruct w. }
  assert (Hb : 0 <= n .>> 56 < 2 ^ 7) by (apply shiftr_range; unfold len_limit in Hn; destruct lp64; lia).
  erewrite rx_bytes_cons0 with (w' := at_len w1 RXPS_04_FRAME_HDR_LEN64_7 ((n .>> 56) .<< 56)).
  2: { rewrite (rx_sm_open _ _ (Ra _ _)). cbn [ext_len]. change (8 * 7) with 56.
       rewrite land_255, Z.mod_small by lia.
       pose proof (mbit_len false (n .>> 56) ltac:(lia)) as [_ E]. rewrite Z.lor_0_l in E.
       change (lws_rx_parse_state (at_len w1 RXPS_04_FRAME_HDR_LEN64_8 (rx_packet_length w)))
         with RXPS_04_FRAME_HDR_LEN64_8. cbn [ext_len]. unfold ext_len.
       change (lws_rx_parse_state (at_len w1 RXPS_04_FRAME_HDR_LEN64_8 (rx_packet_length w)))
         with RXPS_04_FRAME_HDR_LEN64_8. cbn iota. rewrite E. unfold at_len.
       unfold len_limit in Hn. destruct lp64; [by destruct w|].
       rewrite Z.shiftr_div_pow2, Z.div_small by lia. by destruct w. }
  erewrite rx_bytes_cons0; [|apply (len64_step w1 n 48 true _ RXPS_04_FRAME_HDR_LEN64_6 R1 Hn);
    [lia|lia|by rewrite (rx_sm_open _ _ (Ra _ _))]].
  erewrite rx_bytes_cons0; [|apply (len64_step w1 n 40 true _ RXPS_04_FRAME_HDR_LEN64_5 R1 Hn);
    [lia|lia|by rewrite (rx_sm_open _ _ (Ra _ _))]].
  erewrite rx_bytes_cons0; [|apply (len64_step w1 n 32 true _ RXPS_04_FRAME_HDR_LEN64_4 R1 Hn);
    [lia|lia|by rewrite (rx_sm_open _ _ (Ra _ _))]].
  erewrite rx_bytes_cons0; [|apply (len64_step w1 n 24 false _ RXPS_04_FRAME_HDR_LEN64_3 R1 Hn);
    [lia|lia|by rewrite (rx_sm_open _ _ (Ra _ _))]].
  erewrite rx_bytes_cons0; [|apply (len64_step w1 n 16 false _ RXPS_04_FRAME_HDR_LEN64_2 R1 Hn);
    [lia|lia|by rewrite (rx_sm_open _ _ (Ra _ _))]].
  erewrite rx_bytes_cons0; [|apply (len64_step w1 n 8 false _ RXPS_04_FRAME_HDR_LEN64_1 R1 Hn);
    [lia|lia|by rewrite (rx_sm_open _ _ (Ra _ _))]].
  erewrite rx_bytes_cons0 with (w' := with_len w msk n); [done|].
  rewrite (rx_sm_open _ _ (Ra _ _)). pose proof (lor_next_byte n 0 ltac:(lia)) as E.
  rewrite Z.add_0_l, !Z.shiftl_0_r in E. rewrite Z.shiftr_0_r in E at 2. 
  change (8 * 0) with 0.
  change (ext_len (at_len w1 RXPS_04_FRAME_HDR_LEN64_1 ((n .>> 8) .<< 8)) ((n .>> 0) .& 255) = (with_len w msk n, 0)).
  unfold ext_len, after_len, with_len, at_len, w1. destruct w. rcbn. by rewrite E.
Qed.

Lemma rx_len w msk n : Ready w -> lws_rx_parse_state w = RXPS_04_FRAME_HDR_LEN ->
  data_op (opcode w) -> 0 <= n < len_limit -> msk = true \/ 0 < n ->
  rx_bytes w (rfc_len (mbit msk) n) = (with_len w msk n, 0).
Proof.
  intros R Hst Hop Hn Hm. unfold rfc_len. destruct (n <? 126) eqn:E1; zbool.
  { apply rx_len7; auto; lia. }
  destruct (n <? 65536) eqn:E2; zbool; [apply rx_len16; auto; lia|by apply rx_len64].
Qed.

(** The connection after the first byte of a frame. *)
Record Opened (w w1 : lws) (op : Z) : Prop := {
  op_ready : Ready w1;
  op_state : lws_rx_parse_state w1 = RXPS_04_FRAME_HDR_LEN;
  op_op : opcode w1 = op;
  op_zero : all_zero_nonce w1 = true;
  op_head : rx_ubuf_head w1 = 0;
  op_events : events w1 = events w;
  op_size : spill_size w1 = spill_size w
}.

Lemma rx_first w b0 : Idle w -> data_op (b0 .& 15) ->
  exists w1, lws_rx_sm w b0 = (w1, 0) /\ Opened w w1 (b0 .& 15).
Proof.
  intros [R Hst Hh] Hop. rewrite (rx_sm_open _ _ R), Hst. unfold handle_first.
  assert (Ei : ((3 <=? b0 .& 15) && (b0 .& 15 <=? 7)) || ((11 <=? b0 .& 15) && (b0 .& 15 <=? 15)) = false)
    by (by destruct Hop as [->|[->| ->]]).
  rewrite Ei. clear Ei. destruct w. destruct R. unfold spill_size in *. cbn in *.
  destruct ((b0 .& 15 =? LWSWSOPC_TEXT_FRAME) || (b0 .& 15 =? LWSWSOPC_BINARY_FRAME));
    (eexists; split; [reflexivity|]); by constructor.
Qed.

(** The four bytes of the masking key. *)
Lemma rx_key w k0 k1 k2 k3 n : Ready w -> data_op (opcode w) -> all_zero_nonce w = true ->
  rx_ubuf_head w = 0 ->
  let w1 := (with_len w true n)
              {{ mask := [k0; k1; k2; k3];
                 all_zero_nonce := negb (nz k0) && negb (nz k1) && negb (nz k2) && negb (nz k3);
                 mask_idx := 0 }} in
  rx_bytes (with_len w true n) [k0; k1; k2; k3] =
  (if n =? 0 then (delivered (w1 {{ lws_rx_parse_state := RXPS_NEW }}), 0)
   else (w1 {{ lws_rx_parse_state := RXPS_PAYLOAD_UNTIL_LENGTH_EXHAUSTED }}, 0)).
Proof.
  intros R Hop Hz Hh w1.
  assert (Hm : exists m0 m1 m2 m3, mask w = [m0; m1; m2; m3]).
  { pose proof (rd_mask _ R) as Hm. destruct (mask w) as [|m0 [|m1 [|m2 [|m3 [|]]]]]; try done. eauto. }
  destruct Hm as (m0 & m1 & m2 & m3 & Hm).
  assert (Rw : Ready (w1 {{ lws_rx_parse_state := RXPS_NEW }})).
  { unfold w1, with_len. destruct w. destruct R. unfold spill_size in *. by constructor. }
  assert (Hd : rx_spill (w1 {{ lws_rx_parse_state := RXPS_NEW }}) =
               (delivered (w1 {{ lws_rx_parse_state := RXPS_NEW }}), 0)).
  { apply rx_spill_data; [done|..]; unfold w1, with_len; destruct w; cbn in *; [lia|done]. }
  revert Hd. generalize (delivered (w1 {{ lws_rx_parse_state := RXPS_NEW }})) as d. intros d Hd.
  pose proof (rd_usable _ R) as Hu. unfold w1, with_len in *. destruct w. cbn in Hu, Hm, Hz. subst.
  cbn [rx_bytes]. unfold lws_rx_sm, frame_key, frame_key_4, store_mask. rcbn. rcbn_all.
  destruct (n =? 0); [by rewrite Hd|done].
Qed.

Lemma mask_from_zero p : forall i, mask_from [0; 0; 0; 0] i p = p.
Proof.
  induction p as [|x p IH]; intros i; cbn [mask_from]; [done|]. rewrite IH. f_equal.
  assert (E : znth [0; 0; 0; 0] (i mod 4) = 0).
  { unfold znth. pose proof (Z.mod_pos_bound i 4).
    assert (i mod 4 = 0 \/ i mod 4 = 1 \/ i mod 4 = 2 \/ i mod 4 = 3) as [->|[->|[->| ->]]] by lia; done. }
  by rewrite E, Z.lxor_0_r.
Qed.

Lemma len_limit_size : len_limit <= 2 ^ SIZE_W.
Proof. unfold len_limit, SIZE_W. by destruct lp64. Qed.

(** What a data frame with payload [p] does to an idle connection. *)
Definition receives (w : lws) (p : bytes) (w' : lws) : Prop :=
  Idle w' /\ spill_size w' = spill_size w /\
  calls (events w') = calls (events w) ++ map (ECallback LWS_CALLBACK_RECEIVE) (deliver (spill_size w) [] p).

(** The end of an empty frame. *)
Lemma receives_empty w w3 : Ready w3 -> lws_rx_parse_state w3 = RXPS_NEW -> rx_ubuf_head w3 = 0 ->
  events w3 = events w -> spill_size w3 = spill_size w -> receives w [] (delivered w3).
Proof.
  intros R Hst Hh He Hs. destruct (delivered_frame w3) as (D1 & _ & _ & _ & _ & _ & D7).
  split; [split; [by apply delivered_ready|by rewrite D1|apply delivered_head]|].
  split; [congruence|]. unfold delivered. rewrite Hh. cbn [Z.gtb Z.compare deliver map].
  rewrite app_nil_r, <- He. by destruct w3.
Qed.

(** The payload of a frame that has one. *)
Lemma receives_payload w w3 p : p <> [] -> InPayload w3 p -> rx_ubuf_head w3 = 0 ->
  events w3 = events w -> spill_size w3 = spill_size w ->
  exists w', rx_bytes w3 (wire w3 p) = (w', 0) /\ receives w p w'.
Proof.
  intros Hp Hip Hh He Hs. destruct (rx_payload p w3 Hp Hip) as (w' & E & Hid & Es & Ee).
  exists w'. split; [done|]. split; [done|]. split; [congruence|].
  rewrite Ee, He, Hs, Hh. done.
Qed.

Lemma zlen_pos {A} (p : list A) : p <> [] -> 0 < zlen p.
Proof. destruct p; [done|]. rewrite zlen_cons. pose proof (zlen_nonneg p). lia. Qed.

Lemma rx_frame_masked w b0 k p : Idle w -> data_op (b0 .& 15) -> zlen p < len_limit ->
  length k = 4%nat ->
  exists w', rx_bytes w (rfc_frame b0 (Some k) p) = (w', 0) /\ receives w p w'.
Proof.
  intros Hid Hop Hlen Hk. destruct (rx_first w b0 Hid Hop) as (w1 & E1 & O).
  pose proof (zlen_nonneg p) as Hp0. pose proof len_limit_size as HSW.
  pose proof (op_ready _ _ _ O) as R1. pose proof (rd_size _ R1) as HS.
  assert (Hop1 : data_op (opcode w1)) by (by rewrite (op_op _ _ _ O)).
  cbn [rfc_frame]. rewrite (rx_bytes_cons0 _ _ _ _ E1). change 128 with (mbit true).
  rewrite rx_bytes_app, (rx_len w1 true _ R1 (op_state _ _ _ O) Hop1 (conj Hp0 Hlen) (or_introl eq_refl)).
  cbn [Z.ltb Z.compare]. destruct k as [|k0 [|k1 [|k2 [|k3 [|]]]]]; try done.
  rewrite rx_bytes_app, (rx_key w1 _ _ _ _ _ R1 Hop1 (op_zero _ _ _ O) (op_head _ _ _ O)).
  set (w2 := (with_len w1 true (zlen p)) {{ mask := _; all_zero_nonce := _; mask_idx := _ }}).
  assert (F : forall st, let w3 := w2 {{ lws_rx_parse_state := st }} in
     rx_ubuf_head w3 = 0 /\ events w3 = events w /\ spill_size w3 = spill_size w /\ Ready w3 /\
     rx_packet_length w3 = zlen p /\ opcode w3 = opcode w1 /\ lws_rx_parse_state w3 = st).
  { intros st w3. assert (R3 : Ready w3) by (apply (ready_ext w1); [done|by destruct w1..]).
    rewrite <- (op_head _ _ _ O), <- (op_events _ _ _ O), <- (op_size _ _ _ O).
    split_and!; try done; by destruct w1. }
  destruct p as [|x p].
  - change (zlen [] =? 0) with true. cbn [Z.ltb Z.compare mask_from rx_bytes].
    destruct (F RXPS_NEW) as (Fh & Fe & Fs & R3 & _ & _ & Fst).
    eexists. split; [done|]. by apply receives_empty.
  - pose proof (zlen_pos (x :: p) ltac:(done)). rewrite (proj2 (Z.eqb_neq _ 0)) by lia.
    cbn [Z.ltb Z.compare].
    destruct (F RXPS_PAYLOAD_UNTIL_LENGTH_EXHAUSTED) as (Fh & Fe & Fs & R3 & Fl & Fo & Fst).
    set (w3 := w2 {{ lws_rx_parse_state := RXPS_PAYLOAD_UNTIL_LENGTH_EXHAUSTED }}) in *.
    replace (mask_from [k0; k1; k2; k3] 0 (x :: p)) with (wire w3 (x :: p)).
    + apply receives_payload; try done.
      constructor; [done|done|rewrite Fh, Fs, <- (op_size _ _ _ O); lia|done|lia|by rewrite Fo].
    + assert (M : mask w3 = [k0; k1; k2; k3] /\ mask_idx w3 = 0 /\
        all_zero_nonce w3 = negb (nz k0) && negb (nz k1) && negb (nz k2) && negb (nz k3))
        by (unfold w3, w2, with_len; by destruct w1).
      destruct M as (Mm & Mi & Mz). unfold wire. rewrite Mm, Mi, Mz.
      destruct (negb (nz k0) && negb (nz k1) && negb (nz k2) && negb (nz k3)) eqn:Ez; [|done].
      zbool. subst. by rewrite mask_from_zero.
Qed.

Lemma rx_frame_unmasked w b0 p : Idle w -> data_op (b0 .& 15) -> zlen p < len_limit ->
  exists w', rx_bytes w (rfc_frame b0 None p) = (w', 0) /\ receives w p w'.
Proof.
  intros Hid Hop Hlen. destruct (rx_first w b0 Hid Hop) as (w1 & E1 & O).
  pose proof (zlen_nonneg p) as Hp0. pose proof len_limit_size as HSW.
  pose proof (op_ready _ _ _ O) as R1. pose proof (rd_size _ R1) as HS.
  assert (Hop1 : data_op (opcode w1)) by (by rewrite (op_op _ _ _ O)).
  cbn [rfc_frame]. rewrite (rx_bytes_cons0 _ _ _ _ E1).
  destruct p as [|x p].
  - set (w3 := w1 {{ this_frame_masked := false; rx_packet_length := 0; lws_rx_parse_state := RXPS_NEW }}).
    assert (F : rx_ubuf_head w3 = 0 /\ events w3 = events w /\ spill_size w3 = spill_size w /\ Ready w3 /\
       opcode w3 = opcode w1).
    { assert (R3 : Ready w3) by (apply (ready_ext w1); try done; try apply R1; by destruct w1).
      rewrite <- (op_head _ _ _ O), <- (op_events _ _ _ O), <- (op_size _ _ _ O).
      split_and!; try done; by destruct w1. }
    destruct F as (Fh & Fe & Fs & R3 & Fo).
    exists (delivered w3). split; [|apply receives_empty; by try destruct w1].
    change (rfc_len 0 (zlen []) ++ []) with [0]. cbn [rx_bytes].
    rewrite (rx_sm_open _ _ R1), (op_state _ _ _ O).
    change (hdr_len w1 0) with (rx_spill w3).
    rewrite rx_spill_data by (done || lia || by rewrite Fo). done.
  - pose proof (zlen_pos (x :: p) ltac:(done)) as Hpos. change (rfc_len 0) with (rfc_len (mbit false)).
    rewrite rx_bytes_app, (rx_len w1 false _ R1 (op_state _ _ _ O) Hop1 (conj Hp0 Hlen) (or_intror Hpos)).
    cbn [Z.ltb Z.compare]. set (w3 := with_len w1 false (zlen (x :: p))).
    assert (F : rx_ubuf_head w3 = 0 /\ events w3 = events w /\ spill_size w3 = spill_size w /\
       Ready w3 /\ all_zero_nonce w3 = true /\ opcode w3 = opcode w1).
    { assert (R3 : Ready w3) by (apply (ready_ext w1); try done; try apply R1; by destruct w1).
      rewrite <- (op_head _ _ _ O), <- (op_events _ _ _ O), <- (op_size _ _ _ O), <- (op_zero _ _ _ O).
      split_and!; try done; by destruct w1. }
    destruct F as (Fh & Fe & Fs & R3 & Fz & Fo).
    assert (Hip : InPayload w3 (x :: p)).
    { constructor; [done|by destruct w1|rewrite Fh, Fs, <- (op_size _ _ _ O); lia|by destruct w1|lia|by rewrite Fo]. }
    assert (Ewire : wire w3 (x :: p) = x :: p) by (unfold wire; by rewrite Fz).
    destruct (receives_payload w w3 (x :: p)) as (w' & E & Hr); try done.
    exists w'. by rewrite Ewire in E.
Qed.

End Facts.
