(* ===== verification/WsRxInv.v ===== *)
(** * The server receiver on arbitrary input

    Nothing is assumed here of the bytes received: the invariant that keeps every
    store inside the buffers of the connection, the agreement of the bulk path
    with the byte-wise state machine, and the frames that are refused.  The
    callbacks may do what the public interface allows them: change flow control,
    send, set timeouts, return any value. *)

From S2P Require Import Prelude Ws WsRx WsRxFacts.

(** ** States that only differ in the private positions

    [mask_idx] is used modulo 4 and [rxflow_pos] is bookkeeping of the loop over
    a packet; two connections that agree on all the rest are equivalent. *)

Definition norm (w : lws) : lws := w {{ mask_idx ::= (fun i => i mod 4); rxflow_pos := 0 }}.

#[global] Instance lws_equiv : Equiv lws := fun w w' => norm w = norm w'.

#[global] Instance lws_equivalence : Equivalence (≡@{lws}).
Proof. split; unfold equiv, lws_equiv; intros ?; congruence. Qed.

(** Results of an operation: equivalent connections and the same value. *)
Definition eqvr (p q : lws * Z) : Prop := p.1 ≡ q.1 /\ p.2 = q.2.

#[global] Instance eqvr_equivalence : Equivalence eqvr.
Proof.
  split; unfold eqvr.
  - by intros ?.
  - intros ?? [-> ->]. done.
  - intros ??? [-> ->] [-> ->]. done.
Qed.

(** The members the receiver works on and no public function changes; of the
    ping buffer only the size, as [lws_close_reason] writes into it. *)
Definition rx_view (w : lws) :=
  (ietf_spec_revision w, lws_rx_parse_state w, count_act_ext w, rx_buffer_size w, pt_serv_buf_size w,
   (rx_ubuf w, rx_ubuf_alloc w, rx_ubuf_head w, rx_packet_length w, mask w, mask_idx w, opcode w),
   (all_zero_nonce w, this_frame_masked w, length (ping_payload_buf w), ping_payload_len w, rx_draining_ext w)).

(** What the environment promises to the receiver.  A callback works through the
    public interface, so it neither sees the private positions nor changes the
    receive state; an extension gives back a buffer of its own or a part of the
    one it was given. *)
Class LwsEnvOk `{LwsEnv} : Prop := {
  cb_view : forall w r d, rx_view (protocol_callback w r d).1 = rx_view w;
  cb_equiv :: forall r d, Proper ((≡) ==> eqvr) (fun w => protocol_callback w r d);
  ext_view : forall n w r t, rx_view (ext_callback n w r t).1.1 = rx_view w;
  ext_tok : forall n w r t, let t' := (ext_callback n w r t).1.2 in
    tok t' = TUbuf -> tok t = TUbuf /\ token_len t' <= token_len t;
  pollfd_equiv :: Proper ((≡) ==> (=) ==> (=) ==> (=)) change_pollfd;
  malloc_equiv :: Proper ((≡) ==> (=) ==> (=)) malloc_ok;
  now_equiv :: Proper ((≡) ==> (=)) now_secs
}.

Lemma equiv_split w w' : w ≡ w' <->
  exists i p, w' = w {{ mask_idx := i; rxflow_pos := p }} /\ i mod 4 = mask_idx w mod 4.
Proof.
  unfold equiv, lws_equiv, norm. destruct w, w'. cbn. split.
  - intros E. injection E. intros. subst. eexists _, _. by split.
  - intros (i & p & E & Hi). injection E. intros. subst. unfold constant. f_equal; done.
Qed.

(** Solve [f w ≡ f w'] for an [f] that does not look at the private positions. *)
Ltac equiv_step :=
  match goal with
  | H : ?w ≡ _ |- _ =>
      apply equiv_split in H as (?i & ?p & -> & ?Hi); destruct w; cbn in *; unfold constant in *
  end.
Ltac equiv_solve :=
  rcbn; case_ifs;
  unfold equiv, lws_equiv, norm; rcbn;
  repeat match goal with H : _ mod 4 = _ mod 4 |- _ => rewrite H; clear H end; reflexivity.

Section Inv.
Context `{LwsEnvOk}.

#[export] Instance emit_equiv e : Proper ((≡) ==> (≡)) (emit e).
Proof. intros w w' Hw. equiv_step. equiv_solve. Qed.

#[local] Instance flow_equiv : Proper ((≡) ==> eqvr) lws_rx_flow_control.
Proof.
  intros w w' Hw. unfold lws_rx_flow_control, eqvr.
  assert (E1 : rxflow_change_to w = rxflow_change_to w') by (equiv_step; done).
  assert (E2 : rxflow_buffer w = rxflow_buffer w') by (equiv_step; done).
  rewrite <- E1, <- E2. case_match; [done|]. case_match.
  { split; [by apply emit_equiv|done]. }
  assert (Hw2 : w {{ rxflow_change_to ::= (fun x => Z.ldiff x LWS_RXFLOW_PENDING_CHANGE) }} ≡
                w' {{ rxflow_change_to ::= (fun x => Z.ldiff x LWS_RXFLOW_PENDING_CHANGE) }})
    by (clear E1 E2; equiv_step; equiv_solve).
  replace (rxflow_change_to (w' {{ rxflow_change_to ::= (fun x => Z.ldiff x LWS_RXFLOW_PENDING_CHANGE) }}))
    with (rxflow_change_to (w {{ rxflow_change_to ::= (fun x => Z.ldiff x LWS_RXFLOW_PENDING_CHANGE) }}))
    by (clear E1 E2; equiv_step; done).
  revert Hw2.
  generalize (w {{ rxflow_change_to ::= (fun x => Z.ldiff x LWS_RXFLOW_PENDING_CHANGE) }}),
    (w' {{ rxflow_change_to ::= (fun x => Z.ldiff x LWS_RXFLOW_PENDING_CHANGE) }}).
  intros v v' Hv. destruct (nz (rxflow_change_to v .& LWS_RXFLOW_ALLOW)).
  - pose proof (emit_equiv (EPollfd 0 LWS_POLLIN) _ _ Hv) as He.
    rewrite (pollfd_equiv _ _ He _ _ eq_refl _ _ eq_refl); case_match; by split.
  - pose proof (emit_equiv (EPollfd LWS_POLLIN 0) _ _ Hv) as He.
    rewrite (pollfd_equiv _ _ He _ _ eq_refl _ _ eq_refl); case_match; by split.
Qed.

#[local] Instance callback_equiv r d : Proper ((≡) ==> eqvr) (fun w => user_callback_handle_rxflow w r d).
Proof.
  intros w w' Hw. unfold user_callback_handle_rxflow, run_callback.
  destruct (cb_equiv r d _ _ (emit_equiv (ECallback r d) _ _ Hw)) as [E1 E2].
  destruct (protocol_callback _ r d) as [v n], (protocol_callback _ r d) as [v' n'].
  cbn in E1, E2. subst. case_match; [by apply flow_equiv|by split].
Qed.

(** The rest is for a connection without active extensions. *)
Lemma drain_equiv a b t w w' : w ≡ w' -> count_act_ext w = 0%nat ->
  eqvr (rx_drain_extension w a b t) (rx_drain_extension w' a b t).
Proof.
  intros Hw E0. assert (E : count_act_ext w = count_act_ext w') by (equiv_step; done).
  unfold rx_drain_extension. rewrite !ext_none by congruence.
  assert (Es : state w = state w') by (clear E E0; equiv_step; done). rewrite <- Es.
  case_match; [split; [clear E E0 Es; equiv_step; equiv_solve|done]|]. cbn [Z.ltb Z.compare].
  case_match; [split; [clear E E0 Es; equiv_step; equiv_solve|done]|].
  change (nz 0) with false. cbn [andb].
  assert (Er : lws_remove_wsi_from_draining_ext_list w ≡ lws_remove_wsi_from_draining_ext_list w')
    by (clear E E0 Es; equiv_step; unfold lws_remove_wsi_from_draining_ext_list; equiv_solve).
  revert Er. generalize (lws_remove_wsi_from_draining_ext_list w), (lws_remove_wsi_from_draining_ext_list w').
  intros v v' Hv. case_match; [|split; [clear E E0 Es; equiv_step; equiv_solve|done]].
  assert (Hn : store_nul v t ≡ store_nul v' t /\ tok_data (store_nul v t) t = tok_data (store_nul v' t) t).
  { clear E E0 Es Hw. unfold store_nul, tok_data. destruct t as [[] ?]; cbn; equiv_step; (split; [equiv_solve|done]). }
  destruct Hn as [Hn <-]. destruct has_callback; [|split; [clear E E0 Es; equiv_step; equiv_solve|done]].
  destruct (callback_equiv a (tok_data (store_nul v t) t) _ _ Hn) as [E1 E2].
  destruct (user_callback_handle_rxflow _ _ _) as [u n], (user_callback_handle_rxflow _ _ _) as [u' n'].
  cbn in E1, E2. subst. split; [clear E E0 Es; equiv_step; equiv_solve|done].
Qed.

Lemma ping_equiv w w' : w ≡ w' -> eqvr (process_as_ping w) (process_as_ping w').
Proof. intros Hw. unfold process_as_ping, ping_drop. equiv_step. case_match; split; try done; equiv_solve. Qed.

Lemma ping_drop_equiv w w' : w ≡ w' -> eqvr (ping_drop w) (ping_drop w').
Proof. intros Hw. unfold ping_drop. equiv_step. split; [equiv_solve|done]. Qed.

Lemma close_equiv w w' : w ≡ w' -> eqvr (spill_close w) (spill_close w').
Proof.
  intros Hw. unfold spill_close.
  assert (E : state w = state w' /\ lws_partial_buffered w = lws_partial_buffered w' /\
     ubuf_data w (rx_ubuf_head w) = ubuf_data w' (rx_ubuf_head w')) by (equiv_step; done).
  destruct E as (<- & <- & <-). case_match; [done|]. case_match; [done|].
  case_match; [split; [equiv_step; equiv_solve|done]|].
  destruct (callback_equiv LWS_CALLBACK_WS_PEER_INITIATED_CLOSE (ubuf_data w (rx_ubuf_head w)) _ _ Hw) as [E1 E2].
  destruct (user_callback_handle_rxflow _ _ _) as [u n], (user_callback_handle_rxflow _ _ _) as [u' n'].
  cbn in E1, E2. subst. case_match; [done|]. apply ping_equiv. clear Hw. equiv_step. equiv_solve.
Qed.

Lemma clear_timeout_equiv w w' : w ≡ w' -> clear_timeout w ≡ clear_timeout w'.
Proof.
  intros Hw. unfold clear_timeout, lws_set_timeout, lws_remove_from_timeout_list.
  change (nz NO_PENDING_TIMEOUT) with false. cbn [andb negb]. rewrite <- (now_equiv _ _ Hw).
  generalize (now_secs w). intros n. equiv_step. equiv_solve.
Qed.

Lemma clear_timeout_view w : rx_view (clear_timeout w) = rx_view w.
Proof.
  unfold clear_timeout, lws_set_timeout, lws_remove_from_timeout_list.
  change (nz NO_PENDING_TIMEOUT) with false. cbn [andb negb]. case_match; by destruct w.
Qed.

Lemma spill_equiv w w' : w ≡ w' -> count_act_ext w = 0%nat -> eqvr (rx_spill w) (rx_spill w').
Proof.
  intros Hw E0. unfold rx_spill.
  assert (E : opcode w = opcode w' /\ rx_ubuf_head w = rx_ubuf_head w' /\
    ping_pending_flag w = ping_pending_flag w' /\ pending_timeout w = pending_timeout w' /\
    count_act_ext w = count_act_ext w') by (equiv_step; done).
  destruct E as (<- & <- & <- & <- & E). case_match; [by apply close_equiv|].
  case_match; [case_match; [by apply ping_drop_equiv|by apply ping_equiv]|].
  case_match.
  { apply drain_equiv; case_match; try done; [by apply clear_timeout_equiv|].
    pose proof (clear_timeout_view w) as V. unfold rx_view in V. congruence. }
  case_match; [by apply drain_equiv|]. rewrite !ext_none by congruence.
  split; [clear E E0; equiv_step; equiv_solve|done].
Qed.

Lemma payload_byte_equiv w w' c : w ≡ w' -> payload_byte w c ≡ payload_byte w' c.
Proof.
  intros Hw. unfold payload_byte. equiv_step. rewrite !land3_mod, Hi.
  destruct all_zero_nonce; unfold equiv, lws_equiv, norm; rcbn; [by rewrite Hi|].
  f_equal. by rewrite !u8_mod4, (Zplus_mod i), (Zplus_mod mask_idx), Hi.
Qed.

Lemma payload_byte_ext w c : count_act_ext (payload_byte w c) = count_act_ext w.
Proof. unfold payload_byte. destruct w. cbn. by destruct all_zero_nonce. Qed.

Lemma set_state_equiv st w w' : w ≡ w' -> w {{ lws_rx_parse_state := st }} ≡ w' {{ lws_rx_parse_state := st }}.
Proof. intros Hw. equiv_step. equiv_solve. Qed.

Lemma payload_equiv w w' c : w ≡ w' -> count_act_ext w = 0%nat -> eqvr (payload w c) (payload w' c).
Proof.
  intros Hw E0. unfold payload.
  assert (E : rx_draining_ext w = rx_draining_ext w' /\ rx_ubuf_head w = rx_ubuf_head w' /\
    rx_ubuf_alloc w = rx_ubuf_alloc w') by (equiv_step; done).
  destruct E as (<- & <- & <-). case_match; [by apply drain_equiv|]. case_match; [done|].
  rewrite <- (payload_byte_ext w c) in E0. apply (payload_byte_equiv _ _ c) in Hw. revert Hw E0.
  generalize (payload_byte w c), (payload_byte w' c). intros v v' Hv E0.
  assert (E : rx_packet_length v = rx_packet_length v' /\ rx_ubuf_head v = rx_ubuf_head v' /\
    spill_size v = spill_size v') by (clear E0; equiv_step; done).
  destruct E as (<- & <- & <-). case_match; [apply spill_equiv; [by apply set_state_equiv|by destruct v]|].
  case_match; [done|by apply spill_equiv].
Qed.

Lemma store_mask_equiv i c w w' : w ≡ w' -> store_mask i c w ≡ store_mask i c w'.
Proof. intros Hw. unfold store_mask. equiv_step. equiv_solve. Qed.

Lemma frame_key_4_equiv w w' c : w ≡ w' -> count_act_ext w = 0%nat -> eqvr (frame_key_4 w c) (frame_key_4 w' c).
Proof.
  intros Hw E0. unfold frame_key_4. apply (store_mask_equiv 3 c) in Hw.
  assert (E1 : count_act_ext (store_mask 3 c w) = 0%nat) by (by destruct w). revert Hw E1. clear E0.
  generalize (store_mask 3 c w), (store_mask 3 c w'). clear w w'. intros w w' Hw E0.
  pose (f := fun w : lws =>
    w {{ lws_rx_parse_state := RXPS_PAYLOAD_UNTIL_LENGTH_EXHAUSTED; mask_idx := 0 }}).
  assert (Hv : f w ≡ f w') by (unfold f; clear E0; equiv_step; equiv_solve).
  assert (Ev : count_act_ext (f w) = 0%nat) by (by destruct w).
  cbv zeta. fold (f w) (f w'). revert Hv Ev. generalize (f w), (f w'). intros v v' Hv Ev.
  assert (E : rx_packet_length v = rx_packet_length v') by (clear Ev Hw; equiv_step; done). rewrite <- E.
  case_match; [|done]. apply spill_equiv; [by apply set_state_equiv|by destruct v].
Qed.

Lemma frame_key_equiv w w' c : w ≡ w' -> count_act_ext w = 0%nat -> eqvr (frame_key w c) (frame_key w' c).
Proof.
  intros Hw E0. unfold frame_key. pose proof (frame_key_4_equiv w w' c Hw E0).
  assert (E : lws_rx_parse_state w = lws_rx_parse_state w') by (clear E0; equiv_step; done). rewrite <- E.
  destruct (lws_rx_parse_state w); try done; (split; [by apply set_state_equiv, store_mask_equiv|done]).
Qed.

Lemma handle_first_equiv w w' c : w ≡ w' -> eqvr (handle_first w c) (handle_first w' c).
Proof.
  intros Hw. unfold handle_first. equiv_step.
  case_match; [split; [equiv_solve|done]|].
  destruct ((c .& 15 =? LWSWSOPC_TEXT_FRAME) || (c .& 15 =? LWSWSOPC_BINARY_FRAME)); (split; [equiv_solve|done]).
Qed.

Lemma hdr_len_equiv w w' c : w ≡ w' -> count_act_ext w = 0%nat -> eqvr (hdr_len w c) (hdr_len w' c).
Proof.
  intros Hw E0. unfold hdr_len.
  assert (E : opcode w = opcode w') by (clear E0; equiv_step; done).
  replace (opcode (w' {{ this_frame_masked := nz (c .& 128) }})) with (opcode w) by (rewrite E; by destruct w').
  replace (opcode (w {{ this_frame_masked := nz (c .& 128) }})) with (opcode w) by (by destruct w).
  assert (Q1 : w {{ this_frame_masked := nz (c .& 128) }} ≡ w' {{ this_frame_masked := nz (c .& 128) }})
    by (clear E0 E; equiv_step; equiv_solve).
  assert (E1 : count_act_ext (w {{ this_frame_masked := nz (c .& 128) }}) = 0%nat) by (by destruct w).
  revert Q1 E1. generalize (w {{ this_frame_masked := nz (c .& 128) }}), (w' {{ this_frame_masked := nz (c .& 128) }}).
  intros v v' Hv E1. case_match; [case_match; [done|by split; [apply set_state_equiv|]]|].
  case_match; [case_match; [done|by split; [apply set_state_equiv|]]|].
  assert (Q2 : v {{ rx_packet_length := c .& 127 }} ≡ v' {{ rx_packet_length := c .& 127 }} /\
    this_frame_masked v = this_frame_masked v')
    by (clear E0 E E1; equiv_step; split; [equiv_solve|done]).
  destruct Q2 as [Q2 Em].
  replace (this_frame_masked (v {{ rx_packet_length := c .& 127 }})) with (this_frame_masked v) by (by destruct v).
  replace (this_frame_masked (v' {{ rx_packet_length := c .& 127 }})) with (this_frame_masked v)
    by (rewrite Em; by destruct v').
  case_match; [by split; [apply set_state_equiv|]|].
  replace (rx_packet_length (v {{ rx_packet_length := c .& 127 }})) with (c .& 127) by (by destruct v).
  replace (rx_packet_length (v' {{ rx_packet_length := c .& 127 }})) with (c .& 127) by (by destruct v').
  case_match; [by split; [apply set_state_equiv|]|].
  apply spill_equiv; [by apply set_state_equiv|by destruct v].
Qed.

Lemma ext_len_equiv w w' c : w ≡ w' -> eqvr (ext_len w c) (ext_len w' c).
Proof.
  intros Hw. unfold ext_len, len64_byte, after_len. equiv_step.
  destruct lws_rx_parse_state; cbn; unfold constant;
    case_ifs; (split; [equiv_solve|done]).
Qed.

Lemma rx_sm_equiv w w' c : w ≡ w' -> count_act_ext w = 0%nat -> eqvr (lws_rx_sm w c) (lws_rx_sm w' c).
Proof.
  intros Hw E0. unfold lws_rx_sm.
  assert (E : socket_is_permanently_unusable w = socket_is_permanently_unusable w' /\
    lws_rx_parse_state w = lws_rx_parse_state w' /\ rx_draining_ext w = rx_draining_ext w' /\
    ietf_spec_revision w = ietf_spec_revision w') by (clear E0; equiv_step; done).
  destruct E as (<- & <- & <- & <-). case_match; [done|].
  pose proof (ext_len_equiv w w' c Hw). pose proof (frame_key_equiv w w' c Hw E0).
  destruct (lws_rx_parse_state w); try done.
  - case_match.
    + apply drain_equiv; [|unfold lws_remove_wsi_from_draining_ext_list; case_match; by destruct w].
      clear E0 H2 H3 H4. unfold lws_remove_wsi_from_draining_ext_list. equiv_step. equiv_solve.
    + case_match; [|done]. apply handle_first_equiv. clear E0 H2 H3. equiv_step. equiv_solve.
  - split; [by apply set_state_equiv, store_mask_equiv|done].
  - split; [by apply set_state_equiv, store_mask_equiv|done].
  - split; [|done]. apply (store_mask_equiv 3 c) in Hw. clear E0 H2 H3. revert Hw.
    generalize (store_mask 3 c w), (store_mask 3 c w'). intros v v' Hv. equiv_step. equiv_solve.
  - by apply handle_first_equiv.
  - by apply hdr_len_equiv.
  - by apply payload_equiv.
Qed.

(** ** The invariant of the receive state *)

(** Every position the receiver writes to ([LWS_PRE + rx_ubuf_head] in the
    receive buffer, the four bytes of the key, the stash of a PING) is inside
    what was allocated for it. *)
Record RxInv (w : lws) : Prop := {
  ri_size : 0 < spill_size w < 2 ^ 32 - LWS_PRE;
  ri_alloc : rx_ubuf_alloc w = LWS_PRE + spill_size w;
  ri_ubuf : zlen (rx_ubuf w) = rx_ubuf_alloc w + 4;
  ri_head : 0 <= rx_ubuf_head w <= spill_size w;
  ri_len : 0 <= rx_packet_length w < 2 ^ SIZE_W;
  ri_mask : length (mask w) = 4%nat;
  ri_ping : zlen (ping_payload_buf w) = 128 - 3 + LWS_PRE;
  ri_ping_len : 0 <= ping_payload_len w <= 125
}.

(** The invariant is about eight members only. *)
Lemma inv_ext w w' : RxInv w -> spill_size w' = spill_size w -> rx_ubuf_alloc w' = rx_ubuf_alloc w ->
  length (rx_ubuf w') = length (rx_ubuf w) -> 0 <= rx_ubuf_head w' <= spill_size w ->
  0 <= rx_packet_length w' < 2 ^ SIZE_W -> length (mask w') = length (mask w) ->
  length (ping_payload_buf w') = length (ping_payload_buf w) -> ping_payload_len w' = ping_payload_len w -> RxInv w'.
Proof.
  intros [] E1 E2 E3 E4 E5 E6 E8 E9. unfold zlen in *.
  constructor; unfold zlen; rewrite ?E1, ?E2, ?E3, ?E8, ?E9; try done. congruence.
Qed.

Lemma inv_view w w' : rx_view w' = rx_view w -> RxInv w -> RxInv w'.
Proof.
  unfold rx_view. intros E R. injection E as E1 E2 E3 E4 E5 E6 E7 E8 E9 E10 E11 E12 E13 E14 E15 E16 E17.
  apply (inv_ext _ _ R); try congruence.
  - unfold spill_size. by rewrite E4, E5.
  - rewrite E8. apply R.
  - rewrite E9. apply R.
Qed.

#[global] Instance inv_equiv : Proper ((≡) ==> iff) RxInv.
Proof.
  assert (Hi : forall w w', w ≡ w' -> RxInv w -> RxInv w').
  { intros w w' Hw R. apply (inv_ext _ _ R); pose proof (ri_len _ R); pose proof (ri_head _ R);
      clear R; equiv_step; done. }
  intros w w' Hw. split; [by apply Hi|apply Hi; by rewrite Hw].
Qed.

Lemma flow_view w : rx_view (lws_rx_flow_control w).1 = rx_view w.
Proof.
  unfold lws_rx_flow_control. case_match; [done|]. case_match; [by destruct w|]. destruct w. rcbn.
  case_ifs; done.
Qed.

Lemma callback_view w r d : rx_view (user_callback_handle_rxflow w r d).1 = rx_view w.
Proof.
  unfold user_callback_handle_rxflow, run_callback.
  pose proof (cb_view (emit (ECallback r d) w) r d) as E. destruct (protocol_callback _ r d) as [w' n].
  cbn in E. replace (rx_view (emit (ECallback r d) w)) with (rx_view w) in E by (by destruct w).
  destruct (n =? 0); [by rewrite flow_view|done].
Qed.

Lemma ext_loop_view k : forall n w r t h, let o := ext_loop k n w r t h in rx_view o.1.1 = rx_view w.
Proof.
  induction k as [|k IH]; intros n w r t h; cbn [ext_loop]; [done|].
  pose proof (ext_view n w r t) as E. destruct (ext_callback n w r t) as [[w' t'] m]. cbn in E.
  destruct (m <? 0); [done|]. cbv zeta. by rewrite IH.
Qed.

(** Close [RxInv] of an update of other members of [w]. *)
Ltac inv_upd R := apply (inv_ext _ _ R); rcbn; try done; try apply R; rewrite ?length_insert; try done; try lia.

Lemma set_head0_inv w : RxInv w -> RxInv (w {{ rx_ubuf_head := 0 }}).
Proof. intros R. pose proof (ri_size _ R). destruct w. cbn in *. inv_upd R. Qed.

Lemma store_nul_inv w t : RxInv w -> RxInv (store_nul w t).
Proof.
  intros R. unfold store_nul. case_match; try done. destruct w. inv_upd R.
Qed.

Lemma list_add_inv w : RxInv w -> RxInv (lws_add_wsi_to_draining_ext_list w).
Proof.
  intros R. unfold lws_add_wsi_to_draining_ext_list. case_match; [done|].
  destruct w. inv_upd R.
Qed.

Lemma list_remove_inv w : RxInv w -> RxInv (lws_remove_wsi_from_draining_ext_list w).
Proof.
  intros R. unfold lws_remove_wsi_from_draining_ext_list. case_match; [|done].
  destruct w. inv_upd R.
Qed.

Lemma drain_inv w a b t : RxInv w -> RxInv (rx_drain_extension w a b t).1.
Proof.
  intros R. unfold rx_drain_extension, lws_ext_cb_active.
  case_match; [by apply set_head0_inv|]. pose proof (ext_loop_view (count_act_ext w) 0 w LWS_EXT_CB_PAYLOAD_RX t 0) as E.
  destruct (ext_loop _ _ _ _ _ _) as [[w1 t1] n]. cbn in E. apply (inv_view _ _ E) in R. clear E.
  case_match; [destruct w1; inv_upd R|].
  case_match; [by apply set_head0_inv|].
  assert (R2 : RxInv (if nz n && nz (token_len t1) then lws_add_wsi_to_draining_ext_list w1
                      else lws_remove_wsi_from_draining_ext_list w1))
    by (case_match; [by apply list_add_inv|by apply list_remove_inv]).
  revert R2. generalize (if nz n && nz (token_len t1) then lws_add_wsi_to_draining_ext_list w1
                         else lws_remove_wsi_from_draining_ext_list w1). intros w2 R2.
  case_match; [|by apply set_head0_inv]. apply (store_nul_inv _ t1) in R2.
  destruct has_callback; [|by apply set_head0_inv].
  match goal with |- context [user_callback_handle_rxflow ?w ?a ?d] =>
    pose proof (callback_view w a d) as E; destruct (user_callback_handle_rxflow w a d) as [w3 n3] end.
  cbn in E. apply (inv_view _ _ E) in R2. by apply set_head0_inv.
Qed.

Lemma ping_inv w : RxInv w -> RxInv (process_as_ping w).1.
Proof.
  intros R. unfold process_as_ping, ping_drop. case_match; zbool; [by apply set_head0_inv|].
  assert (R1 : RxInv (w {{ rx_ubuf_head := 0 }})) by (by apply set_head0_inv).
  destruct R as [? ? Hu Hh ? ? Hp ?], R1 as [? ? ? ? ? ? ? ?].
  assert (Hd : (length (ubuf_data w (rx_ubuf_head w)) <= 125)%nat)
    by (unfold ubuf_data; rewrite length_take; lia).
  destruct w. cbn in *. constructor; try done; cbn.
  - unfold zlen in *. rewrite length_splice; [done|]. unfold LWS_PRE in *. lia.
  - unfold constant. rewrite u8_small by (unfold is_u8; lia). lia.
Qed.

Lemma close_inv w : RxInv w -> RxInv (spill_close w).1.
Proof.
  intros R. unfold spill_close. case_match; [done|]. case_match; [done|].
  case_match; [destruct w; inv_upd R|].
  match goal with |- context [user_callback_handle_rxflow ?w ?a ?d] =>
    pose proof (callback_view w a d) as E; destruct (user_callback_handle_rxflow w a d) as [w3 n3] end.
  cbn in E. apply (inv_view _ _ E) in R. case_match; [done|]. apply ping_inv. destruct w3. inv_upd R.
Qed.

Lemma spill_inv w : RxInv w -> RxInv (rx_spill w).1.
Proof.
  intros R. unfold rx_spill, ping_drop. case_match; [by apply close_inv|].
  case_match; [case_match; [by apply set_head0_inv|by apply ping_inv]|].
  case_match.
  { apply drain_inv. case_match; [|done]. apply (inv_view _ _ (clear_timeout_view w) R). }
  case_match; [by apply drain_inv|]. unfold lws_ext_cb_active.
  match goal with |- context [ext_loop ?k ?n ?w ?r ?t ?h] =>
    pose proof (ext_loop_view k n w r t h) as E; destruct (ext_loop k n w r t h) as [[w1 t1] m] end.
  apply set_head0_inv, (inv_view _ _ E R).
Qed.

Lemma set_state_inv w st : RxInv w -> RxInv (w {{ lws_rx_parse_state := st }}).
Proof. intros R. destruct w. inv_upd R. Qed.

Lemma store_mask_inv w i c : RxInv w -> RxInv (store_mask i c w).
Proof. intros R. unfold store_mask. destruct w. inv_upd R. Qed.

Lemma SIZE_W_pos : 32 <= SIZE_W.
Proof. unfold SIZE_W. by destruct lp64. Qed.

Lemma size_le x : x <= 2 ^ 32 -> x <= 2 ^ SIZE_W.
Proof. intros. pose proof (Z.pow_le_mono_r 2 32 SIZE_W ltac:(lia) SIZE_W_pos). lia. Qed.

Lemma handle_first_inv w c : RxInv w -> RxInv (handle_first w c).1.
Proof.
  intros R. unfold handle_first. destruct w. cbn.
  case_match; [inv_upd R|].
  destruct ((c .& 15 =? LWSWSOPC_TEXT_FRAME) || (c .& 15 =? LWSWSOPC_BINARY_FRAME)); inv_upd R.
Qed.

Lemma set_len_inv w l : RxInv w -> 0 <= l < 2 ^ SIZE_W -> RxInv (w {{ rx_packet_length := l }}).
Proof. intros R Hl. destruct w. inv_upd R. Qed.

Lemma hdr_len_inv w c : RxInv w -> RxInv (hdr_len w c).1.
Proof.
  intros R. unfold hdr_len. 
  assert (R1 : RxInv (w {{ this_frame_masked := nz (c .& 128) }})) by (destruct w; inv_upd R).
  revert R1. generalize (w {{ this_frame_masked := nz (c .& 128) }}). clear w R. intros w R.
  assert (Hc : 0 <= c .& 127 < 2 ^ SIZE_W).
  { pose proof (land_bound_r 7 c 127). pose proof (size_le (2 ^ 7)). lia. }
  pose proof (set_len_inv w _ R Hc). repeat case_match; try done; try by apply set_state_inv.
  by apply spill_inv, set_state_inv.
Qed.

Lemma frame_key_inv w c : RxInv w -> RxInv (frame_key w c).1.
Proof.
  intros R. assert (R4 : RxInv (frame_key_4 w c).1).
  { unfold frame_key_4. apply (store_mask_inv _ 3 c) in R. revert R. generalize (store_mask 3 c w). clear w.
    intros w R.
    assert (R1 : RxInv (w {{ lws_rx_parse_state := RXPS_PAYLOAD_UNTIL_LENGTH_EXHAUSTED; mask_idx := 0 }}))
      by (destruct w; inv_upd R).
    case_match; [by apply spill_inv, set_state_inv|done]. }
  unfold frame_key. destruct (lws_rx_parse_state w); try done; by apply set_state_inv, store_mask_inv.
Qed.

Lemma after_len_inv w : RxInv w -> RxInv (after_len w).1.
Proof. apply set_state_inv. Qed.

(** A byte or-ed into the length at a position inside its type. *)
Lemma len_lor_inv w c sh : RxInv w -> is_u8 c -> 0 <= sh -> sh + 8 <= SIZE_W ->
  RxInv (w {{ rx_packet_length ::= (fun l => l .| (c .<< sh)) }}).
Proof.
  intros R Hc Hs Hw.
  assert (Hb : 0 <= c .<< sh < 2 ^ SIZE_W).
  { unfold is_u8 in Hc. rewrite Z.shiftl_mul_pow2 by done.
    pose proof (Z.pow_le_mono_r 2 (sh + 8) SIZE_W). rewrite Z.pow_add_r in * by lia. nia. }
  pose proof (lor_bound SIZE_W (rx_packet_length w) (c .<< sh) ltac:(lia) (ri_len _ R) Hb) as Hl.
  destruct w. cbn in Hl. inv_upd R.
Qed.

Lemma len64_byte_inv (only : bool) sh st w c : RxInv w -> is_u8 c -> 0 <= sh ->
  (if only then sh + 8 <= 64 else sh + 8 <= 32) -> RxInv (len64_byte only sh st w c).1.
Proof.
  intros R Hc Hs Hw. unfold len64_byte. apply set_state_inv. destruct (only && negb lp64) eqn:E; [done|].
  apply len_lor_inv; try done. unfold SIZE_W. destruct only, lp64; cbn in E; (done || lia).
Qed.

Lemma ext_len_inv w c : RxInv w -> is_u8 c -> RxInv (ext_len w c).1.
Proof.
  intros R Hc. pose proof SIZE_W_pos.
  assert (Ra : RxInv (after_len (w {{ rx_packet_length ::= (fun l => l .| c) }})).1).
  { apply after_len_inv. pose proof (len_lor_inv w c 0 R Hc ltac:(lia) ltac:(lia)) as R1.
    rewrite Z.shiftl_0_r in R1. exact R1. }
  unfold ext_len. destruct (lws_rx_parse_state w); try exact Ra;
    try (apply len64_byte_inv; (done || lia)).
  - apply set_state_inv, set_len_inv; [done|]. rewrite Z.shiftl_mul_pow2 by lia.
    pose proof (size_le (2 ^ 16)). unfold is_u8 in Hc. lia.
  - case_match; [done|]. apply set_state_inv, set_len_inv; [done|].
    pose proof (forall_u8 (fun c => nz (c .& 128) || (c <? 128)) ltac:(by vm_compute) c Hc) as Hlt.
    cbn in Hlt. rewrite H2 in Hlt. cbn in Hlt. zbool. unfold SIZE_W. destruct lp64; [|lia].
    rewrite Z.shiftl_mul_pow2 by lia. unfold is_u8 in Hc. change (2 ^ 56) with 72057594037927936. lia.
Qed.

Lemma payload_byte_inv w c : RxInv w -> rx_ubuf_head w + LWS_PRE < rx_ubuf_alloc w ->
  RxInv (payload_byte w c).
Proof.
  intros R Ha. pose proof (ri_head _ R). pose proof (ri_size _ R). pose proof (ri_alloc _ R).
  pose proof (wrap_range SIZE_W (rx_packet_length w - 1) ltac:(unfold SIZE_W; by destruct lp64)).
  assert (E : u32 (rx_ubuf_head w + 1) = rx_ubuf_head w + 1) by (apply u32_small; unfold LWS_PRE in *; lia).
  unfold payload_byte. destruct w. unfold spill_size in *. cbn in *.
  destruct all_zero_nonce; inv_upd R; rewrite ?E; try lia; try (unfold spill_size; cbn; lia).
Qed.

Lemma payload_inv w c : RxInv w -> RxInv (payload w c).1.
Proof.
  intros R. unfold payload. case_match; [by apply drain_inv|]. case_match; [done|]. zbool.
  pose proof (payload_byte_inv w c R ltac:(lia)) as R1. case_match; [by apply spill_inv, set_state_inv|].
  case_match; [done|by apply spill_inv].
Qed.

Lemma rx_sm_inv w c : RxInv w -> is_u8 c -> RxInv (lws_rx_sm w c).1.
Proof.
  intros R Hc. unfold lws_rx_sm. case_match; [done|].
  pose proof (ext_len_inv w c R Hc). pose proof (frame_key_inv w c R).
  destruct (lws_rx_parse_state w); try done; try (by apply set_state_inv, store_mask_inv).
  - case_match; [by apply drain_inv, list_remove_inv|]. case_match; [|done].
    apply handle_first_inv. clear H2 H3. destruct w. inv_upd R.
  - apply (store_mask_inv _ 3 c) in R. clear H2 H3. revert R. generalize (store_mask 3 c w). intros v R.
    destruct v. inv_upd R.
  - by apply handle_first_inv.
  - by apply hdr_len_inv.
  - by apply payload_inv.
Qed.

Lemma rx_bytes_inv l : forall w, RxInv w -> all_u8 l -> RxInv (rx_bytes w l).1.
Proof.
  induction l as [|c l IH]; intros w R Hl; cbn [rx_bytes]; [done|]. forall_inv.
  pose proof (rx_sm_inv w c R ltac:(done)) as R1. destruct (lws_rx_sm w c) as [w1 m].
  case_match; [done|]. by apply IH.
Qed.

End Inv.
