(* ===== verification/WsRxBulk.v ===== *)
(** * The bulk path of the server receiver

    [lws_payload_until_length_exhausted] copies and unmasks as much of a payload
    as it can without completing the frame or the buffer;
    [lws_interpret_incoming_packet] alternates it with the byte-wise state
    machine.  Both together do what the state machine alone does. *)

From S2P Require Import Prelude Ws WsRx WsRxFacts WsRxInv.

Section Bulk.
Context `{LwsEnvOk}.

(** Masking a block is masking its bytes in turn. *)
Lemma xor4_mask m l : length m = 4%nat -> forall i, i mod 4 = 0 -> xor4 m l = mask_from m i l.
Proof.
  intros Hm. enough (Hn : forall n l, (length l <= n)%nat -> forall i, i mod 4 = 0 -> xor4 m l = mask_from m i l)
    by (intros i; by apply (Hn (length l))).
  clear l. induction n as [|n IH]; intros l Hl i Hi; [by destruct l; [|cbn in Hl; lia]|].
  assert (E : (i + 1) mod 4 = 1 /\ (i + 1 + 1) mod 4 = 2 /\ (i + 1 + 1 + 1) mod 4 = 3 /\
    (i + 1 + 1 + 1 + 1) mod 4 = 0) by dm_lia. destruct E as (E1 & E2 & E3 & E4).
  destruct l as [|a [|b [|c [|d l]]]]; cbn [xor4 mask_from]; rewrite ?Hi, ?E1, ?E2, ?E3; try done.
  do 4 f_equal. apply IH; [cbn in Hl; lia|done].
Qed.

(** The rotated key at position 0 is the key at the current position. *)
Lemma rot_mask_from w l : mask_from (rot_mask w) 0 l = mask_from (mask w) (mask_idx w) l.
Proof.
  enough (E : forall i, 0 <= i -> mask_from (rot_mask w) i l = mask_from (mask w) (mask_idx w + i) l)
    by (by rewrite E, Z.add_0_r).
  induction l as [|x l IH]; intros i Hi; cbn [mask_from]; [done|]. f_equal.
  - f_equal. unfold rot_mask. 
    assert (Em : (mask_idx w + i) mod 4 = (mask_idx w + i mod 4) .& 3)
      by (rewrite land3_mod; symmetry; apply Z.add_mod_idemp_r; lia). rewrite Em.
    assert (Hb : i mod 4 = 0 \/ i mod 4 = 1 \/ i mod 4 = 2 \/ i mod 4 = 3)
      by (pose proof (Z.mod_pos_bound i 4); lia).
    by destruct Hb as [->|[->|[->| ->]]].
  - rewrite IH by lia. f_equal. lia.
Qed.

(** The connection after a block [src] of payload was stored. *)
Definition bulk_store (w : lws) (src : bytes) : lws :=
  w {{ rx_ubuf ::= splice (Z.to_nat (LWS_PRE + rx_ubuf_head w)) (wire w src);
       mask_idx ::= (fun i => if all_zero_nonce w then i else i + zlen src);
       rx_ubuf_head ::= (fun h => h + zlen src);
       rx_packet_length ::= (fun l => l - zlen src) }}.

Lemma splice_insert {A} i (x : A) src l : (i + S (length src) <= length l)%nat ->
  splice i (x :: src) l = splice (S i) src (<[i := x]> l).
Proof.
  intros Hl. unfold splice. cbn [length app]. rewrite drop_insert_lt by lia.
  rewrite (take_S_r _ i x) by (apply list_lookup_insert_eq; lia).
  rewrite take_insert_ge by lia. rewrite <- app_assoc. cbn [app].
  by replace (i + S (length src))%nat with (S i + length src)%nat by lia.
Qed.

(** The parser is inside a payload and takes bytes. *)
Record Taking (w : lws) : Prop := {
  tk_inv : RxInv w;
  tk_state : lws_rx_parse_state w = RXPS_PAYLOAD_UNTIL_LENGTH_EXHAUSTED;
  tk_usable : socket_is_permanently_unusable w = false;
  tk_drain : rx_draining_ext w = false
}.

Lemma payload_byte_fields w c : RxInv w -> rx_ubuf_head w < spill_size w -> 0 < rx_packet_length w ->
  let v := payload_byte w c in
  lws_rx_parse_state v = lws_rx_parse_state w /\ rx_ubuf_head v = rx_ubuf_head w + 1 /\
  rx_packet_length v = rx_packet_length w - 1 /\ spill_size v = spill_size w /\
  socket_is_permanently_unusable v = socket_is_permanently_unusable w /\
  rx_draining_ext v = rx_draining_ext w.
Proof.
  intros R Hh Hl. destruct (ri_size _ R), (ri_head _ R), (ri_len _ R). cbv zeta.
  assert (E1 : u32 (rx_ubuf_head w + 1) = rx_ubuf_head w + 1) by (apply u32_small; unfold LWS_PRE in *; lia).
  assert (E2 : wrap SIZE_W (rx_packet_length w - 1) = rx_packet_length w - 1) by (apply wrap_small; lia).
  unfold payload_byte. destruct w. cbn in *. by destruct all_zero_nonce.
Qed.

(** A byte that neither ends the frame nor fills the buffer is only stored. *)
Lemma rx_sm_store w c : Taking w -> rx_ubuf_head w + 1 < spill_size w -> 1 < rx_packet_length w ->
  lws_rx_sm w c = (payload_byte w c, 0) /\ Taking (payload_byte w c).
Proof.
  intros [R Hst Hu Hd] Hh Hl. pose proof (ri_alloc _ R) as Ha.
  destruct (payload_byte_fields w c R ltac:(lia) ltac:(lia)) as (F1 & F2 & F3 & F4 & F5 & F6).
  split.
  - unfold lws_rx_sm, payload. rewrite Hu, Hst, Hd, Z.geb_leb, (proj2 (Z.leb_gt _ _)) by lia.
    cbv zeta. rewrite F2, F3, F4, !(proj2 (Z.eqb_neq _ _)) by lia. done.
  - split; [apply payload_byte_inv; [done|lia]|congruence..].
Qed.

Lemma length_wire w src : length (wire w src) = length src.
Proof. unfold wire. case_match; [done|]. apply length_mask_from. Qed.

Lemma bulk_store_cons w c src : RxInv w -> rx_ubuf_head w + zlen (c :: src) <= spill_size w ->
  zlen (c :: src) <= rx_packet_length w ->
  bulk_store (payload_byte w c) src ≡ bulk_store w (c :: src).
Proof.
  intros R Hh Hl. rewrite zlen_cons in *. pose proof (zlen_nonneg src).
  destruct (payload_byte_fields w c R ltac:(lia) ltac:(lia)) as (_ & F2 & F3 & _).
  destruct (ri_head _ R) as [Hh0 _]. pose proof (ri_alloc _ R) as Ha. pose proof (ri_ubuf _ R) as Hu.
  assert (Ew : wire w (c :: src) = (if all_zero_nonce w then c else c .^ znth (mask w) (mask_idx w .& 3)) ::
            wire (payload_byte w c) src).
  { rewrite wire_cons. apply f_equal. apply wire_ext; unfold payload_byte, push; destruct w; cbn;
      by destruct all_zero_nonce. }
  pose proof (length_wire (payload_byte w c) src) as Hlen.
  unfold bulk_store. rewrite Ew, zlen_cons. revert Hlen. generalize (wire (payload_byte w c) src). intros d Hlen.
  unfold payload_byte in *. unfold equiv, lws_equiv, norm.
  assert (Hsp : forall x, splice (Z.to_nat (LWS_PRE + (rx_ubuf_head w + 1))) d
      (<[Z.to_nat (LWS_PRE + rx_ubuf_head w) := x]> (rx_ubuf w)) =
      splice (Z.to_nat (LWS_PRE + rx_ubuf_head w)) (x :: d) (rx_ubuf w)).
  { intros x. unfold zlen, LWS_PRE in *.
    rewrite splice_insert by lia. f_equal. lia. }
  destruct w. cbn in *. destruct all_zero_nonce; cbn in *; rewrite F2, F3, Hsp; f_equal; try lia.
  rewrite (Zplus_mod _ (zlen src)), u8_mod4, <- Zplus_mod. f_equal. lia.
Qed.

Lemma rx_bytes_store src : forall w, Taking w -> rx_ubuf_head w + zlen src < spill_size w ->
  zlen src < rx_packet_length w -> exists v, rx_bytes w src = (v, 0) /\ v ≡ bulk_store w src /\ Taking v.
Proof.
  induction src as [|c src IH]; intros w T Hh Hl; cbn [rx_bytes].
  - exists w. split; [done|]. split; [|done]. unfold bulk_store, equiv, lws_equiv, norm. destruct w. rcbn.
    change (zlen (@nil Z)) with 0. rewrite !Z.add_0_r, Z.sub_0_r. unfold wire. cbn.
    destruct all_zero_nonce; by rewrite splice_nil.
  - rewrite zlen_cons in *. pose proof (zlen_nonneg src).
    destruct (rx_sm_store w c T ltac:(lia) ltac:(lia)) as [-> T1]. cbn [Z.ltb Z.compare].
    destruct (payload_byte_fields w c (tk_inv _ T) ltac:(lia) ltac:(lia)) as (F1 & F2 & F3 & F4 & F5 & F6).
    destruct (IH _ T1) as (v & E & Ev & Tv); [lia|lia|]. exists v. split; [done|]. split; [|done].
    rewrite Ev. apply bulk_store_cons; [apply T|rewrite zlen_cons; lia..].
Qed.

(** ** Connections without extensions stay without *)

Definition NoExt (w : lws) : Prop := count_act_ext w = 0%nat /\ rx_draining_ext w = false.

Lemma noext_view w w' : rx_view w' = rx_view w -> NoExt w -> NoExt w'.
Proof.
  unfold rx_view, NoExt. intros E. injection E as E1 E2 E3 E4 E5 E6 E7 E8 E9 E10 E11 E12 E13 E14 E15 E16 E17.
  by rewrite E3, E17.
Qed.

Ltac noext_cb N :=
  match goal with |- context [user_callback_handle_rxflow ?w ?a ?d] =>
    let E := fresh "E" in
    pose proof (callback_view w a d) as E; destruct (user_callback_handle_rxflow w a d);
    cbn in E; apply (noext_view _ _ E) in N; clear E end.

Lemma drain_noext w a b t : NoExt w -> NoExt (rx_drain_extension w a b t).1.
Proof.
  intros N. unfold rx_drain_extension. case_match; [by destruct w|].
  rewrite ext_none by apply N. cbn [Z.ltb Z.compare]. case_match; [by destruct w|].
  change (nz 0) with false. cbn [andb]. unfold lws_remove_wsi_from_draining_ext_list.
  rewrite (proj2 N). case_match; [|by destruct w].
  assert (N1 : NoExt (store_nul w t)) by (unfold store_nul; case_match; by destruct w).
  destruct has_callback; [|by destruct (store_nul w t)]. noext_cb N1. by destruct l.
Qed.

Lemma ping_noext w : NoExt w -> NoExt (process_as_ping w).1.
Proof. intros N. unfold process_as_ping, ping_drop. case_match; by destruct w. Qed.

Lemma spill_noext w : NoExt w -> NoExt (rx_spill w).1.
Proof.
  intros N. unfold rx_spill, spill_close. case_match.
  { repeat (case_match; [by destruct w|]). noext_cb N.
    destruct (nz z); [done|]. apply ping_noext. by destruct l. }
  case_match; [case_match; [by destruct w|by apply ping_noext]|].
  case_match; [apply drain_noext; case_match; [by apply (noext_view _ _ (clear_timeout_view w))|done]|].
  case_match; [by apply drain_noext|]. rewrite ext_none by apply N. by destruct w.
Qed.

Lemma rx_sm_noext w c : NoExt w -> NoExt (lws_rx_sm w c).1.
Proof.
  intros N. unfold lws_rx_sm. case_match; [done|].
  assert (N1 : NoExt (ext_len w c).1).
  { unfold ext_len, len64_byte, after_len. destruct w. destruct lws_rx_parse_state; rcbn; case_ifs; done. }
  assert (N2 : NoExt (frame_key w c).1).
  { clear N1. unfold frame_key, frame_key_4, store_mask. destruct w. destruct lws_rx_parse_state; rcbn; try done;
      (case_ifs; [by apply spill_noext|done]). }
  assert (N3 : forall w, NoExt w -> NoExt (handle_first w c).1).
  { clear. intros w N. unfold handle_first. destruct w. rcbn. case_ifs; done. }
  destruct (lws_rx_parse_state w); try done; try (by destruct w).
  - rewrite (proj2 N). case_match; [|done]. apply N3. by destruct w.
  - by apply N3.
  - unfold hdr_len. destruct w. rcbn. case_ifs; try done. by apply spill_noext.
  - unfold payload. rewrite (proj2 N). case_match; [done|].
    assert (N4 : NoExt (payload_byte w c)) by (unfold payload_byte; destruct w; cbn; by destruct all_zero_nonce).
    case_match; [apply spill_noext; by destruct (payload_byte w c)|]. case_match; [done|by apply spill_noext].
Qed.

(** ** The loop over a packet *)

(** Specification: the state machine takes one byte after the other for as long
    as flow control allows it; what is left then is kept aside. *)
Fixpoint rx_packet (w : lws) (buf : bytes) : lws * Z :=
  match buf with
  | [] => (w, 0)
  | c :: r =>
      if negb (nz (rxflow_change_to w .& LWS_RXFLOW_ALLOW)) then (lws_rxflow_cache w buf, 1)
      else let '(w, m) := lws_rx_sm w c in if m <? 0 then (w, -1) else rx_packet w r
  end.

Lemma rx_packet_equiv buf : forall w w', w ≡ w' -> NoExt w -> eqvr (rx_packet w buf) (rx_packet w' buf).
Proof.
  induction buf as [|c r IH]; intros w w' Hw N; cbn [rx_packet]; [done|].
  assert (E : rxflow_change_to w = rxflow_change_to w') by (clear N; equiv_step; done). rewrite <- E.
  case_match.
  { split; [|done]. unfold lws_rxflow_cache. rewrite (malloc_equiv _ _ Hw _ _ eq_refl).
    destruct (malloc_ok w' _); clear N E; equiv_step; destruct rxflow_buffer; equiv_solve. }
  destruct (rx_sm_equiv w w' c Hw (proj1 N)) as [Q1 Q2]. pose proof (rx_sm_noext w c N).
  destruct (lws_rx_sm w c) as [v m], (lws_rx_sm w' c) as [v' m']. cbn in *. subst.
  case_match; [done|]. by apply IH.
Qed.

Lemma set_pos_equiv w f : w {{ rxflow_pos ::= f }} ≡ w.
Proof. by destruct w. Qed.

(** Bytes that are only stored, with flow control open. *)
Lemma rx_packet_store src rest : forall w, Taking w -> rx_ubuf_head w + zlen src < spill_size w ->
  zlen src < rx_packet_length w -> nz (rxflow_change_to w .& LWS_RXFLOW_ALLOW) = true ->
  rx_packet w (src ++ rest) = rx_packet (rx_bytes w src).1 rest.
Proof.
  induction src as [|c src IH]; intros w T Hh Hl Hf; cbn [rx_bytes app]; [done|].
  rewrite zlen_cons in *. pose proof (zlen_nonneg src). cbn [rx_packet]. rewrite Hf. cbn [negb].
  destruct (rx_sm_store w c T ltac:(lia) ltac:(lia)) as [-> T1]. cbn [Z.ltb Z.compare].
  destruct (payload_byte_fields w c (tk_inv _ T) ltac:(lia) ltac:(lia)) as (F1 & F2 & F3 & F4 & F5 & F6).
  apply IH; [done|lia|lia|]. rewrite <- Hf. do 2 f_equal. unfold payload_byte. destruct w. cbn. by destruct all_zero_nonce.
Qed.

(** What the bulk path consumes and what it leaves. *)
Lemma bulk_path w buf : RxInv w -> buf <> [] ->
  exists src rest, buf = src ++ rest /\ rest <> [] /\
    (src = [] \/ (rx_ubuf_head w + zlen src < spill_size w /\ zlen src < rx_packet_length w)) /\
    let '(v, b, m) := lws_payload_until_length_exhausted w buf in
    b = rest /\ m = zlen src /\ v ≡ (if decide (src = []) then w else bulk_store w src).
Proof.
  intros R Hb. destruct (ri_size _ R) as [Hs0 Hs1], (ri_head _ R) as [Hh0 Hh1], (ri_len _ R) as [Hl0 Hl1].
  unfold lws_payload_until_length_exhausted.
  assert (E0 : u32 (spill_size w - rx_ubuf_head w) = spill_size w - rx_ubuf_head w)
    by (apply u32_small; unfold LWS_PRE in *; lia).
  rewrite E0. set (a0 := spill_size w - rx_ubuf_head w) in *.
  set (a1 := if a0 >? rx_packet_length w then u32 (rx_packet_length w) else a0).
  assert (E1 : a1 = Z.min a0 (rx_packet_length w)).
  { unfold a1. case_match; zbool; [rewrite u32_small|]; unfold LWS_PRE in *; lia. }
  set (a2 := if a1 >? zlen buf then u32 (zlen buf) else a1).
  assert (E2 : a2 = Z.min a1 (zlen buf)).
  { pose proof (zlen_nonneg buf). unfold a2. case_match; zbool; [rewrite u32_small|]; unfold LWS_PRE in *; lia. }
  clearbody a1 a2. destruct (a2 <=? 1) eqn:Ea; zbool.
  { exists [], buf. rewrite decide_True by done. repeat split; auto. }
  set (n := Z.to_nat (a2 - 1)).
  assert (Hn : (0 < n < length buf)%nat) by (unfold zlen in *; lia).
  assert (Hsrc : zlen (take n buf) = a2 - 1) by (unfold zlen; rewrite length_take; lia).
  exists (take n buf), (drop n buf). split; [by rewrite take_drop|].
  split; [intros En; apply (f_equal length) in En; rewrite length_drop in En; cbn in En; lia|].
  split; [right; lia|]. split; [done|]. split; [done|].
  rewrite decide_False by (intros En; rewrite En in Hsrc; change (zlen []) with 0 in Hsrc; lia).
  fold n. unfold bulk_store. rewrite Hsrc.
  assert (Ew : wire w (take n buf) = if all_zero_nonce w then take n buf else xor4 (rot_mask w) (take n buf)).
  { unfold wire. case_match; [done|]. by rewrite (xor4_mask (rot_mask w) _ eq_refl 0), rot_mask_from. }
  rewrite Ew. clear Ew.
  assert (Eh : u32 (rx_ubuf_head w + (a2 - 1)) = rx_ubuf_head w + (a2 - 1))
    by (apply u32_small; unfold LWS_PRE in *; lia).
  assert (El : wrap SIZE_W (rx_packet_length w - (a2 - 1)) = rx_packet_length w - (a2 - 1))
    by (apply wrap_small; lia).
  unfold equiv, lws_equiv, norm. destruct w. cbn in *. destruct all_zero_nonce; rcbn; rewrite Eh, El; [done|].
  f_equal. by rewrite land3_mod, Z.mod_mod by lia.
Qed.

(** The bulk path does not look whether the socket is still usable, so on a dead
    connection it may store bytes that the state machine would not; the outcome
    is the same: the events so far and -1. *)
Definition same_outcome (p q : lws * Z) : Prop :=
  p.2 = q.2 /\ events p.1 = events q.1 /\ (p.2 <> -1 -> p.1 ≡ q.1).

Lemma eqvr_outcome p q : eqvr p q -> same_outcome p q.
Proof. intros [E1 E2]. split; [done|]. split; [|done]. clear E2. destruct p as [p ?], q. cbn in *. equiv_step. done. Qed.

#[local] Instance same_outcome_trans : Transitive same_outcome.
Proof. intros p q r (A1 & A2 & A3) (B1 & B2 & B3). repeat split; [congruence..|]. intros Hp. rewrite A3, B3; congruence. Qed.

(** The bookkeeping of [rxflow_pos]. *)
Lemma bump_pos w n :
  let v := match rxflow_buffer w with Some _ => w {{ rxflow_pos ::= Z.add n }} | None => w end in
  v ≡ w /\ rx_view v = rx_view w /\ rxflow_change_to v = rxflow_change_to w /\
  socket_is_permanently_unusable v = socket_is_permanently_unusable w /\ events v = events w.
Proof. cbv zeta. destruct (rxflow_buffer w); [|done]. split; [apply set_pos_equiv|]. by destruct w. Qed.

(** One byte through the state machine and then the rest of the packet. *)
Lemma interpret_byte fuel w v c r :
  (forall w, RxInv w -> NoExt w -> exists o, lws_interpret_incoming_packet fuel w r = Some o /\
     same_outcome o (rx_packet w r)) ->
  v ≡ w -> RxInv v -> NoExt v -> is_u8 c -> nz (rxflow_change_to w .& LWS_RXFLOW_ALLOW) = true ->
  exists o, (let '(w, m) := lws_rx_sm v c in
             if m <? 0 then Some (w, -1) else lws_interpret_incoming_packet fuel w r) = Some o /\
    same_outcome o (rx_packet w (c :: r)).
Proof.
  intros IH Hv R N Hc Hf. cbn [rx_packet]. rewrite Hf. cbn [negb].
  destruct (rx_sm_equiv v w c Hv (proj1 N)) as [Q1 Q2]. pose proof (rx_sm_noext v c N) as N1.
  pose proof (rx_sm_inv v c R Hc) as R1.
  destruct (lws_rx_sm v c) as [v1 m], (lws_rx_sm w c) as [w1 m']. cbn in *. subst m'.
  destruct (m <? 0); [eexists; split; [done|by apply eqvr_outcome]|].
  destruct (IH v1 R1 N1) as (o & -> & Ho). exists o. split; [done|].
  etrans; [exact Ho|]. apply eqvr_outcome. by apply rx_packet_equiv.
Qed.

Lemma interpret_packet fuel : forall w buf, (length buf < fuel)%nat -> RxInv w -> NoExt w -> all_u8 buf ->
  exists o, lws_interpret_incoming_packet fuel w buf = Some o /\ same_outcome o (rx_packet w buf).
Proof.
  induction fuel as [|fuel IH]; intros w buf Hf R N Hb; [lia|]. cbn [lws_interpret_incoming_packet].
  destruct buf as [|x buf]; [by eexists|]. set (b := x :: buf) in *.
  assert (Hb0 : b <> []) by done. clearbody b.
  destruct (nz (rxflow_change_to w .& LWS_RXFLOW_ALLOW)) eqn:Efl; cbn [negb].
  2: { eexists. split; [done|]. destruct b; [done|]. cbn [rx_packet]. by rewrite Efl. }
  rewrite (proj2 N).
  destruct (bump_pos w 1) as (Qe & Qv & Qf & Qu & Qev).
  set (w1 := match rxflow_buffer w with Some _ => w {{ rxflow_pos ::= Z.add 1 }} | None => w end) in *.
  clearbody w1. pose proof (inv_view _ _ Qv R) as R1. pose proof (noext_view _ _ Qv N) as N1.
  destruct (bool_decide (lws_rx_parse_state w1 = RXPS_PAYLOAD_UNTIL_LENGTH_EXHAUSTED)) eqn:Est.
  2: { destruct b as [|c r]; [done|]. forall_inv. apply interpret_byte; try done.
       intros. apply IH; try done. cbn in Hf. lia. }
  apply bool_decide_eq_true in Est.
  destruct (bulk_path w1 b R1 Hb0) as (src & rest & -> & Hrest & Hsrc & Hblk).
  destruct (lws_payload_until_length_exhausted w1 (src ++ rest)) as [[v b'] m] eqn:Ebulk.
  destruct Hblk as (-> & -> & Hv). destruct rest as [|c rest]; [done|].
  destruct (bump_pos v (zlen src)) as (Ve & Vv & Vf & Vu & Vev).
  set (v1 := match rxflow_buffer v with Some _ => v {{ rxflow_pos ::= Z.add (zlen src) }} | None => v end) in *.
  clearbody v1. rewrite Hv in Ve. clear Hv Vf Vu Vev Vv Ebulk v.
  assert (Vb : events v1 = events w1 /\ NoExt v1 /\
     socket_is_permanently_unusable v1 = socket_is_permanently_unusable w1).
  { clear - Ve N1. destruct (decide (src = [])); apply equiv_split in Ve as (i & p & E & _);
      destruct v1, w1; cbn in *; unfold NoExt in *; cbn in *; injection E; intros; subst; done. }
  destruct Vb as (Vev & Vn & Vu). destruct (socket_is_permanently_unusable w1) eqn:Eu.
  { eexists. split; [unfold lws_rx_sm; rewrite Vu; done|].
    replace (rx_packet w (src ++ c :: rest)) with (w, -1); [split; cbn; [done|]; split; [congruence|done]|].
    destruct src; cbn [app rx_packet]; rewrite Efl; unfold lws_rx_sm; by rewrite <- Qu. }
  apply Forall_app in Hb as [_ Hb]. forall_inv. rewrite length_app in Hf. cbn in Hf.
  assert (Tk : Taking w1) by (constructor; (done || apply N1)).
  assert (IH' : forall w, RxInv w -> NoExt w -> exists o, lws_interpret_incoming_packet fuel w rest = Some o /\
     same_outcome o (rx_packet w rest)) by (intros; apply IH; (done || lia)).
  destruct (decide (src = [])) as [->|Hne].
  { apply interpret_byte; try done; [by rewrite Ve|by rewrite Ve]. }
  destruct Hsrc as [|[Hs1 Hs2]]; [done|]. destruct (rx_bytes_store src w1 Tk Hs1 Hs2) as (u & Eu1 & Eu2 & Tu).
  assert (Ef1 : nz (rxflow_change_to w1 .& LWS_RXFLOW_ALLOW) = true) by (by rewrite Qf).
  pose proof (rx_packet_store src (c :: rest) w1 Tk Hs1 Hs2 Ef1) as Ep. rewrite Eu1 in Ep. cbn [fst] in Ep.
  destruct (interpret_byte fuel u v1 c rest) as (o & Eo & Ho); try done.
  - by rewrite Ve, Eu2.
  - rewrite Ve, <- Eu2. apply Tu.
  - rewrite <- Ef1. do 2 f_equal. clear - Eu2. apply equiv_split in Eu2 as (i & p & E & _).
    destruct u, w1. cbn in E. by injection E.
  - exists o. split; [exact Eo|]. etrans; [exact Ho|]. rewrite <- Ep. apply eqvr_outcome, rx_packet_equiv; done.
Qed.

End Bulk.
