(* ===== verification/WsRxProps.v ===== *)
(** * Properties of the server receiver

    Message delivery over any segmentation of the stream, control frames, the
    frames that are refused, memory bounds, and two defects of the length
    parsing.  [demo_env] is the environment of the witnesses. *)

From S2P Require Import Prelude Ws WsRx WsRxFacts WsRxInv WsRxBulk.

Section Control.
Context `{LwsEnv}.

(** The result of the last byte of a frame. *)
Definition ended (o : lws * Z) : lws * Z := let '(w, m) := o in if m <? 0 then (w, -1) else (w, 0).

(** The payload of a frame that fits the buffer. *)
Lemma rx_whole_payload p : forall w, p <> [] -> Ready w ->
  lws_rx_parse_state w = RXPS_PAYLOAD_UNTIL_LENGTH_EXHAUSTED -> 0 <= rx_ubuf_head w ->
  rx_ubuf_head w + zlen p <= spill_size w -> rx_packet_length w = zlen p -> zlen p < 2 ^ SIZE_W ->
  exists u i, let v := w {{ rx_ubuf := u; mask_idx := i; rx_ubuf_head := rx_ubuf_head w + zlen p;
                            rx_packet_length := 0; lws_rx_parse_state := RXPS_NEW }} in
    rx_bytes w (wire w p) = ended (rx_spill v) /\ length u = length (rx_ubuf w) /\
    ubuf_data v (rx_ubuf_head w + zlen p) = ubuf_data w (rx_ubuf_head w) ++ p.
Proof.
  induction p as [|x p IH]; intros w Hp R Hst Hh0 Hh Hl Hm; [done|]. rewrite zlen_cons in *.
  pose proof (zlen_nonneg p) as Hz. rewrite wire_cons. fold (plain w x). cbn [rx_bytes].
  rewrite rx_payload_store, Hl by (done || lia).
  pose proof (push_data w (plain w x) R ltac:(lia)) as Ed. fold (plain w (plain w x)) in Ed.
  rewrite plain_plain in Ed. pose proof (push_ready w (plain w x) R) as R1.
  destruct (push_fields w (plain w x)) as (Fh & Fl & Fp & Fo & Fs & Fe).
  destruct p as [|y p].
  - change (zlen []) with 0 in *. rewrite Z.add_0_r. cbn [Z.eqb Pos.eqb].
    exists (rx_ubuf (push w (plain w x))), (mask_idx (push w (plain w x))). cbv zeta.
    assert (E : w {{ rx_ubuf := rx_ubuf (push w (plain w x)); mask_idx := mask_idx (push w (plain w x));
         rx_ubuf_head := rx_ubuf_head w + 1; rx_packet_length := 0; lws_rx_parse_state := RXPS_NEW }} =
       (push w (plain w x)) {{ lws_rx_parse_state := RXPS_NEW }}).
    { unfold push in *. destruct w. cbn in *. unfold constant. f_equal; lia. }
    rewrite E. split; [|split].
    + unfold ended, wire. destruct (rx_spill _) as [? m]. destruct (m <? 0); [done|]. by case_match.
    + unfold push. destruct w. cbn. apply length_insert.
    + unfold ubuf_data in *. by destruct (push w (plain w x)).
  - rewrite zlen_cons in *. pose proof (zlen_nonneg p). rewrite (proj2 (Z.eqb_neq _ 1)) by lia.
    rewrite (proj2 (Z.eqb_neq (rx_ubuf_head w + 1) _)) by lia. cbn [Z.ltb Z.compare].
    destruct (IH (push w (plain w x)) ltac:(done) R1 ltac:(congruence) ltac:(lia)) as (u & i & E & Hu & Hd); [lia..|].
    exists u, i. cbv zeta in *. rewrite Fh in *.
    assert (E2 : forall st, (push w (plain w x)) {{ rx_ubuf := u; mask_idx := i; rx_ubuf_head := rx_ubuf_head w + 1 + (1 + zlen p);
         rx_packet_length := 0; lws_rx_parse_state := st }} =
       w {{ rx_ubuf := u; mask_idx := i; rx_ubuf_head := rx_ubuf_head w + (1 + (1 + zlen p));
            rx_packet_length := 0; lws_rx_parse_state := st }}).
    { intros st. unfold push. destruct w. cbn. unfold constant. f_equal; lia. }
    rewrite E2 in E, Hd. split; [|split].
    + rewrite <- E. by rewrite (wire_ext (push w 0) (push w (plain w x))) by (by destruct w).
    + rewrite Hu. unfold push. destruct w. cbn. apply length_insert.
    + replace (rx_ubuf_head w + (1 + (1 + zlen p))) with (rx_ubuf_head w + 1 + (1 + zlen p)) at 2 by lia.
      rewrite Hd, Ed. by rewrite <- app_assoc.
Qed.

Definition ctl_op (op : Z) : Prop := op = LWSWSOPC_CLOSE \/ op = LWSWSOPC_PING \/ op = LWSWSOPC_PONG.

(** The masking key, whatever the opcode. *)
Lemma rx_key_any w k0 k1 k2 k3 n : Ready w -> all_zero_nonce w = true ->
  let w1 := w {{ mask := [k0; k1; k2; k3];
                 all_zero_nonce := negb (nz k0) && negb (nz k1) && negb (nz k2) && negb (nz k3);
                 mask_idx := 0; this_frame_masked := true; rx_packet_length := n }} in
  rx_bytes (with_len w true n) [k0; k1; k2; k3] =
  (if n =? 0 then ended (rx_spill (w1 {{ lws_rx_parse_state := RXPS_NEW }}))
   else (w1 {{ lws_rx_parse_state := RXPS_PAYLOAD_UNTIL_LENGTH_EXHAUSTED }}, 0)).
Proof.
  intros R Hz w1.
  assert (Hm : exists m0 m1 m2 m3, mask w = [m0; m1; m2; m3]).
  { pose proof (rd_mask _ R) as Hm. destruct (mask w) as [|m0 [|m1 [|m2 [|m3 [|]]]]]; try done. eauto. }
  destruct Hm as (m0 & m1 & m2 & m3 & Hm). set (w2 := w1 {{ lws_rx_parse_state := RXPS_NEW }}).
  remember (rx_spill w2) as o eqn:Eo. unfold w2, w1 in Eo.
  pose proof (rd_usable _ R) as Hu. unfold w1, with_len in *. destruct w. cbn in Hu, Hm, Hz. subst mask all_zero_nonce socket_is_permanently_unusable.
  cbn [rx_bytes]. unfold lws_rx_sm, frame_key, frame_key_4, store_mask. rcbn. rcbn_all.
  destruct (n =? 0); [|done]. rewrite <- Eo. by destruct o.
Qed.

(** What a control frame reaches the end of the frame with. *)
Record CtlEnd (w v : lws) (op : Z) (p : bytes) : Prop := {
  ce_ready : Ready v;
  ce_data : ubuf_data v (rx_ubuf_head v) = p;
  ce_head : rx_ubuf_head v = zlen p;
  ce_op : opcode v = op;
  ce_state : lws_rx_parse_state v = RXPS_NEW;
  ce_events : events v = events w;
  ce_ping : ping_pending_flag v = ping_pending_flag w /\ ping_payload_buf v = ping_payload_buf w /\
            ping_payload_len v = ping_payload_len w;
  ce_rest : payload_is_close v = payload_is_close w /\ pending_timeout v = pending_timeout w /\
            tx v = tx w
}.

Lemma rx_control w b0 k p : Idle w -> ctl_op (b0 .& 15) -> zlen p <= 125 -> zlen p <= spill_size w ->
  length k = 4%nat ->
  exists v, rx_bytes w (rfc_frame b0 (Some k) p) = ended (rx_spill v) /\ CtlEnd w v (b0 .& 15) p.
Proof.
  intros [R Hst Hh] Hop Hp Hps Hk. pose proof (zlen_nonneg p) as Hp0.
  pose (w1 := w {{ all_zero_nonce := true; opcode := b0 .& 15; rsv := b0 .& 112; final := nz ((b0 .>> 7) .& 1);
                   lws_rx_parse_state := RXPS_04_FRAME_HDR_LEN }}).
  assert (E1 : lws_rx_sm w b0 = (w1, 0)).
  { rewrite (rx_sm_open _ _ R), Hst. unfold handle_first, w1. by destruct Hop as [->|[->| ->]]; destruct w. }
  assert (R1 : Ready w1) by (apply (ready_ext w); [done|unfold w1; destruct w; try done; apply R..]).
  cbn [rfc_frame]. rewrite (rx_bytes_cons0 _ _ _ _ E1). change 128 with (mbit true).
  unfold rfc_len. rewrite (proj2 (Z.ltb_lt _ 126)) by lia.
  rewrite rx_bytes_app, (rx_len7 w1 true) by (try done; try lia; try (by left); unfold w1; by destruct w).
  cbn [Z.ltb Z.compare]. destruct k as [|k0 [|k1 [|k2 [|k3 [|]]]]]; try done.
  rewrite rx_bytes_app, rx_key_any by (done || unfold w1; by destruct w).
  set (w2 := w1 {{ mask := _; all_zero_nonce := _; mask_idx := _; this_frame_masked := _; rx_packet_length := _ }}).
  destruct p as [|x p].
  - cbn [mask_from rx_bytes]. change (zlen [] =? 0) with true. cbn iota.
    exists (w2 {{ lws_rx_parse_state := RXPS_NEW }}). split; [unfold ended; destruct (rx_spill _) as [? m]; by destruct (m <? 0)|].
    unfold w2, w1. split; try (destruct w; cbn in *; subst; done).
    apply (ready_ext w); [done|by destruct w..].
  - pose proof (zlen_pos (x :: p) ltac:(done)). rewrite (proj2 (Z.eqb_neq _ 0)) by lia. cbn [Z.ltb Z.compare].
    set (w3 := w2 {{ lws_rx_parse_state := RXPS_PAYLOAD_UNTIL_LENGTH_EXHAUSTED }}).
    assert (R3 : Ready w3) by (apply (ready_ext w1); [done|unfold w3, w2; by destruct w1..]).
    assert (F : rx_ubuf_head w3 = 0 /\ spill_size w3 = spill_size w /\ rx_packet_length w3 = zlen (x :: p) /\
      lws_rx_parse_state w3 = RXPS_PAYLOAD_UNTIL_LENGTH_EXHAUSTED)
      by (rewrite <- Hh; unfold w3, w2, w1, spill_size; by destruct w).
    destruct F as (Fh & Fs & Fl & Fst).
    destruct (rx_whole_payload (x :: p) w3) as (u & i & E & Hu & Hd); try done; try lia.
    { pose proof (size_le 126). lia. }
    cbv zeta in *. set (v := w3 {{ rx_ubuf := u; mask_idx := _; rx_ubuf_head := _; rx_packet_length := _; lws_rx_parse_state := _ }}) in *.
    exists v. split.
    + rewrite <- E. f_equal. unfold wire.
      assert (M : mask w3 = [k0; k1; k2; k3] /\ mask_idx w3 = 0 /\
        all_zero_nonce w3 = negb (nz k0) && negb (nz k1) && negb (nz k2) && negb (nz k3))
        by (unfold w3, w2; by destruct w1).
      destruct M as (-> & -> & ->).
      destruct (negb (nz k0) && negb (nz k1) && negb (nz k2) && negb (nz k3)) eqn:Ez; [|done].
      zbool. subst. by rewrite mask_from_zero.
    + assert (Ehd : rx_ubuf_head v = rx_ubuf_head w3 + zlen (x :: p)) by (unfold v; by destruct w3).
      split; try (unfold v, w3, w2, w1; by destruct w).
      * apply (ready_ext w3); [done|unfold v; destruct w3; try done; apply R3..].
      * rewrite Ehd, Hd, Fh. done.
      * lia.
Qed.

(** The payload kept for the PONG (or for the echo of a CLOSE). *)
Definition ping_stash (w : lws) : bytes :=
  take (Z.to_nat (ping_payload_len w)) (drop (Z.to_nat LWS_PRE) (ping_payload_buf w)).

Lemma process_as_ping_stash v p : ubuf_data v (rx_ubuf_head v) = p -> rx_ubuf_head v = zlen p ->
  zlen p <= 125 -> zlen (ping_payload_buf v) = 128 - 3 + LWS_PRE ->
  exists w', process_as_ping v = (w', 0) /\ (Ready v -> Ready w') /\ rx_ubuf_head w' = 0 /\ ping_stash w' = p /\
    ping_pending_flag w' = true /\ lws_rx_parse_state w' = lws_rx_parse_state v /\
    state w' = state v /\ payload_is_close w' = payload_is_close v /\ events w' = events v ++ [EWritable].
Proof.
  intros Hd Hh Hp Hb. pose proof (zlen_nonneg p). unfold process_as_ping, ping_drop.
  rewrite Z.gtb_ltb, (proj2 (Z.ltb_ge _ _)) by lia. rewrite Hd. eexists. split; [done|].
  split; [intros R; apply (ready_ext v); [done|destruct v; try done; apply R..]|].
  split; [by destruct v|]. split; [|by destruct v]. unfold ping_stash. destruct v. rcbn. cbn in *.
  rewrite u8_small by (unfold is_u8; lia). rewrite Hh. unfold zlen in *. rewrite Nat2Z.id.
  apply (fill_splice (Z.to_nat LWS_PRE) 0). unfold LWS_PRE in *. lia.
Qed.

(** A PING frame (any masking key, payload up to 125 bytes) received between
    frames is stashed with its payload for a PONG and a writable callback is
    requested; while an earlier PING is still unanswered it is dropped and the
    stash stays as it is.  In both cases the connection is ready for the next frame. *)
Lemma server_ping w b0 k p : Idle w -> b0 .& 15 = LWSWSOPC_PING -> zlen p <= 125 -> zlen p <= spill_size w ->
  length k = 4%nat -> zlen (ping_payload_buf w) = 128 - 3 + LWS_PRE ->
  exists w', rx_bytes w (rfc_frame b0 (Some k) p) = (w', 0) /\ Idle w' /\ ping_pending_flag w' = true /\
    if ping_pending_flag w then ping_stash w' = ping_stash w /\ events w' = events w
    else ping_stash w' = p /\ events w' = events w ++ [EWritable].
Proof.
  intros Hid Hop Hp Hs Hk Hb.
  destruct (rx_control w b0 k p) as (v & -> & [R Hd Hh Ho Hst He (F1 & F2 & F3) _]); try done.
  { rewrite Hop. unfold ctl_op. auto. }
  unfold rx_spill. rewrite Ho, Hop, F1. cbn [Z.eqb Pos.eqb LWSWSOPC_PING LWSWSOPC_CLOSE].
  destruct (ping_pending_flag w) eqn:Ef.
  - unfold ping_drop. eexists. split; [done|]. split; [split|].
    + apply (ready_ext v); [done|destruct v; try done; apply R..].
    + by destruct v.
    + by destruct v.
    + split; [by destruct v|]. unfold ping_stash. rewrite <- F2, <- F3, <- He. by destruct v.
  - destruct (process_as_ping_stash v p) as (w' & -> & R' & Q1 & Q2 & Q3 & Q4 & _ & _ & Q5); try done; [congruence|].
    exists w'. split; [done|]. split; [split; [auto|congruence|done]|]. split; [done|]. split; [done|congruence].
Qed.

Context `{!TakingCallback}.

(** A CLOSE frame received on an established connection is reported to the
    user with its payload, the payload is stashed to be echoed, a writable
    callback is requested and the connection answers no further frame
    (LWSS_RETURNED_CLOSE_ALREADY). *)
Lemma server_close w b0 k p : Idle w -> b0 .& 15 = LWSWSOPC_CLOSE -> zlen p <= 125 -> zlen p <= spill_size w ->
  length k = 4%nat -> zlen (ping_payload_buf w) = 128 - 3 + LWS_PRE -> trunc_len (tx w) = 0 ->
  exists w', rx_bytes w (rfc_frame b0 (Some k) p) = (w', 0) /\ state w' = LWSS_RETURNED_CLOSE_ALREADY /\
    payload_is_close w' = true /\ ping_pending_flag w' = true /\ ping_stash w' = p /\
    calls (events w') = calls (events w) ++ [ECallback LWS_CALLBACK_WS_PEER_INITIATED_CLOSE p] /\
    last (events w') = Some EWritable.
Proof.
  intros Hid Hop Hp Hs Hk Hb Ht.
  destruct (rx_control w b0 k p) as (v & -> & [R Hd Hh Ho Hst He (F1 & F2 & F3) (F4 & F5 & F6)]); try done.
  { rewrite Hop. unfold ctl_op. auto. }
  unfold rx_spill, spill_close, lws_partial_buffered. rewrite Ho, Hop, (rd_state _ R), F6, Ht.
  cbn [Z.eqb Pos.eqb LWSWSOPC_CLOSE]. change (nz 0) with false. rewrite !bool_decide_false by done.
  rewrite callback_taken by (apply R || rx_reason_tac). change (nz 0) with false. cbn iota. rewrite Hd.
  destruct (callback_run v LWS_CALLBACK_WS_PEER_INITIATED_CLOSE p ltac:(rx_reason_tac)) as (u & -> & A). cbn [fst].
  set (v1 := u {{ state := LWSS_RETURNED_CLOSE_ALREADY; payload_is_close := true }}).
  assert (V : ubuf_data v1 (rx_ubuf_head v1) = p /\ rx_ubuf_head v1 = zlen p /\
    length (ping_payload_buf v1) = length (ping_payload_buf w) /\ state v1 = LWSS_RETURNED_CLOSE_ALREADY /\
    payload_is_close v1 = true /\
    calls (events v1) = calls (events v) ++ [ECallback LWS_CALLBACK_WS_PEER_INITIATED_CLOSE p]).
  { unfold v1. rewrite <- F2, <- Hh. destruct A as (t & pt & pb & cl & mk & mi & ev & -> & Ab & _ & _ & Ae).
    replace (calls (events v) ++ _) with (calls (events (emit (ECallback LWS_CALLBACK_WS_PEER_INITIATED_CLOSE p) v)))
      by (destruct v; cbn; by rewrite calls_app).
    split; [destruct v; exact Hd|]. by destruct v. }
  destruct V as (V1 & V2 & V3 & V4 & V5 & V6).
  destruct (process_as_ping_stash v1 p) as (w' & -> & _ & Q1 & Q2 & Q3 & Q4 & Q5 & Q6 & Q7); try done.
  { unfold zlen in *. congruence. }
  exists w'. split; [done|]. split; [congruence|]. split; [congruence|]. split; [done|]. split; [done|].
  rewrite Q7, calls_app, V6, He. split; [by rewrite app_nil_r|apply last_snoc].
Qed.

(** A PONG frame reaches the user with its payload and cancels the timeout of
    a PING the server is waiting to see answered; other timeouts stay. *)
Lemma server_pong w b0 k p : Idle w -> b0 .& 15 = LWSWSOPC_PONG -> zlen p <= 125 -> zlen p <= spill_size w ->
  length k = 4%nat ->
  exists w', rx_bytes w (rfc_frame b0 (Some k) p) = (w', 0) /\ Idle w' /\
    calls (events w') = calls (events w) ++ [ECallback LWS_CALLBACK_RECEIVE_PONG p] /\
    exists v, pending_timeout v = (if pending_timeout w =? PENDING_TIMEOUT_WS_PONG_CHECK_GET_PONG
                                   then NO_PENDING_TIMEOUT else pending_timeout w) /\
      w' = (run_callback v LWS_CALLBACK_RECEIVE_PONG p).1 {{ rx_ubuf_head := 0 }}.
Proof.
  intros Hid Hop Hp Hs Hk.
  destruct (rx_control w b0 k p) as (v & -> & [R Hd Hh Ho Hst He _ (_ & F5 & _)]); try done.
  { rewrite Hop. unfold ctl_op. auto. }
  unfold rx_spill. rewrite Ho, Hop. cbn [Z.eqb Pos.eqb LWSWSOPC_PING LWSWSOPC_CLOSE LWSWSOPC_PONG].
  set (v1 := if pending_timeout v =? _ then clear_timeout v else v).
  assert (V : Ready v1 /\ rx_ubuf v1 = rx_ubuf v /\ events v1 = events v /\
    lws_rx_parse_state v1 = lws_rx_parse_state v /\
    pending_timeout v1 = if pending_timeout w =? PENDING_TIMEOUT_WS_PONG_CHECK_GET_PONG
                         then NO_PENDING_TIMEOUT else pending_timeout w).
  { unfold v1. rewrite F5. destruct (pending_timeout w =? _); [|done].
    unfold clear_timeout, lws_set_timeout, lws_remove_from_timeout_list.
    change (nz NO_PENDING_TIMEOUT) with false. cbn [andb negb].
    case_match; (split; [apply (ready_ext v); [done|destruct v; try done; apply R..]|]; by destruct v). }
  destruct V as (R1 & V1 & V2 & V3 & V4). clearbody v1.
  unfold rx_drain_extension. rewrite (rd_state _ R1), (ext_none _ _ _ (rd_ext _ R1)).
  rewrite !bool_decide_false by done. cbn [orb Z.ltb Z.compare andb]. change (nz 0) with false. cbn [andb].
  unfold lws_remove_wsi_from_draining_ext_list. rewrite (rd_drain _ R1).
  change (LWS_CALLBACK_RECEIVE_PONG =? LWS_CALLBACK_RECEIVE_PONG) with true. rewrite orb_true_r.
  rewrite taking_present, callback_taken by (rx_reason_tac || destruct R1; by destruct v1).
  cbn [tok_data tok token_len]. rewrite ubuf_data_nul by (rewrite Hh; apply zlen_nonneg).
  assert (Ed : ubuf_data v1 (rx_ubuf_head v) = p) by (unfold ubuf_data in *; by rewrite V1).
  rewrite Ed. set (v2 := store_nul v1 _).
  assert (W : Ready v2 /\ events v2 = events v1 /\ lws_rx_parse_state v2 = lws_rx_parse_state v1 /\
    pending_timeout v2 = pending_timeout v1).
  { split; [|by destruct v1]. apply (ready_ext v1); [done|destruct v1; cbn; try done; try apply R1..]. by rewrite length_insert. }
  destruct W as (W1 & W2 & W3 & W4). clearbody v2.
  destruct (callback_run v2 LWS_CALLBACK_RECEIVE_PONG p ltac:(rx_reason_tac)) as (u & Eu & A).
  destruct (acts_fields _ _ _ A) as (_ & _ & A3 & _ & _ & _ & _ & _ & _ & A10).
  eexists. split; [done|]. rewrite Eu. cbn [fst]. split; [split|split].
  - apply set_head_ready, (acts_ready _ _ _ A). apply (ready_ext v2); [done|destruct v2; try done; apply W1..].
  - replace (lws_rx_parse_state (u {{ rx_ubuf_head := 0 }})) with (lws_rx_parse_state u) by (by destruct u).
    rewrite A3, <- Hst, <- V3, <- W3. by destruct v2.
  - by destruct u.
  - replace (events (u {{ rx_ubuf_head := 0 }})) with (events u) by (by destruct u).
    rewrite A10, <- He, <- V2, <- W2. destruct v2. cbn. by rewrite calls_app.
  - exists v2. rewrite Eu. split; [congruence|done].
Qed.

End Control.

(** ** Delivery of a stream of frames *)

Section Delivery.
Context `{LwsEnvOk} `{!TakingCallback}.

(** The packets the socket hands over, one after the other. *)
Fixpoint rx_stream (w : lws) (packets : list bytes) : option (lws * Z) :=
  match packets with
  | [] => Some (w, 0)
  | b :: r =>
      match lws_interpret_incoming_packet (S (length b)) w b with
      | Some (w, m) => if m =? 0 then rx_stream w r else Some (w, m)
      | None => None
      end
  end.

(** A data frame of the client: first byte, masking key, payload. *)
Record frame := mkFrame { fr_first : Z; fr_key : option bytes; fr_payload : bytes }.

Definition frame_ok (f : frame) : Prop :=
  is_u8 (fr_first f) /\ data_op (fr_first f .& 15) /\ zlen (fr_payload f) < len_limit /\
  all_u8 (fr_payload f) /\
  match fr_key f with Some k => length k = 4%nat /\ all_u8 k | None => True end.

Definition frame_bytes (f : frame) : bytes := rfc_frame (fr_first f) (fr_key f) (fr_payload f).

(** What the user gets to see of a frame. *)
Definition frame_events (size : Z) (f : frame) : list event :=
  map (ECallback LWS_CALLBACK_RECEIVE) (deliver size [] (fr_payload f)).

#[local] Instance idle_equiv : Proper ((≡) ==> iff) Idle.
Proof.
  assert (Hi : forall w w', w ≡ w' -> Idle w -> Idle w').
  { intros w w' Hw [R Hst Hh]. apply equiv_split in Hw as (i & p & -> & _).
    split; [apply (ready_ext w); [done|destruct w; try done; apply R..]|by destruct w|by destruct w]. }
  intros w w' Hw. split; [by apply Hi|apply Hi; by rewrite Hw].
Qed.

(** Feeding frames byte by byte. *)
Lemma rx_bytes_frames fs : forall w, Idle w -> Forall frame_ok fs ->
  exists w', rx_bytes w (concat (map frame_bytes fs)) = (w', 0) /\ Idle w' /\
    calls (events w') = calls (events w) ++ concat (map (frame_events (spill_size w)) fs).
Proof.
  induction fs as [|f fs IH]; intros w Hid Hok; cbn [map concat].
  { exists w. cbn. by rewrite app_nil_r. }
  apply Forall_cons in Hok as [(_ & Hop & Hl & _ & Hk) Hok].
  assert (E1 : exists w1, rx_bytes w (frame_bytes f) = (w1, 0) /\ receives w (fr_payload f) w1).
  { unfold frame_bytes. destruct (fr_key f) as [k|].
    - apply rx_frame_masked; try done. apply Hk.
    - by apply rx_frame_unmasked. }
  destruct E1 as (w1 & E1 & Hid1 & Hs & He). destruct (IH w1 Hid1 Hok) as (w' & E & Hid' & He').
  exists w'. rewrite rx_bytes_app, E1. split; [done|]. split; [done|].
  rewrite He', He, Hs. by rewrite <- app_assoc.
Qed.

Lemma callback_flow w r d : rx_reason r -> rxflow_change_to w = LWS_RXFLOW_ALLOW ->
  rxflow_change_to (user_callback_handle_rxflow w r d).1 = LWS_RXFLOW_ALLOW.
Proof.
  intros Hr E. rewrite callback_taken by done. destruct (callback_run w r d Hr) as (u & -> & A). cbn.
  destruct (acts_fields _ _ _ A) as (_ & _ & _ & _ & _ & _ & _ & -> & _). by destruct w.
Qed.

Definition FlowOpen (w : lws) : Prop := NoExt w /\ rxflow_change_to w = LWS_RXFLOW_ALLOW.

Ltac flow_cb N :=
  match goal with |- context [user_callback_handle_rxflow ?w ?a ?d] =>
    let E := fresh "E" in
    pose proof (callback_flow w a d ltac:(first [done|rx_reason_tac]) N) as E; destruct (user_callback_handle_rxflow w a d);
    cbn in E; clear N; rename E into N end.

Lemma drain_flow w a b t : rx_reason a -> FlowOpen w -> rxflow_change_to (rx_drain_extension w a b t).1 = LWS_RXFLOW_ALLOW.
Proof.
  intros Ha [N F]. unfold rx_drain_extension. case_match; [by destruct w|].
  rewrite ext_none by apply N. cbn [Z.ltb Z.compare]. case_match; [by destruct w|].
  change (nz 0) with false. cbn [andb]. unfold lws_remove_wsi_from_draining_ext_list.
  rewrite (proj2 N). case_match; [|by destruct w].
  assert (F1 : rxflow_change_to (store_nul w t) = LWS_RXFLOW_ALLOW) by (unfold store_nul; case_match; by destruct w).
  destruct has_callback; [|by destruct (store_nul w t)]. flow_cb F1. by destruct l.
Qed.

Lemma clear_timeout_flow w : FlowOpen w -> FlowOpen (clear_timeout w).
Proof.
  intros [N F]. split; [apply (noext_view _ _ (clear_timeout_view w) N)|].
  unfold clear_timeout, lws_set_timeout, lws_remove_from_timeout_list.
  change (nz NO_PENDING_TIMEOUT) with false. cbn [andb negb]. case_match; by destruct w.
Qed.

Lemma spill_flow w : FlowOpen w -> rxflow_change_to (rx_spill w).1 = LWS_RXFLOW_ALLOW.
Proof.
  intros [N F]. unfold rx_spill, spill_close, process_as_ping, ping_drop. case_match.
  { repeat (case_match; [by destruct w|]). flow_cb F.
    destruct (nz z); [done|]. case_match; by destruct l. }
  case_match; [case_match; [by destruct w|]; case_match; by destruct w|].
  case_match; [apply drain_flow; [rx_reason_tac|case_match; [by apply clear_timeout_flow|done]]|].
  case_match; [by apply drain_flow; [rx_reason_tac|]|]. rewrite ext_none by apply N. by destruct w.
Qed.

Lemma rx_sm_flow w c : FlowOpen w -> rxflow_change_to (lws_rx_sm w c).1 = LWS_RXFLOW_ALLOW.
Proof.
  intros [N F]. unfold lws_rx_sm. case_match; [done|].
  assert (N1 : rxflow_change_to (ext_len w c).1 = LWS_RXFLOW_ALLOW).
  { unfold ext_len, len64_byte, after_len. destruct w. destruct lws_rx_parse_state; rcbn; case_ifs; done. }
  assert (N2 : rxflow_change_to (frame_key w c).1 = LWS_RXFLOW_ALLOW).
  { clear N1. unfold frame_key, frame_key_4, store_mask. destruct w. destruct lws_rx_parse_state; rcbn; try done;
      (case_ifs; [by apply spill_flow|done]). }
  assert (N3 : forall w, rxflow_change_to w = LWS_RXFLOW_ALLOW -> rxflow_change_to (handle_first w c).1 = LWS_RXFLOW_ALLOW).
  { clear. intros w E. unfold handle_first. destruct w. rcbn. case_ifs; done. }
  destruct (lws_rx_parse_state w); try done; try (by destruct w).
  - rewrite (proj2 N). case_match; [|done]. apply N3. by destruct w.
  - by apply N3.
  - unfold hdr_len. destruct w. rcbn. case_ifs; try done. by apply spill_flow.
  - unfold payload. rewrite (proj2 N). case_match; [done|].
    assert (N4 : FlowOpen (payload_byte w c)) by (unfold payload_byte, FlowOpen; destruct w; cbn; by destruct all_zero_nonce).
    case_match; [apply spill_flow; by destruct (payload_byte w c)|]. case_match; [apply N4|by apply spill_flow].
Qed.

(** With flow control open a packet is fed byte by byte. *)
Lemma rx_packet_bytes b : forall w, FlowOpen w -> rx_packet w b = rx_bytes w b /\ FlowOpen (rx_bytes w b).1.
Proof.
  induction b as [|c b IH]; intros w Fo; cbn [rx_packet rx_bytes]; [done|]. rewrite (proj2 Fo).
  change (negb (nz (LWS_RXFLOW_ALLOW .& LWS_RXFLOW_ALLOW))) with false. cbn iota.
  assert (F1 : FlowOpen (lws_rx_sm w c).1) by (split; [by apply rx_sm_noext, Fo|by apply rx_sm_flow]).
  destruct (lws_rx_sm w c) as [w1 m]. cbn [fst] in F1. destruct (m <? 0); [done|by apply IH].
Qed.

#[local] Instance flowopen_equiv : Proper ((≡) ==> iff) FlowOpen.
Proof.
  assert (Hi : forall w w', w ≡ w' -> FlowOpen w -> FlowOpen w').
  { intros w w' Hw F. apply equiv_split in Hw as (i & p & -> & _). by destruct w. }
  intros w w' Hw. split; [by apply Hi|apply Hi; by rewrite Hw].
Qed.

Lemma rx_bytes_ret l : forall w, (rx_bytes w l).2 = 0 \/ (rx_bytes w l).2 = -1.
Proof.
  induction l as [|c l IH]; intros w; cbn [rx_bytes]; [by left|].
  destruct (lws_rx_sm w c) as [w1 m]. destruct (m <? 0); [by right|apply IH].
Qed.

Lemma rx_bytes_equiv l w w' : w ≡ w' -> FlowOpen w -> eqvr (rx_bytes w l) (rx_bytes w' l).
Proof.
  intros Hw F. destruct (rx_packet_bytes l w F) as [<- _].
  destruct (rx_packet_bytes l w') as [<- _]; [by rewrite <- Hw|]. apply rx_packet_equiv; [done|apply F].
Qed.

(** However the stream is cut into packets, it is taken as one. *)
Lemma rx_stream_bytes packets : forall w w', RxInv w -> FlowOpen w -> all_u8 (concat packets) ->
  rx_bytes w (concat packets) = (w', 0) -> exists v, rx_stream w packets = Some (v, 0) /\ v ≡ w'.
Proof.
  induction packets as [|b r IH]; intros w w' R F Hu E; cbn [concat rx_stream] in *.
  { injection E as <-. by exists w. }
  apply Forall_app in Hu as [Hb Hr]. rewrite rx_bytes_app in E.
  destruct (interpret_packet (S (length b)) w b ltac:(lia) R (proj1 F) Hb) as ([v m] & -> & Em & _ & Ev).
  destruct (rx_packet_bytes b w F) as [Ep Fo]. rewrite Ep in Em, Ev.
  pose proof (rx_bytes_inv b w R Hb) as R1. destruct (rx_bytes w b) as [w1 m1] eqn:Eb. cbn in *. subst m1.
  assert (Hm : m = 0).
  { destruct (rx_bytes_ret b w) as [Hm|Hm]; rewrite Eb in Hm; cbn in Hm; [done|subst; done]. }
  subst m. specialize (Ev ltac:(done)). cbn [Z.eqb Z.ltb Z.compare] in *.
  assert (F1 : FlowOpen v) by (by rewrite Ev).
  pose proof (rx_bytes_equiv (concat r) v w1 Ev F1) as [Q1 Q2]. rewrite E in Q1, Q2. cbn in Q1, Q2.
  destruct (rx_bytes v (concat r)) as [v1 m1] eqn:Ev1. cbn in Q1, Q2. subst m1.
  destruct (IH v v1 ltac:(by rewrite Ev) F1 Hr Ev1) as (u & -> & Hu'). exists u. split; [done|]. by etrans.
Qed.

Lemma idle_open w : Idle w -> FlowOpen w.
Proof. intros [R _ _]. split; [split|]; apply R. Qed.

Lemma rfc_len_u8 m n : is_u8 m -> m .& 127 = 0 -> 0 <= n < 2 ^ 63 -> all_u8 (rfc_len m n).
Proof.
  intros Hm Hz Hn. unfold rfc_len.
  assert (Hor : forall x, 0 <= x < 128 -> is_u8 (m .| x)) by (intros; apply (lor_bound 8); unfold is_u8 in *; lia).
  destruct (n <? 126) eqn:E1; zbool; [constructor; [apply Hor; lia|constructor]|].
  destruct (n <? 65536) eqn:E2; zbool.
  - repeat constructor; try apply Hor; try lia; try apply land_255_u8.
    all: pose proof (shiftr_range n 8 8); unfold is_u8; lia.
  - constructor; [apply Hor; lia|]. apply Forall_map, Forall_forall. intros i _. apply land_255_u8.
Qed.

Lemma mask_from_u8 k p : all_u8 k -> all_u8 p -> forall i, all_u8 (mask_from k i p).
Proof.
  intros Hk Hp. induction p as [|x p IH]; intros i; cbn [mask_from]; [constructor|]. forall_inv.
  constructor; [|by apply IH]. apply lxor_u8; [done|]. unfold znth.
  destruct (nth_in_or_default (Z.to_nat (i mod 4)) k 0) as [Hin| ->]; [|by unfold is_u8].
  rewrite Forall_forall in Hk. by apply Hk, list_elem_of_In.
Qed.

Lemma frame_bytes_u8 f : frame_ok f -> all_u8 (frame_bytes f).
Proof.
  intros (Hf & _ & Hl & Hp & Hk). unfold frame_bytes, rfc_frame.
  assert (Hn : 0 <= zlen (fr_payload f) < 2 ^ 63).
  { pose proof (zlen_nonneg (fr_payload f)). unfold len_limit in Hl. destruct lp64; lia. }
  destruct (fr_key f) as [k|]; (constructor; [done|]); apply Forall_app; (split; [apply rfc_len_u8; [by unfold is_u8|done|done]|]); [|done].
  destruct Hk as [_ Hk]. apply Forall_app. split; [done|]. by apply mask_from_u8.
Qed.

(** C1: Data frames reach the application exactly. The sequence is any one of text, binary
    and continuation frames with a length encoded as RFC 6455 asks (in the fewest bytes),
    below what the build can represent (2^63, or 2^32 where a long has 32 bits), each masked
    with any key or not. The connection is between two frames, with no extension, and its
    callback takes what it is given: it returns 0 and, when it acts on the connection,
    sends, asks to be called when writable, sets a timeout or a close reason
    ([TakingCallback]; the [callback_lws] of the repository requests writability). Then,
    however the network cuts the bytes into packets, the server receiver accepts them and
    calls back with the unmasked payload of every frame in order, in pieces of the receive
    buffer size, and with nothing else, and is between frames again. *)
Theorem server_delivers w fs packets : Idle w -> RxInv w -> Forall frame_ok fs ->
  concat packets = concat (map frame_bytes fs) ->
  exists w', rx_stream w packets = Some (w', 0) /\ Idle w' /\
    calls (events w') = calls (events w) ++ concat (map (frame_events (spill_size w)) fs).
Proof.
  intros Hid R Hok Hcat. destruct (rx_bytes_frames fs w Hid Hok) as (w1 & E & Hid1 & He).
  rewrite <- Hcat in E. assert (Hu : all_u8 (concat packets)).
  { rewrite Hcat. apply Forall_concat, Forall_map. eapply Forall_impl; [done|]. apply frame_bytes_u8. }
  destruct (rx_stream_bytes packets w w1 R (idle_open _ Hid) Hu E) as (v & Ev & Hv).
  exists v. split; [done|]. split; [by rewrite Hv|]. rewrite <- He. clear - Hv.
  apply equiv_split in Hv as (i & p & -> & _). by destruct v.
Qed.

End Delivery.

(** ** An environment and a connection for the witnesses *)

(** A 64-bit build, no extension, and a callback that asks to be called when
    writable for every message, as [callback_lws] does to send its answer. *)
#[local] Instance demo_env : LwsEnv := {
  lp64 := true;
  has_callback := true;
  protocol_callback w r _ :=
    (if (r =? LWS_CALLBACK_RECEIVE) || (r =? LWS_CALLBACK_CLIENT_RECEIVE)
     then lws_callback_on_writable w else w, 0);
  ext_callback _ w _ t := (w, t, 0);
  change_pollfd _ _ _ := 0;
  socket_write _ b := zlen b;
  random4 _ := Some [1; 2; 3; 4];
  malloc_ok _ _ := true;
  send_pipe_choked _ := false;
  now_secs _ := 0
}.

#[local] Instance demo_taking : TakingCallback.
Proof.
  constructor; [done|done|]. intros w r d _. cbn. destruct (_ || _); [apply acts_writable|apply acts_refl].
Qed.

#[local] Instance demo_env_ok : LwsEnvOk.
Proof.
  constructor.
  - intros w r d. cbn. by destruct (_ || _); destruct w.
  - intros r d w w' Hw. cbn. destruct (_ || _); [|by split]. split; [by apply emit_equiv|done].
  - done.
  - cbn. intros n w r t Ht. split; [done|lia].
  - intros w w' _ ? ? _ ? ? _. done.
  - intros w w' _ ? ? _. done.
  - intros w w' _. done.
Qed.

(** Nothing buffered, nothing to drain. *)
Definition demo_tx : lws_tx := {|
  trunc_alloc := None; trunc_alloc_len := 0; trunc_offset := 0; trunc_len := 0;
  inside_frame := false; clean_buffer := false; tx_draining_ext := false; tx_draining_stashed_wp := 0;
  stashed_write_pending := false; stashed_write_type := 0; extension_data_pending := false;
  pt_tx_draining_ext_list := []; send_check_ping := false; time_next_ping_check := 0;
  ws_ping_pong_interval := 0; hdr_parsing_completed := true; timeout_linked := false;
  pending_timeout_limit := 0; timeout_secs := 5; pt_timeout_list := []
|}.

(** An established connection with a receive buffer of [n] bytes. *)
Definition demo_wsi (n : nat) : lws := {|
  wsi_id := 1; state := LWSS_ESTABLISHED; mode := LWSCM_WS_SERVING; ietf_spec_revision := 13;
  lws_rx_parse_state := RXPS_NEW; socket_is_permanently_unusable := false;
  pending_timeout := 0; rxflow_change_to := LWS_RXFLOW_ALLOW; rxflow_buffer := None; rxflow_pos := 0;
  tx := demo_tx; count_act_ext := 0; rx_buffer_size := Z.of_nat n; pt_serv_buf_size := 4096;
  opt_validate_utf8 := false; pt_rx_draining_ext_list := [];
  rx_ubuf := replicate (n + 20) 0; rx_ubuf_alloc := Z.of_nat n + 16; rx_ubuf_head := 0;
  rx_packet_length := 0; mask := [0; 0; 0; 0]; mask_idx := 0; opcode := 0; rsv := 0; rsv_first_msg := 0;
  final := false; frame_is_binary := false; all_zero_nonce := false; this_frame_masked := false;
  ping_payload_buf := replicate 141 0; ping_payload_len := 0; ping_pending_flag := false;
  payload_is_close := false; close_in_ping_buffer_len := 0; utf8 := 0; check_utf8 := false;
  defeat_check_utf8 := false; continuation_possible := false; owed_a_fin := false;
  rx_draining_ext := false; events := []
|}.

Lemma demo_idle : Idle (demo_wsi 4).
Proof. by repeat constructor. Qed.

Lemma demo_inv : RxInv (demo_wsi 4).
Proof. by constructor. Qed.

(** Five bytes in a buffer of four, then an unmasked frame, in three packets. *)
Lemma server_delivers_witness :
  let fs := [mkFrame 129 (Some [1; 2; 3; 4]) [104; 101; 108; 108; 111]; mkFrame 130 None [7]] in
  exists w', rx_stream (demo_wsi 4) [[129; 133; 1; 2; 3]; [4; 105; 103; 111; 104; 110; 130]; [1; 7]] = Some (w', 0) /\
    calls (events w') = map (ECallback LWS_CALLBACK_RECEIVE) [[104; 101; 108; 108]; [111]; [7]].
Proof.
  intros fs.
  destruct (server_delivers (demo_wsi 4) fs [[129; 133; 1; 2; 3]; [4; 105; 103; 111; 104; 110; 130]; [1; 7]])
    as (w' & E & _ & Ev).
  - apply demo_idle.
  - apply demo_inv.
  - constructor; [|constructor; [|constructor]]; (split; [done|]); (split; [unfold data_op; vm_compute; auto|]);
      (split; [done|]); (split; [by repeat constructor|]); [by repeat constructor|done].
  - vm_compute. reflexivity.
  - exists w'. split; [exact E|]. rewrite Ev. vm_compute. reflexivity.
Defined.

Lemma server_ping_witness :
  exists w', rx_bytes (demo_wsi 4) (rfc_frame 137 (Some [9; 8; 7; 6]) [1; 2; 3]) = (w', 0) /\ Idle w' /\
    ping_pending_flag w' = true /\ ping_stash w' = [1; 2; 3] /\ events w' = [EWritable].
Proof. by apply (server_ping (demo_wsi 4) 137 [9; 8; 7; 6] [1; 2; 3]); try apply demo_idle. Defined.

Lemma server_close_witness :
  exists w', rx_bytes (demo_wsi 4) (rfc_frame 136 (Some [9; 8; 7; 6]) [3; 232]) = (w', 0) /\
    state w' = LWSS_RETURNED_CLOSE_ALREADY /\ payload_is_close w' = true /\ ping_pending_flag w' = true /\
    ping_stash w' = [3; 232] /\
    calls (events w') = [ECallback LWS_CALLBACK_WS_PEER_INITIATED_CLOSE [3; 232]] /\
    last (events w') = Some EWritable.
Proof. by apply (server_close (demo_wsi 4) 136 [9; 8; 7; 6] [3; 232]); try apply demo_idle. Defined.

Lemma server_pong_witness :
  exists w', rx_bytes (demo_wsi 4) (rfc_frame 138 (Some [9; 8; 7; 6]) [5]) = (w', 0) /\ Idle w' /\
    calls (events w') = [ECallback LWS_CALLBACK_RECEIVE_PONG [5]].
Proof.
  destruct (server_pong (demo_wsi 4) 138 [9; 8; 7; 6] [5]) as (w' & E & I & Ev & _); try done; try apply demo_idle.
  by exists w'.
Defined.
