(* ===== verification/WsRxSafety.v ===== *)
(** * The server receiver against arbitrary input

    The packet loop refines the byte-wise state machine, no input makes the
    receiver leave its buffers, malformed headers are refused before anything of
    the frame is delivered, and two defects of the length parsing. *)

From S2P Require Import Prelude Ws WsRx WsRxFacts WsRxInv WsRxBulk WsRxProps.

Section Safety.
Context `{LwsEnvOk}.

(** C24: The packet loop with its bulk copy refines the byte-wise state machine:
    on every packet it terminates (one round per byte is enough) and has the
    outcome of feeding the bytes to lws_rx_sm one at a time for as long as flow
    control allows, the rest being cached for later: the same return value, the
    same events and, unless the connection is to be closed, the same connection up
    to mask_idx modulo 4 and rxflow_pos. *)
Theorem packet_refines_bytes fuel w buf : (length buf < fuel)%nat -> RxInv w -> NoExt w -> all_u8 buf ->
  exists o, lws_interpret_incoming_packet fuel w buf = Some o /\ same_outcome o (rx_packet w buf).
Proof. apply interpret_packet. Qed.

(** The bulk path keeps the invariant. *)
Lemma bulk_inv w buf : RxInv w -> RxInv (lws_payload_until_length_exhausted w buf).1.1.
Proof.
  intros R. destruct buf as [|x buf].
  { unfold lws_payload_until_length_exhausted. change (zlen []) with 0.
    destruct (_ >? 0) eqn:E at 1; [done|]. zbool. rewrite (proj2 (Z.leb_le _ 1)) by lia. done. }
  destruct (bulk_path w (x :: buf) R ltac:(done)) as (src & rest & Eb & _ & Hs & Hv).
  destruct (lws_payload_until_length_exhausted w (x :: buf)) as [[v b] m]. destruct Hv as (_ & _ & Hv).
  cbn [fst]. rewrite Hv. destruct (decide (src = [])) as [|Hne]; [done|]. destruct Hs as [|[Hs1 Hs2]]; [done|].
  pose proof (zlen_nonneg src). pose proof (ri_alloc _ R). pose proof (ri_ubuf _ R). pose proof (ri_head _ R).
  pose proof (ri_len _ R). pose proof (length_wire w src). pose proof (ri_size _ R).
  apply (inv_ext _ _ R); unfold bulk_store, zlen, LWS_PRE, spill_size in *; destruct w; cbn in *; try done; try lia.
  apply length_splice. lia.
Qed.

(** C25: No input makes the receiver leave its buffers: whatever byte arrives in
    whatever parser state, whatever value the callbacks return and whatever the
    active extensions do, the write position stays inside the receive buffer, the
    masking key keeps four bytes, a stashed PING payload has at most 125 bytes in
    its 125 + LWS_PRE byte buffer and the remaining length fits size_t; the same
    holds for the bulk copy of any block. *)
Theorem receiver_in_bounds w c buf : RxInv w -> is_u8 c ->
  RxInv (lws_rx_sm w c).1 /\ RxInv (lws_payload_until_length_exhausted w buf).1.1.
Proof. intros R Hc. split; [by apply rx_sm_inv|by apply bulk_inv]. Qed.

(** A refused input: -1 and no event. *)
Definition refused (w : lws) (l : bytes) : Prop :=
  (rx_bytes w l).2 = -1 /\ events (rx_bytes w l).1 = events w.

(** The header byte that opens a frame, for the opcodes that are not reserved. *)
Definition legal_op (op : Z) : bool := (op <? 3) || ((8 <=? op) && (op <=? 10)).

Lemma rx_open_any w b0 : Idle w -> legal_op (b0 .& 15) = true ->
  exists w1, lws_rx_sm w b0 = (w1, 0) /\ Ready w1 /\ lws_rx_parse_state w1 = RXPS_04_FRAME_HDR_LEN /\
    opcode w1 = b0 .& 15 /\ events w1 = events w.
Proof.
  intros [R Hst Hh] Hop. rewrite (rx_sm_open _ _ R), Hst. unfold handle_first.
  assert (Ei : ((3 <=? b0 .& 15) && (b0 .& 15 <=? 7)) || ((11 <=? b0 .& 15) && (b0 .& 15 <=? 15)) = false).
  { unfold legal_op in Hop. apply orb_false_iff. rewrite !andb_false_iff, !Z.leb_gt.
    apply orb_prop in Hop as [Hop|Hop]; zbool; lia. }
  rewrite Ei. clear Ei. destruct w. destruct R. unfold spill_size in *. cbn in *.
  destruct ((b0 .& 15 =? LWSWSOPC_TEXT_FRAME) || (b0 .& 15 =? LWSWSOPC_BINARY_FRAME));
    (eexists; split; [reflexivity|]); (split; [by constructor|done]).
Qed.

(** C26: Malformed headers are refused at once, with -1 and before any callback:
    the reserved opcodes 3-7 and 11-15, a control frame whose length byte asks for
    an extended length (126 or 127), and a 64-bit length with its top bit set. *)
Theorem malformed_refused w b0 b1 b2 : Idle w -> is_u8 b0 -> is_u8 b1 -> is_u8 b2 ->
  (legal_op (b0 .& 15) = false -> refused w [b0]) /\
  (ctl_op (b0 .& 15) -> 126 <= b1 .& 127 -> refused w [b0; b1]) /\
  (data_op (b0 .& 15) -> b1 .& 127 = 127 -> 128 <= b2 -> refused w [b0; b1; b2]).
Proof.
  intros Hid U0 U1 U2. split; [|split].
  - intros Hop. unfold refused. cbn [rx_bytes]. rewrite (rx_sm_open _ _ (id_ready _ Hid)), (id_state _ Hid).
    unfold handle_first.
    assert (Ei : ((3 <=? b0 .& 15) && (b0 .& 15 <=? 7)) || ((11 <=? b0 .& 15) && (b0 .& 15 <=? 15)) = true).
    { pose proof (land_bound_r 4 b0 15). unfold legal_op in Hop. apply orb_true_iff. rewrite !andb_true_iff, !Z.leb_le.
      apply orb_false_elim in Hop as [Hop1 Hop2]. rewrite andb_false_iff in Hop2. zbool. destruct Hop2; zbool; lia. }
    rewrite Ei. by destruct w.
  - intros Hop Hl. assert (Hlg : legal_op (b0 .& 15) = true) by (by destruct Hop as [->|[->| ->]]).
    destruct (rx_open_any w b0 Hid Hlg) as (w1 & E & R1 & S1 & O1 & V1). unfold refused. cbn [rx_bytes].
    rewrite E. cbn [Z.ltb Z.compare]. rewrite (rx_sm_open _ _ R1), S1. unfold hdr_len.
    replace (opcode (w1 {{ this_frame_masked := nz (b1 .& 128) }})) with (opcode w1) by (by destruct w1).
    rewrite O1. assert (Hc : nz ((b0 .& 15) .& 8) = true) by (by destruct Hop as [->|[->| ->]]). rewrite Hc.
    pose proof (land_bound_r 7 b1 127). rewrite <- V1.
    destruct (b1 .& 127 =? 126) eqn:E6; [by destruct w1|].
    rewrite (proj2 (Z.eqb_eq (b1 .& 127) 127)) by (zbool; lia). by destruct w1.
  - intros Hop Hl Hb. assert (Hlg : legal_op (b0 .& 15) = true) by (by destruct Hop as [->|[->| ->]]).
    destruct (rx_open_any w b0 Hid Hlg) as (w1 & E & R1 & S1 & O1 & V1). unfold refused. cbn [rx_bytes].
    rewrite E. cbn [Z.ltb Z.compare]. rewrite (rx_sm_open _ _ R1), S1. unfold hdr_len.
    replace (opcode (w1 {{ this_frame_masked := nz (b1 .& 128) }})) with (opcode w1) by (by destruct w1).
    rewrite O1, (data_op_ctl _ Hop), Hl. cbn [Z.eqb Pos.eqb Z.ltb Z.compare].
    pose proof (forall_u8 (fun c => (c <? 128) || nz (c .& 128)) ltac:(by vm_compute) b2 U2) as Ht.
    cbn in Ht. rewrite (proj2 (Z.ltb_ge _ _)) in Ht by lia. cbn [orb] in Ht.
    unfold lws_rx_sm, ext_len. rewrite <- V1. pose proof (rd_usable _ R1) as Hu. destruct w1. cbn in *. subst.
    by rewrite Ht.
Qed.

(** Defect: a frame without mask whose 16-bit length field holds 0 is not an
    empty frame.  The parser waits for a payload with the remaining length 0, the
    next byte of the stream is stored as payload and the remaining length wraps
    around to the largest size_t: everything that follows is payload of this frame. *)
Lemma zero_ext_len_wraps w b0 x : Idle w -> data_op (b0 .& 15) -> 1 < spill_size w ->
  exists w', rx_bytes w [b0; 126; 0; 0; x] = (w', 0) /\ events w' = events w /\
    lws_rx_parse_state w' = RXPS_PAYLOAD_UNTIL_LENGTH_EXHAUSTED /\ rx_packet_length w' = 2 ^ SIZE_W - 1.
Proof.
  intros Hid Hop Hs. destruct (rx_first w b0 Hid Hop) as (w1 & E & O). rewrite (rx_bytes_cons0 _ _ _ _ E).
  pose proof (op_ready _ _ _ O) as R1. pose proof (op_state _ _ _ O) as S1.
  assert (Hop1 : data_op (opcode w1)) by (by rewrite (op_op _ _ _ O)).
  change [126; 0; 0; x] with ([mbit false .| 126; 0 .>> 8; 0 .& 255] ++ [x]).
  rewrite rx_bytes_app, rx_len16 by (done || lia). cbn [Z.ltb Z.compare rx_bytes].
  assert (Ew : wrap SIZE_W (0 - 1) = 2 ^ SIZE_W - 1) by (unfold SIZE_W; by destruct lp64).
  assert (Hne : (2 ^ SIZE_W - 1 =? 0) = false) by (unfold SIZE_W; by destruct lp64).
  set (v := with_len w1 false 0).
  assert (V : Ready v /\ lws_rx_parse_state v = RXPS_PAYLOAD_UNTIL_LENGTH_EXHAUSTED /\ rx_ubuf_head v = 0 /\
    spill_size v = spill_size w /\ events v = events w).
  { split; [apply (ready_ext w1); [done|destruct w1; try done; apply R1..]|].
    rewrite <- (op_head _ _ _ O), <- (op_size _ _ _ O), <- (op_events _ _ _ O). by destruct w1. }
  destruct V as (Rv & Sv & Hv & Zv & Evv).
  assert (P : rx_packet_length (payload_byte v x) = 2 ^ SIZE_W - 1 /\ rx_ubuf_head (payload_byte v x) = 1 /\
    spill_size (payload_byte v x) = spill_size w /\ events (payload_byte v x) = events w /\
    lws_rx_parse_state (payload_byte v x) = RXPS_PAYLOAD_UNTIL_LENGTH_EXHAUSTED).
  { assert (E1 : u32 (rx_ubuf_head v + 1) = 1) by (by rewrite Hv). rewrite <- Ew, <- Zv, <- Evv. clear - E1.
    unfold payload_byte, v, with_len in *. destruct w1. cbn in *. by destruct all_zero_nonce. }
  destruct P as (P1 & P2 & P3 & P4 & P5).
  rewrite (rx_sm_open _ _ Rv), Sv. unfold payload.
  rewrite (rd_drain _ Rv), Hv, (rd_alloc _ Rv), Z.geb_leb, (proj2 (Z.leb_gt _ _)) by lia.
  cbv zeta. rewrite P1, P2, P3, Hne, (proj2 (Z.eqb_neq 1 _)) by lia. cbn [negb Z.ltb Z.compare]. by eexists.
Qed.

(** The low bytes of a length do not depend on its upper half. *)
Lemma low_byte h n i : 0 <= i <= 24 -> ((h * 2 ^ 32 + n) .>> i) .& 255 = (n .>> i) .& 255.
Proof.
  intros Hi. apply Z.bits_inj'. intros k Hk. change 255 with (Z.ones 8). rewrite !Z.land_spec.
  destruct (decide (k < 8)); [|by rewrite (Z.ones_spec_high 8 k), !andb_false_r by lia].
  rewrite !Z.shiftr_spec by lia. f_equal. rewrite <- (Z.mod_pow2_bits_low _ 32) by lia.
  rewrite <- (Z.mod_pow2_bits_low n 32) by lia. f_equal. by rewrite Z.add_comm, Z.mod_add by lia.
Qed.

(** Defect: where size_t has 32 bits (the Win32 build; __LP64__ is not defined)
    the upper half of a 64-bit payload length is ignored: a header that announces
    2^32 * h + n bytes is taken for one that announces n. *)
Lemma win32_length_truncated w b0 h n : lp64 = false -> Idle w -> data_op (b0 .& 15) ->
  0 < h < 2 ^ 31 -> 0 < n < 2 ^ 32 ->
  exists w', rx_bytes w ([b0; 127] ++ map (fun i => ((h * 2 ^ 32 + n) .>> (8 * i)) .& 255) [7; 6; 5; 4; 3; 2; 1; 0])
    = (w', 0) /\ lws_rx_parse_state w' = RXPS_PAYLOAD_UNTIL_LENGTH_EXHAUSTED /\ rx_packet_length w' = n.
Proof.
  intros Hlp Hid Hop Hh Hn. destruct (rx_first w b0 Hid Hop) as (w1 & E & O). cbn [app map].
  rewrite (rx_bytes_cons0 _ _ _ _ E). pose proof (op_ready _ _ _ O) as R1.
  assert (Hop1 : data_op (opcode w1)) by (by rewrite (op_op _ _ _ O)).
  set (w2 := w1 {{ this_frame_masked := false }}).
  assert (R2 : Ready w2) by (apply (ready_ext w1); [done|unfold w2; destruct w1; try done; apply R1..]).
  assert (Ra : forall st l, Ready (at_len w2 st l)) by (intros; by apply at_len_ready).
  rewrite (rx_bytes_cons0 _ _ _ (at_len w2 RXPS_04_FRAME_HDR_LEN64_8 (rx_packet_length w1))).
  2: { rewrite (rx_sm_open _ _ R1), (op_state _ _ _ O). unfold hdr_len. change (127 .& 127) with 127.
       cbn [Z.eqb Pos.eqb]. replace (opcode (w1 {{ this_frame_masked := nz (127 .& 128) }})) with (opcode w1) by (by destruct w1).
       rewrite (data_op_ctl _ Hop1). by destruct w1. }
  assert (Hb : 0 <= (h * 2 ^ 32 + n) .>> 56 < 128) by (apply (shiftr_range _ 56 7); lia).
  rewrite (rx_bytes_cons0 _ _ _ (at_len w2 RXPS_04_FRAME_HDR_LEN64_7 0)).
  2: { rewrite (rx_sm_open _ _ (Ra _ _)). change (8 * 7) with 56. rewrite land_255, Z.mod_small by lia.
       pose proof (mbit_len false _ Hb) as [_ Et]. rewrite Z.lor_0_l in Et.
       cbn [lws_rx_parse_state at_len]. change (lws_rx_parse_state (at_len w2 RXPS_04_FRAME_HDR_LEN64_8 (rx_packet_length w1)))
         with RXPS_04_FRAME_HDR_LEN64_8. unfold ext_len.
       change (lws_rx_parse_state (at_len w2 RXPS_04_FRAME_HDR_LEN64_8 (rx_packet_length w1)))
         with RXPS_04_FRAME_HDR_LEN64_8. cbn iota. rewrite Et, Hlp. unfold at_len. by destruct w2. }
  assert (Hskip : forall st st' sh c, 
     lws_rx_sm (at_len w2 st 0) c = len64_byte true sh st' (at_len w2 st 0) c ->
     lws_rx_sm (at_len w2 st 0) c = (at_len w2 st' 0, 0)).
  { intros st st' sh c ->. unfold len64_byte, at_len. rewrite Hlp. by destruct w2. }
  erewrite rx_bytes_cons0; [|apply (Hskip _ RXPS_04_FRAME_HDR_LEN64_6 48); by rewrite (rx_sm_open _ _ (Ra _ _))].
  erewrite rx_bytes_cons0; [|apply (Hskip _ RXPS_04_FRAME_HDR_LEN64_5 40); by rewrite (rx_sm_open _ _ (Ra _ _))].
  erewrite rx_bytes_cons0; [|apply (Hskip _ RXPS_04_FRAME_HDR_LEN64_4 32); by rewrite (rx_sm_open _ _ (Ra _ _))].
  rewrite !low_byte by lia.
  assert (Hn' : 0 <= n < len_limit) by (unfold len_limit; rewrite Hlp; lia).
  replace (at_len w2 RXPS_04_FRAME_HDR_LEN64_4 0) with (at_len w2 RXPS_04_FRAME_HDR_LEN64_4 ((n .>> (24 + 8)) .<< (24 + 8)))
    by (rewrite Z.shiftr_div_pow2, Z.div_small by lia; done).
  erewrite rx_bytes_cons0; [|apply (len64_step w2 n 24 false _ RXPS_04_FRAME_HDR_LEN64_3 R2 Hn');
    [lia|lia|by rewrite (rx_sm_open _ _ (Ra _ _))]].
  erewrite rx_bytes_cons0; [|apply (len64_step w2 n 16 false _ RXPS_04_FRAME_HDR_LEN64_2 R2 Hn');
    [lia|lia|by rewrite (rx_sm_open _ _ (Ra _ _))]].
  erewrite rx_bytes_cons0; [|apply (len64_step w2 n 8 false _ RXPS_04_FRAME_HDR_LEN64_1 R2 Hn');
    [lia|lia|by rewrite (rx_sm_open _ _ (Ra _ _))]].
  pose proof (lor_next_byte n 0 ltac:(lia)) as El. rewrite Z.add_0_l, !Z.shiftl_0_r in El. rewrite Z.shiftr_0_r in El at 2.
  change (8 * 0) with 0. cbn [rx_bytes]. rewrite (rx_sm_open _ _ (Ra _ _)).
  change (lws_rx_parse_state (at_len w2 RXPS_04_FRAME_HDR_LEN64_1 ((n .>> 8) .<< 8))) with RXPS_04_FRAME_HDR_LEN64_1.
  cbn iota. unfold ext_len.
  change (lws_rx_parse_state (at_len w2 RXPS_04_FRAME_HDR_LEN64_1 ((n .>> 8) .<< 8))) with RXPS_04_FRAME_HDR_LEN64_1.
  cbn iota. unfold after_len, at_len, w2. destruct w1. rcbn. rewrite El. by eexists.
Qed.

End Safety.

(** ** Witnesses *)

#[local] Existing Instances demo_env demo_env_ok.

Lemma packet_refines_bytes_witness : exists o,
  lws_interpret_incoming_packet 9 (demo_wsi 4) [130; 2; 7; 8; 138; 0] = Some o /\
  same_outcome o (rx_packet (demo_wsi 4) [130; 2; 7; 8; 138; 0]).
Proof.
  apply (packet_refines_bytes 9 (demo_wsi 4) [130; 2; 7; 8; 138; 0]).
  - cbn. lia.
  - apply demo_inv.
  - done.
  - by repeat constructor.
Defined.

Lemma receiver_in_bounds_witness :
  RxInv (lws_rx_sm (demo_wsi 4) 130).1 /\ RxInv (lws_payload_until_length_exhausted (demo_wsi 4) [1; 2; 3]).1.1.
Proof. apply (receiver_in_bounds (demo_wsi 4) 130 [1; 2; 3]); [apply demo_inv|by unfold is_u8]. Defined.

Lemma malformed_refused_witness :
  refused (demo_wsi 4) [131] /\ refused (demo_wsi 4) [137; 254] /\ refused (demo_wsi 4) [130; 127; 128].
Proof.
  split; [|split].
  - destruct (malformed_refused (demo_wsi 4) 131 0 0 demo_idle) as (Hr & _ & _); [done..|]. by apply Hr.
  - destruct (malformed_refused (demo_wsi 4) 137 254 0 demo_idle) as (_ & Hr & _); [done..|].
    apply Hr; [right; by left|done].
  - destruct (malformed_refused (demo_wsi 4) 130 127 128 demo_idle) as (_ & _ & Hr); [done..|].
    apply Hr; [right; by left|done|done].
Defined.

Lemma zero_ext_len_wraps_witness : exists w',
  rx_bytes (demo_wsi 4) [130; 126; 0; 0; 55] = (w', 0) /\ events w' = [] /\
  lws_rx_parse_state w' = RXPS_PAYLOAD_UNTIL_LENGTH_EXHAUSTED /\ rx_packet_length w' = 2 ^ SIZE_W - 1.
Proof. apply (zero_ext_len_wraps (demo_wsi 4) 130 55 demo_idle); [right; by left|done]. Defined.

(** The same environment on a 32-bit build. *)
Definition win32_env : LwsEnv := {|
  lp64 := false; has_callback := true; protocol_callback w _ _ := (w, 0);
  ext_callback _ w _ t := (w, t, 0); change_pollfd _ _ _ := 0; socket_write _ b := zlen b;
  random4 _ := Some [1; 2; 3; 4]; malloc_ok _ _ := true; send_pipe_choked _ := false; now_secs _ := 0
|}.

Lemma win32_length_truncated_witness : exists w',
  @rx_bytes win32_env (demo_wsi 4) [130; 127; 0; 0; 0; 1; 0; 0; 0; 5] = (w', 0) /\
  lws_rx_parse_state w' = RXPS_PAYLOAD_UNTIL_LENGTH_EXHAUSTED /\ rx_packet_length w' = 5.
Proof.
  apply (@win32_length_truncated win32_env (demo_wsi 4) 130 1 5 eq_refl); [apply demo_idle|right; by left|lia|lia].
Defined.
