(* ===== verification/WsTx.v ===== *)
(** * The WebSocket writer (lib/output.c, lib/extension.c, lib/service.c)

    [lws_issue_raw] hands bytes to the socket and keeps what it did not take;
    [lws_write] puts the frame header in front of the payload and masks it;
    [lws_handle_POLLOUT_event] decides what goes out when the socket is writable.

    A buffer given to [lws_write] is its memory with the LWS_PRE bytes of headroom
    in front of the payload; the operations give back its contents afterwards,
    because masking is done in place.  The loops that ask an extension for more
    output take [fuel], with [None] for running out of it. *)

From S2P Require Import Prelude Ws WsRx.

(** enum lws_write_protocol *)
Definition LWS_WRITE_TEXT : Z := 0.
Definition LWS_WRITE_BINARY : Z := 1.
Definition LWS_WRITE_CONTINUATION : Z := 2.
Definition LWS_WRITE_HTTP : Z := 3.
Definition LWS_WRITE_CLOSE : Z := 4.
Definition LWS_WRITE_PING : Z := 5.
Definition LWS_WRITE_PONG : Z := 6.
Definition LWS_WRITE_HTTP_FINAL : Z := 7.
Definition LWS_WRITE_HTTP_HEADERS : Z := 8.
Definition LWS_WRITE_NO_FIN : Z := 64.

Definition LWS_SSL_CAPABLE_ERROR : Z := -1.
Definition LWS_SSL_CAPABLE_MORE_SERVICE : Z := -2.

Definition LWS_CALLBACK_CLIENT_WRITEABLE : Z := 10.
Definition LWS_CALLBACK_SERVER_WRITEABLE : Z := 11.
Definition LWS_CALLBACK_HTTP_WRITEABLE : Z := 16.
Definition LWS_CALLBACK_CLIENT_HTTP_WRITEABLE : Z := 57.
Definition LWS_CALLBACK_RAW_WRITEABLE : Z := 61.
Definition LWS_CALLBACK_RAW_WRITEABLE_FILE : Z := 65.

(** Where the [buf] argument of [lws_issue_raw] points: to memory of the caller
    or, when a truncated send is resumed, to [trunc_alloc + trunc_offset]. *)
Inductive txptr :=
| PUser (b : bytes)
| PTrunc.

Definition set_tx (f : lws_tx -> lws_tx) (w : lws) : lws := w {{ tx ::= f }}.

Definition ptr_data (w : lws) (p : txptr) : bytes :=
  match p with
  | PUser b => b
  | PTrunc => drop (Z.to_nat (trunc_offset (tx w))) (default [] (trunc_alloc (tx w)))
  end.

Section Tx.
Context `{LwsEnv}.

(** Keep the bytes [rest] that could not be sent; [None] when the allocation fails. *)
Definition buffer_rest (w : lws) (rest : bytes) : lws * bool :=
  let rlen := zlen rest in
  match trunc_alloc (tx w) with
  | Some old =>
      if rlen >? trunc_alloc_len (tx w) then
        if malloc_ok w rlen
        then (set_tx (fun t => t {{ trunc_alloc := Some rest; trunc_alloc_len := u32 rlen;
                                    trunc_offset := 0; trunc_len := u32 rlen }}) w, true)
        else (set_tx (fun t => t {{ trunc_alloc := None; trunc_alloc_len := u32 rlen }}) w, false)
      else (set_tx (fun t => t {{ trunc_alloc := Some (splice 0 rest old);
                                  trunc_offset := 0; trunc_len := u32 rlen }}) w, true)
  | None =>
      if malloc_ok w rlen
      then (set_tx (fun t => t {{ trunc_alloc := Some rest; trunc_alloc_len := u32 rlen;
                                  trunc_offset := 0; trunc_len := u32 rlen }}) w, true)
      else (set_tx (fun t => t {{ trunc_alloc_len := u32 rlen }}) w, false)
  end.

(** [handle_truncated_send:], with [n] of the [real_len] bytes of [data] sent *)
Definition handle_truncated_send (w : lws) (data : bytes) (n real_len : Z) : lws * Z :=
  if nz (trunc_len (tx w)) then
    let w := set_tx (fun t => t {{ trunc_offset ::= (fun o => u32 (o + n));
                                   trunc_len ::= (fun l => u32 (l - n)) }}) w in
    if trunc_len (tx w) =? 0 then
      if bool_decide (state w = LWSS_FLUSHING_STORED_SEND_BEFORE_CLOSE) then (w, -1)
      else (lws_callback_on_writable w, s32 real_len)
    else (lws_callback_on_writable w, s32 n)
  else if n =? real_len then (w, s32 n)
  else
    let '(w, ok) := buffer_rest w (drop (Z.to_nat n) (take (Z.to_nat real_len) data)) in
    if ok then (lws_callback_on_writable w, s32 real_len) else (w, -1).

Definition lws_issue_raw (w : lws) (p : txptr) (len : Z) : lws * Z :=
  if len =? 0 then (w, 0) else
  if bool_decide (state w = LWSS_FLUSHING_STORED_SEND_BEFORE_CLOSE) && negb (nz (trunc_len (tx w)))
  then (w, s32 len) else
  if nz (trunc_len (tx w)) && (match p with PUser _ => true | PTrunc => false end)
  then (emit EAssert w, -1)  (* assert(0); return -1 *) else
  let '(w, t, m) := lws_ext_cb_active w LWS_EXT_CB_PACKET_TX_DO_SEND (mkTok TUser len) in
  if m <? 0 then (w, -1) else
  let data := match tok t with TExt b => b | _ => ptr_data w p end in
  if nz m then handle_truncated_send w data (u32 m) len else
  let n := u32 (spill_size w + LWS_PRE + 4) in
  let n := if n >? len then u32 len else n in
  let r := socket_write w (take (Z.to_nat n) data) in
  if r =? LWS_SSL_CAPABLE_ERROR then (w {{ socket_is_permanently_unusable := true }}, -1) else
  let n := if r =? LWS_SSL_CAPABLE_MORE_SERVICE then 0 else u32 r in
  let w := if n =? 0 then w else emit (ESend (take (Z.to_nat n) data)) w in
  handle_truncated_send w data n len.

(** extension.c: send a frame, then what the extensions produce on top *)
Fixpoint issue_raw_ext_loop (fuel : nat) (w : lws) (buf : bytes) (t : lws_tokens) (len : Z)
  : option (lws * Z) :=
  match fuel with
  | O => None
  | S fuel =>
      let '(w, t, m) := lws_ext_cb_active w LWS_EXT_CB_PACKET_TX_PRESEND t in
      if m <? 0 then Some (w, -1) else
      let w := match tok t with TUser => w | _ => set_tx (fun x => x {{ clean_buffer := false }}) w end in
      let data := match tok t with TUser => buf | TExt b => b | _ => [] end in
      let '(w, len, err) :=
        if nz (token_len t) then
          let '(w, n) := lws_issue_raw w (PUser data) (token_len t) in
          if n <? 0 then (w, len, true)
          else (w, (if clean_buffer (tx w) then n else len), false)
        else (w, len, false) in
      if err then Some (w, -1) else
      if negb (nz m) then Some (w, len) else
      if negb (send_pipe_choked w) && negb (nz (trunc_len (tx w)))
      then issue_raw_ext_loop fuel w buf (mkTok TNull 0) len
      else Some (set_tx (fun x => x {{ extension_data_pending := true }}) (lws_callback_on_writable w), len)
  end.

Definition lws_issue_raw_ext_access (fuel : nat) (w : lws) (buf : bytes) (len : Z) : option (lws * Z) :=
  issue_raw_ext_loop fuel w buf (mkTok TUser len) len.

(** libwebsockets.c *)
Definition lws_restart_ws_ping_pong_timer (w : lws) : lws :=
  if negb (nz (ws_ping_pong_interval (tx w))) then w else
  if negb (bool_decide (state w = LWSS_ESTABLISHED)) then w else
  set_tx (fun t => t {{ time_next_ping_check := now_secs w + ws_ping_pong_interval t }}) w.

Definition lws_0405_frame_mask_generate (w : lws) : lws * Z :=
  match random4 w with
  | Some m => (w {{ mask := m; mask_idx := 0 }}, 0)
  | None => (w, 1)
  end.

(** The opcode for [wp & 0xf]. *)
Definition wp_opcode (wp : Z) : option Z :=
  let o := wp .& 15 in
  if o =? LWS_WRITE_TEXT then Some LWSWSOPC_TEXT_FRAME
  else if o =? LWS_WRITE_BINARY then Some LWSWSOPC_BINARY_FRAME
  else if o =? LWS_WRITE_CONTINUATION then Some LWSWSOPC_CONTINUATION
  else if o =? LWS_WRITE_CLOSE then Some LWSWSOPC_CLOSE
  else if o =? LWS_WRITE_PING then Some LWSWSOPC_PING
  else if o =? LWS_WRITE_PONG then Some LWSWSOPC_PONG
  else None.

(** The header bytes for first byte [n], length [len] and mask bit. *)
Definition frame_header (n len is_masked_bit : Z) : bytes :=
  if len <? 126 then [n; u8 (len .| is_masked_bit)]
  else if len <? 65536 then [n; 126 .| is_masked_bit; u8 (len .>> 8); u8 len]
  else
    [n; 127 .| is_masked_bit] ++
    (if lp64 then [(len .>> 56) .& 127; u8 (len .>> 48); u8 (len .>> 40); u8 (len .>> 32)]
     else [0; 0; 0; 0]) ++
    [u8 (len .>> 24); u8 (len .>> 16); u8 (len .>> 8); u8 len].

(** The masking loop over the payload; gives the final [mask_idx] too. *)
Fixpoint mask_loop (m : bytes) (i : Z) (l : bytes) : bytes * Z :=
  match l with
  | [] => ([], i)
  | c :: r => let '(r, j) := mask_loop m (u8 (i + 1)) r in ((c .^ znth m (i .& 3)) :: r, j)
  end.

(** [do_more_inside_frame:] up to [send_raw:].  [dropmask] tells whether the frame
    header was built in this call; [mem] is the buffer, payload at LWS_PRE. *)
Definition do_masking (w : lws) (mem : bytes) (len : Z) (dropmask : bool) : lws * bytes * bool :=
  if negb (bool_decide (mode w = LWSCM_WS_CLIENT)) then (w, mem, true) else
  let '(w, bad) := if inside_frame (tx w) then (w, 0) else lws_0405_frame_mask_generate w in
  if nz bad then (w, mem, false) else
  if negb dropmask then (w, mem, true) else
  let '(p, i) := mask_loop (mask w) (mask_idx w) (take (Z.to_nat len) (drop (Z.to_nat LWS_PRE) mem)) in
  (w {{ mask_idx := i }},
   splice (Z.to_nat (LWS_PRE - 4)) (mask w) (splice (Z.to_nat LWS_PRE) p mem), true).

Definition is_raw_wp (wp : Z) : bool :=
  (wp =? LWS_WRITE_CLOSE) || (wp =? LWS_WRITE_HTTP) || (wp =? LWS_WRITE_HTTP_FINAL)
  || (wp =? LWS_WRITE_HTTP_HEADERS) || (wp =? LWS_WRITE_PONG) || (wp =? LWS_WRITE_PING).

(** [send_raw:] *)
Definition send_raw (fuel : nat) (w : lws) (mem : bytes) (pre len orig_len wp : Z) : option (lws * Z) :=
  let buf := drop (Z.to_nat (LWS_PRE - pre)) mem in
  if is_raw_wp wp then Some (lws_issue_raw w (PUser buf) (len + pre)) else
  match lws_issue_raw_ext_access fuel w buf (len + pre) with
  | None => None
  | Some (w, n) =>
      let w := set_tx (fun t => t {{ inside_frame := true }}) w in
      if n <=? 0 then Some (w, n) else
      if n =? len + pre
      then Some (set_tx (fun t => t {{ inside_frame := false }}) w, s32 orig_len)
      else Some (w, n - pre)
  end.

(** The part of [lws_write] from the header on, for the effective buffer. *)
Definition write_frame (fuel : nat) (w : lws) (mem : bytes) (len orig_len wp : Z)
  : option (lws * Z * bytes) :=
  let client := bool_decide (mode w = LWSCM_WS_CLIENT) in
  if ietf_spec_revision w =? 13 then
    match wp_opcode wp with
    | None => Some (w, -1, mem)
    | Some op =>
        let n := if nz (wp .& LWS_WRITE_NO_FIN) then op else op .| 128 in
        let hdr := frame_header n len (if client then 128 else 0) in
        let pre := zlen hdr + (if client then 4 else 0) in
        let mem := splice (Z.to_nat (LWS_PRE - pre)) hdr mem in
        let '(w, mem, ok) := do_masking w mem len client in
        if ok then
          match send_raw fuel w mem pre len orig_len wp with
          | Some (w, r) => Some (w, r, mem) | None => None end
        else Some (w, -1, mem)
    end
  else
    let '(w, mem, ok) := do_masking w mem len false in
    if ok then
      match send_raw fuel w mem 0 len orig_len wp with
      | Some (w, r) => Some (w, r, mem) | None => None end
    else Some (w, -1, mem).

(** The extensions' view of the payload: the effective token and write type, or
    the result when the write ends here. *)
Definition ext_payload (w : lws) (len wp : Z) : lws * (lws_tokens * Z + Z) :=
  let eff := mkTok TUser len in
  if (wp =? LWS_WRITE_PING) || (wp =? LWS_WRITE_PONG) || (wp =? LWS_WRITE_CLOSE) then (w, inl (eff, wp)) else
  let '(w, eff, n) := lws_ext_cb_active w (LWS_EXT_CB_PAYLOAD_TX wp) eff in
  if n <? 0 then (w, inr (-1)) else
  let '(w, wp) :=
    if nz n && nz (token_len eff) then
      (lws_callback_on_writable
         (set_tx (fun t => t {{ tx_draining_ext := true; pt_tx_draining_ext_list ::= cons (wsi_id w);
                                tx_draining_stashed_wp := u8 wp }}) w),
       wp .| LWS_WRITE_NO_FIN)
    else (w, wp) in
  if nz (token_len eff) && stashed_write_pending (tx w)
  then (set_tx (fun t => t {{ stashed_write_pending := false }}) w,
        inl (eff, (wp .& 192) .| stashed_write_type (tx w)))
  else (w, inl (eff, wp)).

(** From the check of the state to the choice of the buffer. *)
Definition write_ws (fuel : nat) (w : lws) (mem : bytes) (len wp : Z) : option (lws * Z * bytes) :=
  if negb (bool_decide (state w = LWSS_ESTABLISHED)) &&
     ((negb (bool_decide (state w = LWSS_RETURNED_CLOSE_ALREADY)) &&
       negb (bool_decide (state w = LWSS_AWAITING_CLOSE_ACK))) || negb (wp =? LWS_WRITE_CLOSE))
  then Some (w, 0, mem) else
  if inside_frame (tx w) then
    let '(w, mem, ok) := do_masking w mem len false in
    if ok then
      match send_raw fuel w mem 0 len len wp with
      | Some (w, r) => Some (w, r, mem) | None => None end
    else Some (w, -1, mem)
  else
  let w := set_tx (fun t => t {{ clean_buffer := true }}) w in
  match ext_payload w len wp with
  | (w, inr r) => Some (w, r, mem)
  | (w, inl (eff, wp)) =>
      match tok eff with
      | TUser => write_frame fuel w mem (token_len eff) len wp
      | t =>
          if nz len && negb (nz (token_len eff)) then
            let w := if stashed_write_pending (tx w) then w
                     else set_tx (fun x => x {{ stashed_write_type := u8 (wp .& 63) }}) w in
            Some (set_tx (fun x => x {{ stashed_write_pending := true }}) w, s32 len, mem)
          else
            let w := set_tx (fun x => x {{ clean_buffer := false }}) w in
            let emem := replicate (Z.to_nat LWS_PRE) 0 ++ match t with TExt b => b | _ => [] end in
            match write_frame fuel w emem (token_len eff) len wp with
            | Some (w, r, _) => Some (w, r, mem)
            | None => None
            end
      end
  end.

Definition lws_write (fuel : nat) (w : lws) (mem : bytes) (len wp : Z) : option (lws * Z * bytes) :=
  let '(w, wp) :=
    if bool_decide (state w = LWSS_ESTABLISHED) && tx_draining_ext (tx w) then
      (set_tx (fun t => t {{ tx_draining_ext := false; pt_tx_draining_ext_list ::= unlink (wsi_id w) }}) w,
       (tx_draining_stashed_wp (tx w) .& 192) .| LWS_WRITE_CONTINUATION)
    else (w, wp) in
  let w := lws_restart_ws_ping_pong_timer w in
  if (wp =? LWS_WRITE_HTTP) || (wp =? LWS_WRITE_HTTP_FINAL) || (wp =? LWS_WRITE_HTTP_HEADERS) then
    match send_raw fuel w mem 0 len len wp with
    | Some (w, r) => Some (w, r, mem) | None => None end
  else write_ws fuel w mem len wp.

(** ** service.c *)

Definition lws_calllback_as_writeable (w : lws) : lws * Z :=
  let n := match mode w with
           | LWSCM_RAW => LWS_CALLBACK_RAW_WRITEABLE
           | LWSCM_RAW_FILEDESC => LWS_CALLBACK_RAW_WRITEABLE_FILE
           | LWSCM_WS_CLIENT => LWS_CALLBACK_CLIENT_WRITEABLE
           | LWSCM_WSCL_ISSUE_HTTP_BODY => LWS_CALLBACK_CLIENT_HTTP_WRITEABLE
           | LWSCM_WS_SERVING => LWS_CALLBACK_SERVER_WRITEABLE
           | _ => LWS_CALLBACK_HTTP_WRITEABLE
           end in
  user_callback_handle_rxflow w n [].

(** [user_service:] *)
Definition user_service (w : lws) (pollfd : bool) : lws * Z :=
  let '(w, bad) := if pollfd then (emit (EPollfd LWS_POLLOUT 0) w, nz (change_pollfd w LWS_POLLOUT 0))
                   else (w, false) in
  if bad then (w, 1) else
  if negb (bool_decide (mode w = LWSCM_WSCL_ISSUE_HTTP_BODY)) && negb (hdr_parsing_completed (tx w))
  then (w, 0) else lws_calllback_as_writeable w.

(** The loop that lets the extensions spill; [inl] ends the event. *)
Fixpoint spill_ext_loop (fuel : nat) (w : lws) : option (lws * option Z) :=
  match fuel with
  | O => None
  | S fuel =>
      let '(w, t, m) := lws_ext_cb_active w LWS_EXT_CB_PACKET_TX_PRESEND (mkTok TNull 0) in
      if m <? 0 then Some (w, Some (-1)) else
      if nz (token_len t) then
        let data := match tok t with TExt b => b | _ => [] end in
        let '(w, n) := lws_issue_raw w (PUser data) (token_len t) in
        if n <? 0 then Some (w, Some (-1)) else
        if negb (n =? token_len t) then Some (w, Some (-1)) else
        if negb (nz m) then Some (w, None) else
        if negb (send_pipe_choked w) then spill_ext_loop fuel w else Some (w, Some 0)
      else if nz m then spill_ext_loop fuel w else Some (w, None)
  end.

(** Priorities 4 to 6. *)
Definition pollout_user (fuel : nat) (w : lws) (pollfd : bool) : option (lws * Z) :=
  if bool_decide (state w = LWSS_RETURNED_CLOSE_ALREADY) then Some (user_service w pollfd) else
  if bool_decide (state w = LWSS_ESTABLISHED) && tx_draining_ext (tx w) then
    match lws_write fuel w [] 0 LWS_WRITE_CONTINUATION with
    | None => None
    | Some (w, n, _) => Some (w, if n <? 0 then -1 else 0)
    end
  else
  let '(w, _, m) := lws_ext_cb_active w LWS_EXT_CB_IS_WRITEABLE (mkTok TNull 0) in
  if nz m then Some (w, -1) else
  if negb (extension_data_pending (tx w)) then Some (user_service w pollfd) else
  match (if bool_decide (mode w = LWSCM_RAW) || bool_decide (mode w = LWSCM_RAW_FILEDESC)
         then Some (w, None) else spill_ext_loop fuel w) with
  | None => None
  | Some (w, Some r) => Some (w, r)
  | Some (w, None) => Some (user_service (set_tx (fun t => t {{ extension_data_pending := false }}) w) pollfd)
  end.

Definition lws_handle_POLLOUT_event (fuel : nat) (w : lws) (pollfd : bool) : option (lws * Z) :=
  if nz (trunc_len (tx w)) then
    let '(w, n) := lws_issue_raw w PTrunc (trunc_len (tx w)) in
    Some (w, if n <? 0 then -1 else 0)
  else if bool_decide (state w = LWSS_FLUSHING_STORED_SEND_BEFORE_CLOSE) then Some (w, -1)
  else if bool_decide (mode w = LWSCM_WSCL_ISSUE_HTTP_BODY) then Some (user_service w pollfd)
  else if (bool_decide (state w = LWSS_ESTABLISHED) && ping_pending_flag w)
       || (bool_decide (state w = LWSS_RETURNED_CLOSE_ALREADY) && payload_is_close w) then
    let wt := if payload_is_close w then LWS_WRITE_CLOSE else LWS_WRITE_PONG in
    match lws_write fuel w (ping_payload_buf w) (ping_payload_len w) wt with
    | None => None
    | Some (w, n, mem) =>
        let w := w {{ ping_payload_buf := mem }} in
        if n <? 0 then Some (w, -1) else
        let w := w {{ ping_pending_flag := false }} in
        if payload_is_close w then Some (w, -1) else Some (w, 0)
    end
  else if bool_decide (state w = LWSS_ESTABLISHED) && negb (socket_is_permanently_unusable w)
       && send_check_ping (tx w) then
    let w := set_tx (fun t => t {{ send_check_ping := false }}) w in
    match lws_write fuel w (ping_payload_buf w) 0 LWS_WRITE_PING with
    | None => None
    | Some (w, n, mem) =>
        let w := w {{ ping_payload_buf := mem }} in
        if n <? 0 then Some (w, -1)
        else Some (lws_set_timeout w PENDING_TIMEOUT_WS_PONG_CHECK_GET_PONG (timeout_secs (tx w)), 0)
    end
  else pollout_user fuel w pollfd.

End Tx.
