(* ===== verification/WsTxFacts.v ===== *)
(** * What the writer sends

    The byte stream handed to the socket, the buffer of a truncated send, and
    the frames [lws_write] builds. *)

From S2P Require Import Prelude Ws WsRx WsRxFacts WsTx.

(** ** The stream *)

Definition sent_of (e : event) : bytes := match e with ESend d => d | _ => [] end.

(** All bytes the socket has taken. *)
Definition sent (w : lws) : bytes := concat (map sent_of (events w)).

(** The bytes of a truncated send that are still to go. *)
Definition pending (w : lws) : bytes := take (Z.to_nat (trunc_len (tx w))) (ptr_data w PTrunc).

(** What is remembered of a truncated send lies inside its buffer. *)
Record TxInv (w : lws) : Prop := {
  ti_len : 0 <= trunc_len (tx w) < 2 ^ 31;
  ti_off : 0 <= trunc_offset (tx w) < 2 ^ 32;
  ti_fit : trunc_len (tx w) <> 0 ->
           trunc_offset (tx w) + trunc_len (tx w) <= zlen (default [] (trunc_alloc (tx w)));
  ti_alloc : match trunc_alloc (tx w) with Some b => trunc_alloc_len (tx w) = zlen b | None => True end;
  ti_max : zlen (default [] (trunc_alloc (tx w))) < 2 ^ 32;
  ti_noext : count_act_ext w = 0%nat;
  ti_size : 0 <= spill_size w < 2 ^ 32 - LWS_PRE - 4
}.

(** What the socket may answer: an error, try again, or a count. *)
Class SocketOk `{LwsEnv} : Prop := {
  socket_ok : forall w b, let r := socket_write w b in
    r = LWS_SSL_CAPABLE_ERROR \/ r = LWS_SSL_CAPABLE_MORE_SERVICE \/ 0 <= r <= zlen b
}.

(** The random source gives four bytes or fails. *)
Class RandomOk `{LwsEnv} : Prop := {
  random_ok : forall w m, random4 w = Some m -> length m = 4%nat /\ all_u8 m
}.

Section TxFacts.
Context `{SocketOk}.

Lemma sent_emit w e : sent (emit e w) = sent w ++ sent_of e.
Proof.
  unfold sent, emit. destruct w. cbn. rewrite map_app, concat_app. cbn. by rewrite app_nil_r.
Qed.

Lemma set_tx_fields f w : tx (set_tx f w) = f (tx w) /\ events (set_tx f w) = events w /\
  state (set_tx f w) = state w /\ count_act_ext (set_tx f w) = count_act_ext w /\
  spill_size (set_tx f w) = spill_size w /\ mode (set_tx f w) = mode w.
Proof. by destruct w. Qed.

(** Storing the rest of a send. *)
Lemma buffer_rest_ok w rest w' : TxInv w -> 0 < zlen rest < 2 ^ 31 -> buffer_rest w rest = (w', true) ->
  pending w' = rest /\ TxInv w' /\ events w' = events w /\ state w' = state w.
Proof.
  intros I Hr E. unfold buffer_rest in E. rewrite u32_small in E by lia.
  assert (Hz : Z.to_nat (zlen rest) = length rest) by (unfold zlen; lia).
  assert (Hb : exists f b, w' = set_tx f w /\ trunc_alloc (f (tx w)) = Some b /\ take (length rest) b = rest /\
    trunc_offset (f (tx w)) = 0 /\ trunc_len (f (tx w)) = zlen rest /\ trunc_alloc_len (f (tx w)) = zlen b /\ zlen b < 2 ^ 32).
  { pose proof (ti_alloc _ I) as Ha.
    destruct (trunc_alloc (tx w)) as [old|] eqn:Eo; [destruct (zlen rest >? trunc_alloc_len (tx w)) eqn:Eg; zbool|];
      [destruct (malloc_ok w _); [|done]| |destruct (malloc_ok w _); [|done]]; injection E as <-.
    - eexists _, rest. split; [done|]. rewrite take_ge by lia. split_and!; try lia; by destruct (tx w).
    - eexists _, (splice 0 rest old). split; [done|].
      assert (Hl : (0 + length rest <= length old)%nat) by (unfold zlen in *; lia).
      pose proof (splice_take 0 rest old Hl) as Hs. cbn [Nat.add app take] in Hs. rewrite Hs.
      assert (Ez : zlen (splice 0 rest old) = zlen old) by (unfold zlen; by rewrite length_splice).
      pose proof (ti_max _ I) as Hm. rewrite Eo in Hm. cbn in Hm.
      rewrite Ez, <- Ha. split_and!; try lia; by destruct (tx w).
    - eexists _, rest. split; [done|]. rewrite take_ge by lia. split_and!; try lia; by destruct (tx w). }
  destruct Hb as (f & b & -> & B1 & B2 & B3 & B4 & B5 & B6).
  destruct (set_tx_fields f w) as (F1 & F2 & F3 & F4 & F5 & F6).
  assert (Hlb : (length rest <= length b)%nat) by (rewrite <- B2, length_take; lia).
  split; [|split].
  - unfold pending, ptr_data. rewrite F1, B1, B3, B4, Hz. cbn. by rewrite drop_0.
  - destruct I. constructor; rewrite ?F1, ?F4, ?F5, ?B1, ?B3, ?B4; cbn; try done; try lia. unfold zlen in *. lia.
  - done.
Qed.

(** The three outcomes of handing [data] to the socket, of which [n] bytes went. *)
Lemma handle_truncated_ok w data n len w' r : TxInv w -> state w <> LWSS_FLUSHING_STORED_SEND_BEFORE_CLOSE ->
  0 < len < 2 ^ 31 -> 0 <= n <= len -> len <= zlen data ->
  (trunc_len (tx w) <> 0 -> len = trunc_len (tx w) /\ data = ptr_data w PTrunc) ->
  handle_truncated_send w data n len = (w', r) -> r <> -1 ->
  TxInv w' /\ state w' = state w /\ sent w' = sent w /\ 0 <= r <= len /\
  (trunc_len (tx w) = 0 -> r = len) /\ pending w' = drop (Z.to_nat n) (take (Z.to_nat len) data).
Proof.
  intros I Hst Hl Hn Hd Htr E Hr. unfold handle_truncated_send in E.
  destruct (nz (trunc_len (tx w))) eqn:Et; zbool.
  - destruct (Htr Et) as [El Edata]. pose proof (ti_fit _ I Et) as Hfit. destruct (ti_off _ I), (ti_len _ I).
    set (f := fun t : lws_tx => _) in E. destruct (set_tx_fields f w) as (F1 & F2 & F3 & F4 & F5 & F6).
    assert (Ff : trunc_len (f (tx w)) = trunc_len (tx w) - n /\ trunc_offset (f (tx w)) = u32 (trunc_offset (tx w) + n) /\
       trunc_alloc (f (tx w)) = trunc_alloc (tx w) /\ trunc_alloc_len (f (tx w)) = trunc_alloc_len (tx w)).
    { unfold f. rewrite <- (u32_small (trunc_len (tx w) - n)) by lia. by destruct (tx w). }
    destruct Ff as (G1 & G2 & G3 & G4). rewrite u32_small in G2 by (pose proof (ti_max _ I); lia).
    assert (Ho : exists e, w' = emit e (set_tx f w) /\ sent_of e = [] /\ 0 <= r <= len).
    { rewrite F1, F3, G1 in E. exists EWritable.
      destruct (trunc_len (tx w) - n =? 0) eqn:E0; zbool.
      - rewrite bool_decide_false in E by done. injection E as <- <-. rewrite s32_small by lia. split_and!; try done; lia.
      - injection E as <- <-. rewrite s32_small by lia. split_and!; try done; lia. }
    destruct Ho as (e & -> & He & Hb). rewrite sent_emit, He, app_nil_r.
    assert (Fe : tx (emit e (set_tx f w)) = f (tx w) /\ state (emit e (set_tx f w)) = state w /\
      count_act_ext (emit e (set_tx f w)) = count_act_ext w /\ spill_size (emit e (set_tx f w)) = spill_size w)
      by (by destruct w).
    destruct Fe as (Fe1 & Fe2 & Fe3 & Fe4). split; [|split; [done|split; [unfold sent; by rewrite F2|split; [done|split; [done|]]]]].
    + destruct I. constructor; rewrite ?Fe1, ?Fe3, ?Fe4, ?G1, ?G2, ?G3, ?G4; try done; lia.
    + unfold pending, ptr_data. rewrite Fe1, G1, G2, G3, El, Edata. unfold ptr_data.
      rewrite skipn_firstn_comm, drop_drop. f_equal; [lia|]. f_equal. lia.
  - destruct (n =? len) eqn:En; zbool.
    + injection E as <- <-. rewrite s32_small by lia. split; [done|]. split; [done|]. split; [done|].
      split; [lia|]. split; [done|]. unfold pending. rewrite Et.
      symmetry. apply drop_ge. rewrite length_take. lia.
    + set (rest := drop (Z.to_nat n) (take (Z.to_nat len) data)) in *.
      assert (Hrest : zlen rest = len - n) by (unfold rest, zlen in *; rewrite length_drop, length_take; lia).
      destruct (buffer_rest w rest) as [w1 ok] eqn:Eb. destruct ok; [|by injection E as <- <-].
      destruct (buffer_rest_ok w rest w1 I ltac:(lia) Eb) as (P1 & I1 & P2 & P3).
      injection E as <- <-. rewrite s32_small by lia.
      assert (Fe : tx (emit EWritable w1) = tx w1 /\ state (emit EWritable w1) = state w1 /\
        count_act_ext (emit EWritable w1) = count_act_ext w1 /\ spill_size (emit EWritable w1) = spill_size w1) by (by destruct w1).
      destruct Fe as (Fe1 & Fe2 & Fe3 & Fe4). unfold lws_callback_on_writable.
      split; [destruct I1; by constructor; rewrite ?Fe1, ?Fe3, ?Fe4|]. split; [congruence|].
      split; [rewrite sent_emit; unfold sent; by rewrite P2, app_nil_r|]. split; [lia|]. split; [done|].
      rewrite <- P1. unfold pending, ptr_data. by rewrite Fe1.
Qed.

(** A new buffer may only be issued when nothing is waiting; the service code
    resumes exactly what is waiting. *)
Definition ptr_ok (w : lws) (p : txptr) (len : Z) : Prop :=
  match p with
  | PUser b => trunc_len (tx w) = 0 /\ 0 <= len <= zlen b
  | PTrunc => trunc_len (tx w) <> 0 /\ len = trunc_len (tx w)
  end.

Lemma issue_raw_ok w p len w' r : TxInv w -> state w <> LWSS_FLUSHING_STORED_SEND_BEFORE_CLOSE ->
  len < 2 ^ 31 -> ptr_ok w p len -> lws_issue_raw w p len = (w', r) -> r <> -1 ->
  TxInv w' /\ state w' = state w /\ 0 <= r <= len /\
  sent w' ++ pending w' = sent w ++ take (Z.to_nat len) (ptr_data w p) /\
  match p with PUser _ => r = len | PTrunc => zlen (pending w') <= zlen (pending w) end.
Proof.
  intros I Hst Hl Hp E Hr. unfold lws_issue_raw in E.
  assert (Hlen : 0 <= len <= zlen (ptr_data w p)).
  { destruct p as [b|]; cbn; [apply Hp|]. destruct Hp as [Hp1 Hp2]. pose proof (ti_fit _ I Hp1).
    pose proof (ti_len _ I). pose proof (ti_off _ I). unfold zlen in *. rewrite length_drop. lia. }
  destruct (len =? 0) eqn:E0; zbool.
  { injection E as <- <-. subst. split; [done|]. split; [done|]. split; [lia|]. cbn [Z.to_nat take].
    destruct p; [|exfalso; destruct Hp; congruence]. cbn in Hp. split; [|done]. unfold pending. by rewrite (proj1 Hp). }
  rewrite bool_decide_false in E by done. cbn [andb] in E.
  assert (Hg : nz (trunc_len (tx w)) && match p with PUser _ => true | PTrunc => false end = false).
  { destruct p; [|apply andb_false_r]. by rewrite (proj1 Hp). }
  rewrite Hg, (ext_none _ _ _ (ti_noext _ I)) in E. clear Hg. cbn [Z.ltb Z.compare tok] in E.
  change (nz 0) with false in E. cbn iota in E. pose proof (ti_size _ I) as Hsz.
  rewrite u32_small in E by (unfold LWS_PRE in *; lia).
  set (lim := if spill_size w + LWS_PRE + 4 >? len then u32 len else spill_size w + LWS_PRE + 4) in E.
  assert (Hlim : 0 <= lim <= len).
  { unfold lim. destruct (spill_size w + LWS_PRE + 4 >? len) eqn:Eg; zbool; [rewrite u32_small by lia; lia|].
    unfold LWS_PRE in *. lia. }
  clearbody lim. set (data := ptr_data w p) in *.
  pose proof (socket_ok w (take (Z.to_nat lim) data)) as Hs. cbv zeta in Hs.
  destruct (socket_write w (take (Z.to_nat lim) data) =? LWS_SSL_CAPABLE_ERROR) eqn:Ee;
    [by injection E as <- <-|]. zbool.
  set (n := if _ =? LWS_SSL_CAPABLE_MORE_SERVICE then 0 else u32 _) in E.
  assert (Hn : 0 <= n <= len).
  { unfold n. destruct (socket_write w _ =? LWS_SSL_CAPABLE_MORE_SERVICE) eqn:Em; zbool; [lia|].
    destruct Hs as [Hs|[Hs|Hs]]; try done. unfold zlen in Hs. rewrite length_take in Hs. rewrite u32_small; lia. }
  clearbody n. clear Hs Ee.
  set (w1 := if n =? 0 then w else emit (ESend (take (Z.to_nat n) data)) w) in E.
  assert (Fw : tx w1 = tx w /\ state w1 = state w /\ TxInv w1 /\ sent w1 = sent w ++ take (Z.to_nat n) data).
  { unfold w1. destruct (n =? 0) eqn:En; zbool.
    - subst. cbn [Z.to_nat take]. by rewrite app_nil_r.
    - rewrite sent_emit. cbn [sent_of]. split; [by destruct w|]. split; [by destruct w|]. split; [|done].
      destruct I. constructor; by destruct w. }
  destruct Fw as (W1 & W2 & W3 & W4). clearbody w1.
  destruct (handle_truncated_ok w1 data n len w' r) as (Q1 & Q2 & Q3 & Q4 & Q5 & Q6); try done; try lia.
  { by rewrite W2. }
  { rewrite W1. unfold data, ptr_data. rewrite W1. intros Ht. destruct p; [by destruct Hp|]. by destruct Hp. }
  split; [done|]. split; [congruence|]. split; [done|]. split.
  { rewrite Q3, Q6, W4, <- app_assoc. f_equal. rewrite <- (take_drop (Z.to_nat n) (take (Z.to_nat len) data)) at 2.
    f_equal. rewrite take_take. f_equal. lia. }
  destruct p.
  - apply Q5. rewrite W1. apply Hp.
  - rewrite Q6. unfold pending, zlen. fold data. rewrite length_drop, !length_take. destruct Hp. unfold zlen in *. lia.
Qed.

(** ** Frames *)

Lemma drop_splice_le {A} (a b : nat) (src l : list A) : (a <= b <= length l)%nat ->
  drop a (splice b src l) = splice (b - a) src (drop a l).
Proof.
  intros Hab. unfold splice. rewrite drop_app_le by (rewrite length_take; lia).
  rewrite skipn_firstn_comm, drop_drop. f_equal. f_equal. f_equal. lia.
Qed.

Lemma splice_app_r {A} (h src r : list A) k : splice (length h + k) src (h ++ r) = h ++ splice k src r.
Proof.
  unfold splice. rewrite take_app_add, <- app_assoc. f_equal. f_equal. f_equal.
  rewrite <- Nat.add_assoc. apply drop_app_add.
Qed.

Lemma splice_0 {A} (src l : list A) : splice 0 src l = src ++ drop (length src) l.
Proof. done. Qed.

Lemma mask_loop_from m l : forall i, (mask_loop m i l).1 = mask_from m i l.
Proof.
  induction l as [|c l IH]; intros i; cbn [mask_loop mask_from]; [done|].
  pose proof (IH (u8 (i + 1))) as E. destruct (mask_loop m (u8 (i + 1)) l) as [r j]. cbn in *.
  rewrite land3_mod, E. f_equal. apply mask_from_mod, u8_mod4.
Qed.

(** The header [lws_write] builds is the one of RFC 6455. *)
Lemma frame_header_rfc n len msk : 0 <= len < len_limit ->
  frame_header n len (mbit msk) = n :: rfc_len (mbit msk) len.
Proof.
  intros Hl. unfold frame_header, rfc_len.
  assert (Eu : forall x, u8 x = x .& 255) by (intros; by rewrite land_255).
  destruct (len <? 126) eqn:E1; zbool.
  { rewrite Z.lor_comm. rewrite u8_small; [done|]. apply (lor_bound 8); destruct msk; unfold mbit; lia. }
  destruct (len <? 65536) eqn:E2; zbool.
  { rewrite !Eu, (Z.lor_comm 126). do 3 f_equal. rewrite land_255. apply Z.mod_small.
    apply (shiftr_range len 8 8); lia. }
  rewrite !Eu, (Z.lor_comm 127). cbn [map app]. unfold len_limit in Hl. do 2 f_equal.
  destruct lp64; cbn [app].
  - pose proof (shiftr_range len 56 7 ltac:(lia) ltac:(lia) ltac:(lia)).
    replace ((len .>> 56) .& 127) with ((len .>> (8 * 7)) .& 255); [change (8 * 0) with 0; by rewrite Z.shiftr_0_r|].
    change (8 * 7) with 56. rewrite land_255. rewrite (land_ones_mod _ 7) by lia. rewrite !Z.mod_small; lia.
  - assert (Ez : forall k, 32 <= k -> len .>> k = 0).
    { intros k Hk. rewrite Z.shiftr_div_pow2 by lia. apply Z.div_small.
      pose proof (Z.pow_le_mono_r 2 32 k). lia. }
    rewrite !(Ez (8 * _)) by lia. cbn. by rewrite Z.shiftr_0_r.
Qed.

Lemma length_rfc_len m n : (1 <= length (rfc_len m n) <= 9)%nat.
Proof. unfold rfc_len. repeat case_match; cbn; lia. Qed.

(** The image of a frame in the caller's memory. *)
Lemma frame_image (mem hdr key mp : bytes) len : (length hdr + length key <= 16)%nat -> length mp = Z.to_nat len ->
  0 <= len -> 16 + len <= zlen mem ->
  let a := (16 - length hdr - length key)%nat in
  take (Z.to_nat (len + zlen hdr + zlen key))
    (drop a (splice (16 - length key) key (splice 16 mp (splice a hdr mem)))) = hdr ++ key ++ mp.
Proof.
  intros Hh Hm Hl Hmem a. unfold zlen in *.
  assert (L1 : length (splice a hdr mem) = length mem) by (apply length_splice; lia).
  assert (L2 : length (splice 16 mp (splice a hdr mem)) = length mem) by (rewrite length_splice; lia).
  rewrite drop_splice_le, drop_splice_le, drop_splice_le by lia. rewrite Nat.sub_diag, splice_0, drop_drop.
  replace (16 - length key - a)%nat with (length hdr + 0)%nat by lia.
  replace (16 - a)%nat with (length hdr + length key)%nat by lia.
  rewrite splice_app_r, splice_app_r, splice_0.
  rewrite drop_splice_le by (rewrite length_drop; lia). rewrite Nat.sub_diag, splice_0.
  rewrite !app_assoc. apply take_app_length'. rewrite !length_app. lia.
Qed.

(** A connection that can start a frame. *)
Record CanWrite (w : lws) : Prop := {
  cw_inv : TxInv w;
  cw_state : state w = LWSS_ESTABLISHED \/ state w = LWSS_RETURNED_CLOSE_ALREADY;
  cw_rev : ietf_spec_revision w = 13;
  cw_clear : trunc_len (tx w) = 0;
  cw_frame : inside_frame (tx w) = false;
  cw_drain : tx_draining_ext (tx w) = false;
  cw_stash : stashed_write_pending (tx w) = false
}.

(** A change of the sending side that leaves the buffer of a truncated send alone. *)
Definition same_trunc (w v : lws) : Prop :=
  trunc_alloc (tx v) = trunc_alloc (tx w) /\ trunc_alloc_len (tx v) = trunc_alloc_len (tx w) /\
  trunc_offset (tx v) = trunc_offset (tx w) /\ trunc_len (tx v) = trunc_len (tx w) /\
  count_act_ext v = count_act_ext w /\ spill_size v = spill_size w /\ events v = events w /\ state v = state w.

Lemma same_trunc_inv w v : same_trunc w v -> TxInv w -> TxInv v.
Proof.
  intros (E1 & E2 & E3 & E4 & E5 & E6 & E7 & E8) []. constructor; rewrite ?E1, ?E2, ?E3, ?E4, ?E5, ?E6; done.
Qed.

Lemma same_trunc_stream w v : same_trunc w v -> sent v = sent w /\ pending v = pending w.
Proof.
  intros (E1 & E2 & E3 & E4 & E5 & E6 & E7 & E8). unfold sent, pending, ptr_data. by rewrite E1, E3, E4, E7.
Qed.

#[local] Instance same_trunc_trans : Transitive same_trunc.
Proof. unfold same_trunc. intros x y z ? ?. intuition congruence. Qed.

(** The frame is issued as one block, for every kind of write. *)
Lemma send_raw_ok fuel w mem pre len orig wp w' r : TxInv w ->
  state w = LWSS_ESTABLISHED \/ state w = LWSS_RETURNED_CLOSE_ALREADY ->
  trunc_len (tx w) = 0 -> clean_buffer (tx w) = true -> 0 <= len -> 0 <= pre <= 16 -> len + pre < 2 ^ 31 ->
  0 <= orig < 2 ^ 31 -> 0 < len + pre -> len + 16 <= zlen mem ->
  send_raw (S fuel) w mem pre len orig wp = Some (w', r) -> r <> -1 ->
  TxInv w' /\ state w' = state w /\ r = (if is_raw_wp wp then len + pre else orig) /\
  sent w' ++ pending w' =
    sent w ++ take (Z.to_nat (len + pre)) (drop (Z.to_nat (LWS_PRE - pre)) mem).
Proof.
  intros I Hst Ht Hc Hl Hp Hlp Ho Hpos Hmem E Hr. unfold send_raw in E.
  assert (Hf : state w <> LWSS_FLUSHING_STORED_SEND_BEFORE_CLOSE) by (by destruct Hst as [->| ->]).
  set (buf := drop (Z.to_nat (LWS_PRE - pre)) mem) in *.
  assert (Hb : 0 <= len + pre <= zlen buf) by (unfold buf, zlen, LWS_PRE in *; rewrite length_drop; lia).
  destruct (is_raw_wp wp).
  - injection E as E. destruct (issue_raw_ok w (PUser buf) (len + pre) w' r) as (Q1 & Q2 & Q3 & Q4 & Q5); try done; lia.
  - unfold lws_issue_raw_ext_access in E. cbn [issue_raw_ext_loop] in E.
    rewrite (ext_none _ _ _ (ti_noext _ I)) in E. cbn [Z.ltb Z.compare tok token_len] in E.
    unfold nz in E. rewrite (proj2 (Z.eqb_neq (len + pre) 0)) in E by lia. cbn [negb] in E.
    destruct (lws_issue_raw w (PUser buf) (len + pre)) as [w1 n] eqn:Ei.
    destruct (n <? 0) eqn:En; zbool.
    { cbn [Z.leb Z.compare] in E. by injection E as <- <-. }
    destruct (issue_raw_ok w (PUser buf) (len + pre) w1 n) as (Q1 & Q2 & Q3 & Q4 & Q5); try done; try lia.
    subst n. cbn [Z.eqb negb] in E.
    assert (Ec : (if clean_buffer (tx w1) then len + pre else len + pre) = len + pre) by (by destruct (clean_buffer (tx w1))).
    rewrite Ec, (proj2 (Z.leb_gt _ 0)), Z.eqb_refl in E by lia. injection E as <- <-.
    set (w2 := set_tx _ (set_tx _ w1)).
    assert (S2 : same_trunc w1 w2) by (unfold w2, same_trunc, spill_size; destruct w1, tx; done).
    destruct (same_trunc_stream _ _ S2) as [-> ->].
    split; [by apply (same_trunc_inv w1)|]. split; [destruct S2 as (_ & _ & _ & _ & _ & _ & _ & ->); done|].
    split; [apply s32_small; lia|done].
Qed.

(** The members [write_frame] reads. *)
Definition same_conn (w v : lws) : Prop :=
  same_trunc w v /\ mode v = mode w /\ ietf_spec_revision v = ietf_spec_revision w /\
  inside_frame (tx v) = inside_frame (tx w) /\ stashed_write_pending (tx v) = stashed_write_pending (tx w).

Lemma restart_same w : same_conn w (lws_restart_ws_ping_pong_timer w).
Proof.
  unfold lws_restart_ws_ping_pong_timer, same_conn, same_trunc, spill_size.
  case_match; [done|]. case_match; [done|]. by destruct w, tx.
Qed.

(** First byte of the frame for a write type. *)
Definition first_byte (op wp : Z) : Z := if nz (wp .& LWS_WRITE_NO_FIN) then op else op .| 128.

(** The key a connection puts into its frames: servers do not mask. *)
Definition key_of (w : lws) (key : option bytes) : Prop :=
  if bool_decide (mode w = LWSCM_WS_CLIENT) then exists v k, key = Some k /\ random4 v = Some k else key = None.

Lemma write_frame_ok fuel w mem len orig wp op w' r mem' `{!RandomOk} : TxInv w ->
  state w = LWSS_ESTABLISHED \/ state w = LWSS_RETURNED_CLOSE_ALREADY ->
  ietf_spec_revision w = 13 -> trunc_len (tx w) = 0 -> clean_buffer (tx w) = true -> inside_frame (tx w) = false ->
  wp_opcode wp = Some op -> 0 <= len < 2 ^ 31 - 16 -> 0 <= orig < 2 ^ 31 -> len + 16 <= zlen mem ->
  write_frame (S fuel) w mem len orig wp = Some (w', r, mem') -> r <> -1 ->
  exists key, key_of w key /\ TxInv w' /\ state w' = state w /\ (is_raw_wp wp = false -> r = orig) /\ 0 <= r /\
    sent w' ++ pending w' = sent w ++
      rfc_frame (first_byte op wp) key (take (Z.to_nat len) (drop (Z.to_nat LWS_PRE) mem)).
Proof.
  intros I Hst Hrev Ht Hc Hin Hop Hl Ho Hmem E Hr. unfold write_frame in E. rewrite Hrev, Hop in E.
  cbn [Z.eqb Pos.eqb] in E. fold (first_byte op wp) in E. unfold key_of.
  set (p := take (Z.to_nat len) (drop (Z.to_nat LWS_PRE) mem)).
  assert (Hp : zlen p = len) by (unfold p, zlen, LWS_PRE in *; rewrite length_take, length_drop; lia).
  assert (Hlim : 0 <= len < len_limit) by (unfold len_limit; destruct lp64; lia).
  unfold do_masking in E. rewrite Hin in E.
  destruct (bool_decide (mode w = LWSCM_WS_CLIENT)) eqn:Em; cbn [negb] in E.
  - change (frame_header (first_byte op wp) len 128) with (frame_header (first_byte op wp) len (mbit true)) in E.
    rewrite (frame_header_rfc _ _ true Hlim) in E.
    set (hdr := first_byte op wp :: rfc_len (mbit true) len) in *.
    assert (Hh : (2 <= length hdr <= 10)%nat) by (pose proof (length_rfc_len (mbit true) len); unfold hdr; cbn [length]; lia).
    unfold lws_0405_frame_mask_generate in E. destruct (random4 w) as [k|] eqn:Ek.
    2: { cbn [Z.eqb] in E. change (nz 1) with true in E. by injection E as <- <-. }
    change (nz 0) with false in E. cbn iota in E.
    destruct (random_ok w k Ek) as [Hk4 _].
    set (w1 := w {{ mask := k; mask_idx := 0 }}) in E.
    set (mem1 := splice (Z.to_nat (LWS_PRE - (zlen hdr + 4))) hdr mem) in E.
    assert (Ep1 : take (Z.to_nat len) (drop (Z.to_nat LWS_PRE) mem1) = p).
    { unfold mem1, p, splice. f_equal. rewrite app_assoc, drop_app_ge.
      - rewrite drop_drop. f_equal. rewrite length_app, length_take. unfold zlen, LWS_PRE in *. lia.
      - rewrite length_app, length_take. unfold zlen, LWS_PRE in *. lia. }
    rewrite Ep1 in E. pose proof (mask_loop_from (mask w1) p (mask_idx w1)) as Eml.
    replace (mask w1) with k in * by (unfold w1; by destruct w).
    replace (mask_idx w1) with 0 in * by (unfold w1; by destruct w).
    destruct (mask_loop k 0 p) as [mp i]. cbn [fst] in Eml. subst mp.
    set (w2 := w1 {{ mask_idx := i }}) in E.
    assert (S2 : same_trunc w w2) by (unfold w2, w1, same_trunc, spill_size; by destruct w).
    set (mem2 := splice (Z.to_nat (LWS_PRE - 4)) k (splice (Z.to_nat LWS_PRE) (mask_from k 0 p) mem1)) in E.
    assert (Hlm : zlen mem2 = zlen mem).
    { pose proof (length_mask_from k p 0) as Hlp. unfold mem2, zlen, LWS_PRE in *.
      assert (L1 : length mem1 = length mem) by (unfold mem1; apply length_splice; lia).
      assert (L2 : length (splice (Z.to_nat 16) (mask_from k 0 p) mem1) = length mem)
        by (rewrite length_splice; lia).
      rewrite length_splice; lia. }
    destruct (send_raw (S fuel) w2 mem2 (zlen hdr + 4) len orig wp) as [[w3 r3]|] eqn:Es; [|done].
    injection E as <- <- <-. destruct (same_trunc_stream _ _ S2) as [Sa Sb].
    destruct S2 as (T1 & T2 & T3 & T4 & T5 & T6 & T7 & T8).
    assert (Hzh : zlen hdr = Z.of_nat (length hdr)) by done.
    destruct (send_raw_ok fuel w2 mem2 (zlen hdr + 4) len orig wp w3 r3) as (Q1 & Q2 & Q3 & Q4); try done; try lia; try congruence.
    { apply (same_trunc_inv w); [by unfold same_trunc|done]. }
    exists (Some k). split; [by exists w, k|]. split; [done|]. split; [congruence|].
    split; [by intros Hw; rewrite Hw in Q3|]. split; [rewrite Q3; case_match; lia|].
    rewrite Q4, Sa. f_equal. cbn [rfc_frame]. rewrite Hp. change (rfc_len 128) with (rfc_len (mbit true)).
    pose proof (frame_image mem hdr k (mask_from k 0 p) len) as Hi. cbv zeta in Hi.
    change (first_byte op wp :: rfc_len (mbit true) len ++ k ++ mask_from k 0 p) with (hdr ++ k ++ mask_from k 0 p).
    rewrite <- Hi; [|lia|rewrite length_mask_from; unfold zlen in *; lia|lia|lia].
    unfold mem2, mem1, LWS_PRE, zlen in *. f_equal; [lia|]. f_equal; [lia|]. f_equal; [lia|]. f_equal. f_equal; lia.
  - change (frame_header (first_byte op wp) len 0) with (frame_header (first_byte op wp) len (mbit false)) in E.
    rewrite (frame_header_rfc _ _ false Hlim) in E.
    set (hdr := first_byte op wp :: rfc_len (mbit false) len) in *.
    assert (Hh : (2 <= length hdr <= 10)%nat) by (pose proof (length_rfc_len (mbit false) len); unfold hdr; cbn [length]; lia).
    rewrite Z.add_0_r in E. assert (Hzh : zlen hdr = Z.of_nat (length hdr)) by done.
    set (mem1 := splice (Z.to_nat (LWS_PRE - zlen hdr)) hdr mem) in E.
    assert (Hlm : zlen mem1 = zlen mem) by (unfold mem1, zlen, LWS_PRE in *; rewrite length_splice; lia).
    destruct (send_raw (S fuel) w mem1 (zlen hdr) len orig wp) as [[w3 r3]|] eqn:Es; [|done].
    injection E as <- <- <-.
    destruct (send_raw_ok fuel w mem1 (zlen hdr) len orig wp w3 r3) as (Q1 & Q2 & Q3 & Q4); try done; try lia.
    exists None. split; [done|]. split; [done|]. split; [done|].
    split; [by intros Hw; rewrite Hw in Q3|]. split; [rewrite Q3; case_match; lia|].
    rewrite Q4. f_equal. cbn [rfc_frame]. rewrite Hp. change (rfc_len 0) with (rfc_len (mbit false)).
    unfold mem1. rewrite drop_splice_le by (unfold zlen, LWS_PRE in *; lia). rewrite Nat.sub_diag, splice_0, drop_drop.
    change (first_byte op wp :: rfc_len (mbit false) len ++ p) with (hdr ++ p). replace (Z.to_nat (len + zlen hdr)) with (length hdr + Z.to_nat len)%nat by lia.
    rewrite take_app_add. unfold p. f_equal. f_equal. f_equal. unfold LWS_PRE in *. lia.
Qed.

Lemma wp_opcode_ws wp op : wp_opcode wp = Some op ->
  (wp =? LWS_WRITE_HTTP) || (wp =? LWS_WRITE_HTTP_FINAL) || (wp =? LWS_WRITE_HTTP_HEADERS) = false.
Proof.
  intros E. apply not_true_is_false. intros Hb. rewrite !orb_true_iff, !Z.eqb_eq in Hb.
  by destruct Hb as [[->| ->]| ->].
Qed.

(** [lws_write] without extensions, unfolded to the frame. *)
Lemma lws_write_frame fuel w mem len wp : CanWrite w ->
  (wp =? LWS_WRITE_HTTP) || (wp =? LWS_WRITE_HTTP_FINAL) || (wp =? LWS_WRITE_HTTP_HEADERS) = false ->
  state w = LWSS_ESTABLISHED \/ wp = LWS_WRITE_CLOSE ->
  exists v, lws_write fuel w mem len wp = write_frame fuel v mem len len wp /\ same_conn w v /\
    clean_buffer (tx v) = true /\ tx_draining_ext (tx v) = tx_draining_ext (tx w).
Proof.
  intros [I Hst Hrev Ht Hin Hd Hss] Hwp Hcl. unfold lws_write. rewrite Hd, andb_false_r, Hwp.
  pose proof (restart_same w) as (S1 & M1 & V1 & F1 & P1).
  assert (D1 : tx_draining_ext (tx (lws_restart_ws_ping_pong_timer w)) = tx_draining_ext (tx w))
    by (unfold lws_restart_ws_ping_pong_timer; repeat (case_match; [done|]); by destruct w, tx).
  set (w1 := lws_restart_ws_ping_pong_timer w) in *. clearbody w1.
  pose proof S1 as (T1 & T2 & T3 & T4 & T5 & T6 & T7 & T8). unfold write_ws.
  assert (Hg : negb (bool_decide (state w1 = LWSS_ESTABLISHED)) &&
     ((negb (bool_decide (state w1 = LWSS_RETURNED_CLOSE_ALREADY)) &&
       negb (bool_decide (state w1 = LWSS_AWAITING_CLOSE_ACK))) || negb (wp =? LWS_WRITE_CLOSE)) = false).
  { rewrite T8. destruct Hcl as [->| ->]; [done|]. by destruct Hst as [->| ->]. }
  rewrite Hg, F1, Hin. clear Hg. set (w2 := set_tx _ w1).
  assert (D2 : tx_draining_ext (tx w2) = tx_draining_ext (tx w1)) by (unfold w2; by destruct w1, tx).
  assert (S2 : same_conn w1 w2 /\ clean_buffer (tx w2) = true)
    by (unfold w2, same_conn, same_trunc, spill_size; by destruct w1, tx).
  destruct S2 as [(S2 & M2 & V2 & F2 & P2) C2]. pose proof S2 as (U1 & U2 & U3 & U4 & U5 & U6 & U7 & U8).
  assert (Ee : ext_payload w2 len wp = (w2, inl (mkTok TUser len, wp))).
  { unfold ext_payload. case_match; [done|]. rewrite ext_none by (rewrite U5, T5; apply I).
    cbn [Z.ltb Z.compare token_len]. change (nz 0) with false. cbn [andb].
    rewrite P2, P1, Hss. by rewrite andb_false_r. }
  rewrite Ee. cbn [tok token_len]. exists w2. split; [done|]. split; [|split; [done|congruence]].
  split; [by etrans|]. split; [congruence|]. split; [congruence|]. split; congruence.
Qed.

Lemma lws_write_ok fuel w mem len wp op w' r mem' `{!RandomOk} : CanWrite w -> wp_opcode wp = Some op ->
  state w = LWSS_ESTABLISHED \/ wp = LWS_WRITE_CLOSE ->
  0 <= len < 2 ^ 31 - 16 -> len + 16 <= zlen mem ->
  lws_write (S fuel) w mem len wp = Some (w', r, mem') -> r <> -1 ->
  exists key, key_of w key /\ TxInv w' /\ state w' = state w /\ (is_raw_wp wp = false -> r = len) /\ 0 <= r /\
    sent w' ++ pending w' = sent w ++
      rfc_frame (first_byte op wp) key (take (Z.to_nat len) (drop (Z.to_nat LWS_PRE) mem)).
Proof.
  intros C Hop Hcl Hl Hmem E Hr.
  destruct (lws_write_frame (S fuel) w mem len wp C (wp_opcode_ws _ _ Hop) Hcl) as (v & Ev & (S1 & M1 & V1 & F1 & _) & Cv & _).
  rewrite Ev in E. clear Ev. destruct C as [I Hst Hrev Ht Hin Hd Hss].
  pose proof S1 as (T1 & T2 & T3 & T4 & T5 & T6 & T7 & T8). destruct (same_trunc_stream _ _ S1) as [E1 E2].
  destruct (write_frame_ok fuel v mem len len wp op w' r mem') as (key & K & Q1 & Q2 & Q3 & Q4 & Q5);
    try done; try lia; try congruence.
  { by apply (same_trunc_inv w). }
  exists key. unfold key_of in *. rewrite M1 in K. split; [done|]. split; [done|].
  split; [congruence|]. split; [done|]. split; [done|]. by rewrite Q5, E1.
Qed.

(** Without extensions one round is enough: the write always gives a result. *)
Lemma lws_write_total fuel w mem len wp op : CanWrite w -> wp_opcode wp = Some op ->
  state w = LWSS_ESTABLISHED \/ wp = LWS_WRITE_CLOSE ->
  exists o, lws_write (S fuel) w mem len wp = Some o.
Proof.
  intros C Hop Hcl.
  destruct (lws_write_frame (S fuel) w mem len wp C (wp_opcode_ws _ _ Hop) Hcl) as (v & -> & (S1 & _) & _).
  assert (Hx : count_act_ext v = 0%nat) by (destruct S1 as (_ & _ & _ & _ & -> & _); apply C).
  assert (Hs : forall u m pre, count_act_ext u = 0%nat -> exists o, send_raw (S fuel) u m pre len len wp = Some o).
  { intros u m pre Hu. unfold send_raw. case_match; [by eexists|].
    unfold lws_issue_raw_ext_access. cbn [issue_raw_ext_loop]. rewrite ext_none by done.
    cbn [Z.ltb Z.compare token_len tok]. change (nz 0) with false. cbn [negb].
    destruct (nz (len + pre)).
    - destruct (lws_issue_raw u _ _) as [u1 n]. destruct (n <? 0); [by eexists|].
      repeat case_match; by eexists.
    - repeat case_match; by eexists. }
  unfold write_frame. rewrite Hop.
  assert (Hm : forall m d u m' ok, do_masking v m len d = (u, m', ok) -> count_act_ext u = 0%nat).
  { intros m d u m' ok E. unfold do_masking, lws_0405_frame_mask_generate in E.
    repeat (case_match; simplify_eq; try done); by destruct v. }
  destruct (ietf_spec_revision v =? 13).
  - destruct (do_masking v _ len _) as [[u m'] ok] eqn:E. destruct ok; [|by eexists].
    destruct (Hs u m' (zlen (frame_header (if nz (wp .& LWS_WRITE_NO_FIN) then op else op .| 128) len
      (if bool_decide (mode v = LWSCM_WS_CLIENT) then 128 else 0)) +
      (if bool_decide (mode v = LWSCM_WS_CLIENT) then 4 else 0)) (Hm _ _ _ _ _ E)) as [[u1 r1] ->]. by eexists.
  - destruct (do_masking v _ len _) as [[u m'] ok] eqn:E. destruct ok; [|by eexists].
    destruct (Hs u m' 0 (Hm _ _ _ _ _ E)) as [[u1 r1] ->]. by eexists.
Qed.

(** ** What a write leaves alone *)

(** Sending touches the sending side, the log, the socket flag and, on a client's
    connection, the key only. *)
Definition tx_only (w w' : lws) : Prop :=
  w' = w {{ tx := tx w'; events := events w'; mask := mask w'; mask_idx := mask_idx w';
            socket_is_permanently_unusable := socket_is_permanently_unusable w' }} /\
  (mode w <> LWSCM_WS_CLIENT -> mask w' = mask w /\ mask_idx w' = mask_idx w).

#[local] Instance tx_only_preorder : PreOrder tx_only.
Proof.
  split; unfold tx_only.
  - intros w. by destruct w.
  - intros x y z [Ey My] [Ez Mz]. assert (Em : mode y = mode x) by (rewrite Ey; by destruct x).
    split; [rewrite Ez, Ey; by destruct x|]. rewrite Em in Mz. intros Hm. destruct (My Hm) as [<- <-]. by apply Mz.
Qed.

Lemma set_tx_only f w : tx_only w (set_tx f w).
Proof. by destruct w. Qed.

Lemma emit_only e w : tx_only w (emit e w).
Proof. by destruct w. Qed.

Lemma handle_truncated_only w data n len : tx_only w (handle_truncated_send w data n len).1.
Proof.
  unfold handle_truncated_send, buffer_rest, lws_callback_on_writable.
  repeat (case_match; simplify_eq; cbn [fst]); try apply set_tx_only; try reflexivity;
    (etrans; [apply set_tx_only|apply emit_only]).
Qed.

Lemma issue_raw_only w p len : count_act_ext w = 0%nat -> tx_only w (lws_issue_raw w p len).1.
Proof.
  intros Hx. unfold lws_issue_raw. case_match; [reflexivity|]. case_match; [reflexivity|].
  case_match; [apply emit_only|]. rewrite ext_none by done. cbn [Z.ltb Z.compare tok].
  change (nz 0) with false. cbn iota. match goal with |- context [socket_write w ?d] => generalize (socket_write w d) end.
  intros r. destruct (r =? LWS_SSL_CAPABLE_ERROR); [by destruct w|].
  generalize (if r =? LWS_SSL_CAPABLE_MORE_SERVICE then 0 else u32 r). intros n.
  etrans; [|apply handle_truncated_only]. destruct (n =? 0); [reflexivity|apply emit_only].
Qed.

Lemma only_noext w w' : tx_only w w' -> count_act_ext w' = count_act_ext w.
Proof. intros [-> _]. by destruct w. Qed.

Lemma only_mode w w' : tx_only w w' -> mode w' = mode w.
Proof. intros [-> _]. by destruct w. Qed.

Lemma only_state w w' : tx_only w w' -> state w' = state w.
Proof. intros [-> _]. by destruct w. Qed.

Lemma send_raw_only fuel w mem pre len orig wp w' r : count_act_ext w = 0%nat ->
  send_raw (S fuel) w mem pre len orig wp = Some (w', r) -> tx_only w w'.
Proof.
  intros Hx. unfold send_raw. set (buf := drop _ mem).
  pose proof (issue_raw_only w (PUser buf) (len + pre) Hx) as Ho.
  case_match; [intros E; injection E as E; by rewrite E in Ho|].
  unfold lws_issue_raw_ext_access. cbn [issue_raw_ext_loop]. rewrite ext_none by done.
  cbn [Z.ltb Z.compare token_len tok]. change (nz 0) with false. cbn [negb].
  assert (Hfin : forall v n, tx_only w v -> (if n <=? 0 then Some (set_tx (fun t => t {{ inside_frame := true }}) v, n)
     else if n =? len + pre then
       Some (set_tx (fun t => t {{ inside_frame := false }}) (set_tx (fun t => t {{ inside_frame := true }}) v), s32 orig)
     else Some (set_tx (fun t => t {{ inside_frame := true }}) v, n - pre)) = Some (w', r) -> tx_only w w').
  { intros v n Hv. etrans; [exact Hv|]. revert H2. repeat case_match; intros E; injection E as <- <-;
      try apply set_tx_only. etrans; apply set_tx_only. }
  destruct (nz (len + pre)); [|apply Hfin; reflexivity].
  destruct (lws_issue_raw w (PUser buf) (len + pre)) as [w1 n]. cbn [fst] in Ho.
  destruct (n <? 0); by apply Hfin.
Qed.

Lemma do_masking_only w mem len d : tx_only w (do_masking w mem len d).1.1.
Proof.
  unfold do_masking, lws_0405_frame_mask_generate. destruct (bool_decide (mode w = LWSCM_WS_CLIENT)) eqn:Em; [|reflexivity].
  apply bool_decide_eq_true in Em. cbn [negb]. destruct (inside_frame (tx w)).
  - change (nz 0) with false. cbn iota. case_match; [reflexivity|]. destruct (mask_loop _ _ _). split; [by destruct w|done].
  - destruct (random4 w); [|reflexivity]. change (nz 0) with false. cbn iota.
    case_match; [split; [by destruct w|done]|]. destruct (mask_loop _ _ _). split; [by destruct w|done].
Qed.

Lemma write_frame_only fuel w mem len orig wp w' r mem' : count_act_ext w = 0%nat ->
  write_frame (S fuel) w mem len orig wp = Some (w', r, mem') -> tx_only w w'.
Proof.
  intros Hx. unfold write_frame.
  assert (Hgo : forall m d pre, (let '(w, mem, ok) := do_masking w m len d in
      if ok : bool then match send_raw (S fuel) w mem pre len orig wp with
                 | Some (w, r) => Some (w, r, mem) | None => None end
      else Some (w, -1, mem)) = Some (w', r, mem') -> tx_only w w').
  { intros m d pre. pose proof (do_masking_only w m len d) as Hd.
    destruct (do_masking w m len d) as [[u m'] ok]. cbn [fst] in Hd.
    destruct ok; [|by intros E; injection E as <- <- <-].
    destruct (send_raw (S fuel) u m' pre len orig wp) as [[u1 r1]|] eqn:E1; [|done].
    intros E; injection E as <- <- <-. etrans; [exact Hd|]. eapply send_raw_only; [|exact E1].
    by rewrite (only_noext _ _ Hd). }
  destruct (ietf_spec_revision w =? 13); [|apply Hgo].
  destruct (wp_opcode wp); [apply Hgo|]. intros E; injection E as <- <- <-. reflexivity.
Qed.

Lemma lws_write_only fuel w mem len wp op w' r mem' : CanWrite w -> wp_opcode wp = Some op ->
  state w = LWSS_ESTABLISHED \/ wp = LWS_WRITE_CLOSE ->
  lws_write (S fuel) w mem len wp = Some (w', r, mem') -> tx_only w w'.
Proof.
  intros C Hop Hst. pose proof C as [I _ _ _ Hin Hd Hss]. unfold lws_write. rewrite Hd, andb_false_r.
  rewrite (wp_opcode_ws _ _ Hop).
  assert (Hr : tx_only w (lws_restart_ws_ping_pong_timer w)).
  { unfold lws_restart_ws_ping_pong_timer. repeat (case_match; [reflexivity|]). apply set_tx_only. }
  pose proof (restart_same w) as (_ & _ & _ & F1 & P1).
  set (w1 := lws_restart_ws_ping_pong_timer w) in *. clearbody w1. unfold write_ws. rewrite F1, Hin.
  case_match; [intros E; by injection E as <- <- <-|].
  assert (H1x : count_act_ext w1 = 0%nat) by (rewrite (only_noext _ _ Hr); apply I).
  set (w2 := set_tx _ w1). assert (H2 : tx_only w1 w2) by apply set_tx_only.
  assert (P2 : stashed_write_pending (tx w2) = false) by (rewrite <- Hss, <- P1; unfold w2; by destruct w1, tx).
  assert (H2x : count_act_ext w2 = 0%nat) by (by rewrite (only_noext _ _ H2)).
  assert (Ee : ext_payload w2 len wp = (w2, inl (mkTok TUser len, wp))).
  { unfold ext_payload. case_match; [done|]. rewrite ext_none by done.
    cbn [Z.ltb Z.compare token_len]. change (nz 0) with false. cbn [andb]. rewrite P2. by rewrite andb_false_r. }
  rewrite Ee. cbn [tok token_len]. intros E. etrans; [exact Hr|]. etrans; [exact H2|].
  by apply (write_frame_only _ _ _ _ _ _ _ _ _ H2x E).
Qed.

End TxFacts.
