(* ===== verification/WsTxProps.v ===== *)
(** * Properties of the writer

    The bytes on the wire are the issued ones whatever the socket accepts when,
    [lws_write] produces RFC 6455 frames, what a client writes a server receives,
    and a stashed PING is answered. *)

From stdpp Require Import relations.
From S2P Require Import Prelude Ws WsRx WsRxFacts WsRxInv WsRxBulk WsRxProps WsTx WsTxFacts.

Section Stream.
Context `{SocketOk}.

(** The life of the sending side: a buffer is issued when nothing is waiting, or
    the socket became writable while something is waiting. *)
Inductive tx_step : lws * bytes -> lws * bytes -> Prop :=
| tx_issue w q b w' r :
    trunc_len (tx w) = 0 -> zlen b < 2 ^ 31 ->
    lws_issue_raw w (PUser b) (zlen b) = (w', r) -> r <> -1 ->
    tx_step (w, q) (w', q ++ b)
| tx_writable w q fuel pollfd w' r :
    trunc_len (tx w) <> 0 ->
    lws_handle_POLLOUT_event fuel w pollfd = Some (w', r) -> r <> -1 ->
    tx_step (w, q) (w', q).

Definition tx_open (w : lws) : Prop := TxInv w /\ state w <> LWSS_FLUSHING_STORED_SEND_BEFORE_CLOSE.

Lemma pollout_flush fuel w pollfd : trunc_len (tx w) <> 0 ->
  lws_handle_POLLOUT_event fuel w pollfd =
  Some (let '(w', n) := lws_issue_raw w PTrunc (trunc_len (tx w)) in (w', if n <? 0 then -1 else 0)).
Proof.
  intros Ht. unfold lws_handle_POLLOUT_event, nz. rewrite (proj2 (Z.eqb_neq _ 0)) by done.
  by destruct (lws_issue_raw w PTrunc _).
Qed.

Lemma tx_step_stream w q w' q' : tx_step (w, q) (w', q') -> tx_open w ->
  sent w ++ pending w = q -> tx_open w' /\ sent w' ++ pending w' = q'.
Proof.
  intros Hs [I Hst] Hq. inversion Hs as [? ? b ? r Ht Hl E Hr|? ? fuel pollfd ? r Ht E Hr]; subst.
  - destruct (issue_raw_ok w (PUser b) (zlen b) w' r) as (Q1 & Q2 & Q3 & Q4 & Q5); try done.
    { split; [done|]. pose proof (zlen_nonneg b). lia. }
    split; [split; [done|congruence]|]. rewrite Q4. cbn [ptr_data]. rewrite take_ge by (unfold zlen; lia).
    unfold pending. rewrite Ht. cbn [Z.to_nat take]. by rewrite app_nil_r.
  - rewrite (pollout_flush _ _ _ Ht) in E. destruct (lws_issue_raw w PTrunc (trunc_len (tx w))) as [w1 n] eqn:Ei.
    injection E as <- <-. destruct (n <? 0) eqn:En; [done|]. zbool.
    destruct (issue_raw_ok w PTrunc (trunc_len (tx w)) w1 n) as (Q1 & Q2 & Q3 & Q4 & Q5); try done; try lia.
    { pose proof (ti_len _ I). lia. }
    split; [split; [done|congruence]|]. by rewrite Q4.
Qed.

(** C2: Nothing is lost, duplicated or reordered on the way to the socket.  However
    the socket behaves (errors end the run; short writes, would-block answers and
    full writes in any order), after any sequence of issued buffers and writable
    events the bytes the socket has taken followed by the bytes still waiting are
    exactly the issued buffers in the order of issue. *)
Theorem tx_stream w0 w q : tx_open w0 -> sent w0 = [] -> trunc_len (tx w0) = 0 ->
  rtc tx_step (w0, []) (w, q) -> sent w ++ pending w = q.
Proof.
  intros Ho Hs Ht Hr.
  assert (Hi : forall x y, rtc tx_step x y -> tx_open x.1 -> sent x.1 ++ pending x.1 = x.2 ->
     tx_open y.1 /\ sent y.1 ++ pending y.1 = y.2).
  { clear w0 w q Ho Hs Ht Hr. intros x y Hr. induction Hr as [x|x y z Hxy Hyz IH]; intros Ho Hq; [done|].
    destruct x as [w q], y as [w' q']. destruct (tx_step_stream _ _ _ _ Hxy Ho Hq) as [Ho' Hq']. by apply IH. }
  apply (Hi _ _ Hr); [done|]. cbn [fst snd]. unfold pending. by rewrite Hs, Ht.
Qed.

(** C29: A truncated send drains: as long as every attempt moves at least one byte,
    after as many writable events as bytes were waiting the buffer is empty and its
    bytes are on the wire, in order. *)
Theorem tx_drains fuel pollfd w : tx_open w ->
  (forall v b, b <> [] -> 0 < socket_write v b) ->
  exists n w', (n <= Z.to_nat (trunc_len (tx w)))%nat /\
    nsteps (fun v v' => trunc_len (tx v) <> 0 /\ lws_handle_POLLOUT_event fuel v pollfd = Some (v', 0)) n w w' /\
    trunc_len (tx w') = 0 /\ sent w' = sent w ++ pending w.
Proof.
  intros Ho Hp. remember (Z.to_nat (trunc_len (tx w))) as k eqn:Ek. revert w Ho Ek.
  induction (lt_wf k) as [k _ IH]. intros w Ho Ek. pose proof (ti_len _ (proj1 Ho)) as Hl.
  destruct (decide (trunc_len (tx w) = 0)) as [Ht|Ht].
  { exists 0%nat, w. split; [lia|]. split; [constructor|]. split; [done|]. unfold pending. rewrite Ht. by rewrite app_nil_r. }
  destruct Ho as [I Hst]. destruct (lws_issue_raw w PTrunc (trunc_len (tx w))) as [w1 n] eqn:Ei.
  assert (Hn : 0 <= n /\ trunc_len (tx w1) < trunc_len (tx w)).
  { revert Ei. unfold lws_issue_raw. rewrite (proj2 (Z.eqb_neq _ 0)), bool_decide_false by done. cbn [andb].
    rewrite andb_false_r, (ext_none _ _ _ (ti_noext _ I)). cbn [Z.ltb Z.compare tok].
    change (nz 0) with false. cbn iota. pose proof (ti_size _ I).
    rewrite u32_small by (unfold LWS_PRE in *; lia).
    set (lim := if _ >? trunc_len (tx w) then _ else _).
    assert (Hlim : 0 < lim <= trunc_len (tx w)).
    { unfold lim. destruct (spill_size w + LWS_PRE + 4 >? trunc_len (tx w)) eqn:Eg; zbool; [rewrite u32_small; lia|].
      unfold LWS_PRE in *. lia. }
    clearbody lim. pose proof (ti_fit _ I Ht) as Hfit. pose proof (ti_off _ I).
    set (data := take (Z.to_nat lim) (ptr_data w PTrunc)).
    assert (Hd : zlen data = lim) by (unfold data, zlen, ptr_data in *; rewrite length_take, length_drop; lia).
    pose proof (socket_ok w data) as Hs. cbv zeta in Hs.
    assert (Hpos : 0 < socket_write w data) by (apply Hp; intros Hz; rewrite Hz in Hd; change (zlen []) with 0 in Hd; lia).
    rewrite !(proj2 (Z.eqb_neq (socket_write w data) _)) by (unfold LWS_SSL_CAPABLE_ERROR, LWS_SSL_CAPABLE_MORE_SERVICE; lia).
    assert (Hs' : 0 < socket_write w data <= lim).
    { destruct Hs as [Hs|[Hs|Hs]]; unfold LWS_SSL_CAPABLE_ERROR, LWS_SSL_CAPABLE_MORE_SERVICE in *; lia. }
    rewrite u32_small by lia. rewrite (proj2 (Z.eqb_neq (socket_write w data) 0)) by lia.
    set (m := socket_write w data) in *. clearbody m. unfold handle_truncated_send.
    set (w2 := emit _ w). replace (tx w2) with (tx w) by (unfold w2; by destruct w).
    unfold nz. rewrite (proj2 (Z.eqb_neq (trunc_len (tx w)) 0)) by done. cbn [negb].
    set (f := fun t : lws_tx => _).
    assert (Ff : trunc_len (tx (set_tx f w2)) = trunc_len (tx w) - m).
    { unfold f, w2. rewrite <- (u32_small (trunc_len (tx w) - m)) by lia. by destruct w, tx. }
    rewrite Ff. assert (Hst2 : state (set_tx f w2) <> LWSS_FLUSHING_STORED_SEND_BEFORE_CLOSE)
      by (unfold w2; by destruct w). rewrite bool_decide_false by done.
    destruct (trunc_len (tx w) - m =? 0) eqn:E0; zbool; intros E; injection E as <- <-; rewrite s32_small by lia.
    all: replace (tx (lws_callback_on_writable (set_tx f w2))) with (tx (set_tx f w2)) by (by destruct (set_tx f w2)).
    all: lia. }
  destruct Hn as [Hn0 Hlt].
  destruct (issue_raw_ok w PTrunc (trunc_len (tx w)) w1 n) as (Q1 & Q2 & Q3 & Q4 & Q5); try done; try lia.
  pose proof (ti_len _ Q1). assert (Ho1 : tx_open w1) by (split; [done|congruence]).
  destruct (IH (Z.to_nat (trunc_len (tx w1))) ltac:(lia) w1 Ho1 eq_refl) as (j & w' & Hj & Hns & He & Hsent).
  exists (S j), w'. split; [lia|]. split; [|split; [done|]].
  - apply nsteps_l with w1; [|done]. split; [done|]. rewrite (pollout_flush _ _ _ Ht), Ei.
    by rewrite (proj2 (Z.ltb_ge n 0)) by done.
  - by rewrite Hsent, Q4.
Qed.

End Stream.

Section Frames.
Context `{SocketOk} `{!RandomOk}.

(** Lws_write produces RFC 6455 frames.  For every write type (text, binary,
    continuation, PING, PONG, CLOSE, with or without LWS_WRITE_NO_FIN) and every
    payload of up to 2 GiB in a buffer with LWS_PRE bytes of headroom the call ends;
    unless it reports an error, what was added to the stream is exactly one frame:
    FIN and opcode, minimal length encoding, for a client a fresh key and the
    payload masked with it, for a server the payload as it is. *)
Lemma write_sends_frame fuel w mem len wp op : CanWrite w -> wp_opcode wp = Some op ->
  state w = LWSS_ESTABLISHED \/ wp = LWS_WRITE_CLOSE -> 0 <= len < 2 ^ 31 - 16 -> len + 16 <= zlen mem ->
  exists w' r mem', lws_write (S fuel) w mem len wp = Some (w', r, mem') /\
    (r = -1 \/ exists key, key_of w key /\ TxInv w' /\ (is_raw_wp wp = false -> r = len) /\
       sent w' ++ pending w' = sent w ++
         rfc_frame (first_byte op wp) key (take (Z.to_nat len) (drop (Z.to_nat LWS_PRE) mem))).
Proof.
  intros C Hop Hst Hl Hmem. destruct (lws_write_total fuel w mem len wp op C Hop Hst) as [[[w' r] mem'] E].
  exists w', r, mem'. split; [done|]. destruct (decide (r = -1)) as [|Hr]; [by left|right].
  destruct (lws_write_ok fuel w mem len wp op w' r mem') as (key & K & Q1 & Q2 & Q3 & Q4 & Q5); try done.
  by exists key.
Qed.

Lemma first_byte_op op wp : data_op op -> first_byte op wp .& 15 = op.
Proof. unfold first_byte. destruct (nz _); by intros [->|[->| ->]]. Qed.

(** A server answers the PING it stashed: when the connection is writable with a
    PING pending and nothing else waiting, the event handler adds one unmasked PONG
    frame with the stashed payload to the stream and clears the pending flag. *)
Lemma pollout_sends_pong fuel w pollfd : CanWrite w -> state w = LWSS_ESTABLISHED ->
  mode w = LWSCM_WS_SERVING -> ping_pending_flag w = true -> payload_is_close w = false ->
  zlen (ping_payload_buf w) = 128 - 3 + LWS_PRE -> 0 <= ping_payload_len w <= 125 ->
  exists w' r, lws_handle_POLLOUT_event (S fuel) w pollfd = Some (w', r) /\
    (r = -1 \/ r = 0 /\ ping_pending_flag w' = false /\
       sent w' ++ pending w' = sent w ++ rfc_frame (128 + LWSWSOPC_PONG) None (ping_stash w)).
Proof.
  intros C Hst Hm Hp Hc Hb Hl. unfold lws_handle_POLLOUT_event.
  rewrite (cw_clear _ C), Hst, Hm, Hp, Hc. change (nz 0) with false.
  rewrite (bool_decide_false (LWSS_ESTABLISHED = LWSS_FLUSHING_STORED_SEND_BEFORE_CLOSE)),
    (bool_decide_false (LWSCM_WS_SERVING = LWSCM_WSCL_ISSUE_HTTP_BODY)) by done.
  cbn [bool_decide andb orb].
  change (bool_decide (LWSS_ESTABLISHED = LWSS_ESTABLISHED) && true) with true. cbn [orb].
  destruct (lws_write_total fuel w (ping_payload_buf w) (ping_payload_len w) LWS_WRITE_PONG LWSWSOPC_PONG C eq_refl (or_introl Hst))
    as [[[w' r] mem'] E]. rewrite E.
  destruct (decide (r = -1)) as [->|Hr]; [cbn [Z.ltb Z.compare]; eexists _, _; split; [done|by left]|].
  destruct (lws_write_ok fuel w (ping_payload_buf w) (ping_payload_len w) LWS_WRITE_PONG LWSWSOPC_PONG w' r mem')
    as (key & K & Q1 & Q2 & Q3 & Q4 & Q5); try done; [by left|lia|unfold LWS_PRE in *; lia|].
  unfold key_of in K. rewrite Hm, bool_decide_false in K by done. subst key. rewrite (proj2 (Z.ltb_ge r 0)) by done.
  pose proof (lws_write_only fuel w _ _ LWS_WRITE_PONG LWSWSOPC_PONG w' r mem' C eq_refl (or_introl Hst) E) as [Ho _].
  assert (Hc' : payload_is_close w' = false) by (rewrite Ho, <- Hc; by destruct w).
  replace (payload_is_close ((w' {{ ping_payload_buf := mem' }}) {{ ping_pending_flag := false }}))
    with false by (rewrite <- Hc'; by destruct w').
  eexists _, 0. split; [done|]. right. split; [done|]. split; [by destruct w'|].
  change (first_byte LWSWSOPC_PONG LWS_WRITE_PONG) with (128 + LWSWSOPC_PONG) in Q5.
  unfold ping_stash. rewrite <- Q5. unfold sent, pending, ptr_data. by destruct w'.
Qed.

(** C3: Round trip: what a client writes a server receives. An established client connection
    with nothing waiting and no extension writes a data frame of less than 2^31 - 16 bytes;
    the call does not fail and the socket has taken all of it (nothing waits afterwards).
    Then a server connection between frames, with no extension and a callback that takes
    what it is given ([TakingCallback]), reads exactly those bytes without an error and
    calls back with exactly the payload, in pieces of its receive buffer size. *)
Theorem client_to_server fuel wc ws mem len wp op wc' r mem' `{!TakingCallback} :
  CanWrite wc -> state wc = LWSS_ESTABLISHED -> mode wc = LWSCM_WS_CLIENT ->
  wp_opcode wp = Some op -> data_op op -> 0 <= len < 2 ^ 31 - 16 -> len + 16 <= zlen mem ->
  lws_write (S fuel) wc mem len wp = Some (wc', r, mem') -> r <> -1 -> pending wc' = [] -> Idle ws ->
  exists wire ws', sent wc' = sent wc ++ wire /\ rx_bytes ws wire = (ws', 0) /\ Idle ws' /\
    calls (events ws') = calls (events ws) ++ map (ECallback LWS_CALLBACK_RECEIVE)
      (deliver (spill_size ws) [] (take (Z.to_nat len) (drop (Z.to_nat LWS_PRE) mem))).
Proof.
  intros C Hst Hm Hop Hd Hl Hmem E Hr Hp Hid.
  destruct (lws_write_ok fuel wc mem len wp op wc' r mem') as (key & K & _ & _ & _ & _ & Q); try done; [by left|].
  unfold key_of in K. rewrite Hm, bool_decide_true in K by done. destruct K as (v & k & -> & Hk).
  destruct (random_ok v k Hk) as [Hk4 _]. rewrite Hp, app_nil_r in Q.
  set (p := take (Z.to_nat len) (drop (Z.to_nat LWS_PRE) mem)) in *.
  assert (Hlp : zlen p < len_limit).
  { unfold p, zlen, LWS_PRE, len_limit in *. rewrite length_take, length_drop. destruct lp64; lia. }
  destruct (rx_frame_masked ws (first_byte op wp) k p Hid) as (ws' & E' & R1 & R2 & R3); try done.
  { by rewrite (first_byte_op op wp Hd). }
  exists (rfc_frame (first_byte op wp) (Some k) p), ws'. done.
Qed.

End Frames.

(** ** Witnesses *)

#[local] Existing Instances demo_env demo_taking.

#[local] Instance demo_socket : SocketOk.
Proof. constructor. intros w b. cbn. pose proof (zlen_nonneg b). right. right. lia. Qed.

#[local] Instance demo_random : RandomOk.
Proof. constructor. intros w m E. injection E as <-. split; [done|by repeat constructor]. Qed.

(** A connection of the demonstration, as a client. *)
Definition demo_client : lws := (demo_wsi 4) {{ mode := LWSCM_WS_CLIENT }}.

Lemma demo_txinv : TxInv (demo_wsi 4).
Proof. by constructor. Qed.

Lemma demo_canwrite : CanWrite (demo_wsi 4).
Proof. constructor; try done; by left. Qed.

Lemma demo_client_canwrite : CanWrite demo_client.
Proof. constructor; try done; by left. Qed.

Lemma tx_stream_witness : exists w, rtc tx_step (demo_wsi 4, []) (w, [1; 2] ++ [3]) /\
  sent w ++ pending w = [1; 2; 3].
Proof.
  set (w1 := (lws_issue_raw (demo_wsi 4) (PUser [1; 2]) 2).1).
  set (w2 := (lws_issue_raw w1 (PUser [3]) 1).1). exists w2.
  assert (Hr : rtc tx_step (demo_wsi 4, []) (w2, [1; 2] ++ [3])).
  { apply rtc_l with (w1, [1; 2]); [|apply rtc_once].
    - by apply (tx_issue (demo_wsi 4) [] [1; 2] w1 2).
    - by apply (tx_issue w1 [1; 2] [3] w2 1). }
  split; [done|]. apply (tx_stream (demo_wsi 4) w2 ([1; 2] ++ [3])); try done.
Defined.

(** A truncated send of three bytes, one of which has gone. *)
Definition demo_trunc : lws := set_tx (fun t => t {{ trunc_alloc := Some [7; 8; 9]; trunc_alloc_len := 3;
  trunc_offset := 1; trunc_len := 2 }}) (demo_wsi 4).

Lemma tx_drains_witness : exists n w', (n <= 2)%nat /\
  nsteps (fun v v' => trunc_len (tx v) <> 0 /\ lws_handle_POLLOUT_event 1 v true = Some (v', 0)) n demo_trunc w' /\
  trunc_len (tx w') = 0 /\ sent w' = [8; 9].
Proof.
  apply (tx_drains 1 true demo_trunc).
  - done.
  - intros v b Hb. cbn. by apply zlen_pos.
Defined.

Lemma write_sends_frame_witness : exists w' r mem',
  lws_write 1 (demo_wsi 4) (replicate 16 0 ++ [104; 105]) 2 LWS_WRITE_TEXT = Some (w', r, mem') /\
  (r = -1 \/ exists key, key_of (demo_wsi 4) key /\ TxInv w' /\ (is_raw_wp LWS_WRITE_TEXT = false -> r = 2) /\
     sent w' ++ pending w' = [] ++ rfc_frame 129 key [104; 105]).
Proof.
  apply (write_sends_frame 0 (demo_wsi 4) (replicate 16 0 ++ [104; 105]) 2 LWS_WRITE_TEXT LWSWSOPC_TEXT_FRAME);
    try done; [apply demo_canwrite|by left].
Defined.

Lemma pollout_sends_pong_witness :
  let w := (demo_wsi 4) {{ ping_pending_flag := true; ping_payload_len := 3 }} in
  exists w' r, lws_handle_POLLOUT_event 1 w true = Some (w', r) /\
    (r = -1 \/ r = 0 /\ ping_pending_flag w' = false /\
       sent w' ++ pending w' = [] ++ rfc_frame (128 + LWSWSOPC_PONG) None [0; 0; 0]).
Proof.
  intros w. apply (pollout_sends_pong 0 w true); try done.
  constructor; try done; by left.
Defined.

Lemma client_to_server_witness :
  let mem := replicate 16 0 ++ [104; 105] in
  exists wc' wire ws', lws_write 1 demo_client mem 2 LWS_WRITE_TEXT = Some wc' /\
    sent wc'.1.1 = wire /\ rx_bytes (demo_wsi 4) wire = (ws', 0) /\
    calls (events ws') = [ECallback LWS_CALLBACK_RECEIVE [104; 105]].
Proof.
  intros mem.
  destruct (lws_write 1 demo_client mem 2 LWS_WRITE_TEXT) as [[[wc' r] mem']|] eqn:E; [|by vm_compute in E].
  destruct (client_to_server 0 demo_client (demo_wsi 4) mem 2 LWS_WRITE_TEXT LWSWSOPC_TEXT_FRAME wc' r mem')
    as (wire & ws' & Es & Er & _ & Ev); try done.
  - apply demo_client_canwrite.
  - by left.
  - vm_compute in E. injection E as _ <- _. done.
  - vm_compute in E. injection E as <- _ _. reflexivity.
  - exists (wc', r, mem'), wire, ws'. split; [done|]. split; [exact Es|]. split; [exact Er|]. rewrite Ev. reflexivity.
Defined.
