(* ===== verification/WsTxHttp.v ===== *)
(** * The writer and HTTP text

    lws_write with the write types of HTTP sends the bytes as they are: what it
    answers, and what becomes of bytes that the socket does not take. *)

From S2P Require Import Prelude Ws WsRx WsRxProps WsTx WsTxFacts WsTxProps.

Section HttpText.
Context `{LwsEnv}.

Definition is_http_wp (wp : Z) : bool :=
  (wp =? LWS_WRITE_HTTP) || (wp =? LWS_WRITE_HTTP_FINAL) || (wp =? LWS_WRITE_HTTP_HEADERS).

Lemma write_http fuel w mem len wp : state w <> LWSS_ESTABLISHED -> is_http_wp wp = true ->
  lws_write fuel w mem len wp =
    let '(w', r) := lws_issue_raw w (PUser (drop (Z.to_nat LWS_PRE) mem)) len in Some (w', r, mem).
Proof.
  intros Hst Hwp. unfold lws_write. rewrite (bool_decide_false (state w = LWSS_ESTABLISHED)) by done. cbn [andb].
  assert (Er : lws_restart_ws_ping_pong_timer w = w).
  { unfold lws_restart_ws_ping_pong_timer. rewrite bool_decide_false by done. by destruct (negb _). }
  rewrite Er. fold (is_http_wp wp). rewrite Hwp. unfold send_raw.
  assert (Hraw : is_raw_wp wp = true).
  { unfold is_http_wp in Hwp. unfold is_raw_wp. by destruct (wp =? LWS_WRITE_HTTP), (wp =? LWS_WRITE_HTTP_FINAL),
      (wp =? LWS_WRITE_HTTP_HEADERS), (wp =? LWS_WRITE_CLOSE). }
  rewrite Hraw. change (LWS_PRE - 0) with LWS_PRE. rewrite Z.add_0_r. by destruct (lws_issue_raw _ _ _).
Qed.

(** The network and the memory never fail. *)
Definition Reliable : Prop :=
  (forall w b, socket_write w b <> LWS_SSL_CAPABLE_ERROR) /\ (forall w n, malloc_ok w n = true).

(** The network or the memory fails in the call that sends [b] on [w]: the socket
    answers the first of the bytes with an error, or there is no memory for the
    bytes it did not take. *)
Definition SendFails (w : lws) (b : bytes) : Prop :=
  (exists n, socket_write w (take n b) = LWS_SSL_CAPABLE_ERROR) \/
  (exists w1 n, (w1 = w \/ exists d, w1 = emit (ESend d) w) /\ malloc_ok w1 (zlen (drop n b)) = false).

Lemma reliable_sends w b : Reliable -> ~ SendFails w b.
Proof. intros [Rs Rm] [[n E]|(w1 & n & _ & E)]; [by apply Rs in E|by rewrite Rm in E]. Qed.

Lemma buffer_rest_fails w b : (buffer_rest w b).2 = false -> malloc_ok w (zlen b) = false.
Proof.
  unfold buffer_rest. destruct (trunc_alloc _) as [old|]; [destruct (_ >? _); [|done]|]; by destruct (malloc_ok w _).
Qed.

(** A buffer of the caller is answered with its length or with an error; with
    nothing waiting, an error means that the network or the memory failed. *)
Lemma issue_user_result w b len : count_act_ext w = 0%nat -> 0 <= len < 2 ^ 31 ->
  let r := (lws_issue_raw w (PUser b) len).2 in
  (r = len \/ r = -1) /\
  (trunc_len (tx w) = 0 -> r = len \/ SendFails w (take (Z.to_nat len) b)) /\
  (trunc_len (tx w) <> 0 -> 0 < len -> lws_issue_raw w (PUser b) len = (emit EAssert w, -1)).
Proof.
  intros I Hl. cbv zeta. unfold lws_issue_raw. destruct (len =? 0) eqn:E0; zbool; [subst; cbn; split_and!; auto; lia|].
  destruct (nz (trunc_len (tx w))) eqn:Ht; zbool; cbn [andb negb].
  { rewrite andb_false_r. cbn. split_and!; auto; lia. }
  destruct (bool_decide _); cbn [andb].
  { cbn. rewrite s32_small by lia. split_and!; auto; lia. }
  rewrite (ext_none _ _ _ I). change (0 <? 0) with false. change (nz 0) with false. cbv iota. cbn [tok ptr_data].
  set (lim := if _ >? len then u32 len else _).
  assert (Hlim : lim <= len) by (unfold lim; destruct (_ >? len) eqn:Eg; zbool; [rewrite u32_small; lia|lia]). clearbody lim.
  destruct (_ =? LWS_SSL_CAPABLE_ERROR) eqn:Ee; zbool.
  { cbn. split_and!; [auto| |lia]. intros _. right. left. exists (Z.to_nat lim). rewrite take_take.
    by replace (Nat.min (Z.to_nat lim) (Z.to_nat len)) with (Z.to_nat lim) by lia. }
  set (n := if _ =? LWS_SSL_CAPABLE_MORE_SERVICE then 0 else _). set (w1 := if n =? 0 then w else _).
  assert (W : tx w1 = tx w) by (unfold w1; destruct (n =? 0); by destruct w).
  assert (W1 : w1 = w \/ exists d, w1 = emit (ESend d) w) by (unfold w1; destruct (n =? 0); eauto).
  unfold handle_truncated_send. rewrite W. unfold nz. rewrite Ht. cbn [negb Z.eqb].
  destruct (n =? len) eqn:E; zbool; [cbn; rewrite E, s32_small by lia; split_and!; auto; lia|].
  pose proof (buffer_rest_fails w1 (drop (Z.to_nat n) (take (Z.to_nat len) b))) as Hb.
  destruct (buffer_rest w1 _) as [w2 ok]. cbn [snd] in Hb. destruct ok; cbn; rewrite ?s32_small by lia; split_and!; auto; try lia.
  intros _. right. right. eexists _, _. split; [exact W1|]. by apply Hb.
Qed.

(** One call of the socket sends what it takes, when the buffer is not too long. *)
Lemma issue_user_eq w b : count_act_ext w = 0%nat -> trunc_len (tx w) = 0 ->
  state w <> LWSS_FLUSHING_STORED_SEND_BEFORE_CLOSE -> 0 < zlen b <= spill_size w + LWS_PRE + 4 -> spill_size w + LWS_PRE + 4 < 2 ^ 32 ->
  0 <= socket_write w b <= zlen b ->
  lws_issue_raw w (PUser b) (zlen b) =
    let n := socket_write w b in
    let w := if n =? 0 then w else emit (ESend (take (Z.to_nat n) b)) w in
    if n =? zlen b then (w, s32 n)
    else let '(w, ok) := buffer_rest w (drop (Z.to_nat n) b) in
         if ok then (lws_callback_on_writable w, s32 (zlen b)) else (w, -1).
Proof.
  intros I Ht Hst Hs Hs2 Hw. unfold lws_issue_raw. rewrite (proj2 (Z.eqb_neq (zlen b) 0)) by lia.
  rewrite Ht, bool_decide_false by done. change (nz 0) with false. cbn [andb negb].
  rewrite (ext_none _ _ _ I). change (0 <? 0) with false. change (nz 0) with false. cbv iota. cbn [tok ptr_data].
  rewrite u32_small by lia.
  assert (En : (if spill_size w + LWS_PRE + 4 >? zlen b then u32 (zlen b) else spill_size w + LWS_PRE + 4) = zlen b).
  { destruct (_ >? _) eqn:E; zbool; [rewrite u32_small; lia|lia]. }
  rewrite En. assert (Eb : take (Z.to_nat (zlen b)) b = b) by (unfold zlen; rewrite Nat2Z.id; apply firstn_all).
  rewrite Eb. set (n := socket_write w b) in *.
  rewrite (proj2 (Z.eqb_neq n LWS_SSL_CAPABLE_ERROR)) by (unfold LWS_SSL_CAPABLE_ERROR; lia).
  rewrite (proj2 (Z.eqb_neq n LWS_SSL_CAPABLE_MORE_SERVICE)) by (unfold LWS_SSL_CAPABLE_MORE_SERVICE; lia).
  rewrite u32_small by lia. cbv zeta. set (w1 := if n =? 0 then w else _).
  assert (W : tx w1 = tx w) by (unfold w1; destruct (n =? 0); by destruct w).
  unfold handle_truncated_send. rewrite W, Ht, Eb. by change (nz 0) with false.
Qed.

(** A socket that takes the buffer leaves nothing waiting. *)
Lemma issue_taken w b : count_act_ext w = 0%nat -> trunc_len (tx w) = 0 ->
  state w <> LWSS_FLUSHING_STORED_SEND_BEFORE_CLOSE -> 0 < zlen b <= spill_size w + LWS_PRE + 4 -> spill_size w + LWS_PRE + 4 < 2 ^ 32 ->
  socket_write w b = zlen b -> trunc_len (tx (lws_issue_raw w (PUser b) (zlen b)).1) = 0.
Proof.
  intros I Ht Hst Hs Hs2 Hw. rewrite issue_user_eq by (done || lia). rewrite Hw. cbv zeta. rewrite Z.eqb_refl.
  destruct (_ =? 0); by destruct w.
Qed.

Lemma buffer_rest_waits w b w' : buffer_rest w b = (w', true) -> trunc_len (tx w') = u32 (zlen b).
Proof. intros E. unfold buffer_rest in E. repeat case_match; simplify_eq; by destruct w. Qed.

(** A socket that takes a part leaves the rest waiting. *)
Lemma issue_partly w b w' r : count_act_ext w = 0%nat -> trunc_len (tx w) = 0 ->
  state w <> LWSS_FLUSHING_STORED_SEND_BEFORE_CLOSE -> 0 < zlen b <= spill_size w + LWS_PRE + 4 -> spill_size w + LWS_PRE + 4 < 2 ^ 32 ->
  0 <= socket_write w b < zlen b -> lws_issue_raw w (PUser b) (zlen b) = (w', r) -> r <> -1 -> trunc_len (tx w') <> 0.
Proof.
  intros I Ht Hst Hs Hs2 Hw E Hr. rewrite issue_user_eq in E by (done || lia). cbv zeta in E.
  rewrite (proj2 (Z.eqb_neq _ (zlen b))) in E by lia.
  destruct (buffer_rest _ _) as [w1 []] eqn:Eb; simplify_eq. apply buffer_rest_waits in Eb.
  replace (tx (lws_callback_on_writable w1)) with (tx w1) by (by destruct w1). rewrite Eb.
  unfold zlen in *. rewrite length_drop, u32_small; lia.
Qed.

(** Only the bytes that are issued matter. *)
Lemma issue_take `{!SocketOk} w b len : count_act_ext w = 0%nat -> 0 <= len < 2 ^ 32 ->
  lws_issue_raw w (PUser b) len = lws_issue_raw w (PUser (take (Z.to_nat len) b)) len.
Proof.
  intros I Hl. unfold lws_issue_raw. destruct (len =? 0); [done|]. destruct (_ && _); [done|]. destruct (_ && _); [done|].
  rewrite (ext_none _ _ _ I). change (0 <? 0) with false. change (nz 0) with false. cbv iota. cbn [tok ptr_data].
  set (lim := if _ >? len then _ else _). assert (Hlim : 0 <= lim <= len).
  { unfold lim. pose proof (wrap_range 32 (spill_size w + LWS_PRE + 4) ltac:(lia)) as Hr. fold (u32 (spill_size w + LWS_PRE + 4)) in Hr.
    destruct (_ >? len) eqn:E; zbool; [rewrite u32_small by lia|]; lia. }
  clearbody lim. assert (T : forall n, 0 <= n <= len -> take (Z.to_nat n) (take (Z.to_nat len) b) = take (Z.to_nat n) b)
    by (intros n Hn; rewrite take_take; f_equal; lia).
  rewrite T by done. pose proof (socket_ok w (take (Z.to_nat lim) b)) as Hs. cbv zeta in Hs. set (r := socket_write _ _) in *.
  destruct (r =? LWS_SSL_CAPABLE_ERROR) eqn:Ee; [done|]. set (n := if r =? _ then 0 else _).
  assert (Hn : 0 <= n <= len).
  { unfold n. destruct (r =? LWS_SSL_CAPABLE_MORE_SERVICE) eqn:E; zbool; [lia|]. destruct Hs as [?|[?|Hs]]; [done..|].
    unfold zlen in Hs. rewrite length_take in Hs. rewrite u32_small; lia. }
  rewrite T by done. unfold handle_truncated_send. by rewrite T by lia.
Qed.

End HttpText.
