(* ===== verification/Close.v ===== *)
(** * Closing a connection (lib/libwebsockets.c, lib/service.c)

    lws_close_free_wsi does not close at once: it may first wait for a truncated send to
    be flushed, for the peer to answer a close frame, or for the peer to end its
    side of the connection, and returns; it is called again when one of these has
    happened or a timeout has passed.  Only the last call tells the user, closes the
    socket and frees the connection.

    [closing] is the connection of [Ws] with the members that only the close path uses.
    The connections that it has opened are its [children], a tree; the lists of the
    service thread are members of [lws], lent to a child while it is closed.  What
    the close path does to the outside is appended to [log], with the number of the
    connection.

    The builds without TLS, CGI, libuv and HTTP/2 are modelled. *)

From S2P Require Import Prelude Ws WsTx.

Module Close.

(** Callback reasons *)
Definition LWS_CALLBACK_CLIENT_CONNECTION_ERROR : Z := 1.
Definition LWS_CALLBACK_CLOSED : Z := 4.
Definition LWS_CALLBACK_CLOSED_HTTP : Z := 5.
Definition LWS_CALLBACK_WSI_DESTROY : Z := 30.
Definition LWS_CALLBACK_CLOSED_CLIENT_HTTP : Z := 45.
Definition LWS_CALLBACK_HTTP_DROP_PROTOCOL : Z := 50.
Definition LWS_CALLBACK_RAW_CLOSE : Z := 60.
Definition LWS_CALLBACK_RAW_CLOSE_FILE : Z := 66.

(** Pending timeouts and close reasons *)
Definition PENDING_TIMEOUT_CLOSE_ACK : Z := 6.
Definition PENDING_FLUSH_STORED_SEND_BEFORE_CLOSE : Z := 12.
Definition PENDING_TIMEOUT_SHUTDOWN_FLUSH : Z := 13.
Definition LWS_CLOSE_STATUS_NOSTATUS : Z := 0.
Definition LWS_CLOSE_STATUS_NOSTATUS_CONTEXT_DESTROY : Z := 9999.

(** What the close path does. *)
Inductive action :=
| AProtocol (reason : Z)       (* wsi->protocol->callback *)
| AVhost (reason : Z)          (* wsi->vhost->protocols[0].callback *)
| AFileClose                   (* lws_vfs_file_close(&wsi->u.http.fop_fd) *)
| AShutdown                    (* shutdown(sockfd, SHUT_WR) *)
| ARemoveFds                   (* remove_wsi_socket_from_fds *)
| ASocketClose                 (* compatible_close *)
| AExtensions                  (* lws_ext_cb_all_exts(LWS_EXT_CB_DESTROY_ANY_WSI_CLOSING) *)
| AFree.                       (* lws_free_wsi *)

Inductive closing := mkClosing {
  cw : lws;
  state_pre_close : lwss;
  told_user_closed : bool;
  already_did_cce : bool;
  user_space : bool;                   (* != NULL *)
  has_protocol : bool;                 (* protocol != NULL *)
  fop_fd : bool;                       (* u.http.fop_fd != NULL *)
  sockfd_valid : bool;                 (* desc.sockfd != LWS_SOCK_INVALID *)
  parent_list : option (list nat);     (* parent->child_list, if there is a parent *)
  children : list closing;             (* child_list *)
  log : list (nat * action)
}.

(** The call returned with the connection alive, or freed it. *)
Inductive outcome := Kept (w : closing) | Freed (w : closing).

(** The first protocol of the vhost; it may change the connection. *)
Class CloseEnv := { vhost_callback : lws -> Z -> lws }.

Definition on_wsi (f : lws -> lws) (w : closing) : closing := w {{ cw ::= f }}.

Definition act (a : action) (w : closing) : closing := w {{ log ::= (fun l => l ++ [(wsi_id (cw w), a)]) }}.

(** LWSCM_FLAG_IMPLIES_CALLBACK_CLOSED_CLIENT_HTTP *)
Definition implies_closed_client_http (m : lwscm) : bool :=
  match m with
  | LWSCM_HTTP_CLIENT | LWSCM_HTTP_CLIENT_ACCEPTED | LWSCM_WSCL_WAITING_CONNECT
  | LWSCM_WSCL_WAITING_PROXY_REPLY | LWSCM_WSCL_ISSUE_HANDSHAKE | LWSCM_WSCL_ISSUE_HANDSHAKE2
  | LWSCM_WSCL_ISSUE_HTTP_BODY | LWSCM_WSCL_WAITING_SSL | LWSCM_WSCL_WAITING_SERVER_REPLY
  | LWSCM_WSCL_WAITING_EXTENSION_CONNECT | LWSCM_WSCL_PENDING_CANDIDATE_CHILD => true
  | _ => false
  end.

Definition lws_remove_child_from_any_parent (w : closing) : closing :=
  match parent_list w with
  | Some l => w {{ parent_list := Some (unlink (wsi_id (cw w)) l) }}
  | None => w
  end.

(** The lists of the thread go to a child and come back with the log. *)
Definition lend (w ch : closing) : closing :=
  on_wsi (fun v => v {{ pt_rx_draining_ext_list := pt_rx_draining_ext_list (cw w);
                        tx ::= (fun t => t {{ pt_tx_draining_ext_list := pt_tx_draining_ext_list (tx (cw w));
                                              pt_timeout_list := pt_timeout_list (tx (cw w)) }}) }})
         ch {{ log := log w }}.

Definition take_back (ch w : closing) : closing := lend ch w.

Section Close.
Context `{LwsEnv} `{CloseEnv}.

(** wsi->protocol->callback; the results are not used. *)
Definition protocol_tell (reason : Z) (w : closing) : option closing :=
  if has_protocol w && has_callback
  then Some (on_wsi (fun v => (protocol_callback v reason []).1) (act (AProtocol reason) w)) else None.

Definition vhost_tell (reason : Z) (w : closing) : closing :=
  on_wsi (fun v => vhost_callback v reason) (act (AVhost reason) w).

Definition lws_close_free_wsi_final (w : closing) : closing :=
  let w := if sockfd_valid w then act ASocketClose w {{ sockfd_valid := false }} else w in
  act AFree (vhost_tell LWS_CALLBACK_WSI_DESTROY w).

(** [async_close:] *)
Definition async_close (w : closing) : outcome :=
  Freed (lws_close_free_wsi_final (on_wsi (fun v => v {{ socket_is_permanently_unusable := true }}) w)).

(** The end of the WebSocket part, when the connection has had one. *)
Definition end_ws (w : closing) : closing :=
  if bool_decide (state_pre_close w = LWSS_ESTABLISHED) || bool_decide (mode (cw w) = LWSCM_WS_SERVING)
     || bool_decide (mode (cw w) = LWSCM_WS_CLIENT) then
    on_wsi (fun v =>
      let v := lws_remove_wsi_from_draining_ext_list v in
      let v := if tx_draining_ext (tx v)
               then set_tx (fun t => t {{ tx_draining_ext := false;
                                          pt_tx_draining_ext_list ::= unlink (wsi_id v) }}) v else v in
      let v := set_tx (fun t => t {{ trunc_alloc := None }}) (v {{ rx_ubuf := [] }}) in
      v {{ ping_payload_len := 0; ping_pending_flag := false }}) w
  else w.

(** Whether the protocol is told LWS_CALLBACK_CLOSED. *)
Definition tells_closed (w : closing) : bool :=
  negb (bool_decide (mode (cw w) = LWSCM_RAW)) && has_protocol w && has_callback &&
  (bool_decide (state_pre_close w = LWSS_ESTABLISHED) ||
   bool_decide (state_pre_close w = LWSS_RETURNED_CLOSE_ALREADY) ||
   bool_decide (state_pre_close w = LWSS_AWAITING_CLOSE_ACK) ||
   bool_decide (state_pre_close w = LWSS_FLUSHING_STORED_SEND_BEFORE_CLOSE) ||
   (bool_decide (mode (cw w) = LWSCM_WS_CLIENT) && bool_decide (state_pre_close w = LWSS_HTTP)) ||
   (bool_decide (mode (cw w) = LWSCM_WS_SERVING) && bool_decide (state_pre_close w = LWSS_HTTP))).

(** "tell the user it's all over for this guy" *)
Definition tell_user (w : closing) : option closing :=
  if tells_closed w then
    w ← (if user_space w then protocol_tell LWS_CALLBACK_HTTP_DROP_PROTOCOL w else Some w);
    protocol_tell LWS_CALLBACK_CLOSED w
  else if bool_decide (mode (cw w) = LWSCM_HTTP_SERVING_ACCEPTED) then Some (vhost_tell LWS_CALLBACK_CLOSED_HTTP w)
  else if (bool_decide (mode (cw w) = LWSCM_WSCL_WAITING_SERVER_REPLY) ||
           bool_decide (mode (cw w) = LWSCM_WSCL_WAITING_CONNECT)) && negb (already_did_cce w)
  then Some (vhost_tell LWS_CALLBACK_CLIENT_CONNECTION_ERROR w)
  else Some w.

(** From "real just_kill_connection" on. *)
Definition real_kill (w : closing) : option outcome :=
  let w := on_wsi lws_remove_from_timeout_list w in
  let w := if sockfd_valid w then act ARemoveFds w else w in
  let w := on_wsi (fun v => v {{ state := LWSS_DEAD_SOCKET; rxflow_buffer := None }}) w in
  let w := end_ws w in
  w ← tell_user w;
  let w := on_wsi (fun v => (lws_ext_cb_active v LWS_EXT_CB_DESTROY (mkTok TNull 0)).1.1) w in
  Some (async_close (act AExtensions w)).

(** [just_kill_connection:] *)
Definition just_kill_connection (w : closing) (reason : Z) : option outcome :=
  let w := lws_remove_child_from_any_parent w in
  if negb (bool_decide (mode (cw w) = LWSCM_RAW)) && negb (bool_decide (state (cw w) = LWSS_SHUTDOWN))
     && negb (bool_decide (state (cw w) = LWSS_CLIENT_UNCONNECTED))
     && negb (reason =? LWS_CLOSE_STATUS_NOSTATUS_CONTEXT_DESTROY)
     && negb (socket_is_permanently_unusable (cw w))
  then
    let w := act AShutdown w in
    let w := on_wsi (fun v => emit (EPollfd LWS_POLLOUT LWS_POLLIN) v {{ state := LWSS_SHUTDOWN }}) w in
    Some (Kept (on_wsi (fun v => lws_set_timeout v PENDING_TIMEOUT_SHUTDOWN_FLUSH (timeout_secs (tx v))) w))
  else real_kill w.

(** The loop that flushes the extensions; [false]: nuke the connection. *)
Fixpoint flush_extensions (fuel : nat) (v : lws) : option (lws * bool) :=
  match fuel with
  | O => None
  | S fuel =>
      let '(v, t, m) := lws_ext_cb_active v LWS_EXT_CB_FLUSH_PENDING_TX (mkTok TNull 0) in
      if m <? 0 then Some (v, false) else
      let '(v, ok) :=
        if nz (token_len t) then
          let '(v, n) := lws_issue_raw v (PUser (match tok t with TExt b => b | _ => [] end)) (token_len t) in
          (v, n =? token_len t)
        else (v, true) in
      if ok then (if nz m then flush_extensions fuel v else Some (v, true)) else Some (v, false)
  end.

(** The close frame, and waiting for the answer to it. *)
Definition send_close (fuel : nat) (w : closing) (reason : Z) : option outcome :=
  if bool_decide (state_pre_close w = LWSS_ESTABLISHED) &&
     (nz (close_in_ping_buffer_len (cw w)) ||
      (negb (reason =? LWS_CLOSE_STATUS_NOSTATUS) && negb (reason =? LWS_CLOSE_STATUS_NOSTATUS_CONTEXT_DESTROY)))
  then
    let w := if nz (close_in_ping_buffer_len (cw w)) then w
             else on_wsi (fun v => v {{ close_in_ping_buffer_len := 2;
                    ping_payload_buf ::= splice (Z.to_nat LWS_PRE) [(reason .>> 8) .& 255; reason .& 255] }}) w in
    '(v, n, mem) ← lws_write fuel (cw w) (ping_payload_buf (cw w)) (close_in_ping_buffer_len (cw w)) LWS_WRITE_CLOSE;
    let w := w {{ cw := v {{ ping_payload_buf := mem }} }} in
    if n >=? 0 then
      Some (Kept (on_wsi (fun v => lws_set_timeout (v {{ state := LWSS_AWAITING_CLOSE_ACK }}) PENDING_TIMEOUT_CLOSE_ACK 1) w))
    else just_kill_connection w reason
  else just_kill_connection w reason.

(** From the callbacks for HTTP on. *)
Definition polite_close (fuel : nat) (w : closing) (reason : Z) : option outcome :=
  if bool_decide (mode (cw w) = LWSCM_WSCL_WAITING_CONNECT) || bool_decide (mode (cw w) = LWSCM_WSCL_ISSUE_HANDSHAKE)
  then just_kill_connection w reason else
  let w := if bool_decide (mode (cw w) = LWSCM_HTTP_SERVING) then
             let w := if user_space w then vhost_tell LWS_CALLBACK_HTTP_DROP_PROTOCOL w else w in
             vhost_tell LWS_CALLBACK_CLOSED_HTTP w {{ told_user_closed := true }}
           else w in
  let w := if implies_closed_client_http (mode (cw w))
           then vhost_tell LWS_CALLBACK_CLOSED_CLIENT_HTTP w {{ told_user_closed := true }} else w in
  let '(v, _, veto) := lws_ext_cb_active (cw w) LWS_EXT_CB_CHECK_OK_TO_REALLY_CLOSE (mkTok TNull 0) in
  let w := w {{ cw := v }} in
  if veto >? 0 then Some (Kept w) else
  flushed ← flush_extensions fuel (cw w);
  let '(v, ok) := (flushed : lws * bool) in
  let w := w {{ cw := v }} in
  if ok then send_close fuel w reason else just_kill_connection w reason.

(** The cases of the state the connection is in. *)
Definition close_by_state (fuel : nat) (w : closing) (reason : Z) : option outcome :=
  let w := w {{ state_pre_close := state (cw w) }} in
  match state_pre_close w with
  | LWSS_DEAD_SOCKET => Some (Kept w)
  | LWSS_AWAITING_CLOSE_ACK => just_kill_connection w reason
  | LWSS_FLUSHING_STORED_SEND_BEFORE_CLOSE =>
      if nz (trunc_len (tx (cw w))) then Some (Kept (on_wsi lws_callback_on_writable w))
      else just_kill_connection w reason
  | _ =>
      if nz (trunc_len (tx (cw w))) then
        Some (Kept (on_wsi (fun v => lws_set_timeout (v {{ state := LWSS_FLUSHING_STORED_SEND_BEFORE_CLOSE }})
                                       PENDING_FLUSH_STORED_SEND_BEFORE_CLOSE 5) w))
      else polite_close fuel w reason
  end.

(** One connection, its children being closed. *)
Definition close_self (fuel : nat) (w : closing) (reason : Z) : option outcome :=
  if bool_decide (mode (cw w) = LWSCM_RAW_FILEDESC) then
    w ← protocol_tell LWS_CALLBACK_RAW_CLOSE_FILE (act ARemoveFds (lws_remove_child_from_any_parent w));
    Some (async_close w)
  else if bool_decide (mode (cw w) = LWSCM_RAW) then
    w ← protocol_tell LWS_CALLBACK_RAW_CLOSE w;
    just_kill_connection (on_wsi (fun v => v {{ socket_is_permanently_unusable := true }}) w) reason
  else
    let w := if bool_decide (mode (cw w) = LWSCM_HTTP_SERVING_ACCEPTED) && fop_fd w then
               vhost_tell LWS_CALLBACK_CLOSED_HTTP (act AFileClose w {{ fop_fd := false }}) {{ told_user_closed := true }}
             else w in
    if socket_is_permanently_unusable (cw w) || (reason =? LWS_CLOSE_STATUS_NOSTATUS_CONTEXT_DESTROY)
       || bool_decide (state (cw w) = LWSS_SHUTDOWN)
    then just_kill_connection w reason
    else close_by_state fuel w reason.

(** The children first: each without a parent and with a dead socket.  A child that is
    not freed is no longer on any list. *)
Fixpoint close_children (close : closing -> option outcome) (chs : list closing) (w : closing) : option closing :=
  match chs with
  | [] => Some w
  | ch :: chs =>
      let ch := on_wsi (fun v => v {{ socket_is_permanently_unusable := true }}) (lend w ch {{ parent_list := None }}) in
      r ← close ch;
      close_children close chs (take_back (match r with Kept ch => ch | Freed ch => ch end) w)
  end.

Fixpoint lws_close_free_wsi (depth fuel : nat) (w : closing) (reason : Z) : option outcome :=
  match depth with
  | O => None
  | S depth =>
      w ← close_children (fun ch => lws_close_free_wsi depth fuel ch reason) (children w) w;
      close_self fuel (w {{ children := [] }}) reason
  end.

(** ** The callers in service.c *)

Definition lws_service_timeout_check (depth fuel : nat) (w : closing) (sec : Z) : option (outcome * Z) :=
  let '(v, _, n) := lws_ext_cb_active (cw w) (LWS_EXT_CB_1HZ sec) (mkTok TNull 0) in
  let w := w {{ cw := v }} in
  if n <? 0 then Some (Kept w, 0) else
  if negb (nz (pending_timeout (cw w))) then Some (Kept w, 0) else
  if sec >? pending_timeout_limit (tx (cw w)) then
    let w := on_wsi (fun v => v {{ socket_is_permanently_unusable := true }}) w in
    let w := if bool_decide (mode (cw w) = LWSCM_WSCL_WAITING_SSL)
             then vhost_tell LWS_CALLBACK_CLIENT_CONNECTION_ERROR w else w in
    r ← lws_close_free_wsi depth fuel w LWS_CLOSE_STATUS_NOSTATUS;
    Some (r, 1)
  else Some (Kept w, 0).

(** The service of a WebSocket connection that can be written to: whether it fails. *)
Definition pollout_fails (fuel : nat) (w : closing) : option (closing * bool) :=
  let s := state (cw w) in
  if bool_decide (s = LWSS_ESTABLISHED) || bool_decide (s = LWSS_HTTP2_ESTABLISHED)
     || bool_decide (s = LWSS_HTTP2_ESTABLISHED_PRE_SETTINGS) || bool_decide (s = LWSS_RETURNED_CLOSE_ALREADY)
     || bool_decide (s = LWSS_FLUSHING_STORED_SEND_BEFORE_CLOSE) then
    '(v, n) ← lws_handle_POLLOUT_event fuel (cw w) true;
    let w := w {{ cw := v }} in
    if nz n then
      Some (if bool_decide (state (cw w) = LWSS_RETURNED_CLOSE_ALREADY)
            then on_wsi (fun v => v {{ state := LWSS_FLUSHING_STORED_SEND_BEFORE_CLOSE }}) w else w, true)
    else Some (w, false)
  else Some (w, false).

Definition service_pollout (depth fuel : nat) (w : closing) : option outcome :=
  '(w, bad) ← pollout_fails fuel w;
  if (bad : bool) then lws_close_free_wsi depth fuel w LWS_CLOSE_STATUS_NOSTATUS else Some (Kept w).

End Close.
End Close.
