(* ===== verification/CloseProps.v ===== *)
(** * How a connection ends

    Whatever happens between the calls of lws_close_free_wsi, a WebSocket connection is
    told that it is closed once, and last; a close that waits has a timer; the children
    of a connection end with it. *)

From S2P Require Import Prelude Ws WsRx WsRxProps WsTx WsTxFacts WsTxProps Close.

Module CloseProps.
Export Close.

(** What the receiver of frames has gathered so far. *)
Definition receiver (w : lws) :=
  (ietf_spec_revision w, lws_rx_parse_state w, (count_act_ext w, rx_draining_ext w), (rx_buffer_size w, pt_serv_buf_size w),
   (rx_ubuf w, rx_ubuf_alloc w, rx_ubuf_head w, rx_packet_length w, mask w, mask_idx w mod 4, opcode w),
   (all_zero_nonce w, this_frame_masked w, final w)).

(** ** What stays the same while a connection is served *)

(** The identity, the mode, the extensions, the state and what was received and not yet
    used; a timer that runs goes on.  (The key of a client is its receiver's too.) *)
Record Core (v v' : lws) : Prop := {
  co_id : wsi_id v' = wsi_id v;
  co_mode : mode v' = mode v;
  co_ext : count_act_ext v' = count_act_ext v;
  co_state : state v' = state v;
  co_timer : pending_timeout v <> 0 -> pending_timeout v' <> 0;
  co_receiver : mode v <> LWSCM_WS_CLIENT -> receiver v' = receiver v;
  co_flow : rxflow_buffer v' = rxflow_buffer v;
  co_pos : rxflow_pos v' = rxflow_pos v
}.

(** The callback of a protocol: it may write, ask to be called when the socket is
    writable, start timers and change flow control. *)
Class ModestCallback `{LwsEnv} : Prop := {
  modest_callback : forall v reason data, Core v (protocol_callback v reason data).1;
  modest_has_callback : has_callback = true
}.

(** The callback of the vhost's first protocol may do the same, and a socket that cannot
    be used any more stays so. *)
Class ModestVhost `{CloseEnv} : Prop := {
  vhost_core : forall v reason, Core v (vhost_callback v reason);
  vhost_unusable : forall v reason, socket_is_permanently_unusable v = true ->
    socket_is_permanently_unusable (vhost_callback v reason) = true
}.

Section Env.
Context `{ModestCallback} `{ModestVhost}.

#[local] Existing Instance tx_only_preorder.

#[local] Instance core_preorder : PreOrder Core.
Proof.
  split; [by constructor|]. intros x y z [? Hm ? ? ? ? ? ?] [? ? ? ? ? Hr ? ?]. rewrite Hm in Hr.
  constructor; try congruence; auto. intros Hc. by rewrite Hr; auto.
Qed.

Lemma only_core v v' : tx_only v v' -> Core v v'.
Proof.
  unfold tx_only. generalize (tx v') (events v') (socket_is_permanently_unusable v'). intros t e u [E M].
  constructor; try (rewrite E; by destruct v). intros Hm. destruct (M Hm) as [M1 M2].
  rewrite M1, M2 in E. rewrite E. by destruct v.
Qed.

Lemma ext_payload_only v len wp : count_act_ext v = 0%nat ->
  exists v' wp', ext_payload v len wp = (v', inl (mkTok TUser len, wp')) /\ tx_only v v'.
Proof.
  intros Hx. unfold ext_payload. destruct (_ || _); [exists v, wp; by split|]. rewrite ext_none by done.
  change (0 <? 0) with false. change (nz 0) with false. cbn [andb token_len]. destruct (_ && _).
  - eexists _, _. split; [reflexivity|apply set_tx_only].
  - exists v, wp. by split.
Qed.

Lemma restart_only v : tx_only v (lws_restart_ws_ping_pong_timer v).
Proof. unfold lws_restart_ws_ping_pong_timer. repeat (case_match; [reflexivity|]). apply set_tx_only. Qed.

(** Without extensions a write touches the sending side only. *)
Lemma write_only fuel v mem len wp v' r mem' : count_act_ext v = 0%nat ->
  lws_write (S fuel) v mem len wp = Some (v', r, mem') -> tx_only v v'.
Proof.
  intros Hx. unfold lws_write. set (d := if _ && _ then _ else _).
  assert (Hd : tx_only v d.1) by (unfold d; case_match; [apply set_tx_only|reflexivity]). destruct d as [v1 wp1]. cbn [fst] in Hd.
  assert (O2 : tx_only v (lws_restart_ws_ping_pong_timer v1)) by (etrans; [exact Hd|apply restart_only]).
  set (v2 := lws_restart_ws_ping_pong_timer v1) in *. clearbody v2. assert (Hx2 : count_act_ext v2 = 0%nat) by (by rewrite (only_noext _ _ O2)).
  intros E. etrans; [exact O2|]. revert E. case_match.
  { destruct (send_raw _ _ _ _ _ _ _) as [[v3 r3]|] eqn:Es; [|done]. intros E. simplify_eq. by apply (send_raw_only _ _ _ _ _ _ _ _ _ Hx2 Es). }
  unfold write_ws. case_match; [intros E; by simplify_eq|]. case_match.
  { pose proof (do_masking_only v2 mem len false) as Hm. destruct (do_masking v2 mem len false) as [[v3 m3] ok]. cbn [fst] in Hm.
    destruct ok; [|intros E; by simplify_eq]. destruct (send_raw _ _ _ _ _ _ _) as [[v4 r4]|] eqn:Es; [|done]. intros E. simplify_eq.
    etrans; [exact Hm|]. eapply send_raw_only; [|exact Es]. by rewrite (only_noext _ _ Hm). }
  set (v3 := set_tx _ v2). assert (O3 : tx_only v2 v3) by apply set_tx_only.
  destruct (ext_payload_only v3 len wp1) as (v4 & wp4 & -> & O4); [by rewrite (only_noext _ _ O3)|]. cbn [tok token_len].
  intros E. etrans; [exact O3|]. etrans; [exact O4|]. eapply write_frame_only; [|exact E].
  by rewrite (only_noext _ _ O4), (only_noext _ _ O3).
Qed.

Lemma rxflow_core v : Core v (lws_rx_flow_control v).1.
Proof.
  unfold lws_rx_flow_control. case_match; [reflexivity|]. case_match; [by destruct v; constructor|]. destruct (if nz _ then _ else _) as [c s].
  case_match; by destruct v; constructor.
Qed.

Lemma callback_core v reason data : Core v (user_callback_handle_rxflow v reason data).1.
Proof.
  unfold user_callback_handle_rxflow, run_callback. set (v1 := emit _ v). pose proof (modest_callback v1 reason data) as C.
  destruct (protocol_callback v1 reason data) as [v2 n]. cbn [fst] in C. transitivity v1; [by destruct v; constructor|]. etrans; [exact C|].
  case_match; [apply rxflow_core|reflexivity].
Qed.

Lemma user_service_core v pollfd : Core v (user_service v pollfd).1.
Proof.
  unfold user_service, lws_calllback_as_writeable. set (d := if pollfd then _ else _).
  assert (Hd : Core v d.1) by (unfold d; destruct pollfd; by destruct v; constructor). destruct d as [v1 bad]. cbn [fst] in Hd.
  etrans; [exact Hd|]. case_match; [reflexivity|]. case_match; [reflexivity|apply callback_core].
Qed.

Lemma user_service_some v pollfd v' r : Some (user_service v pollfd) = Some (v', r) -> Core v v'.
Proof. intros [= E]. pose proof (user_service_core v pollfd) as U. by rewrite E in U. Qed.

(** The service of a connection that can be written to. *)
Lemma pollout_core fuel v pollfd v' r : count_act_ext v = 0%nat ->
  lws_handle_POLLOUT_event (S fuel) v pollfd = Some (v', r) -> Core v v'.
Proof.
  intros Hx. unfold lws_handle_POLLOUT_event. case_match.
  { pose proof (issue_raw_only v PTrunc (trunc_len (tx v)) Hx) as O. destruct (lws_issue_raw _ _ _) as [v1 n]. intros E. simplify_eq. by apply only_core. }
  case_match; [intros E; by simplify_eq|]. case_match; [apply user_service_some|].
  case_match.
  { destruct (lws_write _ _ _ _ _) as [[[v1 n] mem]|] eqn:E; [|done]. apply write_only, only_core in E; [|done].
    case_match; intros E'; simplify_eq; [etrans; [exact E|by destruct v1; constructor]|]. case_match; simplify_eq; (etrans; [exact E|by destruct v1; constructor]). }
  case_match.
  { destruct (lws_write _ _ _ _ _) as [[[v1 n] mem]|] eqn:E; [|done]. apply write_only, only_core in E; [|by destruct v].
    assert (E1 : Core v v1) by (etrans; [|exact E]; by destruct v; constructor). case_match; intros E'; simplify_eq; (etrans; [exact E1|]); [by destruct v1; constructor|].
    unfold lws_set_timeout. change (nz PENDING_TIMEOUT_WS_PONG_CHECK_GET_PONG) with true. cbn [negb andb]. case_match; destruct v1; by constructor. }
  unfold pollout_user. case_match; [apply user_service_some|].
  case_match.
  { destruct (lws_write _ _ _ _ _) as [[[v1 n] mem]|] eqn:E; [|done]. apply write_only, only_core in E; [|done]. intros E'. by simplify_eq. }
  rewrite ext_none by done. change (nz 0) with false. cbv iota. case_match; [apply user_service_some|].
  assert (Es : (if bool_decide (mode v = LWSCM_RAW) || bool_decide (mode v = LWSCM_RAW_FILEDESC) then Some (v, None) else spill_ext_loop (S fuel) v) = Some (v, None)).
  { case_match; [done|]. cbn [spill_ext_loop]. rewrite ext_none by done. done. }
  rewrite Es. intros E%user_service_some. etrans; [|exact E]. by destruct v; constructor.
Qed.

(** ** A WebSocket connection that is not freed *)

Definition live_states : list lwss :=
  [LWSS_ESTABLISHED; LWSS_RETURNED_CLOSE_ALREADY; LWSS_AWAITING_CLOSE_ACK; LWSS_FLUSHING_STORED_SEND_BEFORE_CLOSE].

Record Live (i : nat) (us : bool) (w : closing) : Prop := {
  lv_id : wsi_id (cw w) = i;
  lv_mode : mode (cw w) = LWSCM_WS_SERVING \/ mode (cw w) = LWSCM_WS_CLIENT;
  lv_ext : count_act_ext (cw w) = 0%nat;
  lv_state : state (cw w) ∈ LWSS_SHUTDOWN :: live_states;
  lv_pre : state_pre_close w ∈ LWSS_HTTP :: live_states;
  lv_children : children w = [];
  lv_protocol : has_protocol w = true;
  lv_socket : sockfd_valid w = true;
  lv_user : user_space w = us
}.

(** The last actions for a connection. *)
Definition ending (i : nat) (us : bool) : list (nat * action) :=
  map (pair i) (ARemoveFds :: (if us then [AProtocol LWS_CALLBACK_HTTP_DROP_PROTOCOL] else []) ++
    [AProtocol LWS_CALLBACK_CLOSED; AExtensions; ASocketClose; AVhost LWS_CALLBACK_WSI_DESTROY; AFree]).

Lemma live_tells i us w : Live i us w -> tells_closed w = true.
Proof.
  intros [_ Hm _ _ Hp _ Hpr _ _]. unfold tells_closed. rewrite Hpr, modest_has_callback.
  rewrite (bool_decide_false (mode (cw w) = LWSCM_RAW)) by (destruct Hm; congruence). cbn [negb andb].
  unfold live_states in Hp. rewrite !elem_of_cons in Hp.
  destruct Hp as [Hp|[Hp|[Hp|[Hp|[Hp|Hp]]]]]; [..|by apply not_elem_of_nil in Hp]; rewrite Hp; try done.
  destruct Hm as [Hm|Hm]; by rewrite Hm.
Qed.

(** [f] keeps what [Live] is about, whatever the state becomes. *)
Lemma live_on i us w f : Live i us w -> (forall v, wsi_id (f v) = wsi_id v /\ mode (f v) = mode v /\ count_act_ext (f v) = count_act_ext v) ->
  state (f (cw w)) ∈ LWSS_SHUTDOWN :: live_states -> Live i us (on_wsi f w) /\ log (on_wsi f w) = log w.
Proof.
  intros [H1' H2' H3' H4' H5' H6' H7' H8' H9'] Hf Hs. destruct (Hf (cw w)) as (F1 & F2 & F3). destruct w; cbn in *. split; [|done].
  constructor; cbn; congruence || (by rewrite F2) || done.
Qed.

(** What the last steps depend on: the parts of [Live] with the log. *)
Record Sig (i : nat) (m : lwscm) (pre : lwss) (us so : bool) (l : list (nat * action)) (w : closing) : Prop := {
  sg_id : wsi_id (cw w) = i;
  sg_mode : mode (cw w) = m;
  sg_ext : count_act_ext (cw w) = 0%nat;
  sg_pre : state_pre_close w = pre;
  sg_protocol : has_protocol w = true;
  sg_user : user_space w = us;
  sg_socket : sockfd_valid w = so;
  sg_log : log w = l
}.

Definition keeps (f : lws -> lws) : Prop :=
  forall v, wsi_id (f v) = wsi_id v /\ mode (f v) = mode v /\ count_act_ext (f v) = count_act_ext v.

Lemma sig_at f i m pre us so l w :
  wsi_id (f (cw w)) = wsi_id (cw w) /\ mode (f (cw w)) = mode (cw w) /\ count_act_ext (f (cw w)) = count_act_ext (cw w) ->
  Sig i m pre us so l w -> Sig i m pre us so l (on_wsi f w).
Proof. intros (F1 & F2 & F3) []. constructor; destruct w; rcbn_all; congruence. Qed.

Lemma sig_on f i m pre us so l w : keeps f -> Sig i m pre us so l w -> Sig i m pre us so l (on_wsi f w).
Proof. intros Hf. apply sig_at, Hf. Qed.

Lemma sig_act a i m pre us so l w : Sig i m pre us so l w -> Sig i m pre us so (l ++ [(i, a)]) (act a w).
Proof. intros []. constructor; destruct w; cbn in *; congruence. Qed.

Lemma sig_protocol r i m pre us so l w : Sig i m pre us so l w ->
  exists w', protocol_tell r w = Some w' /\ Sig i m pre us so (l ++ [(i, AProtocol r)]) w'.
Proof.
  intros S. unfold protocol_tell. rewrite (sg_protocol _ _ _ _ _ _ _ S), modest_has_callback. eexists. split; [reflexivity|].
  apply sig_on; [|by apply sig_act]. intros v. by destruct (modest_callback v r []).
Qed.

Lemma sig_vhost r i m pre us so l w : Sig i m pre us so l w -> Sig i m pre us so (l ++ [(i, AVhost r)]) (vhost_tell r w).
Proof. intros S. apply sig_on; [|by apply sig_act]. intros v. by destruct (vhost_core v r). Qed.

(** Closing the socket and freeing. *)
Lemma final_log i m pre us so l w : Sig i m pre us so l w ->
  log (lws_close_free_wsi_final w) = l ++ map (pair i) ((if so then [ASocketClose] else []) ++ [AVhost LWS_CALLBACK_WSI_DESTROY; AFree]).
Proof.
  intros S. unfold lws_close_free_wsi_final. rewrite (sg_socket _ _ _ _ _ _ _ S). set (w1 := if so then _ else w).
  assert (S1 : exists so', Sig i m pre us so' (l ++ map (pair i) (if so then [ASocketClose] else [])) w1).
  { unfold w1. destruct so; [|exists false; by rewrite app_nil_r]. exists false. apply (sig_act ASocketClose) in S.
    destruct S. constructor; destruct w; rcbn_all; congruence. }
  destruct S1 as [so' S1]. apply (sig_vhost LWS_CALLBACK_WSI_DESTROY), (sig_act AFree) in S1. rewrite (sg_log _ _ _ _ _ _ _ S1).
  rewrite map_app, <- !app_assoc. done.
Qed.

Lemma keeps_timeout_list : keeps lws_remove_from_timeout_list.
Proof. intros v. unfold lws_remove_from_timeout_list. case_match; by destruct v. Qed.

Lemma end_ws_sig i m pre us so l w : Sig i m pre us so l w -> Sig i m pre us so l (end_ws w).
Proof.
  intros S. unfold end_ws. case_match; [|done]. apply sig_on; [|done]. intros v.
  unfold lws_remove_wsi_from_draining_ext_list, set_tx. repeat case_match; by destruct v.
Qed.

(** The way from the decision to kill to the end. *)
Definition rest (i : nat) (so : bool) (told : list (nat * action)) : list (nat * action) :=
  map (pair i) (if so then [ARemoveFds] else []) ++ told ++
  map (pair i) (AExtensions :: (if so then [ASocketClose] else []) ++ [AVhost LWS_CALLBACK_WSI_DESTROY; AFree]).

Lemma real_kill_log i m pre us so l w told : Sig i m pre us so l w ->
  (forall v l, Sig i m pre us so l v -> exists v', tell_user v = Some v' /\ Sig i m pre us so (l ++ told) v') ->
  exists w', real_kill w = Some (Freed w') /\ log w' = l ++ rest i so told.
Proof.
  intros S Ht. unfold real_kill, async_close. apply (sig_on _ _ _ _ _ _ _ _ keeps_timeout_list) in S.
  set (w1 := on_wsi lws_remove_from_timeout_list w) in *. clearbody w1.
  set (w2 := if sockfd_valid w1 then _ else w1).
  assert (S2 : Sig i m pre us so (l ++ map (pair i) (if so then [ARemoveFds] else [])) w2).
  { unfold w2. rewrite (sg_socket _ _ _ _ _ _ _ S). destruct so; [by apply sig_act|by rewrite app_nil_r]. }
  clearbody w2. set (w3 := end_ws _).
  assert (S3 : Sig i m pre us so (l ++ map (pair i) (if so then [ARemoveFds] else [])) w3).
  { unfold w3. apply end_ws_sig, sig_on; [|done]. intros v. by destruct v. }
  clearbody w3. destruct (Ht _ _ S3) as (w4 & -> & S4). cbn [mbind option_bind]. eexists. split; [reflexivity|].
  erewrite final_log.
  2: { apply sig_on; [intros v; by destruct v|]. apply sig_act, sig_at; [|exact S4]. by rewrite (ext_none _ _ _ (sg_ext _ _ _ _ _ _ _ S4)). }
  unfold rest. cbn [map]. by rewrite <- !app_assoc.
Qed.

Lemma sig_tells i m pre us so l v w : Sig i m pre us so l v -> mode (cw w) = m -> state_pre_close w = pre -> has_protocol w = true ->
  tells_closed v = tells_closed w.
Proof. intros S E1 E2 E3. unfold tells_closed. by rewrite (sg_mode _ _ _ _ _ _ _ S), (sg_pre _ _ _ _ _ _ _ S), (sg_protocol _ _ _ _ _ _ _ S), E1, E2, E3. Qed.

Lemma live_sig i us w : Live i us w -> Sig i (mode (cw w)) (state_pre_close w) us true (log w) w.
Proof. intros []. by constructor. Qed.

Lemma real_kill_live i us w : Live i us w -> exists w', real_kill w = Some (Freed w') /\ log w' = log w ++ ending i us.
Proof.
  intros L. pose proof (live_sig _ _ _ L) as S.
  destruct (real_kill_log _ _ _ _ _ _ _ (map (pair i) ((if us then [AProtocol LWS_CALLBACK_HTTP_DROP_PROTOCOL] else []) ++ [AProtocol LWS_CALLBACK_CLOSED])) S)
    as (w' & E & El).
  - intros v l Sv. unfold tell_user. rewrite (sig_tells _ _ _ _ _ _ v w Sv), (live_tells _ _ _ L) by (done || apply L).
    rewrite (sg_user _ _ _ _ _ _ _ Sv), map_app, app_assoc. destruct us; cbn [map app].
    + destruct (sig_protocol LWS_CALLBACK_HTTP_DROP_PROTOCOL _ _ _ _ _ _ _ Sv) as (v1 & -> & S1). cbn [mbind option_bind]. by apply sig_protocol.
    + cbn [mbind option_bind]. rewrite app_nil_r. by apply sig_protocol.
  - exists w'. split; [done|]. rewrite El. f_equal. unfold rest, ending. by destruct us.
Qed.

(** A connection that waits has a timer. *)
Definition Waiting (w : closing) : Prop := pending_timeout (cw w) <> 0.

Lemma set_timeout_keeps reason secs : keeps (fun v => lws_set_timeout v reason secs).
Proof. intros v. unfold lws_set_timeout, lws_remove_from_timeout_list. repeat case_match; by destruct v. Qed.

Lemma set_timeout_state v reason secs : state (lws_set_timeout v reason secs) = state v.
Proof. unfold lws_set_timeout, lws_remove_from_timeout_list. repeat case_match; by destruct v. Qed.

Lemma set_timeout_pending v reason secs : pending_timeout (lws_set_timeout v reason secs) = reason.
Proof. unfold lws_set_timeout, lws_remove_from_timeout_list. repeat case_match; by destruct v. Qed.

(** The state is changed and a timer is set. *)
Lemma wait_in (T : Prop) i us w s reason (g : lws -> lws) secs : Live i us w -> s ∈ LWSS_SHUTDOWN :: live_states -> reason <> 0 ->
  keeps g -> state (g (cw w)) = s ->
  let f v := lws_set_timeout (g v) reason (secs v) in
  Live i us (on_wsi f w) /\ log (on_wsi f w) = log w /\ (T -> Waiting (on_wsi f w)).
Proof.
  intros L Hs Hr Hg Es f. destruct (live_on i us w f L) as [L' E].
  - intros v. unfold f. destruct (set_timeout_keeps reason (secs v) (g v)) as (-> & -> & ->). apply Hg.
  - unfold f. by rewrite set_timeout_state, Es.
  - split; [done|]. split; [done|]. intros _. unfold Waiting, f. destruct w. cbn. by rewrite set_timeout_pending.
Qed.

(** The connection is kept, with the log [l] and, given [T], a timer, or freed after [l]. *)
Definition Ends (T : Prop) (i : nat) (us : bool) (l : list (nat * action)) (r : option outcome) : Prop :=
  match r with
  | Some (Kept w) => Live i us w /\ log w = l /\ (T -> Waiting w)
  | Some (Freed w) => log w = l ++ ending i us
  | None => False
  end.

Lemma live_parent i us w : Live i us w -> Live i us (lws_remove_child_from_any_parent w) /\
  log (lws_remove_child_from_any_parent w) = log w /\ cw (lws_remove_child_from_any_parent w) = cw w.
Proof.
  intros L. unfold lws_remove_child_from_any_parent. case_match; [|done]. destruct L. destruct w; split; [|done]. by constructor.
Qed.

Lemma live_act i us a w : Live i us w -> Live i us (act a w) /\ log (act a w) = log w ++ [(i, a)] /\ cw (act a w) = cw w.
Proof. intros L. split; [destruct L; destruct w; by constructor|]. rewrite <- (lv_id _ _ _ L). by destruct w. Qed.

Lemma on_on f g w : on_wsi f (on_wsi g w) = on_wsi (fun v => f (g v)) w.
Proof. by destruct w. Qed.

Definition dead (w : closing) (reason : Z) : bool :=
  socket_is_permanently_unusable (cw w) || (reason =? LWS_CLOSE_STATUS_NOSTATUS_CONTEXT_DESTROY)
  || bool_decide (state (cw w) = LWSS_SHUTDOWN).

Lemma kill_live T i us w reason : Live i us w ->
  Ends T i us (if dead w reason then log w else log w ++ [(i, AShutdown)]) (just_kill_connection w reason) /\
  (dead w reason = true -> exists w', just_kill_connection w reason = Some (Freed w') /\ log w' = log w ++ ending i us).
Proof.
  intros L. destruct (live_parent i us w L) as (L1 & E1 & E2). unfold just_kill_connection.
  set (w1 := lws_remove_child_from_any_parent w) in *. clearbody w1.
  assert (Hc : negb (bool_decide (mode (cw w1) = LWSCM_RAW)) && negb (bool_decide (state (cw w1) = LWSS_SHUTDOWN))
     && negb (bool_decide (state (cw w1) = LWSS_CLIENT_UNCONNECTED))
     && negb (reason =? LWS_CLOSE_STATUS_NOSTATUS_CONTEXT_DESTROY) && negb (socket_is_permanently_unusable (cw w1)) = negb (dead w reason)).
  { unfold dead. rewrite E2, (bool_decide_false (mode (cw w) = LWSCM_RAW)) by (destruct (lv_mode _ _ _ L); congruence).
    rewrite (bool_decide_false (state (cw w) = LWSS_CLIENT_UNCONNECTED)).
    2: { intros E. pose proof (lv_state _ _ _ L) as Hs. rewrite E in Hs. unfold live_states in Hs. set_solver. }
    by destruct (socket_is_permanently_unusable _), (_ =? _), (bool_decide _). }
  rewrite Hc. destruct (dead w reason); cbn [negb].
  - destruct (real_kill_live i us w1 L1) as (w' & -> & El). rewrite E1 in El. split; [exact El|by exists w'].
  - split; [|done]. destruct (live_act i us AShutdown w1 L1) as (L2 & E3 & _). cbn [Ends]. rewrite on_on.
    destruct (wait_in T i us (act AShutdown w1) LWSS_SHUTDOWN PENDING_TIMEOUT_SHUTDOWN_FLUSH
      (fun v => emit (EPollfd LWS_POLLOUT LWS_POLLIN) v {{ state := LWSS_SHUTDOWN }})
      (fun v => timeout_secs (tx (emit (EPollfd LWS_POLLOUT LWS_POLLIN) v {{ state := LWSS_SHUTDOWN }}))) L2) as (L3 & E4 & W); try done.
    + by left.
    + split; [done|]. split; [|done]. by rewrite E4, E3, E1.
Qed.

(** ** Writing returns *)

Lemma send_raw_total fuel v mem pre len orig wp : count_act_ext v = 0%nat -> is_Some (send_raw (S fuel) v mem pre len orig wp).
Proof.
  intros Hx. unfold send_raw. case_match; [done|]. unfold lws_issue_raw_ext_access. cbn [issue_raw_ext_loop]. rewrite ext_none by done.
  change (0 <? 0) with false. change (nz 0) with false. cbn [tok token_len negb]. repeat case_match; done.
Qed.

Lemma masked_total fuel v m len d pre orig wp : count_act_ext v = 0%nat ->
  is_Some (let '(w, mem, ok) := do_masking v m len d in
    if ok : bool then match send_raw (S fuel) w mem pre len orig wp with Some (w, r) => Some (w, r, mem) | None => None end
    else Some (w, -1, mem)).
Proof.
  intros Hx. pose proof (do_masking_only v m len d) as Hk. destruct (do_masking v m len d) as [[v' m'] ok]. cbn [fst] in Hk.
  destruct ok; [|done]. destruct (send_raw_total fuel v' m' pre len orig wp) as [[v2 r2] ->]; [by rewrite (only_noext _ _ Hk)|done].
Qed.

Lemma write_total fuel v mem len wp : count_act_ext v = 0%nat -> is_Some (lws_write (S fuel) v mem len wp).
Proof.
  intros Hx. unfold lws_write. set (d := if _ && _ then _ else _).
  assert (Hd : tx_only v d.1) by (unfold d; case_match; [apply set_tx_only|reflexivity]). destruct d as [v1 wp1]. cbn [fst] in Hd.
  assert (O2 : tx_only v (lws_restart_ws_ping_pong_timer v1)) by (etrans; [exact Hd|apply restart_only]).
  set (v2 := lws_restart_ws_ping_pong_timer v1) in *. clearbody v2. assert (Hx2 : count_act_ext v2 = 0%nat) by (by rewrite (only_noext _ _ O2)).
  case_match; [by destruct (send_raw_total fuel v2 mem 0 len len wp1 Hx2) as [[v3 r3] ->]|].
  unfold write_ws. case_match; [done|]. case_match; [by apply masked_total|].
  set (v3 := set_tx _ v2). assert (O3 : tx_only v2 v3) by apply set_tx_only.
  destruct (ext_payload_only v3 len wp1) as (v4 & wp4 & -> & O4); [by rewrite (only_noext _ _ O3)|]. cbn [tok token_len].
  assert (Hx4 : count_act_ext v4 = 0%nat) by (by rewrite (only_noext _ _ O4), (only_noext _ _ O3)).
  unfold write_frame. case_match; [|by apply masked_total]. case_match; [by apply masked_total|done].
Qed.

(** ** The calls that close *)

Lemma live_wsi i us w v : Live i us w -> Core (cw w) v -> Live i us (w {{ cw := v }}) /\ log (w {{ cw := v }}) = log w.
Proof.
  intros [] []. split; [|by destruct w]. constructor; destruct w; rcbn_all; congruence || (by rewrite co_mode0) || (by rewrite co_state0) || done.
Qed.

(** The log of a call: at most the shutdown before the end. *)
Definition Step (T : Prop) (i : nat) (us : bool) (w : closing) (r : option outcome) : Prop :=
  Ends T i us (log w) r \/ Ends T i us (log w ++ [(i, AShutdown)]) r.

Lemma kill_step T i us w reason : Live i us w -> Step T i us w (just_kill_connection w reason).
Proof. intros L. destruct (kill_live T i us w reason L) as [E _]. unfold Step. destruct (dead w reason); auto. Qed.

Lemma send_close_step T fuel i us w reason : Live i us w -> Step T i us w (send_close (S fuel) w reason).
Proof.
  intros L. unfold send_close. case_match; [|by apply kill_step]. set (w1 := if nz _ then w else _).
  assert (K : Live i us w1 /\ log w1 = log w).
  { unfold w1. case_match; [done|]. apply live_on; [done| |]; [intros v; by destruct v|]. pose proof (lv_state _ _ _ L). by destruct (cw w). }
  destruct K as [L1 E1]. clearbody w1.
  destruct (write_total fuel (cw w1) (ping_payload_buf (cw w1)) (close_in_ping_buffer_len (cw w1)) LWS_WRITE_CLOSE (lv_ext _ _ _ L1)) as [[[v n] mem] Ew].
  rewrite Ew. cbn [mbind option_bind]. apply write_only, only_core in Ew; [|apply L1].
  destruct (live_wsi i us w1 (v {{ ping_payload_buf := mem }}) L1) as [L2 E2]; [etrans; [exact Ew|by destruct v; constructor]|].
  set (w2 := w1 {{ cw := v {{ ping_payload_buf := mem }} }}) in *. clearbody w2.
  case_match.
  - left. rewrite <- E1, <- E2. apply (wait_in T i us w2 LWSS_AWAITING_CLOSE_ACK PENDING_TIMEOUT_CLOSE_ACK (fun v => v {{ state := LWSS_AWAITING_CLOSE_ACK }}) (fun _ => 1)); try done.
    unfold live_states. set_solver.
  - pose proof (kill_step T i us w2 reason L2) as K. unfold Step in *. by rewrite <- E1, <- E2.
Qed.

Lemma polite_step T fuel i us w reason : Live i us w -> Step T i us w (polite_close (S fuel) w reason).
Proof.
  intros L. unfold polite_close. pose proof (lv_mode _ _ _ L) as Hm.
  rewrite !bool_decide_false by (destruct Hm; congruence). cbn [orb].
  assert (Hc : implies_closed_client_http (mode (cw w)) = false) by (by destruct Hm as [->| ->]). rewrite Hc.
  rewrite (ext_none _ _ _ (lv_ext _ _ _ L)). replace (w {{ cw := cw w }}) with w by (by destruct w). change (0 >? 0) with false. cbv iota.
  cbn [flush_extensions]. rewrite (ext_none _ _ _ (lv_ext _ _ _ L)). change (0 <? 0) with false. change (nz 0) with false. cbn [token_len mbind option_bind].
  change (nz 0) with false. cbv iota. cbn [mbind option_bind]. replace (w {{ cw := cw w }}) with w by (by destruct w). by apply send_close_step.
Qed.

Lemma close_by_state_step T fuel i us w reason : Live i us w -> state (cw w) ∈ live_states ->
  (T -> state (cw w) = LWSS_FLUSHING_STORED_SEND_BEFORE_CLOSE -> Waiting w) -> Step T i us w (close_by_state (S fuel) w reason).
Proof.
  intros L Hs Hw. unfold close_by_state. set (w1 := w {{ state_pre_close := state (cw w) }}).
  assert (K : Live i us w1 /\ log w1 = log w /\ cw w1 = cw w /\ state_pre_close w1 = state (cw w)).
  { split; [|by destruct w]. destruct L. unfold w1. destruct w; constructor; try done. by right. }
  destruct K as (L1 & E1 & E2 & E3). clearbody w1. unfold Step. rewrite <- E1.
  assert (Hf : forall s, s = state (cw w1) -> s <> LWSS_FLUSHING_STORED_SEND_BEFORE_CLOSE ->
    Step T i us w1 (if nz (trunc_len (tx (cw w1))) then
        Some (Kept (on_wsi (fun v => lws_set_timeout (v {{ state := LWSS_FLUSHING_STORED_SEND_BEFORE_CLOSE }})
                                       PENDING_FLUSH_STORED_SEND_BEFORE_CLOSE 5) w1))
      else polite_close (S fuel) w1 reason)).
  { intros s _ _. case_match; [|by apply polite_step]. left. apply (wait_in T i us w1 LWSS_FLUSHING_STORED_SEND_BEFORE_CLOSE _
      (fun v => v {{ state := LWSS_FLUSHING_STORED_SEND_BEFORE_CLOSE }}) (fun _ => 5)); try done. unfold live_states. set_solver. }
  rewrite E3. unfold live_states in Hs. rewrite !elem_of_cons in Hs.
  destruct Hs as [Hs|[Hs|[Hs|[Hs|Hs]]]]; [..|by apply not_elem_of_nil in Hs]; rewrite Hs.
  - apply (Hf (state (cw w1))); congruence.
  - apply (Hf (state (cw w1))); congruence.
  - by apply kill_step.
  - case_match; [|by apply kill_step]. left. cbn [Ends].
    destruct (live_on i us w1 lws_callback_on_writable L1) as [L2 El]; [intros v; by destruct v|pose proof (lv_state _ _ _ L1); by destruct (cw w1)|].
    split; [done|]. split; [done|]. intros Ht. specialize (Hw Ht Hs). unfold Waiting in *. rewrite <- E2 in Hw. destruct w1. cbn in *. by destruct cw0.
Qed.

Lemma close_live T depth fuel i us w reason : Live i us w -> (T -> state (cw w) = LWSS_FLUSHING_STORED_SEND_BEFORE_CLOSE -> Waiting w) ->
  Step T i us w (lws_close_free_wsi (S depth) (S fuel) w reason) /\
  (dead w reason = true -> exists w', lws_close_free_wsi (S depth) (S fuel) w reason = Some (Freed w') /\ log w' = log w ++ ending i us).
Proof.
  intros L Hw. pose proof (lv_mode _ _ _ L) as Hm. cbn [lws_close_free_wsi]. rewrite (lv_children _ _ _ L). cbn [close_children mbind option_bind].
  assert (Ew : w {{ children := [] }} = w) by (pose proof (lv_children _ _ _ L) as E; destruct w; cbn in *; by rewrite <- E). rewrite Ew.
  unfold close_self. rewrite !bool_decide_false by (destruct Hm; congruence). cbn [andb]. fold (dead w reason).
  destruct (dead w reason) eqn:Ed.
  - split; [by apply kill_step|]. intros _. by apply (kill_live T i us w reason L).
  - split; [|done]. apply close_by_state_step; try done. unfold dead in Ed. apply orb_false_iff in Ed as [_ Ed].
    apply bool_decide_eq_false in Ed. pose proof (lv_state _ _ _ L) as Hs. apply elem_of_cons in Hs as [Hs|Hs]; [done|exact Hs].
Qed.

(** ** The life of a connection *)

(** What else happens to a connection that is not being freed: frames, writes, errors.
    The state changes only when the peer closes. *)
Record Serviced (v v' : lws) : Prop := {
  se_id : wsi_id v' = wsi_id v;
  se_mode : mode v' = mode v;
  se_ext : count_act_ext v' = count_act_ext v;
  se_state : state v' = state v \/ state v' = LWSS_RETURNED_CLOSE_ALREADY
}.

#[local] Instance serviced_preorder : PreOrder Serviced.
Proof.
  split; [by constructor; auto|]. intros x y z [? ? ? Hy] [? ? ? Hz]. constructor; try congruence.
  destruct Hy, Hz; (by left; congruence) || (right; congruence).
Qed.

Lemma core_serviced v v' : Core v v' -> Serviced v v'.
Proof. intros []. constructor; auto. Qed.

(** The receiver of frames; what flow control has kept aside is not its business. *)
Record Received (v v' : lws) : Prop := {
  rc_id : wsi_id v' = wsi_id v;
  rc_mode : mode v' = mode v;
  rc_ext : count_act_ext v' = count_act_ext v;
  rc_state : state v' = state v \/ state v' = LWSS_RETURNED_CLOSE_ALREADY;
  rc_flow : rxflow_buffer v' = rxflow_buffer v;
  rc_pos : rxflow_pos v' = rxflow_pos v
}.

#[local] Instance received_preorder : PreOrder Received.
Proof.
  split; [by constructor; auto|]. intros x y z [? ? ? Hy ? ?] [? ? ? Hz ? ?]. constructor; try congruence.
  destruct Hy, Hz; (by left; congruence) || (right; congruence).
Qed.

Lemma core_received v v' : Core v v' -> Received v v'.
Proof. intros []. constructor; auto. Qed.

Lemma received_serviced v v' : Received v v' -> Serviced v v'.
Proof. intros []. by constructor. Qed.

Ltac by_fields v := destruct v; constructor; auto.

Lemma drain_received v a d eff : count_act_ext v = 0%nat -> Received v (rx_drain_extension v a d eff).1.
Proof.
  intros Hx. unfold rx_drain_extension, already_done. case_match; [by by_fields v|]. rewrite ext_none by done.
  change (0 <? 0) with false. change (nz 0) with false. cbn [andb]. cbv iota. case_match; [by by_fields v|].
  set (v1 := lws_remove_wsi_from_draining_ext_list v).
  assert (S1 : Received v v1) by (unfold v1, lws_remove_wsi_from_draining_ext_list; case_match; by by_fields v). clearbody v1.
  etrans; [exact S1|]. case_match; [|by by_fields v1]. set (v2 := store_nul v1 eff).
  assert (S2 : Received v1 v2) by (unfold v2, store_nul; case_match; by by_fields v1). clearbody v2. etrans; [exact S2|].
  case_match; [|by by_fields v2]. pose proof (callback_core v2 a (tok_data v2 eff)) as C%core_received.
  destruct (user_callback_handle_rxflow v2 a (tok_data v2 eff)) as [v3 r]. cbn [fst] in *. etrans; [exact C|]. by by_fields v3.
Qed.

Lemma ping_received v : Received v (process_as_ping v).1.
Proof. unfold process_as_ping, ping_drop. case_match; by by_fields v. Qed.

Lemma spill_received v : count_act_ext v = 0%nat -> Received v (rx_spill v).1.
Proof.
  intros Hx. unfold rx_spill. case_match.
  { unfold spill_close. case_match; [reflexivity|]. case_match; [reflexivity|]. case_match; [by by_fields v|].
    pose proof (callback_core v LWS_CALLBACK_WS_PEER_INITIATED_CLOSE (ubuf_data v (rx_ubuf_head v))) as C%core_received.
    destruct (user_callback_handle_rxflow _ _ _) as [v1 n]. cbn [fst] in C. etrans; [exact C|]. case_match; [reflexivity|].
    etrans; [|apply ping_received]. by by_fields v1. }
  case_match; [case_match; [by by_fields v|apply ping_received]|]. case_match.
  { set (v1 := if _ =? _ then _ else v). assert (S1 : Received v v1).
    { unfold v1. case_match; [|reflexivity]. unfold clear_timeout, lws_set_timeout, lws_remove_from_timeout_list. repeat case_match; by by_fields v. }
    etrans; [exact S1|]. apply drain_received. by rewrite (rc_ext _ _ S1). }
  case_match; [by apply drain_received|]. rewrite ext_none by done. by by_fields v.
Qed.

(** A spill after some members have changed. *)
Lemma then_spill v v' : count_act_ext v = 0%nat -> Received v v' -> Received v (rx_spill v').1.
Proof. intros Hx S. etrans; [exact S|]. apply spill_received. by rewrite (rc_ext _ _ S). Qed.

Lemma first_received v c : Received v (handle_first v c).1.
Proof. unfold handle_first. repeat case_match; by by_fields v. Qed.

Lemma hdr_len_received v c : count_act_ext v = 0%nat -> Received v (hdr_len v c).1.
Proof.
  intros Hx. unfold hdr_len. case_match; [case_match; by by_fields v|]. case_match; [case_match; by by_fields v|].
  case_match; [by by_fields v|]. case_match; [by by_fields v|]. apply then_spill; [done|]. by by_fields v.
Qed.

Lemma ext_len_received v c : Received v (ext_len v c).1.
Proof.
  assert (A : forall f, Received v (after_len (v {{ rx_packet_length ::= f }})).1) by (intros; by by_fields v).
  assert (B : forall d sh n, Received v (len64_byte d sh n v c).1) by (intros; unfold len64_byte; case_match; by by_fields v).
  unfold ext_len. case_match; auto; [by by_fields v|]. case_match; [reflexivity|by by_fields v].
Qed.

Lemma frame_key_received v c : count_act_ext v = 0%nat -> Received v (frame_key v c).1.
Proof.
  intros Hx. assert (A : Received v (frame_key_4 v c).1).
  { unfold frame_key_4. case_match; [apply then_spill; [done|]; by by_fields v|by by_fields v]. }
  unfold frame_key. case_match; try exact A; by by_fields v.
Qed.

Lemma payload_received v c : count_act_ext v = 0%nat -> Received v (payload v c).1.
Proof.
  intros Hx. unfold payload. case_match; [by apply drain_received|]. case_match; [reflexivity|].
  assert (A : Received v (payload_byte v c)) by (unfold payload_byte; case_match; by by_fields v).
  set (v1 := payload_byte v c) in *. clearbody v1. case_match; [apply then_spill; [done|]; etrans; [exact A|]; by by_fields v1|].
  case_match; [done|by apply then_spill].
Qed.

Lemma rx_sm_received v c : count_act_ext v = 0%nat -> Received v (lws_rx_sm v c).1.
Proof.
  intros Hx. unfold lws_rx_sm. case_match; [reflexivity|].
  case_match; try apply first_received; try apply ext_len_received; try (by apply hdr_len_received);
    try (by apply frame_key_received); try (by apply payload_received); try (by by_fields v).
  case_match; [|case_match; [|reflexivity]; etrans; [|apply first_received]; by by_fields v].
  assert (S1 : Received v (lws_remove_wsi_from_draining_ext_list v)) by (unfold lws_remove_wsi_from_draining_ext_list; case_match; by by_fields v).
  etrans; [exact S1|]. apply drain_received. by rewrite (rc_ext _ _ S1).
Qed.

(** A packet from the peer. *)
Lemma packet_serviced fuel : forall v buf v' m, count_act_ext v = 0%nat ->
  lws_interpret_incoming_packet fuel v buf = Some (v', m) -> Serviced v v'.
Proof.
  induction fuel as [|fuel IH]; intros v buf v' m Hx; [done|]. cbn [lws_interpret_incoming_packet]. destruct buf as [|c buf]; [intros E; by simplify_eq|].
  assert (Hgo : forall u c buf, Serviced v u -> (let '(w, m) := lws_rx_sm u c in
    if m <? 0 then Some (w, -1) else lws_interpret_incoming_packet fuel w buf) = Some (v', m) -> Serviced v v').
  { intros u d b S. pose proof (rx_sm_received u d) as R. destruct (lws_rx_sm u d) as [u1 m1]. cbn [fst] in R.
    assert (Hu : count_act_ext u = 0%nat) by (by rewrite (se_ext _ _ S)). specialize (R Hu). apply received_serviced in R.
    case_match; intros E; [simplify_eq; by etrans|]. etrans; [exact S|]. etrans; [exact R|]. eapply IH; [|exact E]. by rewrite (se_ext _ _ R). }
  case_match.
  { intros E. simplify_eq. unfold lws_rxflow_cache. repeat case_match; try reflexivity. by by_fields v. }
  case_match; [by apply Hgo|]. set (v1 := match rxflow_buffer v with Some _ => _ | None => v end).
  assert (S1 : Serviced v v1) by (unfold v1; case_match; [by by_fields v|reflexivity]). clearbody v1.
  set (d := if bool_decide _ then _ else (v1, c :: buf)).
  assert (S2 : Serviced v1 d.1).
  { unfold d. case_match; [|reflexivity]. unfold lws_payload_until_length_exhausted. cbv zeta.
    set (avail := if _ >? zlen _ then _ else _). clearbody avail.
    destruct (avail <=? 1); [case_match; by by_fields v1|]. destruct (all_zero_nonce v1); cbv iota beta; case_match; by by_fields v1. }
  destruct d as [v2 b2]. cbn [fst] in S2. destruct b2 as [|c2 b2]; [intros E; simplify_eq; by etrans|]. apply Hgo. by etrans.
Qed.

(** A call of the close function, for whatever reason, a check of the timers, a writable
    socket, a packet (the connection is closed when the receiver refuses it), or another
    service. *)
Inductive step (w : closing) : outcome -> Prop :=
| step_close depth fuel reason r :
    lws_close_free_wsi (S depth) (S fuel) w reason = Some r -> step w r
| step_timeout depth fuel sec r n :
    lws_service_timeout_check (S depth) (S fuel) w sec = Some (r, n) -> step w r
| step_pollout depth fuel r :
    service_pollout (S depth) (S fuel) w = Some r -> step w r
| step_packet depth fuel buf v m r :
    lws_interpret_incoming_packet fuel (cw w) buf = Some (v, m) ->
    (if m <? 0 then lws_close_free_wsi (S depth) (S fuel) (w {{ cw := v }}) LWS_CLOSE_STATUS_NOSTATUS
     else Some (Kept (w {{ cw := v }}))) = Some r -> step w r
| step_other v : Serviced (cw w) v -> step w (Kept (w {{ cw := v }})).

Inductive reaches (w0 : closing) : outcome -> Prop :=
| reaches_start : reaches w0 (Kept w0)
| reaches_step w r : reaches w0 (Kept w) -> step w r -> reaches w0 r.

(** What is known of a connection and its log on the way. *)
Definition Told (i : nat) (us : bool) (r : outcome) : Prop :=
  match r with
  | Kept w => Live i us w /\ exists k, log w = replicate k (i, AShutdown)
  | Freed w => exists k, log w = replicate k (i, AShutdown) ++ ending i us
  end.

Lemma step_told i us w r k : Live i us w -> log w = replicate k (i, AShutdown) -> Step False i us w (Some r) -> Told i us r.
Proof.
  intros L E [S|S]; rewrite E in S.
  - destruct r as [w'|w']; cbn in *; [split; [apply S|]|]; exists k; [apply S|exact S].
  - change [(i, AShutdown)] with (replicate 1 (i, AShutdown)) in S. rewrite <- replicate_add in S.
    destruct r as [w'|w']; cbn in *; [split; [apply S|]|]; exists (k + 1)%nat; [apply S|exact S].
Qed.

Lemma close_told depth fuel i us w reason r k : Live i us w -> log w = replicate k (i, AShutdown) ->
  lws_close_free_wsi (S depth) (S fuel) w reason = Some r -> Told i us r.
Proof.
  intros L E Ec. destruct (close_live False depth fuel i us w reason L) as [S _]; [done|]. rewrite Ec in S. by apply (step_told i us w r k).
Qed.

Lemma on_told i us w f k : Live i us w -> log w = replicate k (i, AShutdown) -> keeps f ->
  state (f (cw w)) ∈ LWSS_SHUTDOWN :: live_states -> Live i us (on_wsi f w) /\ log (on_wsi f w) = replicate k (i, AShutdown).
Proof. intros L E Hf Hs. destruct (live_on i us w f L Hf Hs) as [L' ->]. done. Qed.

Lemma timeout_told depth fuel i us w sec r n k : Live i us w -> log w = replicate k (i, AShutdown) ->
  lws_service_timeout_check (S depth) (S fuel) w sec = Some (r, n) -> Told i us r.
Proof.
  intros L E. unfold lws_service_timeout_check. rewrite (ext_none _ _ _ (lv_ext _ _ _ L)).
  replace (w {{ cw := cw w }}) with w by (by destruct w). change (0 <? 0) with false. cbv iota.
  assert (K : Told i us (Kept w)) by (split; [done|by exists k]).
  case_match; [intros Eq; by simplify_eq|]. case_match; [|intros Eq; by simplify_eq].
  set (w1 := on_wsi _ w). destruct (on_told i us w (fun v => v {{ socket_is_permanently_unusable := true }}) k L E) as [L1 E1];
    [intros v; by destruct v|pose proof (lv_state _ _ _ L); by destruct (cw w)|]. fold w1 in L1, E1. clearbody w1.
  rewrite bool_decide_false by (destruct (lv_mode _ _ _ L1); congruence).
  destruct (lws_close_free_wsi _ _ _ _) as [r1|] eqn:Ec; [|done]. cbn [mbind option_bind]. intros Eq. simplify_eq.
  by apply (close_told depth fuel i us w1 LWS_CLOSE_STATUS_NOSTATUS r k).
Qed.

Lemma pollout_told depth fuel i us w r k : Live i us w -> log w = replicate k (i, AShutdown) ->
  service_pollout (S depth) (S fuel) w = Some r -> Told i us r.
Proof.
  intros L E. unfold service_pollout, pollout_fails. assert (K : Told i us (Kept w)) by (split; [done|by exists k]).
  case_match; [|intros [= <-]; exact K].
  destruct (lws_handle_POLLOUT_event (S fuel) (cw w) true) as [[v n]|] eqn:Ep; [|done]. cbn [mbind option_bind].
  apply pollout_core in Ep; [|apply L]. destruct (live_wsi i us w v L Ep) as [L1 E1]. set (w1 := w {{ cw := v }}) in *. clearbody w1.
  rewrite E in E1. case_match; cbn [mbind option_bind]; [|intros Eq; simplify_eq; split; [done|by exists k]].
  set (w2 := if (_ : bool) then _ else w1).
  assert (K2 : Live i us w2 /\ log w2 = replicate k (i, AShutdown)).
  { unfold w2. case_match; [|done]. apply on_told; try done.
    replace (state _) with LWSS_FLUSHING_STORED_SEND_BEFORE_CLOSE by (by destruct (cw w1)). unfold live_states. set_solver. }
  destruct K2 as [L2 E2]. clearbody w2. intros Ec. by apply (close_told depth fuel i us w2 LWS_CLOSE_STATUS_NOSTATUS r k).
Qed.

Lemma other_live i us w v : Live i us w -> Serviced (cw w) v -> Live i us (w {{ cw := v }}).
Proof.
  intros [L1 L2 L3 L4 L5 L6 L7 L8 L9] [Hi Hm Hx Hs]. constructor; destruct w; rcbn_all; try congruence; try done.
  destruct Hs as [->| ->]; [done|]. unfold live_states. set_solver.
Qed.

Lemma other_told i us w v k : Live i us w -> log w = replicate k (i, AShutdown) -> Serviced (cw w) v ->
  Live i us (w {{ cw := v }}) /\ log (w {{ cw := v }}) = replicate k (i, AShutdown).
Proof. intros L E S. split; [by apply other_live|by destruct w]. Qed.

(** C8: a WebSocket connection is told once that it is closed, and last.  Whatever calls of
    lws_close_free_wsi, expired timers, writable sockets, frames and errors follow each
    other, while the connection is alive the protocol is told nothing of its end; the
    call that frees it takes it out of the poll table, tells LWS_CALLBACK_CLOSED
    exactly once (after the drop of the protocol, if there is user data), then closes
    the socket, tells LWS_CALLBACK_WSI_DESTROY and frees, in this order.  The callback of
    the protocol may write, change flow control and start timers meanwhile. *)
Theorem closed_once i us w0 r : Live i us w0 -> log w0 = [] -> reaches w0 r -> Told i us r.
Proof.
  intros L0 E0. induction 1 as [|w r _ IH Hs].
  - split; [done|]. by exists 0%nat.
  - destruct IH as (L & k & E). destruct Hs as [depth fuel reason r Ec|depth fuel sec r n Et|depth fuel r Ep|depth fuel buf v m r Ep Er|v Ho].
    + by apply (close_told depth fuel i us w reason r k).
    + by apply (timeout_told depth fuel i us w sec r n k).
    + by apply (pollout_told depth fuel i us w r k).
    + pose proof (packet_serviced fuel _ _ _ _ (lv_ext _ _ _ L) Ep) as S. destruct (other_told i us w v k L E S) as [L1 E1].
      revert Er. case_match; intros Er; [by apply (close_told depth fuel i us (w {{ cw := v }}) LWS_CLOSE_STATUS_NOSTATUS r k)|].
      simplify_eq. split; [done|by exists k].
    + destruct (other_told i us w v k L E Ho) as [L1 E1]. split; [done|by exists k].
Qed.

(** C9: a close comes to its end. A call of lws_close_free_wsi on a WebSocket connection
    without extensions and children, which is not already flushing before its close without
    a timer, returns; it has freed the connection, or the connection waits, for a flush, for
    the peer's close or for the end of its data, with a timer running, and the first check
    after the limit of the timer frees it, whatever it waits for. (The excepted state can be
    reached: [close_gaps].) The callbacks may write, change flow control and start timers
    ([ModestCallback], [ModestVhost]). *)
Theorem close_completes depth fuel i us w reason : Live i us w ->
  (state (cw w) = LWSS_FLUSHING_STORED_SEND_BEFORE_CLOSE -> Waiting w) ->
  exists r, lws_close_free_wsi (S depth) (S fuel) w reason = Some r /\
    match r with
    | Freed _ => True
    | Kept w' => Waiting w' /\ forall sec, pending_timeout_limit (tx (cw w')) < sec ->
        exists w'', lws_service_timeout_check (S depth) (S fuel) w' sec = Some (Freed w'', 1) /\ log w'' = log w' ++ ending i us
    end.
Proof.
  intros L Hw. destruct (close_live True depth fuel i us w reason L (fun _ => Hw)) as [S _].
  destruct (lws_close_free_wsi (Datatypes.S depth) (Datatypes.S fuel) w reason) as [r|]; [|by destruct S]. exists r. split; [done|].
  destruct r as [w'|w']; [|done]. assert (K : Live i us w' /\ Waiting w') by (destruct S as [(? & _ & ?)|(? & _ & ?)]; auto).
  destruct K as [L1 W]. split; [done|]. intros sec Hsec. unfold lws_service_timeout_check. rewrite (ext_none _ _ _ (lv_ext _ _ _ L1)).
  replace (w' {{ cw := cw w' }}) with w' by (by destruct w'). change (0 <? 0) with false. cbv iota.
  unfold nz. rewrite (proj2 (Z.eqb_neq _ 0)) by exact W. cbn [negb]. replace (sec >? _) with true by lia.
  set (w1 := on_wsi _ w').
  destruct (live_on i us w' (fun v => v {{ socket_is_permanently_unusable := true }}) L1) as [L2 E2];
    [intros v; by destruct v|pose proof (lv_state _ _ _ L1); by destruct (cw w')|]. fold w1 in L2, E2.
  assert (Hd : dead w1 LWS_CLOSE_STATUS_NOSTATUS = true) by (unfold dead, w1; destruct w'; cbn; by destruct cw0).
  clearbody w1. rewrite bool_decide_false by (destruct (lv_mode _ _ _ L2); congruence).
  destruct (close_live False depth fuel i us w1 LWS_CLOSE_STATUS_NOSTATUS L2 ltac:(done)) as [_ F2]. destruct (F2 Hd) as (w'' & -> & El).
  cbn [mbind option_bind]. exists w''. split; [done|]. by rewrite El, E2.
Qed.

End Env.

(** ** A connection for the witnesses *)

#[local] Existing Instances demo_env.

#[local] Instance demo_modest : ModestCallback.
Proof. split; [|done]. intros v reason data. cbn. destruct (_ || _); constructor; by destruct v. Qed.

(** A vhost that takes everything. *)
#[local] Instance demo_vhost : CloseEnv := { vhost_callback v _ := v }.

#[local] Instance demo_modest_vhost : ModestVhost.
Proof. by constructor. Qed.

Definition demo_closing (v : lws) (chs : list closing) : closing :=
  mkClosing v LWSS_HTTP false false true true false true None chs [].

Lemma demo_live : Live 1 true (demo_closing (demo_wsi 4) []).
Proof. constructor; try done; cbn; unfold live_states; [by left|set_solver..]. Qed.

(** The log of a result. *)
Definition outcome_log (r : outcome) : list (nat * action) := match r with Kept w | Freed w => log w end.

Definition forced (r : option outcome) : outcome := default (Kept (demo_closing (demo_wsi 4) [])) r.
Definition kept (r : outcome) : closing := match r with Kept w | Freed w => w end.

(** A close with reason 1000, the answer of the peer, then silence until the timer expires. *)
Definition demo_asked : closing := kept (forced (lws_close_free_wsi 1 1 (demo_closing (demo_wsi 4) []) 1000)).
Definition demo_packet : lws * Z :=
  default (cw demo_asked, 0) (lws_interpret_incoming_packet 9 (cw demo_asked) [136; 130; 1; 2; 3; 4; 2; 234]).
Definition demo_answered : closing :=
  kept (forced (lws_close_free_wsi 1 9 (demo_asked {{ cw := demo_packet.1 }}) LWS_CLOSE_STATUS_NOSTATUS)).
Definition demo_end : outcome * Z := default (Kept demo_answered, 0) (lws_service_timeout_check 1 1 demo_answered 100).

Lemma closed_once_witness :
  reaches (demo_closing (demo_wsi 4) []) demo_end.1 /\ Told 1 true demo_end.1 /\
  outcome_log demo_end.1 = (1%nat, AShutdown) :: ending 1 true.
Proof.
  assert (R : reaches (demo_closing (demo_wsi 4) []) demo_end.1).
  { apply (reaches_step _ demo_answered).
    - apply (reaches_step _ demo_asked).
      + apply (reaches_step _ (demo_closing (demo_wsi 4) [])); [constructor|].
        apply (step_close _ 0 0 1000). vm_compute. reflexivity.
      + apply (step_packet _ 0 8 [136; 130; 1; 2; 3; 4; 2; 234] demo_packet.1 demo_packet.2); vm_compute; reflexivity.
    - apply (step_timeout _ 0 0 100 _ demo_end.2). vm_compute. reflexivity. }
  split; [exact R|]. split; [|by vm_compute].
  apply (closed_once 1 true (demo_closing (demo_wsi 4) [])); [apply demo_live|reflexivity|exact R].
Defined.

Lemma close_completes_witness :
  exists r, lws_close_free_wsi 1 1 (demo_closing (demo_wsi 4) []) 1000 = Some r /\
    match r with
    | Freed _ => True
    | Kept w' => Waiting w' /\ forall sec, pending_timeout_limit (tx (cw w')) < sec ->
        exists w'', lws_service_timeout_check 1 1 w' sec = Some (Freed w'', 1) /\ log w'' = log w' ++ ending 1 true
    end.
Proof. apply (close_completes 0 0 1 true (demo_closing (demo_wsi 4) []) 1000); [apply demo_live|done]. Defined.

End CloseProps.
