(* ===== verification/CloseTree.v ===== *)
(** * The children of a connection end with it

    A connection that was opened on behalf of another one is its child.  Closing a
    connection frees all that hang on it, each once and after its own children,
    whatever their modes and states and whether the connection itself is kept. *)

From S2P Require Import Prelude Ws WsRx WsRxProps WsTx WsTxFacts WsTxProps Close CloseProps.

Module CloseTree.
Import CloseProps.

(** The connections that were freed, in order. *)
Definition is_free (x : nat * action) : bool := match x.2 with AFree => true | _ => false end.
Definition frees (l : list (nat * action)) : list nat := map fst (List.filter is_free l).

Arguments frees : simpl never.

Lemma frees_app l l' : frees (l ++ l') = frees l ++ frees l'.
Proof. unfold frees. by rewrite List.filter_app, map_app. Qed.

(** A connection and all that hangs on it, the children first. *)
Fixpoint post (w : closing) : list nat :=
  match w with mkClosing v _ _ _ _ _ _ _ _ chs _ => concat (map post chs) ++ [wsi_id v] end.

Fixpoint height (w : closing) : nat :=
  match w with mkClosing _ _ _ _ _ _ _ _ _ chs _ => S (list_max (map height chs)) end.

(** Every connection of the tree has a protocol and no extensions. *)
Fixpoint sound (w : closing) : Prop :=
  match w with
  | mkClosing v _ _ _ _ hp _ _ _ chs _ =>
      hp = true /\ count_act_ext v = 0%nat /\ (fix all l := match l with [] => True | x :: l => sound x /\ all l end) chs
  end.

Lemma post_eq w : post w = concat (map post (children w)) ++ [wsi_id (cw w)].
Proof. by destruct w. Qed.

Lemma height_eq w : height w = S (list_max (map height (children w))).
Proof. by destruct w. Qed.

Lemma sound_eq w : sound w <-> has_protocol w = true /\ count_act_ext (cw w) = 0%nat /\ Forall sound (children w).
Proof.
  destruct w as [v pre told cce us hp fop so par chs lg]. cbn. split; intros (H1 & H2 & H3); (split; [done|split; [done|]]).
  - induction chs as [|x chs IH]; [constructor|]. destruct H3 as [Hx H3]. constructor; auto.
  - induction H3; auto.
Qed.

Section Tree.
Context `{ModestCallback} `{ModestVhost}.

(** A connection in the middle of being closed. *)
Record Node (i : nat) (cs : list closing) (fr : list nat) (w : closing) : Prop := {
  nd_id : wsi_id (cw w) = i;
  nd_ext : count_act_ext (cw w) = 0%nat;
  nd_protocol : has_protocol w = true;
  nd_children : children w = cs;
  nd_frees : frees (log w) = fr
}.

Definition Done (i : nat) (cs : list closing) (fr : list nat) (r : outcome) : Prop :=
  match r with
  | Kept w => Node i cs fr w
  | Freed w => frees (log w) = fr ++ [i]
  end.

Lemma node_on i cs fr w f : wsi_id (f (cw w)) = wsi_id (cw w) -> count_act_ext (f (cw w)) = count_act_ext (cw w) ->
  Node i cs fr w -> Node i cs fr (on_wsi f w).
Proof. intros F1 F2 []. constructor; destruct w; rcbn_all; congruence. Qed.

Lemma node_act i cs fr w a : is_free (i, a) = false -> Node i cs fr w -> Node i cs fr (act a w).
Proof.
  intros Ha []. constructor; destruct w; rcbn_all; try congruence. rewrite frees_app.
  replace (frees [_]) with (@nil nat); [by rewrite app_nil_r|]. unfold frees, is_free in *. by destruct a.
Qed.

Lemma node_protocol i cs fr w r : Node i cs fr w -> exists w', protocol_tell r w = Some w' /\ Node i cs fr w'.
Proof.
  intros N. unfold protocol_tell. rewrite (nd_protocol _ _ _ _ N), modest_has_callback. eexists. split; [reflexivity|].
  apply node_on; [apply modest_callback|apply modest_callback|by apply node_act].
Qed.

Lemma node_vhost i cs fr w r : Node i cs fr w -> Node i cs fr (vhost_tell r w).
Proof. intros N. apply node_on; [apply vhost_core|apply vhost_core|by apply node_act]. Qed.

Lemma node_parent i cs fr w : Node i cs fr w -> Node i cs fr (lws_remove_child_from_any_parent w).
Proof. intros []. unfold lws_remove_child_from_any_parent. case_match; constructor; by destruct w. Qed.

Lemma node_told i cs fr w : Node i cs fr w -> Node i cs fr (w {{ told_user_closed := true }}).
Proof. intros []. constructor; by destruct w. Qed.

Lemma async_done i cs fr w : Node i cs fr w -> Done i cs fr (async_close w).
Proof.
  intros N. unfold async_close, lws_close_free_wsi_final. set (w1 := on_wsi _ w).
  assert (N1 : Node i cs fr w1) by (apply node_on; [by destruct (cw w)..|done]). clearbody w1. set (w2 := if sockfd_valid w1 then _ else w1).
  assert (N2 : Node i cs fr w2).
  { unfold w2. case_match; [|done]. apply (node_act _ _ _ _ ASocketClose) in N1; [|done]. destruct N1. constructor; by destruct w1. }
  clearbody w2. apply (node_vhost _ _ _ _ LWS_CALLBACK_WSI_DESTROY) in N2. set (w3 := vhost_tell _ w2) in *. clearbody w3.
  cbn [Done]. destruct N2. destruct w3. cbn in *. rewrite frees_app. by subst.
Qed.

Lemma tell_user_node i cs fr w : Node i cs fr w -> exists w', tell_user w = Some w' /\ Node i cs fr w'.
Proof.
  intros N. unfold tell_user. case_match.
  - destruct (user_space w).
    + destruct (node_protocol _ _ _ _ LWS_CALLBACK_HTTP_DROP_PROTOCOL N) as (w1 & -> & N1). by apply node_protocol.
    + by apply node_protocol.
  - repeat case_match; eexists; (split; [reflexivity|]); try apply node_vhost; done.
Qed.

Lemma real_kill_done i cs fr w : Node i cs fr w -> exists w', real_kill w = Some (Freed w') /\ frees (log w') = fr ++ [i].
Proof.
  intros N. unfold real_kill. set (w1 := on_wsi lws_remove_from_timeout_list w).
  assert (N1 : Node i cs fr w1) by (destruct (keeps_timeout_list (cw w)) as (? & ? & ?); by apply node_on). clearbody w1.
  set (w2 := if sockfd_valid w1 then _ else w1). assert (N2 : Node i cs fr w2) by (unfold w2; case_match; [by apply node_act|done]). clearbody w2.
  set (w3 := end_ws _). assert (N3 : Node i cs fr w3).
  { unfold w3. set (u := on_wsi _ w2). assert (Nu : Node i cs fr u) by (apply node_on; [by destruct (cw w2)..|done]). clearbody u.
    unfold end_ws. case_match; [|done]. apply node_on; [..|done];
      unfold lws_remove_wsi_from_draining_ext_list, set_tx; repeat case_match; by destruct (cw u). }
  clearbody w3. destruct (tell_user_node _ _ _ _ N3) as (w4 & -> & N4). cbn [mbind option_bind].
  set (w5 := act AExtensions _). assert (N5 : Node i cs fr w5).
  { apply node_act; [done|]. apply node_on; [by rewrite (ext_none _ _ _ (nd_ext _ _ _ _ N4))..|done]. }
  apply async_done in N5. eexists. split; [reflexivity|exact N5].
Qed.

Lemma kill_done i cs fr w reason : Node i cs fr w ->
  exists r, just_kill_connection w reason = Some r /\ Done i cs fr r /\
    (socket_is_permanently_unusable (cw w) = true -> exists w', r = Freed w').
Proof.
  intros N. apply node_parent in N as N1. unfold just_kill_connection. set (w1 := lws_remove_child_from_any_parent w) in *.
  assert (Eu : cw w1 = cw w) by (unfold w1, lws_remove_child_from_any_parent; case_match; by destruct w). clearbody w1.
  destruct (_ && negb (socket_is_permanently_unusable (cw w1))) eqn:Ec.
  - eexists. split; [reflexivity|]. split; [|intros Hu; rewrite Eu, Hu, andb_false_r in Ec; done].
    cbn [Done]. rewrite on_on. destruct (set_timeout_keeps PENDING_TIMEOUT_SHUTDOWN_FLUSH
      (timeout_secs (tx (emit (EPollfd LWS_POLLOUT LWS_POLLIN) (cw (act AShutdown w1)) {{ state := LWSS_SHUTDOWN }})))
      (emit (EPollfd LWS_POLLOUT LWS_POLLIN) (cw (act AShutdown w1)) {{ state := LWSS_SHUTDOWN }})) as (K1 & _ & K3).
    apply node_on; [by rewrite K1; destruct (cw (act AShutdown w1))|by rewrite K3; destruct (cw (act AShutdown w1))|by apply node_act].
  - destruct (real_kill_done _ _ _ _ N1) as (w' & -> & Ef). eexists. split; [reflexivity|]. split; [exact Ef|by eexists].
Qed.

(** A call that leads to a result of the form [Done]. *)
Definition Leads (i : nat) (cs : list closing) (fr : list nat) (r : option outcome) : Prop := exists r', r = Some r' /\ Done i cs fr r'.

Lemma kill_leads i cs fr w reason : Node i cs fr w -> Leads i cs fr (just_kill_connection w reason).
Proof. intros N. destruct (kill_done i cs fr w reason N) as (r & E & D & _). by exists r. Qed.

Lemma node_wsi i cs fr w v : Core (cw w) v -> Node i cs fr w -> Node i cs fr (w {{ cw := v }}).
Proof. intros [C1 _ C3 _ _] []. constructor; destruct w; rcbn_all; congruence. Qed.

(** Waiting with a timer. *)
Lemma node_wait i cs fr w s reason secs : Node i cs fr w ->
  Done i cs fr (Kept (on_wsi (fun v => lws_set_timeout (v {{ state := s }}) reason secs) w)).
Proof.
  intros N. destruct (set_timeout_keeps reason secs ((cw w) {{ state := s }})) as (K1 & _ & K3).
  apply node_on; [rewrite K1; by destruct (cw w)|rewrite K3; by destruct (cw w)|done].
Qed.

Lemma send_close_leads fuel i cs fr w reason : Node i cs fr w -> Leads i cs fr (send_close (S fuel) w reason).
Proof.
  intros N. unfold send_close. case_match; [|by apply kill_leads]. set (w1 := if nz _ then w else _).
  assert (N1 : Node i cs fr w1) by (unfold w1; case_match; [done|apply node_on; [by destruct (cw w)..|done]]). clearbody w1.
  destruct (write_total fuel (cw w1) (ping_payload_buf (cw w1)) (close_in_ping_buffer_len (cw w1)) LWS_WRITE_CLOSE (nd_ext _ _ _ _ N1)) as [[[v n] mem] Ew].
  rewrite Ew. cbn [mbind option_bind]. apply write_only, only_core in Ew; [|apply N1].
  assert (N2 : Node i cs fr (w1 {{ cw := v {{ ping_payload_buf := mem }} }})).
  { apply node_wsi; [|done]. destruct Ew. destruct v; constructor; rcbn_all; done. }
  case_match; [eexists; split; [reflexivity|by apply node_wait]|by apply kill_leads].
Qed.

Lemma polite_leads fuel i cs fr w reason : Node i cs fr w -> Leads i cs fr (polite_close (S fuel) w reason).
Proof.
  intros N. unfold polite_close. case_match; [by apply kill_leads|].
  assert (T : forall u r, Node i cs fr u -> Node i cs fr (vhost_tell r u {{ told_user_closed := true }})) by (intros; by apply node_vhost, node_told).
  set (w1 := if bool_decide _ then _ else w).
  assert (N1 : Node i cs fr w1) by (unfold w1; case_match; [apply T; case_match; [by apply node_vhost|done]|done]). clearbody w1.
  set (w2 := if implies_closed_client_http _ then _ else w1). assert (N2 : Node i cs fr w2) by (unfold w2; case_match; [by apply T|done]). clearbody w2.
  pose proof (nd_ext _ _ _ _ N2) as Hx. rewrite (ext_none _ _ _ Hx). replace (w2 {{ cw := cw w2 }}) with w2 by (by destruct w2).
  change (0 >? 0) with false. cbv iota. cbn [flush_extensions]. rewrite (ext_none _ _ _ Hx). change (0 <? 0) with false. change (nz 0) with false.
  cbn [token_len mbind option_bind]. change (nz 0) with false. cbv iota. cbn [mbind option_bind].
  replace (w2 {{ cw := cw w2 }}) with w2 by (by destruct w2). by apply send_close_leads.
Qed.

Lemma by_state_leads fuel i cs fr w reason : Node i cs fr w -> Leads i cs fr (close_by_state (S fuel) w reason).
Proof.
  intros N. unfold close_by_state. set (w1 := w {{ state_pre_close := state (cw w) }}).
  assert (N1 : Node i cs fr w1) by (destruct N; unfold w1; constructor; by destruct w). clearbody w1.
  assert (F : Leads i cs fr (if nz (trunc_len (tx (cw w1))) then
        Some (Kept (on_wsi (fun v => lws_set_timeout (v {{ state := LWSS_FLUSHING_STORED_SEND_BEFORE_CLOSE }})
                                       PENDING_FLUSH_STORED_SEND_BEFORE_CLOSE 5) w1))
      else polite_close (S fuel) w1 reason)).
  { case_match; [eexists; split; [reflexivity|by apply node_wait]|by apply polite_leads]. }
  destruct (state_pre_close w1); try exact F; [by exists (Kept w1)|by apply kill_leads|].
  case_match; [|by apply kill_leads]. eexists. split; [reflexivity|]. apply node_on; [by destruct (cw w1)..|done].
Qed.

Lemma self_leads fuel i cs fr w reason : Node i cs fr w ->
  exists r, close_self (S fuel) w reason = Some r /\ Done i cs fr r /\
    (socket_is_permanently_unusable (cw w) = true -> exists w', r = Freed w').
Proof.
  intros N. unfold close_self. case_match.
  { destruct (node_protocol i cs fr (act ARemoveFds (lws_remove_child_from_any_parent w)) LWS_CALLBACK_RAW_CLOSE_FILE) as (w1 & -> & N1);
      [by apply node_act, node_parent|]. cbn [mbind option_bind]. eexists. split; [reflexivity|]. split; [by apply async_done|by eexists]. }
  case_match.
  { destruct (node_protocol i cs fr w LWS_CALLBACK_RAW_CLOSE N) as (w1 & -> & N1). cbn [mbind option_bind].
    set (w2 := on_wsi _ w1). assert (N2 : Node i cs fr w2) by (apply node_on; [by destruct (cw w1)..|done]).
    destruct (kill_done i cs fr w2 reason N2) as (r & E & D & F). exists r. split; [done|]. split; [done|]. intros _. apply F.
    unfold w2. destruct w1. cbn. by destruct cw0. }
  set (w1 := if _ && fop_fd w then _ else w).
  assert (K : Node i cs fr w1 /\ (socket_is_permanently_unusable (cw w) = true -> socket_is_permanently_unusable (cw w1) = true)).
  { unfold w1. case_match; [|done]. apply (node_act _ _ _ _ AFileClose) in N; [|done].
    assert (N' : Node i cs fr (act AFileClose w {{ fop_fd := false }})) by (destruct N; constructor; by destruct w).
    assert (Ec : cw (act AFileClose w {{ fop_fd := false }}) = cw w) by (by destruct w). set (u := act AFileClose w {{ fop_fd := false }}) in *. clearbody u.
    split; [by apply node_vhost, node_told|].
    rewrite <- Ec. unfold vhost_tell. destruct u. apply vhost_unusable. }
  destruct K as [N1 E1]. clearbody w1. case_match.
  - destruct (kill_done i cs fr w1 reason N1) as (r & E & D & F). exists r. auto.
  - destruct (by_state_leads fuel i cs fr w1 reason N1) as (r & E & D). exists r. split; [done|]. split; [done|].
    intros Hu. rewrite (E1 Hu) in *. done.
Qed.

(** The lists of the thread and the log come back; nothing else changes. *)
Lemma node_back i cs fr w ch fr' : Node i cs fr w -> frees (log ch) = fr' -> Node i cs fr' (take_back ch w) /\
  socket_is_permanently_unusable (cw (take_back ch w)) = socket_is_permanently_unusable (cw w).
Proof. intros [] E. destruct w. cbn in *. split; [constructor; cbn; try done|]; by destruct cw0. Qed.

Section Children.
Context (close : closing -> option outcome) (d : nat).
Hypothesis close_ok : forall w, sound w -> (height w <= d)%nat -> socket_is_permanently_unusable (cw w) = true ->
  exists w', close w = Some (Freed w') /\ frees (log w') = frees (log w) ++ post w.

Lemma children_done i cs chs : forall fr w, Node i cs fr w -> Forall sound chs -> Forall (fun x => (height x <= d)%nat) chs ->
  exists w', close_children close chs w = Some w' /\ Node i cs (fr ++ concat (map post chs)) w' /\
    socket_is_permanently_unusable (cw w') = socket_is_permanently_unusable (cw w).
Proof.
  induction chs as [|x chs IH]; intros fr w N Hs Hh; cbn [close_children map concat]; [exists w; by rewrite app_nil_r|].
  forall_inv. set (x1 := on_wsi _ _). assert (K : sound x1 /\ (height x1 <= d)%nat /\ socket_is_permanently_unusable (cw x1) = true /\
    post x1 = post x /\ log x1 = log w).
  { assert (Ec : children x1 = children x) by (by destruct x). assert (El : log x1 = log w) by (by destruct x).
    assert (Ei : wsi_id (cw x1) = wsi_id (cw x)) by (destruct x; cbn; by destruct cw0).
    split; [|split; [|split; [|split]]].
    - match goal with Hx : sound x |- _ => apply sound_eq in Hx as (X1 & X2 & X3) end. apply sound_eq. rewrite Ec.
      split; [by destruct x|]. split; [|done]. destruct x; cbn in *; by destruct cw0.
    - by rewrite height_eq, Ec, <- height_eq.
    - destruct x; cbn; by destruct cw0.
    - by rewrite !post_eq, Ec, Ei.
    - done. }
  destruct K as (S1 & H1' & U1 & P1 & L1). destruct (close_ok x1 S1 H1' U1) as (w' & -> & Ef). cbn [mbind option_bind].
  rewrite L1, P1, (nd_frees _ _ _ _ N) in Ef. destruct (node_back i cs fr w w' _ N Ef) as [N' U'].
  destruct (IH _ _ N') as (w2 & -> & N2 & U2); [done|done|]. exists w2. split; [done|]. rewrite <- app_assoc in N2. split; [done|congruence].
Qed.

End Children.

Lemma tree_done fuel reason d : forall w, sound w -> (height w <= d)%nat ->
  exists r, lws_close_free_wsi d (S fuel) w reason = Some r /\
    Done (wsi_id (cw w)) [] (frees (log w) ++ concat (map post (children w))) r /\
    (socket_is_permanently_unusable (cw w) = true -> exists w', r = Freed w').
Proof.
  induction d as [|d IH]; intros w Hs Hh; [rewrite height_eq in Hh; lia|]. cbn [lws_close_free_wsi].
  pose proof Hs as (Hp & Hx & Hch)%sound_eq. rewrite height_eq in Hh.
  destruct (children_done (fun ch => lws_close_free_wsi d (S fuel) ch reason) d) with (i := wsi_id (cw w)) (cs := children w)
    (chs := children w) (fr := frees (log w)) (w := w) as (w1 & -> & N1 & U1).
  - intros x Sx Hd Hu. destruct (IH x Sx Hd) as (r & E & D & F). destruct (F Hu) as [w' ->]. exists w'. split; [done|].
    cbn [Done] in D. rewrite D, post_eq. by rewrite app_assoc.
  - by constructor.
  - done.
  - assert (Hm : Forall (fun k => (k <= d)%nat) (map height (children w))) by (apply list_max_le; lia).
    clear -Hm. induction (children w); [constructor|]. cbn [map] in Hm. forall_inv. constructor; auto.
  - cbn [mbind option_bind]. rewrite <- U1. assert (Ec : cw (w1 {{ children := [] }}) = cw w1) by (by destruct w1).
    rewrite <- Ec. apply self_leads. destruct N1. constructor; destruct w1; rcbn_all; done.
Qed.

(** C10: closing a connection frees all the connections that hang on it. Whatever their
    modes and states and whatever the reason, with protocols and without extensions, every
    one of them is freed by the same call, once, after its own children and before its
    parent; the connection itself is freed last, or kept to wait with no children left. The
    callbacks may write, change flow control and start timers ([ModestCallback],
    [ModestVhost]). *)
Theorem children_end_first depth fuel w reason : sound w -> (height w <= depth)%nat ->
  exists r, lws_close_free_wsi depth (S fuel) w reason = Some r /\
    match r with
    | Kept w' => children w' = [] /\ frees (log w') = frees (log w) ++ concat (map post (children w))
    | Freed w' => frees (log w') = frees (log w) ++ post w
    end.
Proof.
  intros Hs Hh. destruct (tree_done fuel reason depth w Hs Hh) as (r & E & D & _). exists r. split; [exact E|].
  destruct r as [w'|w']; cbn [Done] in D; [by destruct D|]. by rewrite D, post_eq, app_assoc.
Qed.

End Tree.

(** ** Concrete connections *)

#[local] Existing Instances demo_env demo_modest demo_vhost demo_modest_vhost.

Definition demo_as (i : nat) (m : lwscm) (s : lwss) : lws := (demo_wsi 4) {{ wsi_id := i; mode := m; state := s }}.

(** A connection with two children, the first of them with a child of its own. *)
Definition demo_family : closing :=
  demo_closing (demo_wsi 4) [
    demo_closing (demo_as 2 LWSCM_HTTP_CLIENT LWSS_HTTP) [demo_closing (demo_as 3 LWSCM_RAW LWSS_HTTP) []];
    demo_closing (demo_as 4 LWSCM_WS_CLIENT LWSS_ESTABLISHED) []].

Lemma children_end_first_witness :
  exists r, lws_close_free_wsi 3 1 demo_family LWS_CLOSE_STATUS_NOSTATUS = Some r /\
    match r with
    | Kept w' => children w' = [] /\ frees (log w') = [3; 2; 4]%nat
    | Freed w' => frees (log w') = [3; 2; 4; 1]%nat
    end.
Proof. apply (children_end_first 3 0 demo_family LWS_CLOSE_STATUS_NOSTATUS); [by repeat split|vm_compute; lia]. Defined.

(** The callbacks to the vhost and to the protocol, in order. *)
Definition told (w : closing) : list action :=
  List.filter (fun a => match a with AVhost _ | AProtocol _ => true | _ => false end) (map snd (log w)).

(** A close, and the checks of the timers until the connection is freed. *)
Fixpoint until_freed (n : nat) (r : option outcome) : option closing :=
  match n, r with
  | S n, Some (Kept w) => until_freed n (fst <$> lws_service_timeout_check 1 1 w (100 * Z.of_nat n))
  | _, Some (Freed w) => Some w
  | _, _ => None
  end.

Definition close_out (w : closing) : option (list action) :=
  told <$> until_freed 5 (lws_close_free_wsi 1 1 w LWS_CLOSE_STATUS_NOSTATUS).

Definition serving_file : closing := (demo_closing (demo_as 1 LWSCM_HTTP_SERVING_ACCEPTED LWSS_HTTP) []) {{ fop_fd := true }}.

Definition serving (unusable : bool) : closing :=
  demo_closing ((demo_as 1 LWSCM_HTTP_SERVING LWSS_HTTP) {{ socket_is_permanently_unusable := unusable }}) [].

(** An HTTP connection whose last bytes were sent while it was being closed. *)
Definition flushed : closing :=
  demo_closing (demo_as 1 LWSCM_HTTP_SERVING LWSS_FLUSHING_STORED_SEND_BEFORE_CLOSE) [].

(** A socket that takes one byte at a time. *)
#[local] Instance slow_env : LwsEnv := {
  lp64 := true; has_callback := true; protocol_callback w _ _ := (w, 0); ext_callback _ w _ t := (w, t, 0);
  change_pollfd _ _ _ := 0; socket_write _ _ := 1; random4 _ := Some [1; 2; 3; 4]; malloc_ok _ _ := true;
  send_pipe_choked _ := false; now_secs _ := 0
}.

(** The close frame of the peer is waiting to be answered. *)
Definition to_answer : closing :=
  demo_closing ((demo_as 1 LWSCM_WS_SERVING LWSS_RETURNED_CLOSE_ALREADY)
    {{ payload_is_close := true; ping_pending_flag := true; ping_payload_len := 2 }}) [].

(** Closes that do not go the way the callbacks are documented.  A connection that serves a
    file is told LWS_CALLBACK_CLOSED_HTTP twice; one in the mode of the request is
    told it when it is closed in order, but never when its socket was unusable, and
    after a flush it is told LWS_CALLBACK_CLOSED, the end of a WebSocket session.  When the socket takes only a
    part of the close frame, the rest is not sent: a writable socket is not
    served in LWSS_AWAITING_CLOSE_ACK.  When it takes only a part of the answer to a close frame,
    the connection waits to send the rest without a timer, so no check of the timers ends it. *)
Lemma close_gaps :
  close_out serving_file = Some [AVhost LWS_CALLBACK_CLOSED_HTTP; AVhost LWS_CALLBACK_CLOSED_HTTP; AVhost LWS_CALLBACK_WSI_DESTROY] /\
  close_out (serving false) = Some [AVhost LWS_CALLBACK_HTTP_DROP_PROTOCOL; AVhost LWS_CALLBACK_CLOSED_HTTP; AVhost LWS_CALLBACK_WSI_DESTROY] /\
  close_out (serving true) = Some [AVhost LWS_CALLBACK_WSI_DESTROY] /\
  close_out flushed = Some [AProtocol LWS_CALLBACK_HTTP_DROP_PROTOCOL; AProtocol LWS_CALLBACK_CLOSED; AVhost LWS_CALLBACK_WSI_DESTROY] /\
  (exists w, lws_close_free_wsi 1 1 (demo_closing (demo_wsi 4) []) 1000 = Some (Kept w) /\ state (cw w) = LWSS_AWAITING_CLOSE_ACK /\
     trunc_len (tx (cw w)) = 3 /\ service_pollout 1 1 w = Some (Kept w)) /\
  (exists w, service_pollout 1 1 to_answer = Some (Kept w) /\ state (cw w) = LWSS_FLUSHING_STORED_SEND_BEFORE_CLOSE /\
     trunc_len (tx (cw w)) = 3 /\ forall sec, lws_service_timeout_check 1 1 w sec = Some (Kept w, 0)).
Proof.
  do 4 (split; [vm_compute; reflexivity|]). split.
  - exists (kept (forced (lws_close_free_wsi 1 1 (demo_closing (demo_wsi 4) []) 1000))). repeat (split; [vm_compute; reflexivity|]).
    vm_compute. reflexivity.
  - exists (kept (forced (service_pollout 1 1 to_answer))). repeat (split; [vm_compute; reflexivity|]). intros sec. vm_compute. reflexivity.
Qed.

End CloseTree.
