(* ===== verification/Service.v ===== *)
(** * The service of a WebSocket connection (lib/service.c, lib/handshake.c)

    lws_service_fd_tsi for a connection that has become a WebSocket of the server: what a
    writable socket is used for, then the bytes that flow control has kept aside, then
    those the header table has left from the upgrade request, then those of the socket.
    Bytes go through lws_read to the receiver of frames; when the protocol's callback has
    stopped the flow, the receiver keeps the rest aside.

    A service works on the connection of [Close], with the bytes of an attached header
    table that are not used yet and with the results recv will give.  Builds without TLS
    are modelled: lws_ssl_pending is 0. *)

From S2P Require Import Prelude Ws WsRx WsTx Close.

Module Service.
Export Close.

(** What recv gives: bytes (none: the peer has closed), or an error. *)
Inductive recv_result := RData (b : bytes) | RAgain | RError.

Record service := mkServ {
  sc : closing;
  ah_rx : option bytes;              (* ah->rx from rxpos to rxlen, if a table is attached *)
  sock : list recv_result
}.

(** pollfd->revents *)
Record revents := mkRev { r_in : bool; r_out : bool; r_hup : bool }.

(** The service was handled, or has called lws_close_free_wsi; with the returned value. *)
Inductive result :=
| Handled (s : service) (n : Z)
| Closed (s : service) (freed : bool) (n : Z).

Definition conn (s : service) : lws := cw (sc s).
Definition on_conn (f : lws -> lws) (s : service) : service := s {{ sc ::= on_wsi f }}.

(** pollfd->events & LWS_POLLIN, from the changes so far; a connection starts with it. *)
Definition polls_in (l : list event) : bool :=
  fold_left (fun b e => match e with
                        | EPollfd c s => if nz (s .& LWS_POLLIN) then true else if nz (c .& LWS_POLLIN) then false else b
                        | _ => b
                        end) l true.

(** libwebsockets.c, lws_rx_flow_control(wsi, enable) *)
Definition set_rx_flow_control (w : lws) (enable : Z) : lws :=
  if enable =? rxflow_change_to w .& LWS_RXFLOW_ALLOW then w
  else w {{ rxflow_change_to := LWS_RXFLOW_PENDING_CHANGE .| (if nz enable then 1 else 0) }}.

Section Serve.
Context `{LwsEnv} `{CloseEnv} (depth fuel : nat).

(** [close_and_handled:]; the unused bytes of the header table are dropped. *)
Definition close_and_handled (s : service) (n : Z) : option result :=
  r ← lws_close_free_wsi depth fuel (sc s) LWS_CLOSE_STATUS_NOSTATUS;
  let s := s {{ ah_rx ::= fmap (fun _ => []) }} in
  Some (match r with
        | Kept w => Closed (s {{ sc := w }}) false n
        | Freed w => Closed (s {{ sc := w }}) true n
        end).

Definition lws_ssl_capable_read_no_ssl (s : service) (len : Z) : service * Z * bytes :=
  match sock s with
  | RData b :: q =>
      let got := take (Z.to_nat len) b in
      let rest := drop (Z.to_nat len) b in
      (on_conn lws_restart_ws_ping_pong_timer (s {{ sock := if bool_decide (rest = []) then q else RData rest :: q }}), zlen got, got)
  | RAgain :: q => (s {{ sock := q }}, LWS_SSL_CAPABLE_MORE_SERVICE, [])
  | RError :: q => (s {{ sock := q }}, LWS_SSL_CAPABLE_ERROR, [])
  | [] => (s, LWS_SSL_CAPABLE_MORE_SERVICE, [])
  end.

(** lws_read; its count of the bytes used is not looked at by the caller.  The states of
    an HTTP request do not occur on a WebSocket. *)
Definition lws_read (s : service) (buf : bytes) : option result :=
  match state (conn s) with
  | LWSS_HTTP | LWSS_HTTP_ISSUING_FILE | LWSS_HTTP_HEADERS | LWSS_HTTP_BODY => None
  | LWSS_ESTABLISHED | LWSS_AWAITING_CLOSE_ACK | LWSS_SHUTDOWN =>
      if bool_decide (mode (conn s) = LWSCM_WS_SERVING) then
        '(v, m) ← lws_interpret_incoming_packet (fuel + length buf) (conn s) buf;
        let s := on_conn (fun _ => v) s in
        if m <? 0 then close_and_handled s (-1) else Some (Handled s 0)
      else Some (Handled s 0)
  | _ => Some (Handled s 0)
  end.

(** The loop that shows the bytes to the extensions first. *)
Fixpoint preparse (rounds : nat) (s : service) (data : bytes) (t : lws_tokens) : option result :=
  match rounds with
  | O => None
  | S rounds =>
      let '(v, t, m) := lws_ext_cb_active (conn s) LWS_EXT_CB_PACKET_RX_PREPARSE t in
      let s := on_conn (fun _ => v) s in
      if m <? 0 then close_and_handled s 1 else
      r ← (if nz (token_len t)
           then lws_read s (take (Z.to_nat (token_len t)) (match tok t with TUser => data | TExt b => b | _ => [] end))
           else Some (Handled s 0));
      match r with
      | Closed s freed _ => Some (Closed s freed 0)
      | Handled s _ => if nz m then preparse rounds s [] (mkTok TNull 0) else Some (Handled s 0)
      end
  end.

(** [drain:]; then the header table is given back, and a flow buffer that is used up. *)
Definition drain (s : service) (data : bytes) (draining_flow : bool) : option result :=
  r ← preparse fuel s data (mkTok TUser (zlen data));
  match r with
  | Closed _ _ _ => Some r
  | Handled s _ =>
      let s := s {{ ah_rx := None }} in
      let drained := match rxflow_buffer (conn s) with Some b => rxflow_pos (conn s) =? zlen b | None => false end in
      Some (Handled (if draining_flow && drained
                     then on_conn (fun v => (lws_rx_flow_control (v {{ rxflow_buffer := None }})).1) s else s) 0)
  end.

(** [read:] *)
Definition read_more (s : service) : option result :=
  match ah_rx s with
  | Some b => drain s b false
  | None =>
      let len := if (0 <? count_act_ext (conn s))%nat then rx_ubuf_alloc (conn s) else pt_serv_buf_size (conn s) in
      let len := if len >? pt_serv_buf_size (conn s) then pt_serv_buf_size (conn s) else len in
      let '(s, n, b) := lws_ssl_capable_read_no_ssl s len in
      if n =? 0 then close_and_handled s 1
      else if n =? LWS_SSL_CAPABLE_MORE_SERVICE then Some (Handled s 0)
      else if n =? LWS_SSL_CAPABLE_ERROR then close_and_handled s 1
      else drain s b false
  end.

(** From the test for extensions that hold output back on. *)
Definition receive (s : service) (rin : bool) : option result :=
  let w := conn s in
  if tx_draining_ext (tx w) then Some (Handled s 0)
  else if negb (nz (rxflow_change_to w .& LWS_RXFLOW_ALLOW)) then Some (Handled s 0)
  else if bool_decide (state w = LWSS_ESTABLISHED) && rx_draining_ext w then
    let '(v, n) := lws_rx_sm w 0 in Some (Handled (on_conn (fun _ => v) s) n)
  else if rx_draining_ext w then Some (Handled s 0)
  else match rxflow_buffer w with
       | Some b => drain s (drop (Z.to_nat (rxflow_pos w)) b) true
       | None => if negb (rin && polls_in (events w)) then Some (Handled s 0) else read_more s
       end.

(** The service of a connection in LWSCM_WS_SERVING. *)
Definition lws_service_fd_tsi (s : service) (rv : revents) : option result :=
  if negb (r_in rv && polls_in (events (conn s))) && r_hup rv
  then close_and_handled (on_conn (fun v => v {{ socket_is_permanently_unusable := true }}) s) 1 else
  if r_hup rv then close_and_handled s 1 else
  '(w, bad) ← (if r_out rv then pollout_fails fuel (sc s) else Some (sc s, false));
  let s := s {{ sc := w }} in
  if (bad : bool) then close_and_handled s 1 else
  let st := state (conn s) in
  let s := if bool_decide (st = LWSS_RETURNED_CLOSE_ALREADY) || bool_decide (st = LWSS_AWAITING_CLOSE_ACK)
           then on_conn (fun v => set_tx (fun t => t {{ tx_draining_ext := false }}) (set_rx_flow_control v 1)) s
           else s in
  receive s (r_in rv).

End Serve.
End Service.
