(* ===== verification/ServiceProps.v ===== *)
(** * No byte is lost

    Whatever the callbacks do to the flow of data and however it arrives, every byte that
    was read goes through the receiver of frames once and in order, or is still kept. *)

From S2P Require Import Prelude Ws WsRx WsRxFacts WsRxInv WsRxBulk WsRxProps WsTx WsTxFacts WsTxProps Close CloseProps Service.

Module ServiceProps.
Export Service CloseProps.

(** ** What went through the receiver *)

(** From [w] to [v] the state machine has taken the bytes [l], one by one, and nothing else
    has changed what it had gathered. *)
Inductive fed `{LwsEnv} (w : lws) : bytes -> lws -> Prop :=
| fed_start : fed w [] w
| fed_other l u v : fed w l u -> receiver v = receiver u -> fed w l v
| fed_byte l u v c m : fed w l u -> lws_rx_sm u c = (v, m) -> 0 <= m -> fed w (l ++ [c]) v.

(** The bytes flow control has kept aside. *)
Definition kept_aside (w : lws) : bytes :=
  match rxflow_buffer w with Some b => drop (Z.to_nat (rxflow_pos w)) b | None => [] end.

Definition FlowOk (w : lws) : Prop :=
  match rxflow_buffer w with Some b => 0 <= rxflow_pos w <= zlen b | None => True end.

Section Flow.
Context `{LwsEnvOk} `{!ModestCallback} (alloc : forall v n, malloc_ok v n = true).

Lemma fed_trans w a u b v : fed w a u -> fed u b v -> fed w (a ++ b) v.
Proof.
  intros F. induction 1 as [|l x y _ IH E|l x y c m _ IH E Hm]; [by rewrite app_nil_r|by apply (fed_other _ _ x)|].
  rewrite app_assoc. by apply (fed_byte _ _ x y c m).
Qed.

Lemma bytes_fed l : forall w v, rx_bytes w l = (v, 0) -> fed w l v.
Proof.
  induction l as [|c l IH]; intros w v; cbn [rx_bytes]; [intros [= <-]; constructor|]. destruct (lws_rx_sm w c) as [u m] eqn:E.
  destruct (m <? 0) eqn:Em; [done|]. intros F%IH. change (c :: l) with ([] ++ [c] ++ l). rewrite app_assoc.
  refine (fed_trans _ _ u _ _ _ F). refine (fed_byte _ _ w u c m _ E _); [constructor|lia].
Qed.

Lemma equiv_receiver w w' : w ≡ w' -> receiver w' = receiver w.
Proof. intros (i & p & -> & Hi)%equiv_split. unfold receiver. destruct w. cbn in *. unfold constant. by rewrite Hi. Qed.

Lemma equiv_noext w w' : w ≡ w' -> NoExt w' -> NoExt w.
Proof. intros (i & p & -> & _)%equiv_split. unfold NoExt. by destruct w. Qed.

(** The receiver is about to take [buf]: new bytes, or those kept aside. *)
Definition Feeding (w : lws) (buf : bytes) : Prop := rxflow_buffer w = None \/ (kept_aside w = buf /\ FlowOk w).

Lemma feeding_drop w w' src rest : Feeding w (src ++ rest) -> rxflow_buffer w' = rxflow_buffer w ->
  (rxflow_buffer w <> None -> rxflow_pos w' = rxflow_pos w + zlen src) -> Feeding w' rest.
Proof.
  unfold Feeding, kept_aside, FlowOk. intros Hf -> Hp. destruct (rxflow_buffer w) as [b|]; [|by left]. right.
  rewrite (Hp ltac:(done)). destruct Hf as [?|[Ed Ho]]; [done|]. pose proof (zlen_nonneg src). split.
  - replace (Z.to_nat (rxflow_pos w + zlen src)) with (Z.to_nat (rxflow_pos w) + length src)%nat by (unfold zlen; lia).
    rewrite <- drop_drop, Ed. apply drop_app_length.
  - apply (f_equal length) in Ed. rewrite length_drop, length_app in Ed. unfold zlen in *. lia.
Qed.

(** The protocol does not want more. *)
Definition Stopped (w : lws) : Prop := nz (rxflow_change_to w .& LWS_RXFLOW_ALLOW) = false.

(** What taking (a part of) [buf] has done. *)
Record Consumed (w : lws) (buf : bytes) (w' : lws) : Prop := {
  cs_mode : mode w' = mode w;
  cs_id : wsi_id w' = wsi_id w;
  cs_state : state w' = state w \/ state w' = LWSS_RETURNED_CLOSE_ALREADY;
  cs_inv : RxInv w';
  cs_noext : NoExt w';
  cs_flow : FlowOk w';
  cs_stop : kept_aside w' <> [] -> Stopped w';
  cs_fed : exists taken, buf = taken ++ kept_aside w' /\ fed w taken w'
}.

Lemma consumed_more w u src buf w' : fed w src u -> mode u = mode w -> wsi_id u = wsi_id w ->
  state u = state w \/ state u = LWSS_RETURNED_CLOSE_ALREADY -> Consumed u buf w' -> Consumed w (src ++ buf) w'.
Proof.
  intros F Hm Hi Hs [A1 A2 A3 A4 A5 A6 A7 (taken & -> & F')]. constructor; try congruence; try done.
  - destruct A3 as [->| ->]; [exact Hs|by right].
  - exists (src ++ taken). split; [by rewrite app_assoc|by apply (fed_trans w src u)].
Qed.

(** Nothing taken: all is kept. *)
Lemma consumed_cache w b : RxInv w -> NoExt w -> Stopped w -> Consumed w b (w {{ rxflow_buffer := Some b; rxflow_pos := 0 }}).
Proof.
  intros R N Hs. constructor.
  - by destruct w.
  - by destruct w.
  - left. by destruct w.
  - apply (inv_view w); [by destruct w|done].
  - apply (noext_view w); [by destruct w|done].
  - unfold FlowOk. destruct w. rcbn. pose proof (zlen_nonneg b). lia.
  - intros _. by destruct w.
  - exists []. split; [by destruct w|]. apply (fed_other _ _ w); [constructor|by destruct w].
Qed.

(** The count of the bytes used of those kept aside. *)
Lemma bump_same w n : let v := match rxflow_buffer w with Some _ => w {{ rxflow_pos ::= Z.add n }} | None => w end in
  v ≡ w /\ rx_view v = rx_view w /\ mode v = mode w /\ wsi_id v = wsi_id w /\ state v = state w /\
  socket_is_permanently_unusable v = socket_is_permanently_unusable w /\ rxflow_buffer v = rxflow_buffer w /\
  (rxflow_buffer w <> None -> rxflow_pos v = n + rxflow_pos w).
Proof. cbv zeta. destruct (rxflow_buffer w) eqn:Ek; [|done]. split; [apply set_pos_equiv|]. destruct w. cbn in *. done. Qed.

(** The bulk path leaves the rest of the connection alone. *)
Lemma bulk_same w buf : let v := (lws_payload_until_length_exhausted w buf).1.1 in
  mode v = mode w /\ wsi_id v = wsi_id w /\ state v = state w /\ socket_is_permanently_unusable v = socket_is_permanently_unusable w /\
  rxflow_buffer v = rxflow_buffer w /\ rxflow_pos v = rxflow_pos w.
Proof.
  unfold lws_payload_until_length_exhausted. cbv zeta. set (avail := if _ >? zlen _ then _ else _). clearbody avail.
  destruct (avail <=? 1); [done|]. destruct (all_zero_nonce w); by destruct w.
Qed.

(** One byte and the rest. *)
Lemma feed_byte fuel w u v c src r : fed w src u -> receiver v = receiver u -> mode v = mode w -> wsi_id v = wsi_id w -> state v = state w ->
  RxInv v -> NoExt v -> is_u8 c -> Feeding v r ->
  (forall w, RxInv w -> NoExt w -> Feeding w r ->
     exists w' m, lws_interpret_incoming_packet fuel w r = Some (w', m) /\ (0 <= m -> Consumed w r w')) ->
  exists w' m, (let '(w, m) := lws_rx_sm v c in
             if m <? 0 then Some (w, -1) else lws_interpret_incoming_packet fuel w r) = Some (w', m) /\
    (0 <= m -> Consumed w (src ++ c :: r) w').
Proof.
  intros F Er Hm Hi Hs R N Hc Hf IH. pose proof (rx_sm_received v c (proj1 N)) as [A1 A2 A3 A4 A5 A6].
  pose proof (rx_sm_inv v c R Hc) as R1. pose proof (rx_sm_noext v c N) as N1. destruct (lws_rx_sm v c) as [x m] eqn:E. cbn [fst] in *.
  destruct (m <? 0) eqn:Em; [eexists _, _; split; [done|lia]|].
  assert (Hx : Feeding x r) by (unfold Feeding, kept_aside, FlowOk in *; by rewrite A5, A6).
  destruct (IH x R1 N1 Hx) as (w' & m' & -> & Hc'). eexists _, _. split; [done|]. intros Hm'.
  change (c :: r) with ([c] ++ r). rewrite app_assoc. apply (consumed_more w x); [|congruence..| |by apply Hc'].
  - refine (fed_byte _ _ v x c m _ E _); [by apply (fed_other _ _ u)|lia].
  - rewrite <- Hs. exact A4.
Qed.

Lemma interpret_fed fuel : forall w buf, (length buf < fuel)%nat -> RxInv w -> NoExt w -> all_u8 buf -> Feeding w buf ->
  exists w' m, lws_interpret_incoming_packet fuel w buf = Some (w', m) /\ (0 <= m -> Consumed w buf w').
Proof.
  induction fuel as [|fuel IH]; intros w buf Hf R N Hb Hw; [lia|]. cbn [lws_interpret_incoming_packet].
  destruct buf as [|x buf].
  { eexists _, _. split; [done|]. intros _. assert (Hp : FlowOk w /\ kept_aside w = []) by (destruct Hw as [Hn|[]]; [unfold FlowOk, kept_aside; by rewrite Hn|done]).
    destruct Hp as [Ho Hp]. constructor; auto; [by rewrite Hp|]. exists []. split; [by rewrite Hp|constructor]. }
  set (b := x :: buf) in *. assert (Hb0 : b <> []) by done. clearbody b.
  destruct (nz (rxflow_change_to w .& LWS_RXFLOW_ALLOW)) eqn:Efl; cbn [negb].
  2: { eexists _, _. split; [done|]. intros _. unfold lws_rxflow_cache. rewrite alloc.
       destruct (rxflow_buffer w) as [k|] eqn:Ek.
       - destruct Hw as [?|[Ep Ho]]; [congruence|]. constructor; auto. exists []. split; [by rewrite Ep|constructor].
       - by apply consumed_cache. }
  rewrite (proj2 N).
  destruct (bump_same w 1) as (Q1 & Q2 & Q4 & Q5 & Q6 & Q7 & Q8 & Q9).
  set (w1 := match rxflow_buffer w with Some _ => _ | None => w end) in *. clearbody w1.
  pose proof (inv_view _ _ Q2 R) as R1. pose proof (noext_view _ _ Q2 N) as N1.
  assert (F1 : fed w [] w1) by (apply (fed_other _ _ w); [constructor|by apply equiv_receiver]).
  destruct (bool_decide (lws_rx_parse_state w1 = RXPS_PAYLOAD_UNTIL_LENGTH_EXHAUSTED)) eqn:Est.
  2: { destruct b as [|c r]; [done|]. forall_inv. apply (feed_byte fuel w w1 w1 c [] r); try done.
       - apply (feeding_drop w w1 [c] r Hw Q8). intros Hn. rewrite (Q9 Hn). change (zlen [c]) with 1. lia.
       - intros. apply IH; try done. cbn in Hf. lia. }
  apply bool_decide_eq_true in Est.
  destruct (bulk_path w1 b R1 Hb0) as (src & rest & -> & Hrest & Hsrc & Hblk). pose proof (bulk_same w1 (src ++ rest)) as Hsame.
  destruct (lws_payload_until_length_exhausted w1 (src ++ rest)) as [[v b'] m]. destruct Hblk as (-> & -> & Hv), Hsame as (S1 & S2 & S3 & S4 & S5 & S6). cbn [fst] in *.
  destruct rest as [|c rest]; [done|].
  destruct (bump_same v (zlen src)) as (U1 & _ & U2 & U3 & U4 & U5 & U6 & U7).
  set (v1 := match rxflow_buffer v with Some _ => _ | None => v end) in *. clearbody v1. rewrite Hv in U1.
  apply Forall_app in Hb as [_ Hb]. forall_inv. rewrite length_app in Hf. cbn in Hf.
  destruct (socket_is_permanently_unusable w1) eqn:Eu.
  { eexists _, _. split; [unfold lws_rx_sm; by rewrite U5, S4|]. done. }
  assert (Hv1 : exists u, fed w src u /\ v1 ≡ u /\ RxInv v1 /\ NoExt v1).
  { destruct (decide (src = [])) as [->|Hne]; [exists w1; split_and!; [done|done|by rewrite U1|by apply (equiv_noext _ _ U1)]|]. destruct Hsrc as [|[Hs1 Hs2]]; [done|].
    assert (Tk : Taking w1) by (constructor; (done || apply N1)).
    destruct (rx_bytes_store src w1 Tk Hs1 Hs2) as (u & Eu1 & Eu2 & Tu). exists u. split_and!.
    - apply (fed_trans w [] w1); [done|by apply bytes_fed].
    - by rewrite U1, Eu2.
    - rewrite U1, <- Eu2. apply Tu.
    - apply (equiv_noext _ _ U1). unfold bulk_store, NoExt in *. by destruct w1. }
  destruct Hv1 as (u & Fu & Ev & Rv & Nv). apply (feed_byte fuel w u v1 c src rest); try congruence; try done.
  - symmetry. by apply equiv_receiver.
  - apply (feeding_drop w v1 (src ++ [c]) rest); [by rewrite <- app_assoc|congruence|]. intros Hn.
    rewrite U7, S6, Q9 by congruence. unfold zlen. rewrite length_app. cbn. lia.
  - intros. apply IH; try done. lia.
Qed.

(** ** The writer leaves the receiver alone *)

Lemma only_view v v' : tx_only v v' -> mode v <> LWSCM_WS_CLIENT -> rx_view v' = rx_view v.
Proof.
  unfold tx_only. generalize (tx v') (events v') (socket_is_permanently_unusable v'). intros t e u [E M] Hm. destruct (M Hm) as [M1 M2].
  rewrite M1, M2 in E. rewrite E. by destruct v.
Qed.

Lemma masking_server v mem len d : mode v <> LWSCM_WS_CLIENT -> do_masking v mem len d = (v, mem, true).
Proof. intros Hm. unfold do_masking. by rewrite bool_decide_false. Qed.

(** The buffer a server writes from keeps its size. *)
Lemma write_mem fuel v mem len wp v' r mem' : count_act_ext v = 0%nat -> mode v <> LWSCM_WS_CLIENT -> LWS_PRE <= zlen mem ->
  lws_write (S fuel) v mem len wp = Some (v', r, mem') -> zlen mem' = zlen mem.
Proof.
  intros Hx Hm Hl. unfold lws_write. set (d := if _ && _ then _ else _).
  assert (Hd : tx_only v d.1) by (unfold d; case_match; [apply set_tx_only|by destruct v]). destruct d as [v1 wp1]. cbn [fst] in Hd.
  pose proof (restart_only v1) as O2. rewrite <- (only_mode _ _ Hd), <- (only_mode _ _ O2) in Hm. rewrite <- (only_noext _ _ Hd), <- (only_noext _ _ O2) in Hx.
  set (v2 := lws_restart_ws_ping_pong_timer v1) in *. clearbody v2. case_match.
  { destruct (send_raw _ _ _ _ _ _ _) as [[v3 r3]|]; [|done]. intros E. by simplify_eq. }
  unfold write_ws. case_match; [intros E; by simplify_eq|]. case_match.
  { rewrite masking_server by done. destruct (send_raw _ _ _ _ _ _ _) as [[v3 r3]|]; [|done]. intros E. by simplify_eq. }
  set (v3 := set_tx _ v2). pose proof (set_tx_only (fun t => t {{ clean_buffer := true }}) v2 : tx_only v2 v3) as O3.
  rewrite <- (only_mode _ _ O3) in Hm. rewrite <- (only_noext _ _ O3) in Hx.
  destruct (ext_payload_only v3 len wp1 Hx) as (v4 & wp4 & -> & O4). rewrite <- (only_mode _ _ O4) in Hm. cbn [tok token_len].
  unfold write_frame. case_match; [case_match; [|intros E; by simplify_eq]|]; rewrite masking_server by done;
    (destruct (send_raw _ _ _ _ _ _ _) as [[v5 r5]|]; [|done]); intros E; simplify_eq; [|done].
  rewrite bool_decide_false by done. unfold zlen, LWS_PRE in *. rewrite length_splice; [done|].
  unfold frame_header. repeat case_match; cbn; lia.
Qed.

Lemma only_inv v v' : tx_only v v' -> mode v <> LWSCM_WS_CLIENT -> RxInv v -> RxInv v'.
Proof. intros O Hm. apply inv_view. by apply only_view. Qed.

Lemma inv_ping v mem : RxInv v -> zlen mem = zlen (ping_payload_buf v) -> RxInv (v {{ ping_payload_buf := mem }}).
Proof. intros [] E. constructor; destruct v; rcbn_all; try done. congruence. Qed.

(** A ping, a pong or a close frame. *)
Lemma write_ping fuel v len wp v' r mem : RxInv v -> count_act_ext v = 0%nat -> mode v <> LWSCM_WS_CLIENT ->
  lws_write (S fuel) v (ping_payload_buf v) len wp = Some (v', r, mem) -> RxInv (v' {{ ping_payload_buf := mem }}).
Proof.
  intros R Hx Hm E. pose proof (write_only _ _ _ _ _ _ _ _ Hx E) as O. pose proof (ri_ping _ R) as Hp.
  apply write_mem in E; [|done|done|rewrite Hp; unfold LWS_PRE; lia]. apply inv_ping; [by apply (only_inv v)|].
  rewrite E. f_equal. destruct O as [-> _]. by destruct v.
Qed.

Lemma user_service_view v pollfd : rx_view (user_service v pollfd).1 = rx_view v.
Proof.
  unfold user_service, lws_calllback_as_writeable. set (d := if pollfd then _ else _).
  assert (Hd : rx_view d.1 = rx_view v) by (unfold d; destruct pollfd; by destruct v). destruct d as [v1 bad]. cbn [fst] in Hd.
  case_match; [done|]. case_match; [done|]. by rewrite callback_view.
Qed.

Lemma user_service_inv v pollfd v' r : RxInv v -> Some (user_service v pollfd) = Some (v', r) -> RxInv v'.
Proof. intros R [= E]. pose proof (user_service_view v pollfd) as U. rewrite E in U. by apply (inv_view v). Qed.

(** The service of a writable socket. *)
Lemma pollout_inv fuel v pollfd v' r : RxInv v -> count_act_ext v = 0%nat -> mode v <> LWSCM_WS_CLIENT ->
  lws_handle_POLLOUT_event (S fuel) v pollfd = Some (v', r) -> RxInv v'.
Proof.
  intros R Hx Hm. unfold lws_handle_POLLOUT_event. case_match.
  { pose proof (issue_raw_only v PTrunc (trunc_len (tx v)) Hx) as O. destruct (lws_issue_raw _ _ _) as [v1 n]. intros E. simplify_eq. by apply (only_inv v). }
  case_match; [intros E; by simplify_eq|]. case_match; [by apply user_service_inv|]. case_match.
  { destruct (lws_write _ _ _ _ _) as [[[v1 n] mem]|] eqn:E; [|done]. apply write_ping in E; [|done..].
    case_match; intros E'; [by simplify_eq|]. case_match; simplify_eq; (eapply inv_view; [|exact E]; by destruct v1). }
  case_match.
  { set (v0 := set_tx _ v). assert (O : tx_only v v0) by apply set_tx_only.
    destruct (lws_write _ _ _ _ _) as [[[v1 n] mem]|] eqn:E; [|done].
    apply (write_ping fuel v0) in E; [|by apply (only_inv v)|by rewrite (only_noext v v0 O)|by rewrite (only_mode v v0 O)].
    case_match; intros E'; simplify_eq; [done|]. eapply inv_view; [|exact E].
    unfold lws_set_timeout. change (nz PENDING_TIMEOUT_WS_PONG_CHECK_GET_PONG) with true. cbn [negb andb]. case_match; by destruct v1. }
  unfold pollout_user. case_match; [by apply user_service_inv|]. case_match.
  { destruct (lws_write _ _ _ _ _) as [[[v1 n] mem]|] eqn:E; [|done]. apply write_only in E; [|done]. intros E'. simplify_eq. by apply (only_inv v). }
  rewrite ext_none by done. change (nz 0) with false. cbv iota. case_match; [by apply user_service_inv|].
  assert (Es : (if bool_decide (mode v = LWSCM_RAW) || bool_decide (mode v = LWSCM_RAW_FILEDESC) then Some (v, None) else spill_ext_loop (S fuel) v) = Some (v, None)).
  { case_match; [done|]. cbn [spill_ext_loop]. by rewrite ext_none by done. }
  rewrite Es. apply user_service_inv. apply (only_inv v); [apply set_tx_only|done|done].
Qed.

Lemma pollout_total fuel v pollfd : count_act_ext v = 0%nat -> is_Some (lws_handle_POLLOUT_event (S fuel) v pollfd).
Proof.
  intros Hx. unfold lws_handle_POLLOUT_event. case_match; [by destruct (lws_issue_raw _ _ _)|]. case_match; [done|]. case_match; [done|].
  case_match; [destruct (write_total fuel v (ping_payload_buf v) (ping_payload_len v) (if payload_is_close v then LWS_WRITE_CLOSE else LWS_WRITE_PONG) Hx)
    as [[[v1 n] mem] ->]; repeat case_match; done|].
  case_match.
  { set (v0 := set_tx _ v). assert (O : tx_only v v0) by apply set_tx_only.
    destruct (write_total fuel v0 (ping_payload_buf v0) 0 LWS_WRITE_PING) as [[[v1 n] mem] ->]; [by rewrite (only_noext _ _ O)|]. by case_match. }
  unfold pollout_user. case_match; [done|]. case_match.
  { by destruct (write_total fuel v [] 0 LWS_WRITE_CONTINUATION Hx) as [[[v1 n] mem] ->]. }
  rewrite ext_none by done. change (nz 0) with false. cbv iota. case_match; [done|]. cbn [spill_ext_loop]. rewrite ext_none by done. by destruct (bool_decide _ || bool_decide _).
Qed.

(** ** One service *)

Definition data_of (q : list recv_result) : bytes := concat (map (fun r => match r with RData b => b | _ => [] end) q).

(** The bytes that are still to go through the receiver. *)
Definition stream (s : service) : bytes := kept_aside (conn s) ++ default [] (ah_rx s) ++ data_of (sock s).

Context `{ModestVhost} (depth fuel i : nat) (us : bool).

(** A connection that can take bytes. *)
Record Able (s : service) : Prop := {
  ab_live : Live i us (sc s);
  ab_mode : mode (conn s) = LWSCM_WS_SERVING;
  ab_inv : RxInv (conn s);
  ab_noext : NoExt (conn s)
}.

Record Sound (s : service) : Prop := {
  so_able : Able s;
  so_flow : FlowOk (conn s);
  so_ah : rxflow_buffer (conn s) <> None -> ah_rx s = None;
  so_bytes : all_u8 (stream s)
}.

(** From [s] to [s'] the bytes [buf] were offered; what was not taken is kept. *)
Record Offered (s : service) (buf : bytes) (s' : service) : Prop := {
  of_able : Able s';
  of_flow : FlowOk (conn s');
  of_bytes : all_u8 (kept_aside (conn s'));
  of_sock : sock s' = sock s;
  of_fed : state (conn s') = LWSS_ESTABLISHED -> state (conn s) = LWSS_ESTABLISHED /\ (kept_aside (conn s') <> [] -> Stopped (conn s')) /\
    exists taken, buf = taken ++ kept_aside (conn s') /\ fed (conn s) taken (conn s')
}.

Definition Served (P : service -> Prop) (r : option result) : Prop :=
  match r with Some (Handled s _) => P s | Some (Closed _ _ _) => True | None => False end.

Lemma close_served s n P : Live i us (sc s) -> Served P (close_and_handled (S depth) (S fuel) s n).
Proof.
  intros L. unfold close_and_handled. destruct (close_live False depth fuel i us (sc s) LWS_CLOSE_STATUS_NOSTATUS L ltac:(done)) as [St _].
  destruct (lws_close_free_wsi _ _ _ _) as [[w|w]|]; [done..|]. by destruct St.
Qed.

Lemma able_wsi s v : Able s -> mode v = mode (conn s) -> wsi_id v = wsi_id (conn s) -> state v ∈ LWSS_SHUTDOWN :: live_states -> RxInv v -> NoExt v ->
  Able (on_conn (fun _ => v) s).
Proof.
  intros [L Hm R N] Em Ei Es Rv Nv. constructor; unfold conn in *; destruct s as [w a q]; cbn in *; destruct w; cbn in *; [|by rewrite Em|done|done].
  destruct L. constructor; cbn in *; try done; try congruence. apply Nv.
Qed.

(** A step that is none of the receiver's. *)
Lemma able_core s v : Able s -> Core (conn s) v -> RxInv v -> Able (on_conn (fun _ => v) s).
Proof.
  intros A [K1 K2 K3 K4 K5 K6 K7 K8] R. apply able_wsi; try done; [rewrite K4; apply A|]. destruct (ab_noext _ A) as [N1 N2].
  split; [congruence|]. rewrite <- N2. assert (Er : receiver v = receiver (conn s)) by (apply K6; rewrite (ab_mode _ A); done).
  unfold receiver in Er. congruence.
Qed.

(** lws_read *)
Lemma read_offered s buf : Able s -> all_u8 buf -> Feeding (conn s) buf -> Served (Offered s buf) (lws_read (S depth) (S fuel) s buf).
Proof.
  intros A Hb Hf. pose proof (lv_state _ _ _ (ab_live _ A)) as Hst. fold (conn s) in Hst.
  assert (Keep : state (conn s) <> LWSS_ESTABLISHED -> Offered s buf s).
  { intros Hs. constructor; try done; (destruct Hf as [Hn|[Hp ?]]; [unfold FlowOk, kept_aside; by rewrite Hn|]); [done|by rewrite Hp]. }
  destruct (interpret_fed (S fuel + length buf) (conn s) buf) as (v & m & E & Hv); [lia|apply A|apply A|done|done|].
  assert (Go : Served (Offered s buf) ('(v, m) ← lws_interpret_incoming_packet (S fuel + length buf) (conn s) buf;
    if m <? 0 then close_and_handled (S depth) (S fuel) (on_conn (fun _ => v) s) (-1) else Some (Handled (on_conn (fun _ => v) s) 0))).
  { rewrite E. cbn [mbind option_bind].
    pose proof (packet_serviced _ _ _ _ _ (proj1 (ab_noext _ A)) E) as [Q1 Q2 Q3 Q4].
    assert (Hs : state v ∈ LWSS_SHUTDOWN :: live_states) by (destruct Q4 as [->| ->]; [done|unfold live_states; set_solver]).
    destruct (m <? 0) eqn:Em.
    - apply close_served. apply (other_live i us (sc s) v); [apply A|by constructor].
    - destruct (Hv ltac:(lia)) as [C1 C2 C3 C4 C5 C6 C9 (taken & C7 & C8)]. constructor.
      + by apply able_wsi.
      + by destruct s as [[] ? ?].
      + rewrite C7 in Hb. apply Forall_app in Hb as [_ Hb]. by destruct s as [[] ? ?].
      + by destruct s.
      + unfold conn in *. destruct s as [[] ? ?]. cbn in *. intros Hv'. rewrite Hv' in C3. destruct C3 as [C3|C3]; [|done]. split; [done|]. split; [done|]. by exists taken. }
  unfold lws_read. rewrite (bool_decide_true (mode (conn s) = LWSCM_WS_SERVING)) by apply A.
  unfold live_states in Hst. rewrite !elem_of_cons in Hst.
  destruct Hst as [Hs|[Hs|[Hs|[Hs|[Hs|Hs]]]]]; [..|by apply not_elem_of_nil in Hs]; rewrite Hs; try exact Go; by apply Keep; rewrite Hs.
Qed.

Lemma on_same s : on_conn (fun _ => conn s) s = s.
Proof. by destruct s as [[] ? ?]. Qed.

Lemma preparse_offered s data : Able s -> all_u8 data -> Feeding (conn s) data ->
  Served (Offered s data) (preparse (S depth) (S fuel) (S fuel) s data (mkTok TUser (zlen data))).
Proof.
  intros A Hb Hf. cbn [preparse]. rewrite (ext_none _ _ _ (proj1 (ab_noext _ A))). rewrite on_same. change (0 <? 0) with false. cbv iota.
  change (nz 0) with false. cbn [tok token_len]. unfold zlen at 2. rewrite Nat2Z.id, take_ge by lia.
  destruct (nz (zlen data)) eqn:Ez.
  - pose proof (read_offered s data A Hb Hf) as R. destruct (lws_read _ _ _ _) as [[s1 n|s1 f n]|]; done.
  - cbn [mbind option_bind]. assert (data = []) as -> by (destruct data; [done|]; rewrite zlen_cons in Ez; unfold nz in Ez; pose proof (zlen_nonneg data); lia).
    assert (Hp : FlowOk (conn s) /\ kept_aside (conn s) = []) by (destruct Hf as [Hn|[]]; [unfold FlowOk, kept_aside; by rewrite Hn|done]).
    constructor; try done; [apply Hp|by rewrite (proj2 Hp)|]. intros Hs. split; [done|]. split; [by rewrite (proj2 Hp)|]. exists []. split; [by rewrite (proj2 Hp)|constructor].
Qed.

(** The end of a drain: the header table goes, and a buffer that is used up. *)
Lemma drain_offered s data d : Able s -> all_u8 data -> Feeding (conn s) data ->
  Served (fun s' => Offered s data s' /\ ah_rx s' = None) (drain (S depth) (S fuel) s data d).
Proof.
  intros A Hb Hf. unfold drain. pose proof (preparse_offered s data A Hb Hf) as P. destruct (preparse _ _ _ _ _ _) as [[s1 n|s1 f n]|]; [|done..].
  cbn [mbind option_bind]. cbv zeta. set (s2 := s1 {{ ah_rx := None }}).
  assert (E2 : conn s2 = conn s1 /\ sc s2 = sc s1 /\ sock s2 = sock s1 /\ ah_rx s2 = None) by (by destruct s1).
  destruct E2 as (W2 & L2 & S2 & Ha2). clearbody s2. destruct P as [[L M R N] F U S C]. rewrite <- L2 in L. rewrite <- W2 in *.
  case_match eqn:Ed; cbn [Served].
  - apply andb_true_iff in Ed as [_ Ed]. destruct (rxflow_buffer (conn s2)) as [b|] eqn:Eb; [|done].
    set (v0 := (conn s2) {{ rxflow_buffer := None }}). set (v := (lws_rx_flow_control v0).1).
    replace (on_conn _ s2) with (on_conn (fun _ => v) s2) by (by destruct s2 as [[] ? ?]).
    assert (K : Core v0 v) by apply rxflow_core. pose proof (flow_view v0 : rx_view v = rx_view v0) as Kv.
    assert (E0 : wsi_id v0 = wsi_id (conn s2) /\ mode v0 = mode (conn s2) /\ state v0 = state (conn s2) /\ rx_view v0 = rx_view (conn s2) /\
      receiver v0 = receiver (conn s2) /\ rxflow_buffer v0 = None) by (unfold v0; by destruct (conn s2)).
    destruct E0 as (Z1 & Z2 & Z3 & Z4 & Z5 & Z6). clearbody v0. destruct K as [K1 K2 K3 K4 K5 K6 K7 K8]. clearbody v.
    assert (Wv : conn (on_conn (fun _ => v) s2) = v /\ sock (on_conn (fun _ => v) s2) = sock s2 /\ ah_rx (on_conn (fun _ => v) s2) = ah_rx s2)
      by (by destruct s2 as [[] ? ?]). destruct Wv as (V1 & V2 & V3).
    split; [|by rewrite V3]. constructor; rewrite ?V1, ?V2; try congruence.
    + apply able_wsi; try congruence; [by constructor|rewrite K4, Z3; apply L|eapply inv_view; [|exact R]; congruence|eapply noext_view; [|exact N]; congruence].
    + unfold FlowOk. by rewrite K7, Z6.
    + unfold kept_aside. by rewrite K7, Z6.
    + intros Hs. destruct C as (C1 & _ & taken & C2 & C3); [congruence|]. split; [done|]. split; [unfold kept_aside; by rewrite K7, Z6|]. exists taken. split.
      * rewrite C2. f_equal. unfold kept_aside. rewrite Eb, K7, Z6. apply drop_ge. unfold zlen in Ed. lia.
      * apply (fed_other _ _ (conn s2)); [done|]. rewrite K6; [done|congruence].
  - split; [|done]. constructor; [by constructor|done|done|congruence|done].
Qed.

(** From one service to the next. *)
Definition Next (s s' : service) : Prop :=
  Sound s' /\ (state (conn s') = LWSS_ESTABLISHED -> state (conn s) = LWSS_ESTABLISHED /\
    exists taken, stream s = taken ++ stream s' /\ fed (conn s) taken (conn s')).

Lemma next_refl s : Sound s -> Next s s.
Proof. intros So. split; [done|]. intros Hs. split; [done|]. exists []. split; [done|constructor]. Qed.

Lemma offered_next s s1 data s' : all_u8 (stream s) -> stream s = data ++ data_of (sock s1) -> receiver (conn s1) = receiver (conn s) ->
  state (conn s1) = state (conn s) -> Offered s1 data s' /\ ah_rx s' = None -> Next s s'.
Proof.
  intros Hu Es Er Est [[A F U S C] Ha]. split.
  - constructor; try done. unfold stream. rewrite Ha, S. rewrite Es in Hu. apply Forall_app in Hu as [_ Hu]. apply Forall_app. by split.
  - intros Hs. destruct (C Hs) as (C1 & _ & taken & C2 & C3). split; [congruence|]. exists taken. split.
    + rewrite Es, C2. unfold stream. by rewrite Ha, S, <- app_assoc.
    + change taken with ([] ++ taken). apply (fed_trans _ _ (conn s1)); [|done]. apply (fed_other _ _ (conn s)); [constructor|done].
Qed.

(** A result of recv without bytes. *)
Lemma sock_next s q : Sound s -> data_of (sock s) = data_of q -> Next s (s {{ sock := q }}).
Proof.
  intros So E. assert (Es : stream (s {{ sock := q }}) = stream s) by (unfold stream; rewrite E; by destruct s).
  split.
  - destruct So as [[]]. constructor; [|by destruct s..|by rewrite Es]. constructor; by destruct s.
  - intros Hs. split; [by destruct s|]. exists []. rewrite Es. split; [done|]. destruct s. constructor.
Qed.

(** New bytes. *)
Lemma read_more_next s : Sound s -> rxflow_buffer (conn s) = None -> Served (Next s) (read_more (S depth) (S fuel) s).
Proof.
  intros So Hn. pose proof (so_able _ So) as A. pose proof (so_bytes _ So) as Hu.
  assert (Hst : stream s = default [] (ah_rx s) ++ data_of (sock s)) by (unfold stream, kept_aside; by rewrite Hn).
  unfold read_more. destruct (ah_rx s) as [b|] eqn:Ea; cbn [default] in Hst.
  { rewrite Hst in Hu. pose proof Hu as Hb. apply Forall_app in Hb as [Hb _]. pose proof (drain_offered s b false A Hb (or_introl Hn)) as D.
    destruct (drain _ _ _ _ _) as [[s' n|s' f n]|]; [|done..]. apply (offered_next s s b); try done. by rewrite Hst. }
  cbn [app] in Hst. set (len := if _ >? _ then _ else _). clearbody len. unfold lws_ssl_capable_read_no_ssl.
  destruct (sock s) as [|[b| |] q] eqn:Eq; [by apply next_refl| |..].
  2: { change (LWS_SSL_CAPABLE_MORE_SERVICE =? 0) with false. change (LWS_SSL_CAPABLE_MORE_SERVICE =? LWS_SSL_CAPABLE_MORE_SERVICE) with true. cbv iota.
       apply (sock_next s q So). by rewrite Eq. }
  2: { apply close_served. destruct s. apply A. }
  set (got := take (Z.to_nat len) b). set (q' := if bool_decide _ then q else _). set (s1 := on_conn lws_restart_ws_ping_pong_timer _).
  assert (Hd : data_of (RData b :: q) = got ++ data_of q').
  { unfold got, q'. rewrite <- (take_drop (Z.to_nat len) b) at 1. unfold data_of. cbn [map concat]. rewrite <- app_assoc. f_equal.
    case_bool_decide as Hr; [by rewrite Hr|done]. }
  assert (A1 : Able s1 /\ receiver (conn s1) = receiver (conn s) /\ state (conn s1) = state (conn s) /\ rxflow_buffer (conn s1) = None /\ sock s1 = q').
  { pose proof (restart_only (conn s)) as O. set (v := lws_restart_ws_ping_pong_timer (conn s)) in *.
    assert (E1 : s1 = on_conn (fun _ => v) (s {{ sock := q' }})) by (unfold s1, v; by destruct s as [[] ? ?]). rewrite E1.
    pose proof (only_core _ _ O) as C. assert (Hm : mode (conn s) <> LWSCM_WS_CLIENT) by (rewrite (ab_mode _ A); done).
    split; [|destruct C; unfold conn in *; destruct s as [[] ? ?]; cbn in *; split_and!; (congruence || auto)].
    apply able_core; [|by destruct s|apply (only_inv (conn s)); try done; apply A]. destruct A. constructor; by destruct s. }
  destruct A1 as (A1 & Er & Est & Hn1 & Eq1). clearbody s1.
  rewrite Hst, Hd in Hu. pose proof Hu as Hg. apply Forall_app in Hg as [Hg _].
  destruct (zlen got =? 0) eqn:Ez; [apply close_served, A1|]. pose proof (zlen_nonneg got).
  rewrite !(proj2 (Z.eqb_neq (zlen got) _)) by (unfold LWS_SSL_CAPABLE_MORE_SERVICE, LWS_SSL_CAPABLE_ERROR; lia).
  pose proof (drain_offered s1 got false A1 Hg (or_introl Hn1)) as D. destruct (drain _ _ _ _ _) as [[s' n|s' f n]|]; [|done..].
  apply (offered_next s s1 got); try done; [by rewrite Hst, Hd|by rewrite Hst, Hd, Eq1].
Qed.

Lemma core_next s v : Sound s -> Core (conn s) v -> RxInv v -> Next s (on_conn (fun _ => v) s).
Proof.
  intros [A F Ha U] C R. pose proof (able_core s v A C R) as A1. set (s1 := on_conn (fun _ => v) s) in *.
  assert (E1 : conn s1 = v /\ ah_rx s1 = ah_rx s /\ sock s1 = sock s) by (by destruct s as [[] ? ?]). destruct E1 as (E1 & E2 & E3). clearbody s1.
  destruct C as [K1 K2 K3 K4 K5 K6 K7 K8].
  assert (Ep : kept_aside v = kept_aside (conn s)) by (unfold kept_aside; by rewrite K7, K8).
  assert (Es : stream s1 = stream s) by (unfold stream; by rewrite E1, E2, E3, Ep). split.
  - constructor; rewrite ?E1, ?E2; [done|unfold FlowOk in *; by rewrite K7, K8|by rewrite K7|by rewrite Es].
  - rewrite E1. intros Hs. split; [congruence|]. exists []. rewrite Es. split; [done|]. apply (fed_other _ _ (conn s)); [constructor|].
    apply K6. rewrite (ab_mode _ A). done.
Qed.

Lemma next_trans s s1 s2 : Next s s1 -> Next s1 s2 -> Next s s2.
Proof.
  intros [_ N1] [So N2]. split; [done|]. intros Hs. destruct (N2 Hs) as (Hs1 & b & E2 & F2). destruct (N1 Hs1) as (Hs0 & a & E1 & F1).
  split; [done|]. exists (a ++ b). split; [by rewrite E1, E2, app_assoc|by apply (fed_trans _ _ (conn s1))].
Qed.

Lemma served_next s s1 r : Next s s1 -> Served (Next s1) r -> Served (Next s) r.
Proof. intros N. destruct r as [[s2 n|s2 f n]|]; cbn; [|done..]. by apply next_trans. Qed.

(** The receiving side. *)
Lemma receive_next s rin : Sound s -> Served (Next s) (receive (S depth) (S fuel) s rin).
Proof.
  intros So. pose proof (so_able _ So) as A. unfold receive. rewrite (proj2 (ab_noext _ A)), andb_false_r.
  case_match; [by apply next_refl|]. case_match; [by apply next_refl|].
  destruct (rxflow_buffer (conn s)) as [b|] eqn:Eb.
  - assert (Ep : kept_aside (conn s) = drop (Z.to_nat (rxflow_pos (conn s))) b) by (unfold kept_aside; by rewrite Eb). rewrite <- Ep.
    pose proof (so_bytes _ So) as Hu. pose proof Hu as Hb. unfold stream in Hb. apply Forall_app in Hb as [Hb _].
    assert (Hf : Feeding (conn s) (kept_aside (conn s))) by (right; split; [done|apply So]).
    pose proof (drain_offered s (kept_aside (conn s)) true A Hb Hf) as D. destruct (drain _ _ _ _ _) as [[s' n|s' f n]|]; [|done..].
    apply (offered_next s s (kept_aside (conn s))); try done. unfold stream. by rewrite (so_ah _ So) by congruence.
  - case_match; [by apply next_refl|by apply read_more_next].
Qed.

(** Bytes that were kept aside are taken when the flow is allowed again, until it is stopped. *)
Lemma receive_resumes s b rin : Sound s -> rxflow_buffer (conn s) = Some b -> ~ Stopped (conn s) -> tx_draining_ext (tx (conn s)) = false ->
  Served (fun s' => state (conn s') = LWSS_ESTABLISHED -> kept_aside (conn s') <> [] -> Stopped (conn s')) (receive (S depth) (S fuel) s rin).
Proof.
  intros So Eb Hs Ht. pose proof (so_able _ So) as A. unfold receive. rewrite (proj2 (ab_noext _ A)), andb_false_r, Ht, Eb.
  apply not_false_is_true in Hs. rewrite Hs. cbn [negb].
  assert (Ep : kept_aside (conn s) = drop (Z.to_nat (rxflow_pos (conn s))) b) by (unfold kept_aside; by rewrite Eb). rewrite <- Ep.
  pose proof (so_bytes _ So) as Hb. unfold stream in Hb. apply Forall_app in Hb as [Hb _].
  assert (Hf : Feeding (conn s) (kept_aside (conn s))) by (right; split; [done|apply So]).
  pose proof (drain_offered s (kept_aside (conn s)) true A Hb Hf) as D. destruct (drain _ _ _ _ _) as [[s' n|s' f n]|]; [|done..].
  cbn in *. destruct D as [[_ _ _ _ D] _]. intros Hst. by destruct (D Hst) as (_ & ? & _).
Qed.

(** lws_rx_flow_control *)
Lemma set_flow_core v e : Core v (set_rx_flow_control v e).
Proof. unfold set_rx_flow_control. case_match; by destruct v; constructor. Qed.

Lemma set_flow_inv v e : RxInv v -> RxInv (set_rx_flow_control v e).
Proof. apply inv_view. unfold set_rx_flow_control. case_match; by destruct v. Qed.

(** What the service does when the peer has closed or is closing. *)
Lemma closing_core v : Core v (set_tx (fun t => t {{ tx_draining_ext := false }}) (set_rx_flow_control v 1)).
Proof. pose proof (set_flow_core v 1) as C. destruct (set_rx_flow_control v 1), C. by constructor. Qed.

Lemma closing_inv v : RxInv v -> RxInv (set_tx (fun t => t {{ tx_draining_ext := false }}) (set_rx_flow_control v 1)).
Proof. intros R. apply (inv_view (set_rx_flow_control v 1)); [by destruct (set_rx_flow_control v 1)|by apply set_flow_inv]. Qed.

Lemma on_next s f : Sound s -> Core (conn s) (f (conn s)) -> RxInv (f (conn s)) -> Next s (on_conn f s).
Proof. intros So C R. replace (on_conn f s) with (on_conn (fun _ => f (conn s)) s) by (by destruct s as [[] ? ?]). by apply core_next. Qed.

Lemma pollout_next s : Sound s -> exists w bad, pollout_fails (S fuel) (sc s) = Some (w, bad) /\ Live i us w /\
  (bad = false -> Next s (s {{ sc := w }})).
Proof.
  intros So. pose proof (so_able _ So) as A. pose proof (ab_live _ A) as L. assert (Hm : mode (conn s) <> LWSCM_WS_CLIENT) by (by rewrite (ab_mode _ A)).
  unfold pollout_fails. case_match.
  2: { exists (sc s), false. split_and!; try done. intros _. replace (s {{ sc := sc s }}) with s by (by destruct s). by apply next_refl. }
  destruct (pollout_total fuel (conn s) true (proj1 (ab_noext _ A))) as [[v n] E]. change (cw (sc s)) with (conn s). rewrite E. cbn [mbind option_bind].
  pose proof (pollout_core _ _ _ _ _ (proj1 (ab_noext _ A)) E) as C. pose proof (pollout_inv _ _ _ _ _ (ab_inv _ A) (proj1 (ab_noext _ A)) Hm E) as R.
  destruct (live_wsi i us (sc s) v L C) as [L1 _]. case_match.
  - eexists _, true. split; [done|]. split; [|done]. case_match; [|done]. apply live_on; [done|intros u; by destruct u|].
    replace (state _) with LWSS_FLUSHING_STORED_SEND_BEFORE_CLOSE by (by destruct s as [[[]] ? ?]). unfold live_states. set_solver.
  - exists ((sc s) {{ cw := v }}), false. split_and!; try done. intros _.
    replace (s {{ sc := (sc s) {{ cw := v }} }}) with (on_conn (fun _ => v) s) by (by destruct s as [[] ? ?]). by apply core_next.
Qed.

Lemma service_next s rv : Sound s -> Served (Next s) (lws_service_fd_tsi (S depth) (S fuel) s rv).
Proof.
  intros So. pose proof (so_able _ So) as A. pose proof (ab_live _ A) as L. unfold lws_service_fd_tsi.
  case_match. { apply close_served. apply (live_on i us (sc s)); [done|intros v; by destruct v|]. pose proof (lv_state _ _ _ L). by destruct (cw (sc s)). }
  case_match; [by apply close_served|].
  assert (Hp : exists w bad, (if r_out rv then pollout_fails (S fuel) (sc s) else Some (sc s, false)) = Some (w, bad) /\
    Live i us w /\ (bad = false -> Next s (s {{ sc := w }}))).
  { destruct (r_out rv); [by apply pollout_next|]. exists (sc s), false. split_and!; try done. intros _.
    replace (s {{ sc := sc s }}) with s by (by destruct s). by apply next_refl. }
  destruct Hp as (w & bad & -> & Lw & Hn). cbn [mbind option_bind]. set (s1 := s {{ sc := w }}) in *.
  destruct bad; [apply close_served; by destruct s|]. specialize (Hn eq_refl). apply (served_next s s1 _ Hn). destruct Hn as [S1 _]. clearbody s1.
  cbv zeta. case_match; [|by apply receive_next].
  set (f := fun v : lws => _). assert (N2 : Next s1 (on_conn f s1)) by (apply on_next; [done|apply closing_core|apply closing_inv, S1]).
  apply (served_next s1 _ _ N2). apply receive_next, N2.
Qed.

(** ** The life of a connection *)

(** Services, bytes that arrive, and what else the application and the library do with a
    connection in between (writing, timers, changes of flow control). *)
Inductive serves (s0 : service) : bytes -> service -> Prop :=
| serves_start : serves s0 [] s0
| serves_service a s rv s' n : serves s0 a s -> lws_service_fd_tsi (S depth) (S fuel) s rv = Some (Handled s' n) -> serves s0 a s'
| serves_arrives a s q : serves s0 a s -> all_u8 (data_of q) -> serves s0 (a ++ data_of q) (s {{ sock ::= (fun l => l ++ q) }})
| serves_other a s v : serves s0 a s -> Core (conn s) v -> RxInv v -> serves s0 a (on_conn (fun _ => v) s).

Lemma stream_arrives s q : stream (s {{ sock ::= (fun l => l ++ q) }}) = stream s ++ data_of q.
Proof. unfold stream, data_of. destruct s. cbn. by rewrite map_app, concat_app, !app_assoc. Qed.

Lemma serves_sound s0 a s : Sound s0 -> serves s0 a s -> Sound s /\ (state (conn s) = LWSS_ESTABLISHED ->
  state (conn s0) = LWSS_ESTABLISHED /\ exists taken, stream s0 ++ a = taken ++ stream s /\ fed (conn s0) taken (conn s)).
Proof.
  intros S0. assert (Go : forall a s s', (Sound s /\ (state (conn s) = LWSS_ESTABLISHED ->
     state (conn s0) = LWSS_ESTABLISHED /\ exists taken, stream s0 ++ a = taken ++ stream s /\ fed (conn s0) taken (conn s))) -> Next s s' ->
     Sound s' /\ (state (conn s') = LWSS_ESTABLISHED -> state (conn s0) = LWSS_ESTABLISHED /\
       exists taken, stream s0 ++ a = taken ++ stream s' /\ fed (conn s0) taken (conn s'))).
  { intros b x x' [_ Hx] [Sx Hx']. split; [done|]. intros Hs. destruct (Hx' Hs) as (Hs1 & t & E1 & F1). destruct (Hx Hs1) as (Hs0 & u & E0 & F0).
    split; [done|]. exists (u ++ t). split; [by rewrite E0, E1, app_assoc|by apply (fed_trans _ _ (conn x))]. }
  induction 1 as [|a s rv s' n _ IH E|a s q _ IH Hq|a s v _ IH C R].
  - split; [done|]. intros Hs. split; [done|]. exists []. split; [by rewrite app_nil_r|constructor].
  - apply (Go a s s' IH). pose proof (service_next s rv (proj1 IH)) as N. by rewrite E in N.
  - destruct IH as [[A F Ha U] IH]. split.
    + constructor; [destruct A; constructor; by destruct s|by destruct s..|]. rewrite stream_arrives. apply Forall_app. by split.
    + intros Hs. destruct IH as (Hs0 & taken & E & F'); [by destruct s|]. split; [done|]. exists taken. rewrite stream_arrives, app_assoc, E, <- app_assoc.
      split; [done|]. by destruct s.
  - apply (Go a s _ IH). apply core_next; [apply IH|done..].
Qed.

(** C4: flow control loses no byte, as long as there is memory. For a WebSocket connection
    of a server, with no extension and no children, with callbacks that do not change its
    state or its receiver ([ModestCallback], [LwsEnvOk]; they may write, stop and allow the
    flow), while the memory to keep bytes aside can be allocated: however bytes arrive at
    the socket and whenever the protocol stops and allows the flow, every service returns;
    while the connection is established, the bytes that have gone through the receiver, each
    once and in order, followed by those kept aside, those left in the header table and
    those not read yet, are exactly the bytes that came; and a service with the flow allowed
    and no output of an extension to drain takes all that was kept aside, or the protocol
    has stopped the flow again. (Without memory bytes are lost: [flow_gaps].) *)
Theorem flow_keeps_bytes s0 a s : Sound s0 -> serves s0 a s ->
  (forall rv, is_Some (lws_service_fd_tsi (S depth) (S fuel) s rv)) /\
  (state (conn s) = LWSS_ESTABLISHED -> exists taken, stream s0 ++ a = taken ++ stream s /\ fed (conn s0) taken (conn s)) /\
  (forall rin b s' n, state (conn s) = LWSS_ESTABLISHED -> rxflow_buffer (conn s) = Some b -> ~ Stopped (conn s) -> tx_draining_ext (tx (conn s)) = false ->
     lws_service_fd_tsi (S depth) (S fuel) s (mkRev rin false false) = Some (Handled s' n) ->
     state (conn s') = LWSS_ESTABLISHED -> kept_aside (conn s') <> [] -> Stopped (conn s')).
Proof.
  intros S0 [So Hf]%(serves_sound s0); [|done]. split_and!.
  - intros rv. pose proof (service_next s rv So) as N. by destruct (lws_service_fd_tsi _ _ s rv).
  - intros Hs. apply (Hf Hs).
  - intros rin b s' n Hs Eb Hst Ht. unfold lws_service_fd_tsi. cbn [r_in r_out r_hup]. rewrite andb_false_r. cbn [mbind option_bind].
    replace (s {{ sc := sc s }}) with s by (by destruct s). cbv zeta. rewrite Hs. change (bool_decide _ || bool_decide _) with false. cbv iota. intros E.
    pose proof (receive_resumes s b rin So Eb Hst Ht) as R. by rewrite E in R.
Qed.

End Flow.
(** ** A protocol that takes one message at a time *)

(** It stops the flow when it has received something; [mem]: whether there is memory. *)
Definition stop_env (mem : bool) : LwsEnv := {|
  lp64 := true;
  has_callback := true;
  protocol_callback w r _ := (if r =? LWS_CALLBACK_RECEIVE then set_rx_flow_control w 0 else w, 0);
  ext_callback _ w _ t := (w, t, 0);
  change_pollfd _ _ _ := 0;
  socket_write _ b := zlen b;
  random4 _ := Some [1; 2; 3; 4];
  malloc_ok _ _ := mem;
  send_pipe_choked _ := false;
  now_secs _ := 0
|}.

#[local] Instance stop_env_ok : @LwsEnvOk (stop_env true).
Proof.
  constructor.
  - intros w r d. cbn. case_match; [|done]. unfold set_rx_flow_control. case_match; by destruct w.
  - intros r d w w' Hw. split; [|done]. cbn. case_match; [|done]. unfold set_rx_flow_control. equiv_step. case_ifs; equiv_solve.
  - done.
  - cbn. intros n w r t Ht. split; [done|lia].
  - intros w w' _ ? ? _ ? ? _. done.
  - intros w w' _ ? ? _. done.
  - intros w w' _. done.
Qed.

#[local] Instance stop_modest : @ModestCallback (stop_env true).
Proof. split; [|done]. intros v r d. cbn. case_match; [apply set_flow_core|by constructor]. Qed.

(** Two text frames that arrive together. *)
Definition demo_frames : bytes := [129; 130; 1; 2; 3; 4; 105; 107; 129; 130; 1; 2; 3; 4; 110; 105].

Definition demo_start : service := mkServ (demo_closing (demo_wsi 4) []) None [].
Definition handled (r : option result) : service := match r with Some (Handled s _) => s | _ => demo_start end.

Section Demo.
Context (mem : bool).
#[local] Existing Instances stop_env demo_vhost.

(** The frames arrive and are read; the flow is allowed again; the rest is taken. *)
Definition demo_arrived : service := demo_start {{ sock ::= (fun l => l ++ [RData demo_frames]) }}.
Definition demo_stopped : service := handled (lws_service_fd_tsi (H := stop_env mem) 1 1 demo_arrived (mkRev true false false)).
Definition demo_allowed : service := on_conn (fun _ => set_rx_flow_control (conn demo_stopped) 1) demo_stopped.
Definition demo_resumed : service := handled (lws_service_fd_tsi (H := stop_env mem) 1 1 demo_allowed (mkRev false false false)).

End Demo.

Definition messages (s : service) : list bytes :=
  omap (fun e => match e with ECallback r d => if r =? LWS_CALLBACK_RECEIVE then Some d else None | _ => None end) (events (conn s)).

#[local] Existing Instances demo_vhost demo_modest_vhost.

Lemma demo_sound : Sound (H := stop_env true) 1 true demo_start.
Proof.
  constructor; [constructor; [apply demo_live|done|by constructor|done]|done|done|exact (Forall_nil_2 _)].
Qed.

Lemma flow_keeps_bytes_witness :
  stream (demo_stopped true) = drop 8 demo_frames /\ messages (demo_stopped true) = [bstr "hi"] /\
  messages (demo_resumed true) = [bstr "hi"; bstr "ok"] /\ stream (demo_resumed true) = [] /\
  exists taken, demo_frames = taken ++ stream (demo_resumed true) /\ fed (H := stop_env true) (conn demo_start) taken (conn (demo_resumed true)).
Proof.
  do 4 (split; [vm_compute; reflexivity|]).
  assert (V : serves (H := stop_env true) 0 0 demo_start demo_frames (demo_stopped true)).
  { apply (serves_service _ _ _ _ demo_arrived (mkRev true false false) _ 0); [|vm_compute; reflexivity].
    apply (serves_arrives _ _ _ [] demo_start [RData demo_frames]); [apply serves_start|by repeat constructor]. }
  apply (flow_keeps_bytes (H := stop_env true) (fun _ _ => eq_refl) 0 0 1 true demo_start demo_frames (demo_resumed true) demo_sound).
  - apply (serves_service _ _ _ _ (demo_allowed true) (mkRev false false false) _ 0); [|vm_compute; reflexivity].
    apply serves_other; [exact V|apply set_flow_core|apply set_flow_inv].
    apply (serves_sound (H := stop_env true) (fun _ _ => eq_refl) 0 0 1 true _ _ _ demo_sound V).
  - vm_compute. reflexivity.
Defined.

(** Without memory for the rest it is lost: lws_rxflow_cache fails, nobody looks at its
    result, and the connection goes on as if the bytes had never come. *)
Lemma flow_gaps : state (conn (demo_stopped false)) = LWSS_ESTABLISHED /\
  messages (demo_stopped false) = [bstr "hi"] /\ stream (demo_stopped false) = [].
Proof. by vm_compute. Qed.

End ServiceProps.
