(* ===== verification/WsClient.v ===== *)
(** * Client side of the WebSocket receiver (lib/client-parser.c)

    The counterpart of [lws_rx_sm] for connections this side has opened, with the
    checks the server side leaves out: reserved bits, fragmentation order and
    UTF-8.  A CLOSE is answered from within, so the operations carry the [fuel]
    of [lws_write].  The second test of [rx_draining_ext], in the payload state,
    cannot succeed after the first one at the head of the function. *)

From S2P Require Import Prelude Utf8 Ws WsRx WsTx.


Definition LWS_CLOSE_STATUS_PROTOCOL_ERR : Z := 1002.

Section Client.
Context `{LwsEnv}.

(** [already_done:] *)
Definition client_done (w : lws) : option (lws * Z) := Some (w {{ rx_ubuf_head := 0 }}, 0).

(** The last part of [drain_extension:], from the NUL on. *)
Definition client_deliver (w : lws) (action n : Z) (eff : lws_tokens) : option (lws * Z) :=
  if (token_len eff <? 0) && negb (action =? LWS_CALLBACK_CLIENT_RECEIVE_PONG) then client_done w else
  match tok eff with
  | TNull => client_done w
  | _ =>
      let w := store_nul w eff in
      if negb has_callback then client_done w else
      let w := if nz n && nz (token_len eff)
               then lws_add_wsi_to_draining_ext_list w
               else lws_remove_wsi_from_draining_ext_list w in
      if bool_decide (state w = LWSS_RETURNED_CLOSE_ALREADY) || bool_decide (state w = LWSS_AWAITING_CLOSE_ACK)
      then client_done w else
      let '(w, m) := run_callback w action (tok_data w eff) in
      if nz m then Some (w, 1) else client_done w
  end.

(** [drain_extension:] *)
Definition client_drain (w : lws) (action : Z) (draining : bool) (eff : lws_tokens) : option (lws * Z) :=
  let '(w, eff, n) := lws_ext_cb_active w LWS_EXT_CB_PAYLOAD_RX eff in
  if n <? 0 then Some (w {{ socket_is_permanently_unusable := true }}, -1) else
  if draining && (token_len eff =? 0) then client_done w else
  if check_utf8 w && negb (defeat_check_utf8 w) then
    let '(s, bad) := Utf8.lws_check_utf8 (utf8 w) (tok_data w eff) in
    if nz bad then Some (w, -1) else
    let w := w {{ utf8 := s }} in
    if (rx_packet_length w =? 0) && final w && nz (utf8 w) && negb (nz n) then Some (w, -1)
    else client_deliver w action n eff
  else client_deliver w action n eff.

(** The close codes an endpoint may not send. *)
Definition bad_close_code (code : Z) : bool :=
  (code <? 1000) || (code =? 1004) || (code =? 1005) || (code =? 1006) || (code =? 1012)
  || (code =? 1013) || (code =? 1014) || (code =? 1015) || ((code >=? 1016) && (code <? 3000)).

(** Replace an illegal close code in the received payload. *)
Definition fix_close_code (w : lws) : lws :=
  if rx_ubuf_head w >=? 2 then
    let pp := drop (Z.to_nat LWS_PRE) (rx_ubuf w) in
    let code := u16 ((znth pp 0 .<< 8) .| znth pp 1) in
    if bad_close_code code
    then w {{ rx_ubuf ::= (fun b => insert (Z.to_nat (LWS_PRE + 1)) (LWS_CLOSE_STATUS_PROTOCOL_ERR .& 255)
                (insert (Z.to_nat LWS_PRE) ((LWS_CLOSE_STATUS_PROTOCOL_ERR .>> 8) .& 255) b)) }}
    else w
  else w.

(** The CLOSE branch of the spill. *)
Definition client_close (fuel : nat) (w : lws) : option (lws * Z) :=
  let '(w, bad) :=
    if opt_validate_utf8 w && (rx_ubuf_head w >? 2) then
      let '(s, bad) := Utf8.lws_check_utf8 (utf8 w) (drop 2 (ubuf_data w (rx_ubuf_head w))) in
      (w {{ utf8 := s }}, bad)
    else (w, 0) in
  if nz bad then Some (w, -1) else
  if bool_decide (state w = LWSS_AWAITING_CLOSE_ACK) then Some (w, -1) else
  let w := fix_close_code w in
  let '(w, n) := user_callback_handle_rxflow w LWS_CALLBACK_WS_PEER_INITIATED_CLOSE
                   (ubuf_data w (rx_ubuf_head w)) in
  if nz n then Some (w, -1) else
  if lws_partial_buffered w
  then Some (w {{ socket_is_permanently_unusable := true; state := LWSS_RETURNED_CLOSE_ALREADY }}, -1)
  else
    match lws_write fuel w (rx_ubuf w) (rx_ubuf_head w) LWS_WRITE_CLOSE with
    | None => None
    | Some (w, _, mem) => Some (w {{ rx_ubuf := mem; state := LWSS_RETURNED_CLOSE_ALREADY }}, -1)
    end.

(** The PING branch. *)
Definition client_ping (w : lws) : option (lws * Z) :=
  if nz (close_in_ping_buffer_len w) then client_done w else
  if ping_pending_flag w then client_done w else
  if rx_ubuf_head w >? 128 - 3 then client_done w else
  client_done (lws_callback_on_writable
    (w {{ ping_payload_buf ::= splice (Z.to_nat LWS_PRE) (ubuf_data w (rx_ubuf_head w));
          ping_payload_len := u8 (rx_ubuf_head w); ping_pending_flag := true }})).

(** [spill:] *)
Definition client_spill (fuel : nat) (w : lws) : option (lws * Z) :=
  let eff := mkTok TUbuf (rx_ubuf_head w) in
  if opcode w =? LWSWSOPC_CLOSE then client_close fuel w
  else if opcode w =? LWSWSOPC_PING then client_ping w
  else if opcode w =? LWSWSOPC_PONG then
    let w := if pending_timeout w =? PENDING_TIMEOUT_WS_PONG_CHECK_GET_PONG then clear_timeout w else w in
    client_drain w LWS_CALLBACK_CLIENT_RECEIVE_PONG false eff
  else if (opcode w =? LWSWSOPC_CONTINUATION) || (opcode w =? LWSWSOPC_TEXT_FRAME)
          || (opcode w =? LWSWSOPC_BINARY_FRAME) then
    client_drain w LWS_CALLBACK_CLIENT_RECEIVE false eff
  else
    let '(w, _, _) := lws_ext_cb_active w LWS_EXT_CB_EXTENDED_PAYLOAD_RX eff in
    client_done w.

Definition is_data_start (op : Z) : bool := (op =? LWSWSOPC_TEXT_FRAME) || (op =? LWSWSOPC_BINARY_FRAME).
Definition illegal_op (op : Z) : bool := ((3 <=? op) && (op <=? 7)) || ((11 <=? op) && (op <=? 15)).

(** The first [switch] on the opcode, for the opcodes it does not refuse. *)
Definition client_opcode (w : lws) (c : Z) : lws :=
  let op := c .& 15 in
  let close := op =? LWSWSOPC_CLOSE in
  w {{ opcode := op;
       defeat_check_utf8 := negb (is_data_start op || (op =? LWSWSOPC_CONTINUATION) || close);
       rsv_first_msg ::= (fun r => if is_data_start op then c .& 112 else r);
       continuation_possible ::= (fun b => is_data_start op || b);
       check_utf8 ::= (fun b => if op =? LWSWSOPC_TEXT_FRAME then opt_validate_utf8 w
                                else if (op =? LWSWSOPC_BINARY_FRAME) || close then false else b);
       utf8 ::= (fun s => if (op =? LWSWSOPC_TEXT_FRAME) || close then 0 else s) }}.

(** [case LWS_RXPS_NEW:] *)
Definition client_first (w : lws) (c : Z) : lws * Z :=
  if negb (ietf_spec_revision w =? 13) then (w {{ defeat_check_utf8 := false }}, 0) else
  let op := c .& 15 in
  let fin := nz ((c .>> 7) .& 1) in
  let ctl := nz (op .& 8) in
  if ((op =? LWSWSOPC_CONTINUATION) && negb (continuation_possible w)) || illegal_op op
  then (w {{ defeat_check_utf8 := false; opcode := op }}, -1) else
  let w := (client_opcode w c) {{ rsv := c .& 112 }} in
  if (count_act_ext w =? 0)%nat && nz (c .& 112) then (w, -1) else
  let w := w {{ final := fin }} in
  if owed_a_fin w && is_data_start op then (w, -1) else
  let w := w {{ continuation_possible ::= (fun b => b && negb (negb ctl && fin));
                owed_a_fin ::= (fun b => b && negb (negb ctl && fin)) }} in
  if ctl && negb fin then (w, -1) else
  (w {{ owed_a_fin ::= (fun b => b || negb fin);
        frame_is_binary ::= (fun b => if is_data_start op then op =? LWSWSOPC_BINARY_FRAME else b);
        lws_rx_parse_state := RXPS_04_FRAME_HDR_LEN }}, 0).

(** Where a complete length leads; a frame without mask and payload ends here. *)
Definition client_after_len (fuel : nat) (w : lws) : option (lws * Z) :=
  if this_frame_masked w then Some (w {{ lws_rx_parse_state := RXPS_07_COLLECT_FRAME_KEY_1 }}, 0)
  else if nz (rx_packet_length w)
  then Some (w {{ lws_rx_parse_state := RXPS_PAYLOAD_UNTIL_LENGTH_EXHAUSTED }}, 0)
  else client_spill fuel (w {{ lws_rx_parse_state := RXPS_NEW }}).

(** [case LWS_RXPS_04_FRAME_HDR_LEN:]; the length takes the whole byte. *)
Definition client_hdr_len (fuel : nat) (w : lws) (c : Z) : option (lws * Z) :=
  let w := w {{ this_frame_masked := nz (c .& 128) }} in
  if c .& 127 =? 126 then
    if nz (opcode w .& 8) then Some (w, -1)
    else Some (w {{ lws_rx_parse_state := RXPS_04_FRAME_HDR_LEN16_2 }}, 0)
  else if c .& 127 =? 127 then
    if nz (opcode w .& 8) then Some (w, -1)
    else Some (w {{ lws_rx_parse_state := RXPS_04_FRAME_HDR_LEN64_8 }}, 0)
  else client_after_len fuel (w {{ rx_packet_length := c }}).

(** The extended length states. *)
Definition client_ext_len (fuel : nat) (w : lws) (c : Z) : option (lws * Z) :=
  match lws_rx_parse_state w with
  | RXPS_04_FRAME_HDR_LEN16_2 =>
      Some (w {{ rx_packet_length := c .<< 8; lws_rx_parse_state := RXPS_04_FRAME_HDR_LEN16_1 }}, 0)
  | RXPS_04_FRAME_HDR_LEN64_8 =>
      if nz (c .& 128) then Some (w, -1)
      else Some (w {{ rx_packet_length := (if lp64 then c .<< 56 else 0);
                      lws_rx_parse_state := RXPS_04_FRAME_HDR_LEN64_7 }}, 0)
  | RXPS_04_FRAME_HDR_LEN64_7 => Some (len64_byte true 48 RXPS_04_FRAME_HDR_LEN64_6 w c)
  | RXPS_04_FRAME_HDR_LEN64_6 => Some (len64_byte true 40 RXPS_04_FRAME_HDR_LEN64_5 w c)
  | RXPS_04_FRAME_HDR_LEN64_5 => Some (len64_byte true 32 RXPS_04_FRAME_HDR_LEN64_4 w c)
  | RXPS_04_FRAME_HDR_LEN64_4 => Some (len64_byte false 24 RXPS_04_FRAME_HDR_LEN64_3 w c)
  | RXPS_04_FRAME_HDR_LEN64_3 => Some (len64_byte false 16 RXPS_04_FRAME_HDR_LEN64_2 w c)
  | RXPS_04_FRAME_HDR_LEN64_2 => Some (len64_byte false 8 RXPS_04_FRAME_HDR_LEN64_1 w c)
  | _ => client_after_len fuel (w {{ rx_packet_length ::= (fun l => l .| c) }})
  end.

(** The states that collect the masking key. *)
Definition client_frame_key (fuel : nat) (w : lws) (c : Z) : option (lws * Z) :=
  match lws_rx_parse_state w with
  | RXPS_07_COLLECT_FRAME_KEY_1 =>
      Some ((store_mask 0 c w) {{ lws_rx_parse_state := RXPS_07_COLLECT_FRAME_KEY_2 }}, 0)
  | RXPS_07_COLLECT_FRAME_KEY_2 =>
      Some ((store_mask 1 c w) {{ lws_rx_parse_state := RXPS_07_COLLECT_FRAME_KEY_3 }}, 0)
  | RXPS_07_COLLECT_FRAME_KEY_3 =>
      Some ((store_mask 2 c w) {{ lws_rx_parse_state := RXPS_07_COLLECT_FRAME_KEY_4 }}, 0)
  | _ =>
      let w := store_mask 3 c w in
      if nz (rx_packet_length w)
      then Some (w {{ lws_rx_parse_state := RXPS_PAYLOAD_UNTIL_LENGTH_EXHAUSTED }}, 0)
      else client_spill fuel (w {{ lws_rx_parse_state := RXPS_NEW }})
  end.

(** Store one byte of payload. *)
Definition client_payload_byte (w : lws) (c : Z) : lws :=
  let pos := Z.to_nat (LWS_PRE + rx_ubuf_head w) in
  let w := if this_frame_masked w && negb (all_zero_nonce w)
           then w {{ rx_ubuf ::= insert pos (c .^ znth (mask w) (mask_idx w .& 3));
                     mask_idx ::= (fun i => u8 (i + 1)) }}
           else w {{ rx_ubuf ::= insert pos c }} in
  w {{ rx_ubuf_head ::= (fun h => u32 (h + 1));
       rx_packet_length ::= (fun l => wrap SIZE_W (l - 1)) }}.

(** [case LWS_RXPS_PAYLOAD_UNTIL_LENGTH_EXHAUSTED:] *)
Definition client_payload (fuel : nat) (w : lws) (c : Z) : option (lws * Z) :=
  let w := client_payload_byte w c in
  if rx_packet_length w =? 0 then client_spill fuel (w {{ lws_rx_parse_state := RXPS_NEW }}) else
  if negb (rx_ubuf_head w =? spill_size w) then Some (w, 0) else client_spill fuel w.

Definition lws_client_rx_sm (fuel : nat) (w : lws) (c : Z) : option (lws * Z) :=
  if rx_draining_ext w then
    let w := if nz c then emit EAssert w else w in   (* assert(!c) *)
    client_drain (lws_remove_wsi_from_draining_ext_list w) LWS_CALLBACK_CLIENT_RECEIVE true (mkTok TNull 0)
  else if socket_is_permanently_unusable w then Some (w, -1) else
  match lws_rx_parse_state w with
  | RXPS_NEW => Some (client_first w c)
  | RXPS_04_FRAME_HDR_LEN => client_hdr_len fuel w c
  | RXPS_07_COLLECT_FRAME_KEY_1 | RXPS_07_COLLECT_FRAME_KEY_2
  | RXPS_07_COLLECT_FRAME_KEY_3 | RXPS_07_COLLECT_FRAME_KEY_4 => client_frame_key fuel w c
  | RXPS_PAYLOAD_UNTIL_LENGTH_EXHAUSTED => client_payload fuel w c
  | RXPS_04_mask_1 | RXPS_04_mask_2 | RXPS_04_mask_3 | RXPS_04_FRAME_HDR_1 => Some (w, 1)
  | _ => client_ext_len fuel w c
  end.

End Client.
