(* ===== verification/WsClientFacts.v ===== *)
(** * What the client receiver delivers

    Frames without mask, as servers send them: header, payload and delivery, for
    a connection without extensions. *)

From S2P Require Import Prelude Utf8 Ws WsRx WsRxFacts WsTx WsClient.

Section ClientFacts.
Context `{LwsEnv}.

(** Feed bytes until one is not answered with 0; the caller closes then. *)
Fixpoint crx_bytes (fuel : nat) (w : lws) (l : bytes) : option (lws * Z) :=
  match l with
  | [] => Some (w, 0)
  | c :: r =>
      match lws_client_rx_sm fuel w c with
      | Some (w, m) => if m =? 0 then crx_bytes fuel w r else Some (w, m)
      | None => None
      end
  end.

Lemma crx_bytes_app fuel w l k : crx_bytes fuel w (l ++ k) =
  match crx_bytes fuel w l with
  | Some (w', m) => if m =? 0 then crx_bytes fuel w' k else Some (w', m)
  | None => None
  end.
Proof.
  revert w. induction l as [|c l IH]; intros w; cbn [crx_bytes app]; [done|].
  destruct (lws_client_rx_sm fuel w c) as [[w1 m1]|]; [|done]. destruct (m1 =? 0) eqn:E; [apply IH|by rewrite E].
Qed.

Lemma crx_cons0 fuel w c l w' : lws_client_rx_sm fuel w c = Some (w', 0) ->
  crx_bytes fuel w (c :: l) = crx_bytes fuel w' l.
Proof. intros E. cbn [crx_bytes]. by rewrite E. Qed.

Lemma client_open fuel w c : Ready w -> lws_client_rx_sm fuel w c =
  match lws_rx_parse_state w with
  | RXPS_NEW => Some (client_first w c)
  | RXPS_04_FRAME_HDR_LEN => client_hdr_len fuel w c
  | RXPS_07_COLLECT_FRAME_KEY_1 | RXPS_07_COLLECT_FRAME_KEY_2
  | RXPS_07_COLLECT_FRAME_KEY_3 | RXPS_07_COLLECT_FRAME_KEY_4 => client_frame_key fuel w c
  | RXPS_PAYLOAD_UNTIL_LENGTH_EXHAUSTED => client_payload fuel w c
  | RXPS_04_mask_1 | RXPS_04_mask_2 | RXPS_04_mask_3 | RXPS_04_FRAME_HDR_1 => Some (w, 1)
  | _ => client_ext_len fuel w c
  end.
Proof. intros R. unfold lws_client_rx_sm. by rewrite (rd_usable _ R), (rd_drain _ R). Qed.

(** ** The header *)

(** What a complete length leads to. *)
Definition len_known (fuel : nat) (w : lws) (n : Z) : option (lws * Z) :=
  if n =? 0 then client_spill fuel (w {{ this_frame_masked := false; rx_packet_length := 0;
                                         lws_rx_parse_state := RXPS_NEW }})
  else Some (with_len w false n, 0).

Definition cended (o : option (lws * Z)) : option (lws * Z) :=
  match o with Some (w, m) => if m =? 0 then Some (w, 0) else Some (w, m) | None => None end.

Lemma cended_id o : cended o = o.
Proof. destruct o as [[w m]|]; [|done]. cbn. destruct (m =? 0) eqn:E; [|done]. zbool. by subst. Qed.

Lemma after_len_known fuel w n : client_after_len fuel
  (w {{ this_frame_masked := false; rx_packet_length := n }}) = len_known fuel w n.
Proof.
  unfold client_after_len, len_known, with_len. destruct w. rcbn. unfold nz.
  destruct (n =? 0) eqn:E; [|done]. zbool. by subst.
Qed.

Lemma after_len_state fuel v s : client_after_len fuel (v {{ lws_rx_parse_state := s }}) = client_after_len fuel v.
Proof.
  unfold client_after_len.
  replace (this_frame_masked (v {{ lws_rx_parse_state := s }})) with (this_frame_masked v) by (by destruct v).
  replace (rx_packet_length (v {{ lws_rx_parse_state := s }})) with (rx_packet_length v) by (by destruct v).
  assert (E : forall s', (v {{ lws_rx_parse_state := s }}) {{ lws_rx_parse_state := s' }} = v {{ lws_rx_parse_state := s' }})
    by (by destruct v). by rewrite !E.
Qed.

(** The last byte of an extended length. *)
Lemma ext_len_last fuel w st l c n : l .| c = n ->
  client_after_len fuel ((at_len (w {{ this_frame_masked := false }}) st l) {{ rx_packet_length ::= (fun l => l .| c) }}) =
  len_known fuel w n.
Proof.
  intros <-. rewrite <- after_len_known, <- (after_len_state fuel (w {{ this_frame_masked := false; rx_packet_length := _ }}) st).
  f_equal; unfold at_len; by destruct w.
Qed.

Lemma crx_last fuel w c : crx_bytes fuel w [c] = lws_client_rx_sm fuel w c.
Proof. cbn [crx_bytes]. apply cended_id. Qed.

Lemma crx_len fuel w n : Ready w -> lws_rx_parse_state w = RXPS_04_FRAME_HDR_LEN -> data_op (opcode w) \/ n < 126 ->
  0 <= n < len_limit -> crx_bytes fuel w (rfc_len 0 n) = len_known fuel w n.
Proof.
  intros R Hst Hop Hn. unfold rfc_len. set (w1 := w {{ this_frame_masked := false }}).
  assert (R1 : Ready w1) by (apply (ready_ext w); [done|unfold w1; destruct w; try done; apply R..]).
  assert (Ra : forall st l, Ready (at_len w1 st l)) by (intros; by apply at_len_ready).
  assert (E1 : forall l, (at_len w1 (lws_rx_parse_state w) l) = w {{ this_frame_masked := false; rx_packet_length := l }})
    by (intros l; unfold at_len, w1; by destruct w).
  destruct (n <? 126) eqn:E126; zbool.
  { rewrite crx_last, (client_open _ _ _ R), Hst. unfold client_hdr_len.
    destruct (mbit_len false n ltac:(lia)) as [Ea Eb]. change (mbit false) with 0 in *. rewrite Ea, Eb.
    rewrite !(proj2 (Z.eqb_neq n _)) by lia. rewrite Z.lor_0_l, <- after_len_known. by destruct w. }
  destruct Hop as [Hop|]; [|lia].
  destruct (n <? 65536) eqn:E6; zbool.
  - rewrite (crx_cons0 _ _ _ _ (at_len w1 RXPS_04_FRAME_HDR_LEN16_2 (rx_packet_length w))).
    2: { rewrite (client_open _ _ _ R), Hst. unfold client_hdr_len. change ((0 .| 126) .& 127) with 126.
         change (nz ((0 .| 126) .& 128)) with false. fold w1. cbn [Z.eqb Pos.eqb].
         replace (opcode w1) with (opcode w) by (by destruct w). rewrite data_op_ctl by done. unfold w1. by destruct w. }
    rewrite (crx_cons0 _ _ _ _ (at_len w1 RXPS_04_FRAME_HDR_LEN16_1 ((n .>> 8) .<< 8))).
    2: { rewrite (client_open _ _ _ (Ra _ _)). unfold at_len. by destruct w1. }
    rewrite crx_last, (client_open _ _ _ (Ra _ _)). 
    pose proof (lor_next_byte n 0 ltac:(lia)) as E. rewrite Z.add_0_l, !Z.shiftl_0_r, !Z.shiftr_0_r in E.
    transitivity (client_after_len fuel ((at_len w1 RXPS_04_FRAME_HDR_LEN16_1 ((n .>> 8) .<< 8)) {{ rx_packet_length ::= (fun l => l .| (n .& 255)) }}));
      [done|by apply ext_len_last].
  - rewrite (crx_cons0 _ _ _ _ (at_len w1 RXPS_04_FRAME_HDR_LEN64_8 (rx_packet_length w))).
    2: { rewrite (client_open _ _ _ R), Hst. unfold client_hdr_len. change ((0 .| 127) .& 127) with 127.
         change (nz ((0 .| 127) .& 128)) with false. fold w1. cbn [Z.eqb Pos.eqb].
         replace (opcode w1) with (opcode w) by (by destruct w). rewrite data_op_ctl by done. unfold w1. by destruct w. }
    cbn [map].
    assert (Hb : 0 <= n .>> 56 < 2 ^ 7) by (apply shiftr_range; unfold len_limit in Hn; destruct lp64; lia).
    rewrite (crx_cons0 _ _ _ _ (at_len w1 RXPS_04_FRAME_HDR_LEN64_7 ((n .>> 56) .<< 56))).
    2: { rewrite (client_open _ _ _ (Ra _ _)). change (8 * 7) with 56. rewrite land_255, Z.mod_small by lia.
         pose proof (mbit_len false (n .>> 56) ltac:(lia)) as [_ E]. rewrite Z.lor_0_l in E.
         transitivity (Some (at_len w1 RXPS_04_FRAME_HDR_LEN64_7 (if lp64 then (n .>> 56) .<< 56 else 0), 0)).
         - unfold at_len, client_ext_len. destruct w1. rcbn. by rewrite E.
         - unfold len_limit in Hn. destruct lp64; [done|]. by rewrite Z.shiftr_div_pow2, Z.div_small by lia. }
    assert (Hst64 : forall j only st st', 0 <= j -> (only = true -> 32 <= j) ->
      (forall v c, lws_rx_parse_state v = st -> Ready v -> lws_client_rx_sm fuel v c = Some (len64_byte only j st' v c)) ->
      lws_client_rx_sm fuel (at_len w1 st ((n .>> (j + 8)) .<< (j + 8))) ((n .>> j) .& 255) =
        Some (at_len w1 st' ((n .>> j) .<< j), 0)).
    { intros j only st st' Hj Ho Hs. rewrite Hs by (done || by destruct w1). f_equal. by apply len64_byte_at. }
    assert (Hx : forall j only st st',
      (forall v c, lws_rx_parse_state v = st -> client_ext_len fuel v c = Some (len64_byte only j st' v c)) ->
      match st with RXPS_04_FRAME_HDR_LEN64_7 | RXPS_04_FRAME_HDR_LEN64_6 | RXPS_04_FRAME_HDR_LEN64_5
        | RXPS_04_FRAME_HDR_LEN64_4 | RXPS_04_FRAME_HDR_LEN64_3 | RXPS_04_FRAME_HDR_LEN64_2 => True | _ => False end ->
      forall v c, lws_rx_parse_state v = st -> Ready v -> lws_client_rx_sm fuel v c = Some (len64_byte only j st' v c)).
    { intros j only st st' Hc Hm v c Hv Rv. rewrite (client_open _ _ _ Rv), Hv. destruct st; try done; by apply Hc. }
    erewrite crx_cons0; [|apply (Hst64 48 true _ RXPS_04_FRAME_HDR_LEN64_6); [lia|lia|apply Hx; [intros v c Hv; unfold client_ext_len; by rewrite Hv|done]]].
    erewrite crx_cons0; [|apply (Hst64 40 true _ RXPS_04_FRAME_HDR_LEN64_5); [lia|lia|apply Hx; [intros v c Hv; unfold client_ext_len; by rewrite Hv|done]]].
    erewrite crx_cons0; [|apply (Hst64 32 true _ RXPS_04_FRAME_HDR_LEN64_4); [lia|lia|apply Hx; [intros v c Hv; unfold client_ext_len; by rewrite Hv|done]]].
    erewrite crx_cons0; [|apply (Hst64 24 false _ RXPS_04_FRAME_HDR_LEN64_3); [lia|lia|apply Hx; [intros v c Hv; unfold client_ext_len; by rewrite Hv|done]]].
    erewrite crx_cons0; [|apply (Hst64 16 false _ RXPS_04_FRAME_HDR_LEN64_2); [lia|lia|apply Hx; [intros v c Hv; unfold client_ext_len; by rewrite Hv|done]]].
    erewrite crx_cons0; [|apply (Hst64 8 false _ RXPS_04_FRAME_HDR_LEN64_1); [lia|lia|apply Hx; [intros v c Hv; unfold client_ext_len; by rewrite Hv|done]]].
    rewrite crx_last, (client_open _ _ _ (Ra _ _)). change (8 * 0) with 0.
    pose proof (lor_next_byte n 0 ltac:(lia)) as E. rewrite Z.add_0_l, !Z.shiftl_0_r in E. rewrite Z.shiftr_0_r in E at 2.
    transitivity (client_after_len fuel ((at_len w1 RXPS_04_FRAME_HDR_LEN64_1 ((n .>> 8) .<< 8)) {{ rx_packet_length ::= (fun l => l .| ((n .>> 0) .& 255)) }}));
      [done|by apply ext_len_last].
Qed.

(** ** Frames of a message *)

(** The client connection between frames; it is owed the end of a message exactly
    when a continuation may come. *)
Record CIdle (w : lws) : Prop := {
  ci_ready : Ready w;
  ci_state : lws_rx_parse_state w = RXPS_NEW;
  ci_head : rx_ubuf_head w = 0;
  ci_frag : continuation_possible w = owed_a_fin w
}.

Definition fin_bit (b0 : Z) : bool := nz ((b0 .>> 7) .& 1).

(** A data frame fits the message it belongs to: a continuation goes on with one,
    a text or binary frame starts one. *)
Definition fits (w : lws) (b0 : Z) : Prop :=
  data_op (b0 .& 15) /\ b0 .& 112 = 0 /\
  ((b0 .& 15 = LWSWSOPC_CONTINUATION) <-> owed_a_fin w = true).

Record COpened (w w1 : lws) (b0 : Z) : Prop := {
  co_ready : Ready w1;
  co_state : lws_rx_parse_state w1 = RXPS_04_FRAME_HDR_LEN;
  co_op : opcode w1 = b0 .& 15;
  co_head : rx_ubuf_head w1 = 0;
  co_events : events w1 = events w;
  co_size : spill_size w1 = spill_size w;
  co_frag : continuation_possible w1 = negb (fin_bit b0) /\ owed_a_fin w1 = negb (fin_bit b0);
  co_final : final w1 = fin_bit b0;
  co_check : check_utf8 w1 = if b0 .& 15 =? LWSWSOPC_TEXT_FRAME then opt_validate_utf8 w
                             else if b0 .& 15 =? LWSWSOPC_BINARY_FRAME then false else check_utf8 w;
  co_defeat : defeat_check_utf8 w1 = false;
  co_utf8 : utf8 w1 = if b0 .& 15 =? LWSWSOPC_TEXT_FRAME then 0 else utf8 w
}.

Lemma client_first_ok fuel w b0 : CIdle w -> fits w b0 ->
  exists w1, lws_client_rx_sm fuel w b0 = Some (w1, 0) /\ COpened w w1 b0.
Proof.
  intros [R Hst Hh Hf] (Hop & Hr & Hc). rewrite (client_open _ _ _ R), Hst. unfold client_first.
  rewrite (rd_rev _ R), Hr. cbn [Z.eqb Pos.eqb negb]. cbv zeta. fold (fin_bit b0).
  assert (Ho : owed_a_fin w = (b0 .& 15 =? LWSWSOPC_CONTINUATION)).
  { apply eq_true_iff_eq. by rewrite Z.eqb_eq. }
  rewrite (data_op_ctl _ Hop). cbn [negb andb].
  assert (Hil : illegal_op (b0 .& 15) = false) by (by destruct Hop as [->|[->| ->]]).
  rewrite Hil, orb_false_r, Hf, Ho.
  assert (Hcc : (b0 .& 15 =? LWSWSOPC_CONTINUATION) && negb (b0 .& 15 =? LWSWSOPC_CONTINUATION) = false)
    by (by destruct (b0 .& 15 =? LWSWSOPC_CONTINUATION)). rewrite Hcc. clear Hcc Hc Hil.
  change (nz 0) with false. rewrite andb_false_r.
  set (w2 := ((client_opcode w b0) {{ rsv := 0 }}) {{ final := fin_bit b0 }}).
  assert (W2 : owed_a_fin w2 = owed_a_fin w) by (unfold w2, client_opcode; by destruct w).
  rewrite W2, Ho.
  assert (Hd : (b0 .& 15 =? LWSWSOPC_CONTINUATION) && is_data_start (b0 .& 15) = false)
    by (by destruct Hop as [->|[->| ->]]). rewrite Hd. clear Hd W2.
  eexists. split; [reflexivity|]. unfold w2, client_opcode. clear w2. rewrite Ho in Hf.
  split; try (destruct w; done).
  - apply (ready_ext w); [done|destruct w; try done; apply R..].
  - split.
    + transitivity ((is_data_start (b0 .& 15) || continuation_possible w) && negb (fin_bit b0)); [by destruct w|].
      rewrite Hf. by destruct Hop as [->|[->| ->]].
    + transitivity (owed_a_fin w && negb (fin_bit b0) || negb (fin_bit b0)); [by destruct w|].
      by destruct (owed_a_fin w), (fin_bit b0).
  - transitivity (if b0 .& 15 =? LWSWSOPC_TEXT_FRAME then opt_validate_utf8 w
      else if (b0 .& 15 =? LWSWSOPC_BINARY_FRAME) || (b0 .& 15 =? LWSWSOPC_CLOSE) then false else check_utf8 w);
      [by destruct w|]. by destruct Hop as [->|[->| ->]].
  - transitivity (negb (is_data_start (b0 .& 15) || (b0 .& 15 =? LWSWSOPC_CONTINUATION) || (b0 .& 15 =? LWSWSOPC_CLOSE)));
      [by destruct w|]. by destruct Hop as [->|[->| ->]].
  - transitivity (if (b0 .& 15 =? LWSWSOPC_TEXT_FRAME) || (b0 .& 15 =? LWSWSOPC_CLOSE) then 0 else utf8 w);
      [by destruct w|]. by destruct Hop as [->|[->| ->]].
Qed.

(** Storing a byte of an unmasked payload. *)
Definition cpush (w : lws) (c : Z) : lws :=
  w {{ rx_ubuf ::= insert (Z.to_nat (LWS_PRE + rx_ubuf_head w)) c; rx_ubuf_head ::= Z.add 1;
       rx_packet_length ::= Z.add (-1) }}.

Lemma cpush_ready w c : Ready w -> Ready (cpush w c).
Proof. intros R. apply (ready_ext w); [done|unfold cpush; destruct w; cbn; try done; try apply R..]. apply length_insert. Qed.

Lemma cpush_data w c : Ready w -> 0 <= rx_ubuf_head w < spill_size w ->
  ubuf_data (cpush w c) (rx_ubuf_head w + 1) = ubuf_data w (rx_ubuf_head w) ++ [c].
Proof.
  intros R Hh. destruct R as [_ _ _ _ _ Hs Ha Hu _ _]. unfold ubuf_data, cpush, spill_size in *.
  destruct w. cbn in *.
  replace (Z.to_nat (rx_ubuf_head + 1)) with (S (Z.to_nat rx_ubuf_head)) by lia.
  rewrite Z2Nat.inj_add by (unfold LWS_PRE; lia). apply fill_insert.
  rewrite Hu, Ha. unfold LWS_PRE in *. lia.
Qed.

Lemma cpush_fields w c :
  rx_ubuf_head (cpush w c) = rx_ubuf_head w + 1 /\ rx_packet_length (cpush w c) = rx_packet_length w - 1 /\
  lws_rx_parse_state (cpush w c) = lws_rx_parse_state w /\ opcode (cpush w c) = opcode w /\
  spill_size (cpush w c) = spill_size w /\ events (cpush w c) = events w.
Proof. unfold cpush, spill_size. destruct w. cbn. repeat split; lia. Qed.

Lemma client_payload_store fuel w c : Ready w -> lws_rx_parse_state w = RXPS_PAYLOAD_UNTIL_LENGTH_EXHAUSTED ->
  this_frame_masked w = false -> 0 <= rx_ubuf_head w < spill_size w -> 0 < rx_packet_length w < 2 ^ SIZE_W ->
  lws_client_rx_sm fuel w c =
  if rx_packet_length w =? 1 then client_spill fuel ((cpush w c) {{ lws_rx_parse_state := RXPS_NEW }})
  else if rx_ubuf_head w + 1 =? spill_size w then client_spill fuel (cpush w c) else Some (cpush w c, 0).
Proof.
  intros R Hst Hm Hh Hl. rewrite (client_open _ _ _ R), Hst. unfold client_payload.
  assert (Ew : wrap SIZE_W (rx_packet_length w - 1) = -1 + rx_packet_length w) by (rewrite wrap_small; lia).
  pose proof (rd_size _ R). assert (Eh : u32 (rx_ubuf_head w + 1) = 1 + rx_ubuf_head w)
    by (rewrite u32_small; unfold LWS_PRE in *; lia).
  assert (E : client_payload_byte w c = cpush w c).
  { unfold client_payload_byte, cpush. rewrite Hm. cbn [andb]. destruct w. cbn in *. rewrite Ew, Eh. done. }
  rewrite E. destruct (cpush_fields w c) as (F1 & F2 & F3 & F4 & F5 & F6). cbv zeta. rewrite F1, F2, F5.
  replace (rx_packet_length w - 1 =? 0) with (rx_packet_length w =? 1) by (apply eq_true_iff_eq; rewrite !Z.eqb_eq; lia).
  destruct (rx_packet_length w =? 1); [done|]. by destruct (rx_ubuf_head w + 1 =? spill_size w).
Qed.

(** ** Delivery *)

Context `{!TakingCallback}.

(** The connection after the gathered bytes were given to the user. *)
Definition cdelivered (w : lws) : lws :=
  (run_callback (store_nul w (mkTok TUbuf (rx_ubuf_head w))) LWS_CALLBACK_CLIENT_RECEIVE
     (ubuf_data w (rx_ubuf_head w))).1 {{ rx_ubuf_head := 0 }}.

(** What the check of a piece [d] of text says: the new state, unless it fails. *)
Definition piece_ok (w : lws) (last : bool) (d : bytes) : option Z :=
  if check_utf8 w then
    match Utf8.utf8_loop (utf8 w) d with
    | Some s => if last && final w && nz s then None else Some s
    | None => None
    end
  else Some (utf8 w).

Lemma client_spill_data fuel w : Ready w -> 0 <= rx_ubuf_head w -> data_op (opcode w) ->
  defeat_check_utf8 w = false ->
  match piece_ok w (rx_packet_length w =? 0) (ubuf_data w (rx_ubuf_head w)) with
  | Some s => client_spill fuel w = Some (cdelivered (w {{ utf8 := s }}), 0)
  | None => exists v, client_spill fuel w = Some (v, -1) /\ events v = events w
  end.
Proof.
  intros R Hh Hop Hdf. unfold client_spill.
  assert (E : (opcode w =? LWSWSOPC_CLOSE) = false /\ (opcode w =? LWSWSOPC_PING) = false /\
              (opcode w =? LWSWSOPC_PONG) = false /\
              ((opcode w =? LWSWSOPC_CONTINUATION) || (opcode w =? LWSWSOPC_TEXT_FRAME)
               || (opcode w =? LWSWSOPC_BINARY_FRAME)) = true)
    by (destruct Hop as [->|[->| ->]]; done).
  destruct E as (-> & -> & -> & ->). unfold client_drain. rewrite (ext_none _ _ _ (rd_ext _ R)).
  cbn [Z.ltb Z.compare andb tok_data tok token_len]. rewrite Hdf, andb_true_r.
  assert (Hd : forall s, client_deliver (w {{ utf8 := s }}) LWS_CALLBACK_CLIENT_RECEIVE 0 (mkTok TUbuf (rx_ubuf_head w)) =
     Some (cdelivered (w {{ utf8 := s }}), 0)).
  { intros s. unfold client_deliver. cbn [token_len tok]. rewrite (proj2 (Z.ltb_ge _ 0)) by done. cbn [andb].
    rewrite taking_present. cbn [negb]. change (nz 0) with false. cbn [andb].
    set (v := store_nul (w {{ utf8 := s }}) (mkTok TUbuf (rx_ubuf_head w))).
    assert (Fv : rx_draining_ext v = false /\ state v = LWSS_ESTABLISHED).
    { rewrite <- (rd_drain _ R), <- (rd_state _ R). unfold v, store_nul. by destruct w. }
    destruct Fv as [Fd Fs]. unfold lws_remove_wsi_from_draining_ext_list. rewrite Fd, Fs.
    rewrite !bool_decide_false by done. cbn [orb]. unfold client_done, cdelivered.
    replace (rx_ubuf_head (w {{ utf8 := s }})) with (rx_ubuf_head w) by (by destruct w). fold v.
    cbn [tok_data tok token_len].
    replace (ubuf_data v (rx_ubuf_head w)) with (ubuf_data (w {{ utf8 := s }}) (rx_ubuf_head w)) by (unfold v; by rewrite ubuf_data_nul).
    destruct (callback_run v LWS_CALLBACK_CLIENT_RECEIVE (ubuf_data (w {{ utf8 := s }}) (rx_ubuf_head w)) ltac:(rx_reason_tac)) as (u & -> & _).
    done. }
  assert (Hw0 : w {{ utf8 := utf8 w }} = w) by (by destruct w).
  unfold piece_ok, Utf8.lws_check_utf8. destruct (check_utf8 w); [|by rewrite <- (Hd (utf8 w)), Hw0].
  destruct (Utf8.utf8_loop (utf8 w) (ubuf_data w (rx_ubuf_head w))) as [s|].
  - change (nz 0) with false. cbn iota.
    replace (rx_packet_length (w {{ utf8 := s }})) with (rx_packet_length w) by (by destruct w).
    replace (final (w {{ utf8 := s }})) with (final w) by (by destruct w).
    replace (utf8 (w {{ utf8 := s }})) with s by (by destruct w). cbn [negb]. rewrite andb_true_r.
    destruct ((rx_packet_length w =? 0) && final w && nz s); [|apply Hd].
    eexists. split; [done|]. by destruct w.
  - change (nz 1) with true. cbn iota. by eexists.
Qed.

Lemma cdelivered_acts w : exists v, cdelivered w = v {{ rx_ubuf_head := 0 }} /\
  user_acts LWS_CALLBACK_CLIENT_RECEIVE (emit (ECallback LWS_CALLBACK_CLIENT_RECEIVE (ubuf_data w (rx_ubuf_head w)))
                                           (store_nul w (mkTok TUbuf (rx_ubuf_head w)))) v.
Proof.
  unfold cdelivered. destruct (callback_run (store_nul w (mkTok TUbuf (rx_ubuf_head w))) LWS_CALLBACK_CLIENT_RECEIVE
    (ubuf_data w (rx_ubuf_head w)) ltac:(rx_reason_tac)) as (v & -> & A). by exists v.
Qed.

(** The parts a delivery leaves alone. *)
Lemma cdelivered_fields w : Ready w -> Ready (cdelivered w) /\ rx_ubuf_head (cdelivered w) = 0 /\
  lws_rx_parse_state (cdelivered w) = lws_rx_parse_state w /\
  calls (events (cdelivered w)) =
    calls (events w) ++ [ECallback LWS_CALLBACK_CLIENT_RECEIVE (ubuf_data w (rx_ubuf_head w))] /\
  spill_size (cdelivered w) = spill_size w /\ rx_packet_length (cdelivered w) = rx_packet_length w /\
  opcode (cdelivered w) = opcode w /\ this_frame_masked (cdelivered w) = this_frame_masked w.
Proof.
  intros R. destruct (cdelivered_acts w) as (v & -> & A). split.
  { apply set_head_ready, (acts_ready _ _ _ A).
    apply (ready_ext w); [done|destruct w; cbn; try done; apply R || by rewrite length_insert..]. }
  destruct A as (t & pt & pb & cl & mk & mi & ev & -> & _ & _ & _ & Ae).
  replace (calls (events w) ++ _) with (calls (events (emit (ECallback LWS_CALLBACK_CLIENT_RECEIVE
    (ubuf_data w (rx_ubuf_head w))) (store_nul w (mkTok TUbuf (rx_ubuf_head w))))))
    by (destruct w; cbn; by rewrite calls_app).
  rewrite <- Ae. unfold spill_size. by destruct w.
Qed.

(** The members that steer the check and the fragmentation. *)
Definition same_msg (w v : lws) : Prop :=
  check_utf8 v = check_utf8 w /\ defeat_check_utf8 v = defeat_check_utf8 w /\ final v = final w /\
  continuation_possible v = continuation_possible w /\ owed_a_fin v = owed_a_fin w.

Record CIn (w : lws) (p : bytes) : Prop := {
  cn_ready : Ready w;
  cn_state : lws_rx_parse_state w = RXPS_PAYLOAD_UNTIL_LENGTH_EXHAUSTED;
  cn_head : 0 <= rx_ubuf_head w < spill_size w;
  cn_len : rx_packet_length w = zlen p;
  cn_max : zlen p < 2 ^ SIZE_W;
  cn_op : data_op (opcode w);
  cn_mask : this_frame_masked w = false;
  cn_defeat : defeat_check_utf8 w = false
}.

Lemma piece_app w last g d : piece_ok w last (g ++ d) =
  match piece_ok w false g with
  | Some s => piece_ok (w {{ utf8 := s }}) last d
  | None => None
  end.
Proof.
  unfold piece_ok. destruct (check_utf8 w) eqn:E.
  2: { replace (check_utf8 (w {{ utf8 := utf8 w }})) with false by (rewrite <- E; by destruct w). by destruct w. }
  rewrite Utf8.loop_app.
  destruct (Utf8.utf8_loop (utf8 w) g) as [s|]; [|done]. cbn [andb].
  replace (check_utf8 (w {{ utf8 := s }})) with true by (rewrite <- E; by destruct w).
  replace (utf8 (w {{ utf8 := s }})) with s by (by destruct w).
  by replace (final (w {{ utf8 := s }})) with (final w) by (by destruct w).
Qed.

Lemma set_utf8_fields w s : let v := w {{ utf8 := s }} in
  (Ready w -> Ready v) /\ lws_rx_parse_state v = lws_rx_parse_state w /\ rx_ubuf_head v = rx_ubuf_head w /\
  spill_size v = spill_size w /\ rx_packet_length v = rx_packet_length w /\ opcode v = opcode w /\
  this_frame_masked v = this_frame_masked w /\ events v = events w /\ rx_ubuf v = rx_ubuf w /\ same_msg w v /\ utf8 v = s.
Proof.
  split; [intros R; apply (ready_ext w); [done|destruct w; try done; apply R..]|].
  unfold same_msg, spill_size. by destruct w.
Qed.

Lemma cdelivered_msg w : same_msg w (cdelivered w) /\ utf8 (cdelivered w) = utf8 w.
Proof.
  destruct (cdelivered_acts w) as (v & -> & (t & pt & pb & cl & mk & mi & ev & -> & _)).
  unfold same_msg. by destruct w.
Qed.

Lemma cpush_msg w c st : same_msg w (cpush w c) /\ utf8 (cpush w c) = utf8 w /\
  same_msg w ((cpush w c) {{ lws_rx_parse_state := st }}) /\ utf8 ((cpush w c) {{ lws_rx_parse_state := st }}) = utf8 w /\
  this_frame_masked (cpush w c) = this_frame_masked w.
Proof. unfold same_msg, cpush. by destruct w. Qed.

#[local] Instance same_msg_trans : Transitive same_msg.
Proof. unfold same_msg. intros x y z ? ?. intuition congruence. Qed.

Lemma piece_same w v last d : same_msg w v -> utf8 v = utf8 w -> piece_ok v last d = piece_ok w last d.
Proof. intros (E1 & _ & E3 & _) Eu. unfold piece_ok. by rewrite E1, E3, Eu. Qed.

(** The payload of a frame: delivered in pieces if the text passes, else refused. *)
Lemma client_payload_ok fuel p : forall w, p <> [] -> CIn w p ->
  let g := ubuf_data w (rx_ubuf_head w) in
  exists w' m, crx_bytes fuel w p = Some (w', m) /\
  match piece_ok w true (g ++ p) with
  | Some s => m = 0 /\ Ready w' /\ lws_rx_parse_state w' = RXPS_NEW /\ rx_ubuf_head w' = 0 /\
      same_msg w w' /\ utf8 w' = s /\ spill_size w' = spill_size w /\
      calls (events w') = calls (events w) ++ map (ECallback LWS_CALLBACK_CLIENT_RECEIVE) (deliver (spill_size w) g p)
  | None => m = -1
  end.
Proof.
  induction p as [|x p IH]; intros w Hp [R Hst Hh Hl Hm Hop Hmk Hdf]; [done|]. cbv zeta. rewrite zlen_cons in *.
  pose proof (zlen_nonneg p) as Hz. cbn [crx_bytes].
  rewrite (client_payload_store fuel w x R Hst Hmk Hh) by lia. rewrite Hl.
  pose proof (cpush_data w x R Hh) as Ed. pose proof (cpush_ready w x R) as R1.
  destruct (cpush_fields w x) as (F1 & F2 & F3 & F4 & F5 & F6).
  destruct (cpush_msg w x RXPS_NEW) as (M1 & U1 & M2 & U2 & K1).
  pose proof (zlen_ubuf w R ltac:(lia)) as Eg. set (g := ubuf_data w (rx_ubuf_head w)) in *.
  destruct p as [|y p].
  - change (zlen []) with 0 in *. rewrite Z.add_0_r in *. cbn [Z.eqb Pos.eqb].
    set (v := (cpush w x) {{ lws_rx_parse_state := RXPS_NEW }}) in *.
    assert (V : Ready v /\ rx_ubuf_head v = rx_ubuf_head w + 1 /\ opcode v = opcode w /\ rx_packet_length v = 0 /\
       events v = events w /\ spill_size v = spill_size w /\ lws_rx_parse_state v = RXPS_NEW /\
       ubuf_data v (rx_ubuf_head w + 1) = g ++ [x]).
    { rewrite <- Ed, <- F1, <- F4, <- F5, <- F6. replace 0 with (rx_packet_length (cpush w x)) at 1 by lia.
      split; [by apply set_state_ready|]. unfold v, spill_size, ubuf_data. by destruct (cpush w x). }
    destruct V as (V1 & V2 & V3 & V4 & V5 & V6 & V7 & V8). clearbody v.
    pose proof (client_spill_data fuel v V1 ltac:(lia) ltac:(by rewrite V3) ltac:(destruct M2 as (_ & -> & _); done)) as Hs.
    rewrite V4, V2, V8, (piece_same w v) in Hs by done. change (0 =? 0) with true in Hs.
    destruct (piece_ok w true (g ++ [x])) as [s|].
    + rewrite Hs. cbn [Z.eqb]. destruct (set_utf8_fields v s) as (S1 & S2 & S3 & S4 & S5 & S6 & S7 & S8 & S9 & S10 & S11).
      destruct (cdelivered_fields _ (S1 V1)) as (D1 & D2 & D3 & D4 & D5 & D6 & D7 & D8).
      destruct (cdelivered_msg (v {{ utf8 := s }})) as [D9 D10].
      eexists _, 0. split; [done|]. split; [done|]. split; [done|]. split; [congruence|]. split; [done|].
      split; [etrans; [exact M2|]; etrans; [exact S10|exact D9]|]. split; [congruence|]. split; [congruence|].
      rewrite D4, S8, V5, S3. cbn [deliver map]. do 3 f_equal. rewrite V2, <- V8. unfold ubuf_data. by rewrite S9.
    + destruct Hs as (v' & -> & _). cbn [Z.eqb]. by eexists _, _.
  - rewrite zlen_cons in *. pose proof (zlen_nonneg p). rewrite (proj2 (Z.eqb_neq _ 1)) by lia.
    assert (Hgx : zlen (g ++ [x]) = rx_ubuf_head w + 1) by (rewrite zlen_app; change (zlen [x]) with 1; lia).
    replace (deliver (spill_size w) g (x :: y :: p)) with
      (if rx_ubuf_head w + 1 =? spill_size w then (g ++ [x]) :: deliver (spill_size w) [] (y :: p)
       else deliver (spill_size w) (g ++ [x]) (y :: p)) by (rewrite <- Hgx; done).
    replace (g ++ x :: y :: p) with ((g ++ [x]) ++ y :: p) by (by rewrite <- app_assoc).
    destruct (rx_ubuf_head w + 1 =? spill_size w) eqn:Efull; zbool.
    + pose proof (client_spill_data fuel (cpush w x) R1 ltac:(lia) ltac:(by rewrite F4) ltac:(destruct M1 as (_ & -> & _); done)) as Hs.
      rewrite F2, F1, Ed, (piece_same w _ _ _ M1 U1) in Hs. rewrite (proj2 (Z.eqb_neq _ 0)) in Hs by lia.
      rewrite piece_app. destruct (piece_ok w false (g ++ [x])) as [s|].
      2: { destruct Hs as (v' & -> & _). cbn [Z.eqb]. by eexists _, _. }
      rewrite Hs. cbn [Z.eqb].
      destruct (set_utf8_fields (cpush w x) s) as (S1 & S2 & S3 & S4 & S5 & S6 & S7 & S8 & S9 & S10 & S11).
      set (u := (cpush w x) {{ utf8 := s }}) in *.
      destruct (cdelivered_fields u (S1 R1)) as (D1 & D2 & D3 & D4 & D5 & D6 & D7 & D8).
      destruct (cdelivered_msg u) as [D9 D10]. clearbody u.
      assert (Mu : same_msg w (cdelivered u)) by (etrans; [exact M1|]; etrans; [exact S10|exact D9]).
      destruct (IH (cdelivered u)) as (w' & m & -> & Hr); [done| |].
      { split; first [done | congruence | (rewrite ?zlen_cons; lia)
          | (rewrite D2, D5, S4, F5; pose proof (rd_size _ R); lia)
          | (by rewrite D7, S6, F4) | (destruct Mu as (_ & -> & _); done)]. }
      exists w', m. split; [done|]. rewrite D2 in Hr. change (ubuf_data (cdelivered u) 0) with (@nil Z) in Hr. cbn [app] in Hr.
      assert (Ep : piece_ok (cdelivered u) true (y :: p) = piece_ok (w {{ utf8 := s }}) true (y :: p)).
      { apply piece_same; [|rewrite D10, S11; by destruct w]. destruct (set_utf8_fields w s) as (_ & _ & _ & _ & _ & _ & _ & _ & _ & Q & _).
        unfold same_msg in *. intuition congruence. }
      rewrite Ep in Hr. destruct (piece_ok (w {{ utf8 := s }}) true (y :: p)); [|done].
      destruct Hr as (-> & T1 & T2 & T3 & T4 & T5 & T6 & T7). split; [done|]. split; [done|]. split; [done|]. split; [done|].
      split; [by etrans|]. split; [done|]. split; [congruence|].
      rewrite T7, D4, S8, F6, D5, S4, F5. cbn [map]. rewrite <- app_assoc. do 2 f_equal. cbn [app]. do 2 f_equal.
      rewrite <- Ed, S3, F1. unfold ubuf_data. by rewrite S9.
    + cbn [Z.eqb]. destruct (IH (cpush w x)) as (w' & m & -> & Hr); [done| |].
      { split; first [done | congruence | (rewrite ?zlen_cons; lia) | (by rewrite F4)
          | (destruct M1 as (_ & -> & _); done)]. }
      exists w', m. split; [done|]. rewrite F1, Ed, (piece_same w _ _ _ M1 U1) in Hr.
      destruct (piece_ok w true _); [|done]. destruct Hr as (-> & T1 & T2 & T3 & T4 & T5 & T6 & T7).
      split; [done|]. split; [done|]. split; [done|]. split; [done|]. split; [by etrans|]. split; [done|].
      split; [congruence|]. by rewrite T7, F5, F6.
Qed.

End ClientFacts.
