(* ===== verification/WsClientProps.v ===== *)
(** * Properties of the client receiver

    Whole messages, fragmented or not and checked for UTF-8 or not; the round trip
    from a server's [lws_write]; the frames that are refused; and the defect on
    masked frames. *)

From S2P Require Import Prelude Utf8 Ws WsRx WsRxFacts WsRxProps WsTx WsTxFacts WsClient WsClientFacts.

Section ClientMessages.
Context `{LwsEnv} `{!TakingCallback}.

(** The check of a data frame: whether it is on, and from which state. *)
Definition frame_check (w : lws) (b0 : Z) : bool * Z :=
  if b0 .& 15 =? LWSWSOPC_TEXT_FRAME then (opt_validate_utf8 w, 0)
  else ((if b0 .& 15 =? LWSWSOPC_BINARY_FRAME then false else check_utf8 w), utf8 w).

Definition frame_verdict (w : lws) (b0 : Z) (p : bytes) : option Z :=
  let '(chk, s0) := frame_check w b0 in
  if chk then
    match Utf8.utf8_loop s0 p with
    | Some s => if fin_bit b0 && nz s then None else Some s
    | None => None
    end
  else Some s0.

(** What the user sees of a frame; an empty one is reported too. *)
Definition pieces (size : Z) (p : bytes) : list bytes :=
  match p with [] => [[]] | _ => deliver size [] p end.

Lemma verdict_piece w w1 b0 p : COpened w w1 b0 -> piece_ok w1 true p = frame_verdict w b0 p.
Proof.
  intros [_ _ _ _ _ _ _ Hfin Hc _ Hu]. unfold piece_ok, frame_verdict, frame_check. rewrite Hfin, Hc, Hu.
  by destruct (b0 .& 15 =? LWSWSOPC_TEXT_FRAME).
Qed.

Lemma client_frame fuel w b0 p : CIdle w -> fits w b0 -> zlen p < len_limit ->
  exists w' m, crx_bytes fuel w (rfc_frame b0 None p) = Some (w', m) /\
  match frame_verdict w b0 p with
  | Some s => m = 0 /\ CIdle w' /\ owed_a_fin w' = negb (fin_bit b0) /\ utf8 w' = s /\
      check_utf8 w' = (frame_check w b0).1 /\ spill_size w' = spill_size w /\
      calls (events w') = calls (events w) ++ map (ECallback LWS_CALLBACK_CLIENT_RECEIVE) (pieces (spill_size w) p)
  | None => m = -1
  end.
Proof.
  intros Hid Hfit Hlen. destruct (client_first_ok fuel w b0 Hid Hfit) as (w1 & E1 & O).
  pose proof (verdict_piece w w1 b0 p O) as Ev. pose proof O as [R1 S1 Ho Hh He Hz [Hcp Hof] Hfn Hck Hdf Hut].
  assert (Hop1 : data_op (opcode w1)) by (rewrite Ho; apply Hfit).
  assert (Eck : (frame_check w b0).1 = check_utf8 w1).
  { rewrite Hck. unfold frame_check. by destruct (b0 .& 15 =? LWSWSOPC_TEXT_FRAME). }
  pose proof (zlen_nonneg p) as Hp0. rewrite Eck, <- Ev. clear Ev Eck.
  cbn [rfc_frame]. rewrite (crx_cons0 _ _ _ _ _ E1), crx_bytes_app, crx_len by (done || by left). unfold len_known.
  destruct p as [|x p].
  - change (zlen [] =? 0) with true. cbn iota.
    set (v := w1 {{ this_frame_masked := false; rx_packet_length := 0; lws_rx_parse_state := RXPS_NEW }}).
    assert (V : Ready v /\ rx_ubuf_head v = 0 /\ opcode v = opcode w1 /\ rx_packet_length v = 0 /\ same_msg w1 v /\
      utf8 v = utf8 w1 /\ events v = events w1 /\ spill_size v = spill_size w1 /\ lws_rx_parse_state v = RXPS_NEW).
    { split; [apply (ready_ext w1); [done|unfold v; destruct w1; try done; apply R1..]|].
      rewrite <- Hh. unfold v, same_msg, spill_size. by destruct w1. }
    destruct V as (V1 & V2 & V3 & V4 & V5 & V6 & V7 & V8 & V9). clearbody v.
    pose proof (client_spill_data fuel v V1 ltac:(lia) ltac:(by rewrite V3) ltac:(destruct V5 as (_ & -> & _); done)) as Hs.
    rewrite V4, V2, (piece_same w1 v) in Hs by done. change (0 =? 0) with true in Hs.
    change (ubuf_data v 0) with (@nil Z) in Hs. destruct (piece_ok w1 true []) as [s|].
    + rewrite Hs. cbn [Z.eqb crx_bytes].
      destruct (set_utf8_fields v s) as (T1 & T2 & T3 & T4 & T5 & T6 & T7 & T8 & T9 & T10 & T11).
      destruct (cdelivered_fields _ (T1 V1)) as (D1 & D2 & D3 & D4 & D5 & D6 & D7 & D8).
      destruct (cdelivered_msg (v {{ utf8 := s }})) as [D9 D10].
      assert (M : same_msg w1 (cdelivered (v {{ utf8 := s }}))) by (unfold same_msg in *; intuition congruence).
      destruct M as (M1 & M2 & M3 & M4 & M5).
      eexists _, 0. split; [done|]. split; [done|]. split; [split; [done|congruence|done|congruence]|].
      split; [congruence|]. split; [congruence|]. split; [congruence|]. split; [congruence|].
      rewrite D4, T8, V7, He, T3, V2. done.
    + destruct Hs as (v' & -> & _). cbn [Z.eqb]. by eexists _, _.
  - pose proof (zlen_pos (x :: p) ltac:(done)). rewrite (proj2 (Z.eqb_neq _ 0)) by lia. cbn [Z.eqb].
    set (v := with_len w1 false (zlen (x :: p))).
    assert (V : Ready v /\ rx_ubuf_head v = 0 /\ opcode v = opcode w1 /\ rx_packet_length v = zlen (x :: p) /\ same_msg w1 v /\
      utf8 v = utf8 w1 /\ events v = events w1 /\ spill_size v = spill_size w1 /\
      lws_rx_parse_state v = RXPS_PAYLOAD_UNTIL_LENGTH_EXHAUSTED /\ this_frame_masked v = false).
    { split; [apply (ready_ext w1); [done|unfold v; destruct w1; try done; apply R1..]|].
      rewrite <- Hh. unfold v, same_msg, spill_size. by destruct w1. }
    destruct V as (V1 & V2 & V3 & V4 & V5 & V6 & V7 & V8 & V9 & V10). clearbody v.
    destruct (client_payload_ok fuel (x :: p) v) as (w' & m & E & Hr); [done| |].
    { pose proof (rd_size _ R1). pose proof len_limit_size. split; try done; try lia.
      - by rewrite V3.
      - destruct V5 as (_ & -> & _). done. }
    rewrite V2 in Hr. change (ubuf_data v 0) with (@nil Z) in Hr. cbn [app] in Hr.
    rewrite (piece_same w1 v _ _ V5 V6) in Hr. exists w', m. split; [done|].
    destruct (piece_ok w1 true (x :: p)) as [s|]; [|done].
    destruct Hr as (-> & T1 & T2 & T3 & T4 & T5 & T6 & T7).
    destruct V5 as (A1 & A2 & A3 & A4 & A5), T4 as (B1 & B2 & B3 & B4 & B5).
    split; [done|]. split; [split; [done|done|done|congruence]|]. split; [congruence|]. split; [done|].
    split; [congruence|]. split; [congruence|]. rewrite T7, V7, He, V8, Hz. done.
Qed.

(** The frames of a message in fragments: opcode first, then continuations, FIN last. *)
Fixpoint msg_frames (op : Z) (ps : list bytes) : bytes :=
  match ps with
  | [] => []
  | [p] => rfc_frame (op + 128) None p
  | p :: r => rfc_frame op None p ++ msg_frames LWSWSOPC_CONTINUATION r
  end.

Definition msg_events (size : Z) (ps : list bytes) : list event :=
  map (ECallback LWS_CALLBACK_CLIENT_RECEIVE) (concat (map (pieces size) ps)).

(** The state of the check after a message from state [s]. *)
Definition msg_ok (chk : bool) (s : Z) (ps : list bytes) : bool :=
  if chk then bool_decide (Utf8.utf8_loop s (concat ps) = Some 0) else true.

Lemma data_bits op : data_op op ->
  (op + 128) .& 15 = op /\ op .& 15 = op /\ (op + 128) .& 112 = 0 /\ op .& 112 = 0 /\
  fin_bit (op + 128) = true /\ fin_bit op = false.
Proof. by intros [->|[->| ->]]. Qed.

Lemma client_fragments fuel ps : forall w op, ps <> [] -> CIdle w -> data_op op ->
  (op = LWSWSOPC_CONTINUATION <-> owed_a_fin w = true) -> Forall (fun p => zlen p < len_limit) ps ->
  let '(chk, s0) := frame_check w op in
  exists w' m, crx_bytes fuel w (msg_frames op ps) = Some (w', m) /\
  if msg_ok chk s0 ps then m = 0 /\ CIdle w' /\ owed_a_fin w' = false /\
      calls (events w') = calls (events w) ++ msg_events (spill_size w) ps
  else m = -1.
Proof.
  induction ps as [|p ps IH]; intros w op Hne Hid Hop Hc Hl; [done|]. apply Forall_cons in Hl as [Hlp Hl].
  destruct (data_bits op Hop) as (B1 & B2 & B3 & B4 & B5 & B6). destruct ps as [|q ps].
  - assert (Hfit : fits w (op + 128)) by (split; [by rewrite B1|split; [done|by rewrite B1]]).
    destruct (client_frame fuel w (op + 128) p Hid Hfit Hlp) as (w' & m & E & Hv).
    unfold frame_verdict, frame_check in *. rewrite B1 in *. rewrite B2. rewrite B5 in Hv.
    destruct (if op =? LWSWSOPC_TEXT_FRAME then _ else _) as [chk s0].
    exists w', m. split; [exact E|]. unfold msg_ok, msg_events. cbn [concat map]. rewrite !app_nil_r.
    destruct chk.
    + destruct (Utf8.utf8_loop s0 p) as [s|] eqn:Es; [|rewrite bool_decide_false by done; done].
      cbn [andb] in Hv. unfold nz in Hv. destruct (s =? 0) eqn:Ez; zbool; cbn [negb] in Hv.
      * subst. rewrite bool_decide_true by done. by destruct Hv as (-> & Q1 & Q2 & _ & _ & _ & Q3).
      * rewrite bool_decide_false by congruence. done.
    + by destruct Hv as (-> & Q1 & Q2 & _ & _ & _ & Q3).
  - assert (Hfit : fits w op) by (split; [by rewrite B2|split; [done|by rewrite B2]]).
    destruct (client_frame fuel w op p Hid Hfit Hlp) as (w1 & m & E & Hv).
    unfold frame_verdict in Hv. rewrite B6 in Hv. cbn [andb negb] in Hv.
    destruct (frame_check w op) as [chk s0] eqn:Ec.
    change (msg_frames op (p :: q :: ps)) with (rfc_frame op None p ++ msg_frames LWSWSOPC_CONTINUATION (q :: ps)).
    rewrite crx_bytes_app, E.
    assert (Hgo : forall s, m = 0 /\ CIdle w1 /\ owed_a_fin w1 = true /\ utf8 w1 = s /\ check_utf8 w1 = chk /\
        spill_size w1 = spill_size w /\
        calls (events w1) = calls (events w) ++ map (ECallback LWS_CALLBACK_CLIENT_RECEIVE) (pieces (spill_size w) p) ->
      exists w' m', (if m =? 0 then crx_bytes fuel w1 (msg_frames LWSWSOPC_CONTINUATION (q :: ps)) else Some (w1, m)) =
          Some (w', m') /\
        if msg_ok chk s (q :: ps) then m' = 0 /\ CIdle w' /\ owed_a_fin w' = false /\
          calls (events w') = calls (events w) ++ msg_events (spill_size w) (p :: q :: ps) else m' = -1).
    { intros s (-> & Q1 & Q2 & Q3 & Q4 & Q5 & Q6). cbn [Z.eqb].
      specialize (IH w1 LWSWSOPC_CONTINUATION ltac:(done) Q1 ltac:(by right; right) ltac:(done) Hl).
      unfold frame_check in IH. change (LWSWSOPC_CONTINUATION .& 15 =? LWSWSOPC_TEXT_FRAME) with false in IH.
      change (LWSWSOPC_CONTINUATION .& 15 =? LWSWSOPC_BINARY_FRAME) with false in IH. cbn iota in IH.
      rewrite Q3, Q4 in IH. destruct IH as (w' & m' & E' & Hr). exists w', m'. split; [done|].
      destruct (msg_ok chk s (q :: ps)); [|done]. destruct Hr as (-> & R1 & R2 & R3). split; [done|].
      split; [done|]. split; [done|]. rewrite R3, Q6, Q5. unfold msg_events. cbn [map concat].
      rewrite !map_app, <- !app_assoc. done. }
    unfold msg_ok in *. destruct chk.
    + change (concat (p :: q :: ps)) with (p ++ concat (q :: ps)). rewrite Utf8.loop_app.
      destruct (Utf8.utf8_loop s0 p) as [s|]; [by apply Hgo|]. subst m. cbn [Z.eqb]. by eexists _, _.
    + by apply (Hgo s0).
Qed.

(** C21: A whole message reaches the client application. For a text or binary message in any
    number of unmasked fragments, each possibly empty and shorter than the build can
    represent (2^63, or 2^32 where a long has 32 bits), on a client connection between
    messages, with no extension and a callback that takes what it is given
    ([TakingCallback]): the receiver calls back with the fragments in order, in pieces of
    the receive buffer size, and is between messages again; only a text message that is not
    well-formed UTF-8 as a whole, with validation enabled, is refused, with -1. *)
Theorem client_message fuel w op ps : CIdle w -> owed_a_fin w = false -> ps <> [] ->
  op = LWSWSOPC_TEXT_FRAME \/ op = LWSWSOPC_BINARY_FRAME ->
  Forall (fun p => zlen p < len_limit) ps -> Forall all_u8 ps ->
  exists w' m, crx_bytes fuel w (msg_frames op ps) = Some (w', m) /\
    (m = 0 <-> (op = LWSWSOPC_TEXT_FRAME -> opt_validate_utf8 w = true -> Utf8.utf8 (concat ps))) /\
    (m = 0 -> CIdle w' /\ owed_a_fin w' = false /\ calls (events w') = calls (events w) ++ msg_events (spill_size w) ps) /\
    (m <> 0 -> m = -1).
Proof.
  intros Hid Ho Hne Hop Hl Hu. assert (Hd : data_op op) by (destruct Hop; [by left|by right; left]).
  assert (Hc : op = LWSWSOPC_CONTINUATION <-> owed_a_fin w = true) by (rewrite Ho; by destruct Hop as [->| ->]).
  pose proof (client_fragments fuel ps w op Hne Hid Hd Hc Hl) as Hf.
  assert (Hcat : all_u8 (concat ps)) by (by apply Forall_concat).
  assert (Hok : Utf8.utf8_loop 0 (concat ps) = Some 0 <-> Utf8.utf8 (concat ps)).
  { rewrite (Utf8.loop_accepts (concat ps) 0 [] Hcat eq_refl). split.
    - intros (t & l' & -> & Ht & Hl'). by inversion Ht; subst.
    - intros Hv. exists [], (concat ps). repeat split; [constructor|done]. }
  unfold frame_check in Hf. destruct (data_bits op Hd) as (_ & B2 & _). rewrite B2 in Hf.
  assert (Hfin : forall (b : bool) (P : Prop) w' m, (b = true <-> P) ->
     (if b then m = 0 /\ CIdle w' /\ owed_a_fin w' = false /\ calls (events w') = calls (events w) ++ msg_events (spill_size w) ps else m = -1) ->
     (m = 0 <-> P) /\ (m = 0 -> CIdle w' /\ owed_a_fin w' = false /\ calls (events w') = calls (events w) ++ msg_events (spill_size w) ps) /\
     (m <> 0 -> m = -1)).
  { intros b P w' m Hb Hm. destruct b.
    - destruct Hm as (-> & Hm). split; [|done]. split; [by intros _; apply Hb|done].
    - subst m. split; [|done]. split; [done|]. intros HP. by apply Hb in HP. }
  destruct Hop as [->| ->].
  - change (LWSWSOPC_TEXT_FRAME =? LWSWSOPC_TEXT_FRAME) with true in Hf. cbn iota in Hf.
    destruct Hf as (w' & m & E & Hm). exists w', m. split; [done|]. refine (Hfin _ _ w' m _ Hm).
    unfold msg_ok. destruct (opt_validate_utf8 w); [|by split; [|done]].
    rewrite bool_decide_eq_true, Hok. naive_solver.
  - change (LWSWSOPC_BINARY_FRAME =? LWSWSOPC_TEXT_FRAME) with false in Hf.
    change (LWSWSOPC_BINARY_FRAME =? LWSWSOPC_BINARY_FRAME) with true in Hf. cbn iota in Hf.
    destruct Hf as (w' & m & E & Hm). exists w', m. split; [done|].
    apply (Hfin true); [by split|exact Hm].
Qed.

(** C22: Round trip: what a server writes a client receives. An established server
    connection with nothing waiting and no extension writes a complete (FIN) text or binary
    message of less than 2^31 - 16 bytes; the call does not fail and the socket has taken
    all of it. Then a client connection between messages, with no extension and a callback
    that takes what it is given ([TakingCallback]), reads exactly those bytes without an
    error and calls back with exactly the payload; if the client validates text, the payload
    of a text message is well-formed UTF-8 (other text is refused). *)
Theorem server_to_client fuel ws wc mem len wp op ws' r mem' `{!SocketOk} `{!RandomOk} :
  CanWrite ws -> state ws = LWSS_ESTABLISHED -> mode ws = LWSCM_WS_SERVING ->
  wp_opcode wp = Some op -> nz (wp .& LWS_WRITE_NO_FIN) = false ->
  op = LWSWSOPC_TEXT_FRAME \/ op = LWSWSOPC_BINARY_FRAME ->
  0 <= len < 2 ^ 31 - 16 -> len + 16 <= zlen mem -> all_u8 mem ->
  lws_write (S fuel) ws mem len wp = Some (ws', r, mem') -> r <> -1 -> pending ws' = [] ->
  CIdle wc -> owed_a_fin wc = false ->
  let p := take (Z.to_nat len) (drop (Z.to_nat LWS_PRE) mem) in
  (op = LWSWSOPC_TEXT_FRAME -> opt_validate_utf8 wc = true -> Utf8.utf8 p) ->
  exists wire wc', sent ws' = sent ws ++ wire /\ crx_bytes fuel wc wire = Some (wc', 0) /\ CIdle wc' /\
    calls (events wc') = calls (events wc) ++ map (ECallback LWS_CALLBACK_CLIENT_RECEIVE) (pieces (spill_size wc) p).
Proof.
  intros C Hst Hm Hop Hfin Hd Hl Hmem Hu E Hr Hp Hid Ho p Hv.
  destruct (lws_write_ok fuel ws mem len wp op ws' r mem') as (key & K & _ & _ & _ & _ & Q); try done; [by left|].
  unfold key_of in K. rewrite Hm, bool_decide_false in K by done. subst key. rewrite Hp, app_nil_r in Q. fold p in Q.
  assert (Hdo : data_op op) by (destruct Hd; [by left|by right; left]).
  assert (Hb : first_byte op wp = op + 128) by (unfold first_byte; rewrite Hfin; by destruct Hd as [->| ->]).
  assert (Hlp : zlen p < len_limit).
  { unfold p, zlen, LWS_PRE, len_limit in *. rewrite length_take, length_drop. destruct lp64; lia. }
  destruct (data_bits op Hdo) as (B1 & B2 & B3 & B4 & B5 & B6).
  assert (Hfit : fits wc (op + 128)).
  { split; [by rewrite B1|]. split; [done|]. rewrite B1, Ho. by destruct Hd as [->| ->]. }
  destruct (client_frame fuel wc (op + 128) p Hid Hfit Hlp) as (wc' & m & E' & Hver).
  assert (Hok : exists s, frame_verdict wc (op + 128) p = Some s).
  { unfold frame_verdict, frame_check. rewrite B1. destruct Hd as [->| ->].
    - change (LWSWSOPC_TEXT_FRAME =? LWSWSOPC_TEXT_FRAME) with true. cbn iota.
      destruct (opt_validate_utf8 wc) eqn:Eo; [|by eexists].
      assert (Hpu : all_u8 p) by (unfold p; by apply Forall_take, Forall_drop).
      assert (Es : Utf8.utf8_loop 0 p = Some 0).
      { apply (Utf8.loop_accepts p 0 [] Hpu eq_refl). exists [], p. repeat split; [constructor|by apply Hv]. }
      rewrite Es. change (nz 0) with false. rewrite andb_false_r. by eexists.
    - by eexists. }
  destruct Hok as [s Es]. rewrite Es in Hver. destruct Hver as (-> & Q1 & Q2 & _ & _ & _ & Q3).
  exists (rfc_frame (op + 128) None p), wc'. rewrite Hb in Q. done.
Qed.

End ClientMessages.

Section ClientRefuses.
Context `{LwsEnv}.

(** The first bytes of a frame that RFC 6455 (5.2, 5.4 and 5.5) forbids, on a
    connection without extensions: an opcode that is reserved, reserved bits, a
    continuation outside of a message, a new message inside of one, a fragmented
    control frame. *)
Definition forbidden (w : lws) (b0 : Z) : Prop :=
  let op := b0 .& 15 in
  op ∉ [LWSWSOPC_CONTINUATION; LWSWSOPC_TEXT_FRAME; LWSWSOPC_BINARY_FRAME; LWSWSOPC_CLOSE; LWSWSOPC_PING; LWSWSOPC_PONG] \/
  b0 .& 112 <> 0 \/
  (op = LWSWSOPC_CONTINUATION /\ owed_a_fin w = false) \/
  ((op = LWSWSOPC_TEXT_FRAME \/ op = LWSWSOPC_BINARY_FRAME) /\ owed_a_fin w = true) \/
  (op ∈ [LWSWSOPC_CLOSE; LWSWSOPC_PING; LWSWSOPC_PONG] /\ fin_bit b0 = false).

(** The same as the tests of the code. *)
Definition forbids (w : lws) (b0 : Z) : bool :=
  illegal_op (b0 .& 15) || nz (b0 .& 112) || ((b0 .& 15 =? LWSWSOPC_CONTINUATION) && negb (owed_a_fin w)) ||
  (owed_a_fin w && is_data_start (b0 .& 15)) || (nz ((b0 .& 15) .& 8) && negb (fin_bit b0)).

Lemma forbids_spec w b0 : forbids w b0 = true <-> forbidden w b0.
Proof.
  unfold forbids, forbidden. cbv zeta. unfold nz at 1. rewrite !orb_true_iff, !andb_true_iff, !negb_true_iff, Z.eqb_eq, Z.eqb_neq.
  assert (Ho : 0 <= b0 .& 15 < 16) by (change 15 with (2 ^ 4 - 1); rewrite land_ones_mod by lia; apply Z.mod_pos_bound; lia).
  set (op := b0 .& 15) in *. clearbody op. set (P := b0 .& 112 <> 0). destruct (owed_a_fin w), (fin_bit b0); clearbody P;
  (assert (Hc : op ∈ [0;1;2;3;4;5;6;7;8;9;10;11;12;13;14;15]) by (rewrite !elem_of_cons; lia);
   repeat (apply elem_of_cons in Hc as [->|Hc]; [vm_compute (illegal_op _); vm_compute (is_data_start _); vm_compute (nz _);
     unfold LWSWSOPC_CONTINUATION, LWSWSOPC_TEXT_FRAME, LWSWSOPC_BINARY_FRAME, LWSWSOPC_CLOSE, LWSWSOPC_PING, LWSWSOPC_PONG;
     rewrite !elem_of_cons, elem_of_nil; intuition (lia || discriminate)|]); by apply not_elem_of_nil in Hc).
Qed.

Lemma client_first_cases w b0 : Ready w -> continuation_possible w = owed_a_fin w ->
  events (client_first w b0).1 = events w /\
  if forbids w b0 then (client_first w b0).2 = -1
  else (client_first w b0).2 = 0 /\ lws_rx_parse_state (client_first w b0).1 = RXPS_04_FRAME_HDR_LEN.
Proof.
  intros R Hf. unfold client_first, forbids. rewrite (rd_rev _ R), Hf. cbn [Z.eqb Pos.eqb negb]. cbv zeta. fold (fin_bit b0).
  destruct (illegal_op (b0 .& 15)); [rewrite orb_true_r; by destruct w|].
  rewrite orb_false_r. cbn [orb].
  destruct ((b0 .& 15 =? LWSWSOPC_CONTINUATION) && negb (owed_a_fin w)); [rewrite orb_true_r; by destruct w|].
  rewrite orb_false_r.
  set (w1 := (client_opcode w b0) {{ rsv := b0 .& 112 }}).
  assert (W1 : count_act_ext w1 = 0%nat /\ events w1 = events w /\ owed_a_fin w1 = owed_a_fin w).
  { rewrite <- (rd_ext _ R). unfold w1, client_opcode. by destruct w. }
  destruct W1 as (X1 & X2 & X3). rewrite X1. change (0 =? 0)%nat with true. cbn [andb]. clearbody w1.
  destruct (nz (b0 .& 112)); [done|]. cbn [orb].
  replace (owed_a_fin (w1 {{ final := fin_bit b0 }})) with (owed_a_fin w) by (rewrite <- X3; by destruct w1).
  destruct (owed_a_fin w && is_data_start (b0 .& 15)); [rewrite <- X2; by destruct w1|]. cbn [orb].
  destruct (nz ((b0 .& 15) .& 8) && negb (fin_bit b0)); rewrite <- X2; by destruct w1.
Qed.

(** C40: The client checks the first byte of a frame.  Between two frames, inside or outside of
    a message, on a connection without extensions, a first byte is refused, with -1, exactly when RFC 6455 forbids
    it there: a reserved opcode, a reserved bit, a continuation outside of a message,
    a new message inside of one, a fragmented control frame.  Any other is taken, and
    the length comes next.  In neither case is a callback called. *)
Theorem client_refuses fuel w b0 : CIdle w ->
  exists w' m, crx_bytes fuel w [b0] = Some (w', m) /\ events w' = events w /\
    (m = -1 <-> forbidden w b0) /\
    (~ forbidden w b0 -> m = 0 /\ lws_rx_parse_state w' = RXPS_04_FRAME_HDR_LEN).
Proof.
  intros [R Hst Hh Hf]. cbn [crx_bytes]. rewrite (client_open _ _ _ R), Hst. pose proof (forbids_spec w b0) as Hb.
  destruct (client_first_cases w b0 R Hf) as [He Hc]. destruct (client_first w b0) as [w1 m]. cbn [fst snd] in *.
  exists w1, m. destruct (forbids w b0).
  - subst m. naive_solver.
  - destruct Hc as [-> Hp]. naive_solver.
Qed.

(** Defect: a masked frame, which a client has to refuse (RFC 6455, 5.1), is
    parsed, and with the mask bit as a part of its length: a header announcing n <
    126 bytes is taken to announce 128 + n. *)
Lemma client_masked_length fuel w b0 n : CIdle w -> fits w b0 -> 0 <= n < 126 ->
  exists w', crx_bytes fuel w [b0; 128 + n] = Some (w', 0) /\
    lws_rx_parse_state w' = RXPS_07_COLLECT_FRAME_KEY_1 /\ rx_packet_length w' = 128 + n.
Proof.
  intros Hid Hfit Hn. destruct (client_first_ok fuel w b0 Hid Hfit) as (w1 & E1 & O).
  rewrite (crx_cons0 _ _ _ _ _ E1), crx_last, (client_open _ _ _ (co_ready _ _ _ O)), (co_state _ _ _ O).
  unfold client_hdr_len. assert (El : 128 + n = mbit true .| n).
  { pose proof (forall_u8 (fun n => (126 <=? n) || (128 + n =? mbit true .| n)) ltac:(by vm_compute) n ltac:(unfold is_u8; lia)) as Hq.
    cbn beta in Hq. rewrite (proj2 (Z.leb_gt 126 n)) in Hq by lia. cbn [orb] in Hq. by zbool. }
  destruct (mbit_len true n ltac:(lia)) as [Ea Eb]. rewrite El, Ea, Eb, <- El.
  rewrite !(proj2 (Z.eqb_neq n _)) by lia. unfold client_after_len.
  replace (this_frame_masked ((w1 {{ this_frame_masked := true }}) {{ rx_packet_length := 128 + n }})) with true
    by (by destruct w1). eexists. split; [done|]. by destruct w1.
Qed.

End ClientRefuses.

(** ** Witnesses *)

#[local] Existing Instances demo_env demo_taking.

#[local] Instance demo_socket_c : SocketOk.
Proof. constructor. intros w b. cbn. pose proof (zlen_nonneg b). right. right. lia. Qed.

#[local] Instance demo_random_c : RandomOk.
Proof. constructor. intros w m E. injection E as <-. split; [done|by repeat constructor]. Qed.

(** A client that validates text. *)
Definition demo_text_client : lws := (demo_wsi 4) {{ mode := LWSCM_WS_CLIENT; opt_validate_utf8 := true }}.

Lemma demo_cidle : CIdle demo_text_client.
Proof. by repeat constructor. Qed.

(** The euro sign cut in two fragments is accepted. *)
Lemma client_message_witness : exists w',
  crx_bytes 1 demo_text_client (msg_frames LWSWSOPC_TEXT_FRAME [[226; 130]; [172; 33]]) = Some (w', 0) /\
  calls (events w') = map (ECallback LWS_CALLBACK_CLIENT_RECEIVE) [[226; 130]; [172; 33]].
Proof.
  destruct (client_message 1 demo_text_client LWSWSOPC_TEXT_FRAME [[226; 130]; [172; 33]]) as (w' & m & E & Hm & Hok & _).
  - apply demo_cidle.
  - done.
  - done.
  - by left.
  - by repeat constructor.
  - by repeat constructor.
  - assert (Em : m = 0).
    { apply Hm. intros _ _. apply (Utf8.utf8_app [226; 130; 172] [33]).
      - apply Utf8.utf8_3_lo; unfold Utf8.in_range; cbn; lia.
      - apply (Utf8.utf8_app [33] []); [by apply Utf8.utf8_1|constructor]. }
    destruct (Hok Em) as (_ & _ & Ev). exists w'. subst m. split; [exact E|]. rewrite Ev. vm_compute. reflexivity.
Defined.

Lemma server_to_client_witness :
  let mem := replicate 16 0 ++ [104; 105] in
  exists ws' wire wc', lws_write 1 (demo_wsi 4) mem 2 LWS_WRITE_TEXT = Some ws' /\ sent ws'.1.1 = wire /\
    crx_bytes 0 demo_text_client wire = Some (wc', 0) /\
    calls (events wc') = [ECallback LWS_CALLBACK_CLIENT_RECEIVE [104; 105]].
Proof.
  intros mem.
  destruct (lws_write 1 (demo_wsi 4) mem 2 LWS_WRITE_TEXT) as [[[ws' r] mem']|] eqn:E; [|by vm_compute in E].
  destruct (server_to_client 0 (demo_wsi 4) demo_text_client mem 2 LWS_WRITE_TEXT LWSWSOPC_TEXT_FRAME ws' r mem')
    as (wire & wc' & Es & Er & _ & Ev); try done.
  - constructor; try done; by left.
  - by left.
  - by repeat constructor.
  - vm_compute in E. injection E as _ <- _. done.
  - vm_compute in E. injection E as <- _ _. reflexivity.
  - intros _ _. apply (Utf8.utf8_app [104] [105]); [by apply Utf8.utf8_1|].
    apply (Utf8.utf8_app [105] []); [by apply Utf8.utf8_1|constructor].
  - exists (ws', r, mem'), wire, wc'. split; [done|]. split; [exact Es|]. split; [exact Er|]. rewrite Ev. reflexivity.
Defined.

Lemma client_refuses_witness :
  (exists w' m, crx_bytes 1 demo_text_client [9] = Some (w', m) /\ m = -1) /\
  (exists w' m, crx_bytes 1 demo_text_client [137] = Some (w', m) /\ m = 0).
Proof.
  split.
  - destruct (client_refuses 1 demo_text_client 9) as (w' & m & E & _ & Hm & _); [apply demo_cidle|]. exists w', m.
    split; [exact E|]. apply Hm. right. right. right. right. split; [by right; left|done].
  - destruct (client_refuses 1 demo_text_client 137) as (w' & m & E & _ & _ & Hm); [apply demo_cidle|]. exists w', m.
    split; [exact E|]. apply Hm. rewrite <- forbids_spec. by vm_compute.
Defined.

Lemma client_masked_length_witness : exists w', crx_bytes 1 demo_text_client [130; 133] = Some (w', 0) /\
  lws_rx_parse_state w' = RXPS_07_COLLECT_FRAME_KEY_1 /\ rx_packet_length w' = 133.
Proof.
  apply (client_masked_length 1 demo_text_client 130 5); [apply demo_cidle| |lia].
  split; [right; by left|]. by split.
Defined.
