(* ===== verification/Lextable.v ===== *)
(** * Recognition of header names (lib/parsers.c lextable_decode, lib/lextable.h,
    lib/lextable-strings.h)

    The header parser recognises method and header names one byte at a time with
    a precomputed state table.  [lextable] is the table of lextable.h, [set] the
    list of names it was generated from; the theorems say that walking the table
    never reads outside of it and recognises exactly the names of [set], in any
    mixture of cases. *)

From S2P Require Import Prelude.

Module Lextable.

(** lextable.h: a byte with bit 7 set is a transition on its low 7 bits to the
    next byte; a byte of at least 9 followed by two offset bytes is a conditional
    transition; 8 is the failure marker; a smaller byte and the one after it are
    the index of the recognised name. *)
Definition lextable : bytes :=
  [103; 64; 0; 112; 66; 0; 111; 81; 0; 104; 93; 0; 99; 102; 0; 117; 135; 0; 115; 157; 0; 13;
   214; 0; 97; 46; 1; 105; 109; 1; 100; 22; 2; 114; 31; 2; 58; 80; 2; 101; 220; 2; 102; 248; 2;
   108; 26; 3; 109; 61; 3; 116; 172; 3; 118; 199; 3; 119; 212; 3; 120; 251; 3; 8; 229; 244;
   160; 0; 0; 111; 13; 0; 114; 146; 1; 97; 212; 3; 117; 214; 3; 8; 243; 244; 160; 0; 1; 112; 7;
   0; 114; 78; 0; 8; 244; 233; 239; 238; 243; 160; 0; 2; 111; 7; 0; 116; 188; 0; 8; 243; 244;
   186; 0; 3; 111; 7; 0; 97; 114; 1; 8; 110; 7; 0; 111; 135; 1; 8; 110; 7; 0; 116; 134; 1; 8;
   229; 227; 244; 105; 7; 0; 32; 204; 3; 8; 239; 238; 186; 0; 4; 112; 10; 0; 115; 89; 3; 114;
   145; 3; 8; 231; 242; 225; 228; 229; 186; 0; 5; 233; 231; 233; 238; 186; 0; 6; 101; 7; 0;
   116; 19; 3; 8; 99; 10; 0; 114; 252; 2; 116; 255; 2; 8; 173; 247; 229; 226; 243; 239; 227;
   235; 229; 244; 173; 100; 25; 0; 101; 32; 0; 107; 41; 0; 112; 56; 0; 97; 63; 0; 110; 68; 0;
   118; 134; 1; 111; 140; 1; 8; 242; 225; 230; 244; 186; 0; 7; 138; 0; 8; 248; 244; 229; 238;
   243; 233; 239; 238; 243; 186; 0; 9; 229; 249; 49; 10; 0; 50; 10; 0; 58; 95; 1; 8; 186; 0;
   10; 186; 0; 11; 242; 239; 244; 239; 227; 239; 236; 186; 0; 12; 227; 227; 229; 240; 244; 186;
   0; 13; 239; 238; 227; 229; 186; 0; 14; 244; 240; 47; 7; 0; 50; 16; 0; 8; 177; 174; 49; 7; 0;
   48; 21; 3; 8; 160; 0; 15; 173; 243; 229; 244; 244; 233; 238; 231; 243; 186; 0; 16; 99; 13;
   0; 117; 172; 0; 103; 125; 1; 108; 126; 1; 8; 227; 229; 112; 7; 0; 115; 14; 0; 8; 244; 58; 7;
   0; 45; 89; 0; 8; 0; 17; 243; 173; 227; 239; 238; 244; 242; 239; 236; 173; 114; 7; 0; 97; 72;
   1; 8; 229; 241; 245; 229; 243; 244; 173; 232; 229; 225; 228; 229; 242; 243; 186; 0; 18; 230;
   173; 109; 13; 0; 110; 32; 0; 114; 158; 1; 117; 162; 1; 8; 111; 7; 0; 97; 142; 1; 8; 228;
   233; 230; 233; 229; 228; 173; 243; 233; 238; 227; 229; 186; 0; 19; 239; 238; 229; 173; 237;
   225; 244; 227; 232; 186; 0; 20; 101; 13; 0; 108; 20; 0; 99; 235; 0; 114; 241; 0; 8; 238;
   227; 239; 228; 233; 238; 231; 186; 0; 21; 225; 238; 231; 245; 225; 231; 229; 186; 0; 22; 97;
   7; 0; 111; 158; 1; 8; 231; 237; 225; 186; 0; 23; 227; 232; 229; 173; 227; 239; 238; 244;
   242; 239; 236; 186; 0; 24; 244; 232; 239; 242; 233; 250; 225; 244; 233; 239; 238; 186; 0;
   25; 235; 233; 229; 186; 0; 26; 229; 238; 244; 173; 108; 16; 0; 116; 30; 0; 100; 192; 0; 101;
   202; 0; 114; 227; 0; 8; 101; 10; 0; 97; 202; 0; 111; 208; 0; 8; 238; 231; 244; 232; 186; 0;
   27; 249; 240; 229; 186; 0; 28; 97; 7; 0; 101; 240; 1; 8; 244; 229; 186; 0; 29; 97; 7; 0;
   101; 10; 0; 8; 238; 231; 229; 186; 0; 30; 102; 7; 0; 116; 90; 1; 8; 101; 7; 0; 114; 77; 1;
   8; 242; 229; 242; 186; 0; 31; 0; 32; 229; 242; 243; 233; 239; 238; 186; 0; 33; 242; 233;
   231; 233; 238; 186; 0; 34; 97; 13; 0; 109; 20; 0; 112; 24; 0; 115; 26; 0; 8; 245; 244; 232;
   239; 242; 233; 244; 249; 0; 35; 229; 244; 232; 239; 228; 0; 36; 225; 244; 232; 0; 37; 99; 7;
   0; 116; 10; 0; 8; 232; 229; 237; 229; 0; 38; 225; 244; 245; 243; 0; 39; 232; 225; 242; 243;
   229; 244; 186; 0; 40; 225; 238; 231; 229; 243; 186; 0; 41; 236; 236; 239; 247; 173; 239;
   242; 233; 231; 233; 238; 186; 0; 42; 229; 186; 0; 43; 236; 239; 247; 186; 0; 44; 233; 243;
   240; 239; 243; 233; 244; 233; 239; 238; 186; 0; 45; 238; 227; 239; 228; 233; 238; 231; 186;
   0; 46; 238; 231; 245; 225; 231; 229; 186; 0; 47; 227; 225; 244; 233; 239; 238; 186; 0; 48;
   225; 238; 231; 229; 186; 0; 49; 116; 7; 0; 120; 9; 0; 8; 225; 231; 186; 0; 50; 240; 101; 7;
   0; 105; 9; 0; 8; 227; 244; 186; 0; 51; 242; 229; 243; 186; 0; 52; 242; 239; 237; 186; 0; 53;
   244; 227; 232; 186; 0; 54; 225; 238; 231; 229; 186; 0; 55; 238; 237; 239; 228; 233; 230;
   233; 229; 228; 173; 243; 233; 238; 227; 229; 186; 0; 56; 97; 10; 0; 105; 21; 0; 111; 23; 0;
   8; 243; 244; 173; 237; 239; 228; 233; 230; 233; 229; 228; 186; 0; 57; 238; 235; 186; 0; 58;
   227; 225; 244; 233; 239; 238; 186; 0; 59; 225; 248; 173; 230; 239; 242; 247; 225; 242; 228;
   243; 186; 0; 60; 248; 249; 45; 7; 0; 32; 181; 0; 8; 225; 245; 244; 232; 101; 7; 0; 111; 14;
   0; 8; 238; 244; 233; 227; 225; 244; 229; 186; 0; 61; 242; 233; 250; 225; 244; 233; 239; 238;
   186; 0; 62; 229; 243; 232; 186; 0; 63; 242; 249; 173; 225; 230; 244; 229; 242; 186; 0; 64;
   246; 229; 242; 186; 0; 65; 173; 227; 239; 239; 235; 233; 229; 186; 0; 66; 242; 233; 227;
   244; 173; 244; 242; 225; 238; 243; 240; 239; 242; 244; 173; 243; 229; 227; 245; 242; 233;
   244; 249; 186; 0; 67; 242; 225; 238; 243; 230; 229; 242; 173; 229; 238; 227; 239; 228; 233;
   238; 231; 186; 0; 68; 229; 242; 173; 225; 231; 229; 238; 244; 186; 0; 69; 97; 7; 0; 105; 9;
   0; 8; 242; 249; 186; 0; 70; 225; 186; 0; 71; 247; 247; 173; 225; 245; 244; 232; 229; 238;
   244; 233; 227; 225; 244; 229; 186; 0; 72; 244; 227; 232; 0; 73; 244; 0; 74; 236; 229; 244;
   229; 0; 75; 233; 173; 225; 242; 231; 243; 0; 76; 0; 77; 173; 114; 7; 0; 102; 16; 0; 8; 229;
   225; 236; 173; 233; 240; 186; 0; 78; 160; 0; 79; 239; 242; 247; 225; 242; 228; 229; 228;
   173; 230; 239; 242; 0; 80; 0; 81].

(** lextable-strings.h: the names, by token index. *)
Definition set : list bytes :=
  [bstr "get "; bstr "post "; bstr "options "; bstr "host:"; bstr "connection:";
   bstr "upgrade:"; bstr "origin:"; bstr "sec-websocket-draft:"; [13; 10];
   bstr "sec-websocket-extensions:"; bstr "sec-websocket-key1:"; bstr "sec-websocket-key2:";
   bstr "sec-websocket-protocol:"; bstr "sec-websocket-accept:"; bstr "sec-websocket-nonce:";
   bstr "http/1.1 "; bstr "http2-settings:"; bstr "accept:";
   bstr "access-control-request-headers:"; bstr "if-modified-since:"; bstr "if-none-match:";
   bstr "accept-encoding:"; bstr "accept-language:"; bstr "pragma:"; bstr "cache-control:";
   bstr "authorization:"; bstr "cookie:"; bstr "content-length:"; bstr "content-type:";
   bstr "date:"; bstr "range:"; bstr "referer:"; bstr "sec-websocket-key:";
   bstr "sec-websocket-version:"; bstr "sec-websocket-origin:"; bstr ":authority";
   bstr ":method"; bstr ":path"; bstr ":scheme"; bstr ":status"; bstr "accept-charset:";
   bstr "accept-ranges:"; bstr "access-control-allow-origin:"; bstr "age:"; bstr "allow:";
   bstr "content-disposition:"; bstr "content-encoding:"; bstr "content-language:";
   bstr "content-location:"; bstr "content-range:"; bstr "etag:"; bstr "expect:";
   bstr "expires:"; bstr "from:"; bstr "if-match:"; bstr "if-range:";
   bstr "if-unmodified-since:"; bstr "last-modified:"; bstr "link:"; bstr "location:";
   bstr "max-forwards:"; bstr "proxy-authenticate:"; bstr "proxy-authorization:";
   bstr "refresh:"; bstr "retry-after:"; bstr "server:"; bstr "set-cookie:";
   bstr "strict-transport-security:"; bstr "transfer-encoding:"; bstr "user-agent:";
   bstr "vary:"; bstr "via:"; bstr "www-authenticate:"; bstr "patch"; bstr "put";
   bstr "delete"; bstr "uri-args"; bstr "proxy "; bstr "x-real-ip:"; bstr "http/1.0 ";
   bstr "x-forwarded-for"; bstr "connect "; []].

Definition FAIL_CHAR : Z := 8.

Definition lower (c : Z) : Z := if (c >=? 65) && (c <=? 90) then c + (97 - 65) else c.

(** The [while (1)] of lextable_decode.  [None] stands for a read outside of the
    table; every round that does not return moves [pos] forward, so that a number
    of rounds equal to the length of the table is enough. *)
Fixpoint decode_loop (fuel : nat) (pos : Z) (c : Z) : option Z :=
  match fuel with
  | O => None
  | S fuel =>
      b ← lextable !! Z.to_nat pos;
      if nz (b .& 128) then
        if negb (b .& 127 =? c) then Some (-1)
        else
          let pos := pos + 1 in
          b ← lextable !! Z.to_nat pos;
          if b =? FAIL_CHAR then Some (-1) else Some pos
      else if b =? FAIL_CHAR then Some (-1)
      else if b <? FAIL_CHAR then Some pos
      else if b =? c then
        lo ← lextable !! Z.to_nat (pos + 1);
        hi ← lextable !! Z.to_nat (pos + 2);
        Some (pos + lo + (hi .<< 8))
      else decode_loop fuel (pos + 3) c
  end.

(** [c] is a (signed) [char]. *)
Definition lextable_decode (pos c : Z) : option Z :=
  decode_loop (length lextable) pos (lower c).

(** The use lws_parse makes of it: bytes are fed until the position is negative
    (unknown name) or on a terminal marker, whose two bytes are the token. *)
Inductive lexed := Unknown (rest : bytes) | Partial (pos : Z) | Known (n : Z) (rest : bytes).

#[global] Instance lexed_eq_dec : EqDecision lexed.
Proof. solve_decision. Defined.

Definition terminal (pos : Z) : option Z :=
  hi ← lextable !! Z.to_nat pos;
  if hi <? FAIL_CHAR then
    lo ← lextable !! Z.to_nat (pos + 1); Some ((hi .<< 8) .| lo)
  else None.

(** One byte: unknown name ([inl None]), recognised token or a further position. *)
Definition lex_step (pos c : Z) : option (option Z + Z) :=
  pos ← lextable_decode pos (s8 c);
  Some (if pos <? 0 then inl None
        else match terminal pos with Some n => inl (Some n) | None => inr pos end).

Section Run.
Variable step : Z -> Z -> option (option Z + Z).

Fixpoint lex_run (pos : Z) (s : bytes) : option lexed :=
  match s with
  | [] => Some (Partial pos)
  | c :: r =>
      match step pos c with
      | None => None
      | Some (inl None) => Some (Unknown r)
      | Some (inl (Some n)) => Some (Known n r)
      | Some (inr pos) => lex_run pos r
      end
  end.
End Run.

Definition lex_name : Z -> bytes -> option lexed := lex_run lex_step.

(** ** The edges of a state *)

Fixpoint edges_loop (fuel : nat) (pos : Z) : option (list (Z * Z)) :=
  match fuel with
  | O => None
  | S fuel =>
      b ← lextable !! Z.to_nat pos;
      if nz (b .& 128) then
        nb ← lextable !! Z.to_nat (pos + 1);
        Some (if nb =? FAIL_CHAR then [] else [(b .& 127, pos + 1)])
      else if b =? FAIL_CHAR then Some []
      else if b <? FAIL_CHAR then None
      else
        lo ← lextable !! Z.to_nat (pos + 1);
        hi ← lextable !! Z.to_nat (pos + 2);
        es ← edges_loop fuel (pos + 3);
        Some ((b, pos + lo + (hi .<< 8)) :: es)
  end.

Definition edges (pos : Z) : option (list (Z * Z)) := edges_loop (length lextable) pos.

Fixpoint assoc (c : Z) (es : list (Z * Z)) : Z :=
  match es with
  | [] => -1
  | (b, t) :: es => if b =? c then t else assoc c es
  end.

#[local] Opaque lextable.

Lemma decode_edges_loop fuel : forall pos es c,
  edges_loop fuel pos = Some es -> decode_loop fuel pos c = Some (assoc c es).
Proof.
  induction fuel as [|fuel IH]; intros pos es c H; [done|]. cbn in *.
  destruct (lextable !! Z.to_nat pos) as [b|]; [|done]. cbn in *.
  destruct (nz (b .& 128)).
  { destruct (lextable !! Z.to_nat (pos + 1)) as [nb|]; [|done]. cbn in *. simplify_eq.
    destruct (b .& 127 =? c) eqn:E; cbn; destruct (nb =? FAIL_CHAR); cbn; by rewrite ?E. }
  destruct (b =? FAIL_CHAR); [by simplify_eq|].
  destruct (b <? FAIL_CHAR); [done|].
  destruct (lextable !! Z.to_nat (pos + 1)) as [lo|]; [|done].
  destruct (lextable !! Z.to_nat (pos + 2)) as [hi|]; [|done]. cbn in *.
  destruct (edges_loop fuel (pos + 3)) as [es'|] eqn:E; [|done]. cbn in *. simplify_eq. cbn.
  destruct (b =? c); [done|]. by apply IH.
Qed.

Lemma decode_edges pos es c :
  edges pos = Some es -> lextable_decode pos c = Some (assoc (lower c) es).
Proof. exact (decode_edges_loop (length lextable) pos es (lower c)). Qed.

(** ** The reachable states *)

(** The states the table can be in, each with the (lower case) bytes that lead to
    it: breadth first from position 0. *)
Definition next_states (st : Z * bytes) : list (Z * bytes) :=
  match terminal st.1 with
  | Some _ => []
  | None =>
      match edges st.1 with
      | Some es => map (fun e => (e.2, st.2 ++ [e.1])) es
      | None => []
      end
  end.

Fixpoint layers (fuel : nat) (sts : list (Z * bytes)) : list (Z * bytes) :=
  match fuel with
  | O => sts
  | S fuel => sts ++ match sts with [] => [] | _ => layers fuel (flat_map next_states sts) end
  end.

Definition states : list (Z * bytes) := Eval vm_compute in layers 40 [(0, [])].

(** What has to hold of each state: a terminal one carries the index of the name
    read so far; any other one has edges, on characters that are ASCII and not
    upper case, to states of the list. *)
Definition state_ok (st : Z * bytes) : bool :=
  (0 <=? st.1) && (st.1 <? zlen lextable) &&
  match terminal st.1 with
  | Some n => (0 <=? n) && (n <? 82) && bool_decide (set !! Z.to_nat n = Some st.2)
  | None =>
      match lextable !! Z.to_nat st.1, edges st.1 with
      | Some b, Some es =>
          (FAIL_CHAR <=? b) &&
          forallb (fun e => (0 <=? e.1) && (e.1 <? 128) && (lower e.1 =? e.1) &&
                            bool_decide ((e.2, st.2 ++ [e.1]) ∈ states)) es
      | _, _ => false
      end
  end.

Lemma states_ok : forallb state_ok states = true.
Proof. vm_compute. reflexivity. Qed.

Lemma states_start : (0, []) ∈ states.
Proof. apply (bool_decide_unpack _). vm_compute. exact I. Qed.

(** ** Case is ignored *)

Lemma lower_idem c : lower (lower c) = lower c.
Proof. unfold lower. case_ifs; zbool; lia. Qed.

Lemma s8_low c : 0 <= c < 128 -> s8 c = c.
Proof. intros. unfold s8, swrap. dm_lia. Qed.

Lemma lower_s8 c : is_u8 c -> lower (s8 c) = s8 (lower c).
Proof.
  intros Hc. apply Z.eqb_eq. revert c Hc. apply forall_u8. vm_compute. reflexivity.
Qed.

Lemma lex_step_lower pos c : is_u8 c -> lex_step pos (lower c) = lex_step pos c.
Proof.
  intros Hc. unfold lex_step, lextable_decode.
  by rewrite <- lower_s8, lower_idem by done.
Qed.

Lemma lex_name_lower s : forall pos, all_u8 s ->
  forall k, lex_name pos (map lower s) = Some (Known k []) <-> lex_name pos s = Some (Known k []).
Proof.
  induction s as [|c s IH]; intros pos Hs k; [done|]. forall_inv.
  unfold lex_name in *. cbn. rewrite lex_step_lower by done.
  destruct (lex_step pos c) as [[[n|]|pos']|]; [|done|by apply IH|done].
  split; intros [= -> H']; [by destruct s|by subst].
Qed.

Lemma lex_name_app s : forall pos k rest,
  lex_name pos s = Some (Known k []) -> lex_name pos (s ++ rest) = Some (Known k rest).
Proof.
  unfold lex_name. induction s as [|c s IH]; intros pos k rest; [done|]. cbn.
  destruct (lex_step pos c) as [[[n|]|pos']|]; [|done|apply IH|done].
  by intros [= -> ->].
Qed.

(** ** The invariant of the walk: the state remembers the bytes read *)

Lemma assoc_in c es : assoc c es <> -1 -> (c, assoc c es) ∈ es.
Proof.
  induction es as [|[b t] es IH]; cbn; [done|]. destruct (b =? c) eqn:E; intros H.
  - apply Z.eqb_eq in E as ->. by left.
  - right. by apply IH.
Qed.

Lemma state_ok_of st : st ∈ states -> state_ok st = true.
Proof.
  intros H. pose proof states_ok as Hok. rewrite forallb_forall in Hok.
  apply Hok. by apply list_elem_of_In.
Qed.

Lemma state_pos st : st ∈ states -> 0 <= st.1 < zlen lextable.
Proof. intros H. apply state_ok_of in H. unfold state_ok in H. zbool. lia. Qed.

Lemma state_terminal pos p n :
  (pos, p) ∈ states -> terminal pos = Some n -> 0 <= n < 82 /\ set !! Z.to_nat n = Some p.
Proof.
  intros H Hn. apply state_ok_of in H. unfold state_ok in H. cbn in H. rewrite Hn in H. zbool.
  split; [lia|]. match goal with H : bool_decide _ = true |- _ => by apply bool_decide_eq_true in H end.
Qed.

Lemma state_inner pos p : (pos, p) ∈ states -> terminal pos = None ->
  exists b, lextable !! Z.to_nat pos = Some b /\ FAIL_CHAR <= b.
Proof.
  intros H Hn. apply state_ok_of in H. unfold state_ok in H. cbn in H. rewrite Hn in H.
  destruct (lextable !! Z.to_nat pos) as [b|]; [|by zbool].
  destruct (edges pos); zbool; [|done]. exists b. split; [done|lia].
Qed.

(** A byte fed in a state that is not terminal fails or leads to the state that
    has read one byte more. *)
Lemma decode_state pos p c :
  (pos, p) ∈ states -> terminal pos = None -> is_u8 c ->
  exists pos', lextable_decode pos (s8 c) = Some pos' /\
    (pos' = -1 \/ (pos', p ++ [lower c]) ∈ states).
Proof.
  intros Hst Hnt Hc. pose proof (state_ok_of _ Hst) as Hok. unfold state_ok in Hok. cbn in Hok.
  rewrite Hnt in Hok. apply andb_prop in Hok as [_ Hok].
  destruct (lextable !! Z.to_nat pos) as [b|]; [|done].
  destruct (edges pos) as [es|] eqn:Ees; [|done]. apply andb_prop in Hok as [_ Hok].
  rewrite (decode_edges pos es) by done. eexists. split; [done|].
  destruct (decide (assoc (lower (s8 c)) es = -1)) as [->|Hne]; [by left|right].
  apply assoc_in in Hne as Hin. rewrite forallb_forall in Hok.
  apply list_elem_of_In, Hok in Hin. cbn in Hin. zbool.
  match goal with H : bool_decide _ = true |- _ => apply bool_decide_eq_true in H as Hst' end.
  replace (lower c) with (lower (s8 c)); [done|].
  rewrite lower_s8 by done. rewrite lower_s8 in * by done. apply s8_low.
  unfold is_u8 in Hc. assert (0 <= lower c < 256) by (unfold lower; case_ifs; zbool; lia).
  unfold s8, swrap in *. dm_lia.
Qed.

(** The step from a known state that is not terminal: it stays inside the table
    and either gives up, recognises the bytes read so far, or remembers them. *)
Lemma lex_step_state pos p c :
  (pos, p) ∈ states -> terminal pos = None -> is_u8 c ->
  lex_step pos c = Some (inl None) \/
  (exists n, lex_step pos c = Some (inl (Some n)) /\ 0 <= n /\
             set !! Z.to_nat n = Some (p ++ [lower c])) \/
  (exists pos', lex_step pos c = Some (inr pos') /\ (pos', p ++ [lower c]) ∈ states /\
                terminal pos' = None).
Proof.
  intros Hst Hnt Hc. destruct (decode_state pos p c Hst Hnt Hc) as (pos' & Hd & [-> |Hst']).
  { left. unfold lex_step. by rewrite Hd. }
  right. unfold lex_step. rewrite Hd. cbn.
  pose proof (state_pos _ Hst') as Hpos. cbn in Hpos.
  destruct (pos' <? 0) eqn:E0; zbool; [lia|].
  destruct (terminal pos') as [n|] eqn:En; [left|right; by eexists].
  destruct (state_terminal _ _ _ Hst' En). exists n. split; [done|]. split; [lia|done].
Qed.

Lemma lex_name_state s : forall pos p,
  (pos, p) ∈ states -> terminal pos = None -> all_u8 s ->
  exists r, lex_name pos s = Some r /\
  match r with
  | Known n rest => 0 <= n /\ exists q, q <> [] /\ s = q ++ rest /\
                              set !! Z.to_nat n = Some (p ++ map lower q)
  | Partial pos' => (pos', p ++ map lower s) ∈ states
  | Unknown rest => True
  end.
Proof.
  unfold lex_name. induction s as [|c s IH]; intros pos p Hst Hnt Hs; cbn.
  { eexists. split; [done|]. cbn. by rewrite app_nil_r. }
  forall_inv.
  destruct (lex_step_state pos p c) as [->|[(n & -> & Hn & Hset)|(pos' & -> & Hst' & Hnt')]];
    try done.
  - by eexists.
  - eexists. split; [done|]. cbn. split; [done|]. by exists [c].
  - destruct (IH pos' (p ++ [lower c])) as (r & -> & Hr); [done..|].
    eexists. split; [done|]. destruct r; [done|by rewrite <- app_assoc in Hr|].
    destruct Hr as (Hn & q & _ & -> & Ht). split; [done|].
    exists (c :: q). by rewrite Ht, <- app_assoc.
Qed.

Lemma start_not_terminal : terminal 0 = None.
Proof. vm_compute. reflexivity. Qed.

(** Every name of the list is recognised. *)
Definition recognised (n : nat) : bool :=
  match set !! n with
  | Some t => bool_decide (lex_name 0 t = Some (Known (Z.of_nat n) []))
  | None => false
  end.

Lemma all_recognised : forallb recognised (seq 0 82) = true.
Proof. vm_compute. reflexivity. Qed.

Lemma lex_of_set q n : all_u8 q -> 0 <= n < 82 -> set !! Z.to_nat n = Some (map lower q) ->
  lex_name 0 q = Some (Known n []).
Proof.
  intros Hq Hn Hset. apply lex_name_lower; [done|].
  pose proof all_recognised as Hall. rewrite forallb_forall in Hall.
  specialize (Hall (Z.to_nat n)). unfold recognised in Hall. rewrite Hset in Hall.
  rewrite Z2Nat.id in Hall by lia. eapply bool_decide_eq_true_1, Hall, in_seq. lia.
Qed.

(** ** Names in any case *)

(** [c] is [d], or the upper case of the letter [d]. *)
Definition same_letter (c d : Z) : Prop := c = d \/ (97 <= d <= 122 /\ c = d - 32).

(** [q] is the name of index [n], in any mixture of cases. *)
Definition Name (n : Z) (q : bytes) : Prop :=
  0 <= n < 82 /\ exists t, set !! Z.to_nat n = Some t /\ Forall2 same_letter q t.

Lemma set_lower_case : forallb (forallb (fun c => negb ((c >=? 65) && (c <=? 90)))) set = true.
Proof. vm_compute. reflexivity. Qed.

Lemma same_letter_lower q t : Forall (fun c => ~ (65 <= c <= 90)) t ->
  Forall2 same_letter q t <-> map lower q = t.
Proof.
  intros Ht. split.
  - intros H. induction H as [|c d q t Hc _ IH]; [done|]. apply Forall_cons in Ht as [Hd Ht].
    cbn. rewrite (IH Ht). f_equal. unfold lower. destruct Hc as [->|[? ->]]; case_ifs; zbool; try lia.
    all: match goal with H : _ && _ = false |- _ => apply andb_false_iff in H as [?|?] end; zbool; lia.
  - intros <-. induction q as [|c q IH]; [by constructor|]. cbn in Ht. apply Forall_cons in Ht as [Hd Ht].
    constructor; [|by apply IH]. unfold same_letter, lower in *.
    destruct ((c >=? 65) && (c <=? 90)) eqn:E; [right|by left]. zbool. lia.
Qed.

Lemma name_lower n q : Name n q <-> 0 <= n < 82 /\ set !! Z.to_nat n = Some (map lower q).
Proof.
  assert (Hlow : forall t, set !! Z.to_nat n = Some t -> Forall (fun c => ~ (65 <= c <= 90)) t).
  { intros t Ht. pose proof set_lower_case as H. rewrite forallb_forall in H.
    apply list_elem_of_lookup_2, list_elem_of_In in Ht. apply H in Ht. rewrite forallb_forall in Ht.
    apply Forall_forall. intros c Hc. apply list_elem_of_In in Hc. apply Ht in Hc. zbool.
    apply andb_false_iff in Hc as [?|?]; zbool; lia. }
  split.
  - intros (Hn & t & Ht & Hq). split; [done|]. apply same_letter_lower in Hq; [by rewrite Hq|by apply Hlow].
  - intros (Hn & Ht). split; [done|]. eexists. split; [done|]. apply same_letter_lower; [by apply Hlow|done].
Qed.

(** C20: header name recognition.  Feeding bytes to the table from position 0 never
    reads outside of the table, whatever the bytes; it reports token [n] and leaves
    [rest] unread exactly when the bytes before [rest] are the name of index [n] of
    lextable-strings.h in some mixture of upper and lower case. *)
Theorem lextable_correct s :
  all_u8 s ->
  (exists r, lex_name 0 s = Some r) /\
  forall n rest,
    lex_name 0 s = Some (Known n rest) <-> exists q, s = q ++ rest /\ Name n q.
Proof.
  intros Hs. destruct (lex_name_state s 0 [] states_start start_not_terminal Hs) as (r & Hr & Hres).
  split; [by exists r|]. intros n rest. split.
  - intros Hk. rewrite Hk in Hr. injection Hr as <-. destruct Hres as (Hn & q & Hq & -> & Hset).
    exists q. split; [done|]. apply name_lower. split; [|done].
    apply lookup_lt_Some in Hset as Hl. change (length set) with 83%nat in Hl.
    destruct (decide (n = 82)) as [->|]; [|lia].
    change (set !! Z.to_nat 82) with (Some (@nil Z)) in Hset. by destruct q.
  - intros (q & -> & Hname). apply name_lower in Hname as [Hn Hset]. forall_inv.
    by apply lex_name_app, lex_of_set.
Qed.

Lemma lextable_correct_witness :
  all_u8 (bstr "Sec-WebSocket-Key: x") /\
  lex_name 0 (bstr "Sec-WebSocket-Key: x") = Some (Known 32 (bstr " x")).
Proof.
  split; [apply bstr_u8|]. apply (lextable_correct _ (bstr_u8 _)).
  exists (bstr "Sec-WebSocket-Key:"). split; [reflexivity|].
  apply name_lower. split; [lia|reflexivity].
Defined.

End Lextable.
