(* ===== verification/HttpHdr.v ===== *)
(** * HTTP header table and header parser (lib/parsers.c)

    The header parser collects the headers of a request or of a response, one
    byte at a time, in a table ([struct allocated_headers]): the values one after
    the other in [data], described by fragments (offset, length, next fragment of
    the same header), and for each token the index of its first fragment.  While
    the value of a method (the URI) arrives, it converts %xx, removes "//", "/./"
    and "/../" and splits the arguments at '&' and ';'.

    A result [None] stands for what the C code must never do: an access outside
    of an array of the table, or a failing assert.  The fuel of the two loops
    (backing up over a directory, walking a chain of fragments) is the length of
    the fragment and the number of fragments. *)

From S2P Require Import Prelude Ws Lextable.
Export Lextable.

Module Hdr.

(** ** Data *)

(** struct lws_fragments *)
Record frag := mkFrag { f_offset : Z; f_len : Z; f_nfrag : Z }.

(** enum lws_token_indexes (the values the parser refers to) *)
Definition WSI_TOKEN_GET_URI : Z := 0.
Definition WSI_TOKEN_POST_URI : Z := 1.
Definition WSI_TOKEN_OPTIONS_URI : Z := 2.
Definition WSI_TOKEN_HOST : Z := 3.
Definition WSI_TOKEN_UPGRADE : Z := 5.
Definition WSI_TOKEN_ORIGIN : Z := 6.
Definition WSI_TOKEN_CHALLENGE : Z := 8.
Definition WSI_TOKEN_HTTP : Z := 15.
Definition WSI_TOKEN_VERSION : Z := 33.
Definition WSI_TOKEN_SWORIGIN : Z := 34.
Definition WSI_TOKEN_PATCH_URI : Z := 73.
Definition WSI_TOKEN_PUT_URI : Z := 74.
Definition WSI_TOKEN_DELETE_URI : Z := 75.
Definition WSI_TOKEN_HTTP_URI_ARGS : Z := 76.
Definition WSI_TOKEN_CONNECT : Z := 81.
Definition WSI_TOKEN_COUNT : Z := 88.
Definition WSI_TOKEN_NAME_PART : Z := 89.
Definition WSI_TOKEN_SKIPPING : Z := 90.
Definition WSI_TOKEN_SKIPPING_SAW_CR : Z := 91.
Definition WSI_PARSING_COMPLETE : Z := 92.

(** ARRAY_SIZE(ah->frags) *)
Definition NFRAGS : Z := WSI_TOKEN_COUNT * 2.

(** struct allocated_headers: the part the parser uses.  [data] has
    max_http_header_data bytes. *)
Record allocated_headers := mkAh {
  data : bytes;
  frags : list frag;
  frag_index : list Z;
  pos : Z;
  nfrag : Z;
  http_response : Z
}.

Inductive uri_path_states :=
| URIPS_IDLE | URIPS_SEEN_SLASH | URIPS_SEEN_SLASH_DOT | URIPS_SEEN_SLASH_DOT_DOT.
Inductive uri_esc_states := URIES_IDLE | URIES_SEEN_PERCENT | URIES_SEEN_PERCENT_H1.

#[global] Instance uri_path_states_eq_dec : EqDecision uri_path_states.
Proof. solve_decision. Defined.
#[global] Instance uri_esc_states_eq_dec : EqDecision uri_esc_states.
Proof. solve_decision. Defined.

(** The members of the connection the parser uses: struct _lws_header_related with
    the header table it points to, and three members of struct lws.  [http_status]
    records the status lws_return_http_status is asked to send. *)
Record hdr := mkHdr {
  ah : allocated_headers;
  ups : uri_path_states;
  ues : uri_esc_states;
  lextable_pos : Z;
  current_token_limit : Z;
  esc_stash : Z;
  post_literal_equal : Z;
  parser_state : Z;
  hmode : lwscm;
  hparsing_completed : bool;
  ietf_spec_revision : Z;
  http_status : option Z
}.

(** What the parser reads of the context and of the vhost. *)
Class HttpCtx := {
  max_http_header_data : Z;
  token_limits : option (list Z);
  fallback_to_raw : bool   (* LWS_SERVER_OPTION_FALLBACK_TO_RAW *)
}.

(** ** The table *)

(** memset of frag_index and restart of the counters; the fragments and the data
    keep their old contents. *)
Definition _lws_header_table_reset (a : allocated_headers) : allocated_headers :=
  a {{ frag_index := replicate (Z.to_nat WSI_TOKEN_COUNT) 0; nfrag := 0; pos := 0;
       http_response := 0 }}.

Definition get_frag (a : allocated_headers) (i : Z) : option frag := frags a !! Z.to_nat i.

Definition set_frag (a : allocated_headers) (i : Z) (f : frag) : option allocated_headers :=
  _ ← frags a !! Z.to_nat i; Some (a {{ frags ::= <[Z.to_nat i := f]> }}).

Definition get_index (a : allocated_headers) (h : Z) : option Z := frag_index a !! Z.to_nat h.

Definition set_index (a : allocated_headers) (h i : Z) : option allocated_headers :=
  _ ← frag_index a !! Z.to_nat h; Some (a {{ frag_index ::= <[Z.to_nat h := i]> }}).

(** [ah->data[ah->pos++] = c] *)
Definition put_data (a : allocated_headers) (c : Z) : option allocated_headers :=
  _ ← data a !! Z.to_nat (pos a);
  Some (a {{ data ::= <[Z.to_nat (pos a) := c]>; pos := u32 (pos a + 1) }}).

(** [ah->frags[ah->nfrag].len += d] *)
Definition add_len (a : allocated_headers) (d : Z) : option allocated_headers :=
  f ← get_frag a (nfrag a); set_frag a (nfrag a) (f {{ f_len := u16 (f_len f + d) }}).

(** ** Reading headers *)

(** The do-while of lws_hdr_fragment_length; [n] is not 0. *)
Fixpoint fragment_length_loop (fuel : nat) (a : allocated_headers) (n frag_idx : Z) : option Z :=
  match fuel with
  | O => None
  | S fuel =>
      f ← get_frag a n;
      if frag_idx =? 0 then Some (f_len f)
      else if negb (f_nfrag f =? 0) then fragment_length_loop fuel a (f_nfrag f) (frag_idx - 1)
      else Some 0
  end.

Definition lws_hdr_fragment_length (a : allocated_headers) (h frag_idx : Z) : option Z :=
  n ← get_index a h;
  if n =? 0 then Some 0 else fragment_length_loop (Z.to_nat NFRAGS) a n frag_idx.

(** The chain of fragments from [n], as the do-while loops walk it. *)
Fixpoint chain (fuel : nat) (a : allocated_headers) (n : Z) : option (list frag) :=
  match fuel with
  | O => None
  | S fuel =>
      f ← get_frag a n;
      if f_nfrag f =? 0 then Some [f]
      else fs ← chain fuel a (f_nfrag f); Some (f :: fs)
  end.

Definition lws_hdr_total_length (a : allocated_headers) (h : Z) : option Z :=
  n ← get_index a h;
  if n =? 0 then Some 0
  else fs ← chain (Z.to_nat NFRAGS) a n; Some (s32 (foldr (fun f l => f_len f + l) 0 fs)).

(** [frag_idx] steps along the chain; 0 (no such fragment) makes the caller fail. *)
Fixpoint nth_frag (frag_idx : nat) (a : allocated_headers) (n : Z) : option Z :=
  match frag_idx with
  | O => Some n
  | S k => f ← get_frag a n; if f_nfrag f =? 0 then Some 0 else nth_frag k a (f_nfrag f)
  end.

(** The bytes of [data] at [off], [n] of them. *)
Definition slice (l : bytes) (off n : Z) : option bytes :=
  if (0 <=? off) && (0 <=? n) && (off + n <=? zlen l)
  then Some (take (Z.to_nat n) (drop (Z.to_nat off) l)) else None.

(** memcpy(&dst[i], src, |src|) *)
Definition store (dst : bytes) (i : Z) (src : bytes) : option bytes :=
  if (0 <=? i) && (i + zlen src <=? zlen dst) then Some (splice (Z.to_nat i) src dst) else None.

(** Gives the return value and the caller's buffer. *)
Definition lws_hdr_copy_fragment (a : allocated_headers) (dst : bytes) (len h frag_idx : Z)
  : option (Z * bytes) :=
  f ← get_index a h;
  if f =? 0 then Some (-1, dst)
  else
    f ← nth_frag (Z.to_nat frag_idx) a f;
    if f =? 0 then Some (-1, dst)
    else
      fr ← get_frag a f;
      if f_len fr >=? len then Some (-1, dst)
      else
        src ← slice (data a) (f_offset fr) (f_len fr);
        dst ← store dst 0 src;
        dst ← store dst (f_len fr) [0];
        Some (f_len fr, dst).

(** The C string at an offset of [data], with its NUL; [None] when no NUL follows. *)
Fixpoint cstr (l : bytes) : option bytes :=
  match l with
  | [] => None
  | c :: r => if c =? 0 then Some [0] else s ← cstr r; Some (c :: s)
  end.

Definition cstr_at (a : allocated_headers) (off : Z) : option bytes :=
  cstr (drop (Z.to_nat off) (data a)).

(** The do-while of lws_hdr_copy: strcpy of each fragment at the running [dst]. *)
Fixpoint copy_loop (a : allocated_headers) (fs : list frag) (dst : bytes) (i : Z) : option bytes :=
  match fs with
  | [] => Some dst
  | f :: fs =>
      s ← cstr_at a (f_offset f);
      dst ← store dst i s;
      copy_loop a fs dst (i + f_len f)
  end.

Definition lws_hdr_copy (a : allocated_headers) (dst : bytes) (len h : Z) : option (Z * bytes) :=
  toklen ← lws_hdr_total_length a h;
  if toklen >=? len then Some (-1, dst)
  else
    n ← get_index a h;
    if n =? 0 then Some (0, dst)
    else
      fs ← chain (Z.to_nat NFRAGS) a n;
      dst ← copy_loop a fs dst 0;
      Some (toklen, dst).

(** The offset of the header in [data]; -1 is NULL. *)
Definition lws_hdr_simple_ptr (a : allocated_headers) (h : Z) : option Z :=
  n ← get_index a h;
  if n =? 0 then Some (-1) else f ← get_frag a n; Some (f_offset f).

(** ** Collecting *)

Section Parser.
Context {ctx : HttpCtx}.

(** [None]: the assert(0) for a position past the limit. *)
Definition lws_pos_in_bounds (a : allocated_headers) : option Z :=
  if pos a <? max_http_header_data then Some 0
  else if pos a =? max_http_header_data then Some 1
  else None.

(** The do-while of lws_hdr_simple_create; [s] is the string without its NUL. *)
Fixpoint simple_create_loop (a : allocated_headers) (s : bytes) : option (Z * allocated_headers) :=
  b ← lws_pos_in_bounds a;
  if nz b then Some (-1, a)
  else
    a ← put_data a (deref s);
    match s with
    | [] => Some (0, a)
    | _ :: s => a ← add_len a 1; simple_create_loop a s
    end.

Definition lws_hdr_simple_create (a : allocated_headers) (h : Z) (s : bytes)
  : option (Z * allocated_headers) :=
  let a := a {{ nfrag := u8 (nfrag a + 1) }} in
  if nfrag a =? NFRAGS then Some (-1, a)
  else
    a ← set_index a h (nfrag a);
    a ← set_frag a (nfrag a) (mkFrag (pos a) 0 0);
    simple_create_loop a s.

Definition char_to_hex (c : Z) : Z :=
  if (c >=? 48) && (c <=? 57) then c - 48
  else if (c >=? 97) && (c <=? 102) then c - 97 + 10
  else if (c >=? 65) && (c <=? 70) then c - 65 + 10
  else -1.

Definition issue_char (w : hdr) (c : Z) : option (Z * hdr) :=
  b ← lws_pos_in_bounds (ah w);
  if nz b then Some (-1, w)
  else
    f ← get_frag (ah w) (nfrag (ah w));
    if f_len f <? current_token_limit w then
      a ← put_data (ah w) c;
      a ← (if nz c then add_len a 1 else Some a);
      Some (0, w {{ ah := a }})
    else if f_len f =? current_token_limit w then
      a ← put_data (ah w) 0;
      Some (1, w {{ ah := a }})
    else Some (1, w).

Definition methods : list Z :=
  [WSI_TOKEN_GET_URI; WSI_TOKEN_POST_URI; WSI_TOKEN_OPTIONS_URI; WSI_TOKEN_PUT_URI;
   WSI_TOKEN_PATCH_URI; WSI_TOKEN_DELETE_URI; WSI_TOKEN_CONNECT].

Definition is_method (n : Z) : bool := existsb (Z.eqb n) methods.

(** for (m = 0; ...) if (ah->frag_index[methods[m]]) *)
Definition had_method (a : allocated_headers) : option bool :=
  l ← mapM (get_index a) methods; Some (existsb nz l).

(** label forbid *)
Definition forbid (w : hdr) : Z * hdr := (-1, w {{ http_status := Some 403 }}).

(** atoi of the C string at an offset: white space, sign, digits; MSVC's result is
    clamped to the range of int. *)
Fixpoint digits (acc : Z) (s : bytes) : Z :=
  match s with
  | [] => acc
  | c :: r => if (c >=? 48) && (c <=? 57) then digits (acc * 10 + (c - 48)) r else acc
  end.

Definition isspace (c : Z) : bool := (c =? 32) || ((c >=? 9) && (c <=? 13)).

Fixpoint skip_space (s : bytes) : bytes :=
  match s with
  | [] => []
  | c :: r => if isspace c then skip_space r else s
  end.

Definition atoi (s : bytes) : Z :=
  let s := skip_space s in
  let v := match s with
           | 45 :: r => - digits 0 r
           | 43 :: r => digits 0 r
           | _ => digits 0 s
           end in
  Z.max (- 2 ^ 31) (Z.min v (2 ^ 31 - 1)).

(** label set_parsing_complete *)
Definition set_parsing_complete (w : hdr) : option (Z * hdr) :=
  if negb (bool_decide (ues w = URIES_IDLE)) then Some (forbid w)
  else
    up ← lws_hdr_total_length (ah w) WSI_TOKEN_UPGRADE;
    rev ← (if nz up then
             v ← lws_hdr_total_length (ah w) WSI_TOKEN_VERSION;
             if nz v then
               p ← lws_hdr_simple_ptr (ah w) WSI_TOKEN_VERSION;
               s ← cstr_at (ah w) p;
               Some (u8 (atoi s))
             else Some (ietf_spec_revision w)
           else Some (ietf_spec_revision w));
    Some (0, w {{ ietf_spec_revision := rev; parser_state := WSI_PARSING_COMPLETE;
                  hparsing_completed := true }}).

(** The last fragment of a chain: while (ah->frags[n].nfrag) n = ...; *)
Fixpoint chain_end (fuel : nat) (a : allocated_headers) (n : Z) : option Z :=
  match fuel with
  | O => None
  | S fuel =>
      f ← get_frag a n;
      if f_nfrag f =? 0 then Some n else chain_end fuel a (f_nfrag f)
  end.

(** label excessive, and what follows it *)
Definition excessive (w : hdr) : option (Z * hdr) :=
  let a := ah w in
  if nfrag a =? NFRAGS then Some (-1, w)
  else
    a ← set_frag a (nfrag a) (mkFrag (pos a) 0 0);
    n ← get_index a (parser_state w);
    if n =? 0 then
      a ← set_index a (parser_state w) (nfrag a);
      Some (0, w {{ ah := a }})
    else
      n ← chain_end (Z.to_nat NFRAGS) a n;
      f ← get_frag a n;
      a ← set_frag a n (f {{ f_nfrag := nfrag a }});
      '(r, w) ← issue_char (w {{ ah := a }}) 32;
      Some (if r <? 0 then -1 else 0, w).

(** label start_fragment *)
Definition start_fragment (w : hdr) : option (Z * hdr) :=
  excessive (w {{ ah ::= fun a => a {{ nfrag := u8 (nfrag a + 1) }} }}).

(** ** The URI *)

(** do { ah->pos--; ah->frags[ah->nfrag].len--; } while (len > 1 && data[pos] != '/') *)
Fixpoint back_up_loop (fuel : nat) (a : allocated_headers) : option allocated_headers :=
  match fuel with
  | O => None
  | S fuel =>
      a ← add_len (a {{ pos := u32 (pos a - 1) }}) (-1);
      f ← get_frag a (nfrag a);
      if f_len f >? 1 then
        c ← data a !! Z.to_nat (pos a);
        if negb (c =? 47) then back_up_loop fuel a else Some a
      else Some a
  end.

(** back up one dir level if possible *)
Definition back_up (a : allocated_headers) : option allocated_headers :=
  f ← get_frag a (nfrag a);
  if f_len f >? 2 then
    a ← add_len (a {{ pos := u32 (pos a - 1) }}) (-1);
    back_up_loop (Z.to_nat (f_len f)) a
  else Some a.

(** The space that ends the URI. *)
Definition uri_end (w : hdr) : option (Z * hdr) :=
  f ← get_frag (ah w) (nfrag (ah w));
  '(r, w) ← (if f_len f =? 0 then issue_char w 47 else Some (0, w));
  if r <? 0 then Some (-1, w)
  else
    a ← (if bool_decide (ups w = URIPS_SEEN_SLASH_DOT_DOT) then back_up (ah w) else Some (ah w));
    '(r, w) ← issue_char (w {{ ah := a }}) 0;
    if r <? 0 then Some (-1, w)
    else start_fragment (w {{ parser_state := WSI_TOKEN_HTTP }}).

(** How the URI switches continue: with the (converted) character, at one of the
    labels, or with a return. *)
Inductive flow :=
| FBreak (c : Z) (enc : bool) (w : hdr)
| FSwallow (w : hdr)
| FForbid (w : hdr)
| FExcessive (w : hdr)
| FReturn (r : Z) (w : hdr).

(** PRIORITY 1: convert %xx.  [c] is an unsigned char: a value of 256 or more
    cannot arise, both hex digits being less than 16. *)
Definition uri_escape (w : hdr) (c : Z) : flow :=
  match ues w with
  | URIES_IDLE =>
      if c =? 37 then FSwallow (w {{ ues := URIES_SEEN_PERCENT }}) else FBreak c false w
  | URIES_SEEN_PERCENT =>
      if char_to_hex (s8 c) <? 0 then FForbid w
      else FSwallow (w {{ esc_stash := s8 c; ues := URIES_SEEN_PERCENT_H1 }})
  | URIES_SEEN_PERCENT_H1 =>
      if char_to_hex (s8 c) <? 0 then FForbid w
      else FBreak (u8 ((char_to_hex (esc_stash w) .<< 4) .| char_to_hex (s8 c))) true
                  (w {{ ues := URIES_IDLE }})
  end.

(** URIPS_IDLE: a delimiter starts a new fragment. *)
Definition uri_delimiter (w : hdr) (c : Z) : option flow :=
  '(r, w) ← issue_char w c;
  if r <? 0 then Some (FReturn (-1) w)
  else
    a ← add_len (ah w) (-1);
    f ← get_frag a (nfrag a);
    a ← set_frag a (nfrag a) (f {{ f_nfrag := u8 (nfrag a + 1) }});
    let a := a {{ nfrag := u8 (nfrag a + 1) }} in
    if nfrag a >=? NFRAGS then Some (FExcessive (w {{ ah := a }}))
    else
      a ← set_frag a (nfrag a) (mkFrag (pos a) 0 0);
      Some (FSwallow (w {{ ah := a; post_literal_equal := 0 }})).

(** case URIPS_IDLE *)
Definition path_idle (w : hdr) (c : Z) (enc : bool) : option flow :=
  if c =? 0 then Some (FReturn (-1) w)
  else if ((c =? 38) || (c =? 59)) && negb enc then uri_delimiter w c
  else
    args ← get_index (ah w) WSI_TOKEN_HTTP_URI_ARGS;
    let c := if (c =? 61) && enc && nz args && negb (nz (post_literal_equal w)) then 95 else c in
    let c' := if (c =? 43) && negb enc then 32 else c in
    Some (FBreak c' enc
      (w {{ post_literal_equal ::= fun e => if (c =? 61) && negb enc then 1 else e;
            ups ::= fun u => if (c' =? 47) && negb (nz args) then URIPS_SEEN_SLASH else u }})).

(** case URIPS_SEEN_SLASH_DOT_DOT *)
Definition path_dot_dot (w : hdr) (c : Z) (enc : bool) : option flow :=
  if (c =? 47) || (c =? 63) then
    a ← back_up (ah w);
    f ← get_frag a (nfrag a);
    let w := w {{ ah := a; ups := URIPS_SEEN_SLASH }} in
    Some (if f_len f >? 1 then FBreak c enc w else FSwallow w)
  else
    '(r, w) ← issue_char w 46;
    if r <? 0 then Some (FReturn (-1) w)
    else
      '(r, w) ← issue_char w 46;
      if r <? 0 then Some (FReturn (-1) w)
      else Some (FBreak c enc (w {{ ups := URIPS_IDLE }})).

(** PRIORITY 2: the switch on the path state. *)
Definition uri_path (w : hdr) (c : Z) (enc : bool) : option flow :=
  match ups w with
  | URIPS_IDLE => path_idle w c enc
  | URIPS_SEEN_SLASH =>
      Some (if c =? 47 then FSwallow w
            else if c =? 46 then FSwallow (w {{ ups := URIPS_SEEN_SLASH_DOT }})
            else FBreak c enc (w {{ ups := URIPS_IDLE }}))
  | URIPS_SEEN_SLASH_DOT =>
      if c =? 46 then Some (FSwallow (w {{ ups := URIPS_SEEN_SLASH_DOT_DOT }}))
      else if c =? 47 then Some (FSwallow (w {{ ups := URIPS_SEEN_SLASH }}))
      else
        '(r, w) ← issue_char (w {{ ups := URIPS_IDLE }}) 46;
        Some (if r <? 0 then FReturn (-1) w else FBreak c enc w)
  | URIPS_SEEN_SLASH_DOT_DOT => path_dot_dot w c enc
  end.

(** label swallow *)
Definition swallow (w : hdr) : option (Z * hdr) :=
  if parser_state w =? WSI_TOKEN_CHALLENGE then set_parsing_complete w else Some (0, w).

(** label check_eol *)
Definition check_eol (w : hdr) (c : Z) : option (Z * hdr) :=
  let eol := negb (parser_state w =? WSI_TOKEN_CHALLENGE) && (c =? 13) in
  if eol && negb (bool_decide (ues w = URIES_IDLE)) then Some (forbid w)
  else
    let c := if eol then 0 else c in
    '(n, w) ← issue_char
      (w {{ parser_state ::= fun p => if eol then WSI_TOKEN_SKIPPING_SAW_CR else p }}) c;
    if n <? 0 then Some (-1, w)
    else swallow (w {{ parser_state ::= fun p => if n >? 0 then WSI_TOKEN_SKIPPING else p }}).

(** The start of the URI arguments: seal off the path, open a fragment. *)
Definition uri_args (w : hdr) : option (Z * hdr) :=
  if negb (bool_decide (ues w = URIES_IDLE)) then Some (forbid w)
  else
    '(r, w) ← issue_char w 0;
    if r <? 0 then Some (-1, w)
    else
      let a := (ah w) {{ nfrag := u8 (nfrag (ah w) + 1) }} in
      if nfrag a >=? NFRAGS then excessive (w {{ ah := a }})
      else
        a ← set_frag a (nfrag a) (mkFrag (pos a) 0 0);
        a ← set_index a WSI_TOKEN_HTTP_URI_ARGS (nfrag a);
        swallow (w {{ ah := a; post_literal_equal := 0; ups := URIPS_IDLE }}).

(** What follows the two switches, from where they left. *)
Definition uri_rest (f : flow) : option (Z * hdr) :=
  match f with
  | FSwallow w => swallow w
  | FForbid w => Some (forbid w)
  | FExcessive w => excessive w
  | FReturn r w => Some (r, w)
  | FBreak c enc w =>
      args ← get_index (ah w) WSI_TOKEN_HTTP_URI_ARGS;
      if (c =? 63) && negb enc && negb (nz args) then uri_args w else check_eol w c
  end.

(** default: the value of a token *)
Definition parse_value (w : hdr) (c : Z) : option (Z * hdr) :=
  i ← get_index (ah w) (parser_state w);
  f ← get_frag (ah w) i;
  if (f_len f =? 0) && (c =? 32) then Some (0, w)
  else if negb (is_method (parser_state w)) then check_eol w c
  else if c =? 32 then uri_end w
  else
    match uri_escape w c with
    | FBreak c enc w => f ← uri_path w c enc; uri_rest f
    | f => uri_rest f
    end.

(** ** Names *)

(** The name is token [n]. *)
Definition known_name (w : hdr) (n : Z) : option (Z * hdr) :=
  dup ← (if is_method n then i ← get_index (ah w) n; Some (nz i) else Some false);
  if (dup : bool) then Some (-1, w)
  else
    let n := if n =? WSI_TOKEN_SWORIGIN then WSI_TOKEN_ORIGIN else n in
    let w := w {{ parser_state := u8 (WSI_TOKEN_GET_URI + n) }} in
    limit ← match token_limits with
            | Some l => l !! Z.to_nat (parser_state w)
            | None => Some max_http_header_data
            end;
    let w := w {{ current_token_limit := limit }} in
    if parser_state w =? WSI_TOKEN_CHALLENGE then set_parsing_complete w else start_fragment w.

(** case WSI_TOKEN_NAME_PART *)
Definition name_part (w : hdr) (c : Z) : option (Z * hdr) :=
  p ← lextable_decode (lextable_pos w) (s8 c);
  let w := w {{ lextable_pos := swrap 16 p }} in
  if (lextable_pos w <? 0) && bool_decide (hmode w = LWSCM_HTTP_SERVING) then
    m ← had_method (ah w);
    if (m : bool) then Some (0, w {{ parser_state := WSI_TOKEN_SKIPPING }})
    else if fallback_to_raw then Some (2, w)
    else Some (forbid w)
  else if lextable_pos w <? 0 then Some (0, w {{ parser_state := WSI_TOKEN_SKIPPING }})
  else
    b ← lextable !! Z.to_nat (lextable_pos w);
    if b <? FAIL_CHAR then
      lo ← lextable !! Z.to_nat (lextable_pos w + 1);
      known_name w ((b .<< 8) .| lo)
    else Some (0, w).

(** ** lws_parse *)
Definition lws_parse (w : hdr) (c : Z) : option (Z * hdr) :=
  let p := parser_state w in
  if p =? WSI_TOKEN_NAME_PART then name_part w c
  else if p =? WSI_TOKEN_SKIPPING then
    Some (0, if c =? 13 then w {{ parser_state := WSI_TOKEN_SKIPPING_SAW_CR }} else w)
  else if p =? WSI_TOKEN_SKIPPING_SAW_CR then
    if negb (bool_decide (ues w = URIES_IDLE)) then Some (forbid w)
    else if c =? 10 then Some (0, w {{ parser_state := WSI_TOKEN_NAME_PART; lextable_pos := 0 }})
    else Some (0, w {{ parser_state := WSI_TOKEN_SKIPPING }})
  else if p =? WSI_PARSING_COMPLETE then Some (0, w)
  else parse_value w c.

(** The loop of lws_handshake_server (and of the client's reply reader): bytes are
    fed until the parser fails or the headers are complete.  Gives the last return
    value, the state and the bytes left over. *)
Fixpoint feed (w : hdr) (s : bytes) : option (Z * hdr * bytes) :=
  match s with
  | [] => Some (0, w, [])
  | c :: r =>
      '(m, w) ← lws_parse w c;
      if nz m then Some (m, w, r)
      else if parser_state w =? WSI_PARSING_COMPLETE then Some (0, w, r)
      else feed w r
  end.

End Parser.
End Hdr.
