(* ===== verification/HttpHdrFacts.v ===== *)
(** * Facts about the header table: the invariant of the fragments

    [ok m Q]: the computation [m] does not fault (no access outside of an array, no
    failing assert, no loop that runs out of rounds) and its result satisfies [Q].
    [AhInv] is the invariant of a header table; each operation of HttpHdr is shown
    to succeed under it and to keep it. *)

From S2P Require Import Prelude Ws Lextable HttpHdr.

Module HdrFacts.
Import Hdr.

(** ** Computations that do not fault *)

Definition ok {A} (m : option A) (Q : A -> Prop) : Prop :=
  match m with Some x => Q x | None => False end.

Lemma ok_bind {A B} (m : option A) (k : A -> option B) (P : A -> Prop) (Q : B -> Prop) :
  ok m P -> (forall x, P x -> ok (k x) Q) -> ok (m ≫= k) Q.
Proof. destruct m; cbn; [|done]. auto. Qed.

Lemma ok_mono {A} (m : option A) (P Q : A -> Prop) : ok m P -> (forall x, P x -> Q x) -> ok m Q.
Proof. destruct m; cbn; [|done]. auto. Qed.

Lemma ok_some {A} (m : option A) Q : ok m Q -> exists x, m = Some x /\ Q x.
Proof. destruct m; cbn; [eauto|done]. Qed.

(** The configuration: the table's length counters are 16 bits wide, so that a
    table of more data than that is out of scope; a token limit is at least 1. *)
Class HttpCtxOk (ctx : HttpCtx) := {
  max_ok : 1 <= max_http_header_data <= 65535;
  limits_ok : forall l, token_limits = Some l ->
    length l = Z.to_nat WSI_TOKEN_COUNT /\ Forall (fun x => 1 <= x <= 65535) l
}.

Section Facts.
Context {ctx : HttpCtx} {ctx_ok : HttpCtxOk ctx}.

(** ** The invariant *)

(** Fragment [i] of the table: it lies before the current fragment, or before the
    fill position when it is the current one; the next fragment is a later one. *)
Record FragOk (a : allocated_headers) (i : Z) (f : frag) : Prop := {
  fo_off : 0 <= f_offset f;
  fo_len : 0 <= f_len f;
  fo_end : f_offset f + f_len f <= pos a;
  fo_cur : forall g, i < nfrag a -> get_frag a (nfrag a) = Some g ->
    f_offset f + f_len f <= f_offset g;
  fo_link : f_nfrag f = 0 \/ i < f_nfrag f <= nfrag a
}.

Record AhInv (a : allocated_headers) : Prop := {
  ai_data : zlen (data a) = max_http_header_data;
  ai_frags : zlen (frags a) = NFRAGS;
  ai_index : zlen (frag_index a) = WSI_TOKEN_COUNT;
  ai_pos : 0 <= pos a <= max_http_header_data;
  ai_nfrag : 0 <= nfrag a < NFRAGS;
  ai_first : forall h i, frag_index a !! h = Some i -> 0 <= i <= nfrag a;
  ai_frag : forall i f, 1 <= i <= nfrag a -> get_frag a i = Some f -> FragOk a i f
}.

(** A NUL follows the start of fragment [i]. *)
Definition Term (a : allocated_headers) (i : Z) : Prop :=
  forall f, get_frag a i = Some f ->
  exists j, f_offset f <= j < pos a /\ data a !! Z.to_nat j = Some 0.

(** ** Access *)

Lemma get_frag_ok a i : AhInv a -> 0 <= i < NFRAGS -> exists f, get_frag a i = Some f.
Proof.
  intros Ha Hi. unfold get_frag. apply lookup_lt_is_Some.
  pose proof (ai_frags a Ha). unfold zlen in *. lia.
Qed.

Lemma get_index_ok a h : AhInv a -> 0 <= h < WSI_TOKEN_COUNT ->
  ok (get_index a h) (fun i => 0 <= i <= nfrag a).
Proof.
  intros Ha Hh. unfold get_index.
  destruct (lookup_lt_is_Some_2 (frag_index a) (Z.to_nat h)) as [i Hi].
  { pose proof (ai_index a Ha). unfold zlen in *. lia. }
  rewrite Hi. cbn. by apply (ai_first a Ha (Z.to_nat h)).
Qed.

Lemma get_frag_insert a i f g j : 0 <= i < zlen (frags a) -> 0 <= j ->
  frags a !! Z.to_nat i = Some g ->
  <[Z.to_nat i := f]> (frags a) !! Z.to_nat j =
  if j =? i then Some f else get_frag a j.
Proof.
  intros Hi Hj Hg. unfold get_frag. destruct (j =? i) eqn:E; zbool.
  - subst j. apply list_lookup_insert_eq. apply lookup_lt_Some in Hg. lia.
  - apply list_lookup_insert_ne. lia.
Qed.

(** ** Updates of the table that keep the invariant *)

(** The current fragment gets length [l], the fill position is [p], the data [d]. *)
Definition upd_cur (a : allocated_headers) (d : bytes) (p l : Z) (g : frag) : allocated_headers :=
  mkAh d (<[Z.to_nat (nfrag a) := mkFrag (f_offset g) l (f_nfrag g)]> (frags a))
       (frag_index a) p (nfrag a) (http_response a).

Lemma upd_cur_get a d p l g i : AhInv a -> get_frag a (nfrag a) = Some g -> 0 <= i ->
  get_frag (upd_cur a d p l g) i =
  if i =? nfrag a then Some (mkFrag (f_offset g) l (f_nfrag g)) else get_frag a i.
Proof.
  intros Ha Hg Hi. destruct Ha. unfold upd_cur, get_frag at 1. cbn.
  apply (get_frag_insert _ _ _ g); [lia|done|done].
Qed.

Lemma upd_cur_inv a d p l g : AhInv a -> 1 <= nfrag a -> get_frag a (nfrag a) = Some g ->
  zlen d = max_http_header_data -> 0 <= l -> f_offset g + l <= p <= max_http_header_data ->
  AhInv (upd_cur a d p l g).
Proof.
  intros Ha Hn Hg Hd Hl Hp.
  pose proof (ai_frag a Ha (nfrag a) g ltac:(lia) Hg) as Hgok. destruct Hgok.
  assert (Hget := fun i => upd_cur_get a d p l g i Ha Hg).
  destruct Ha. constructor; cbn; try done; try lia.
  - unfold zlen in *. rewrite length_insert. lia.
  - intros i f Hi Hf. rewrite Hget in Hf by lia. cbn in Hi. destruct (i =? nfrag a) eqn:E; zbool.
    + simplify_eq. constructor; cbn; try done; try lia.
    + pose proof (ai_frag0 i f Hi Hf) as [? ? ? Hcur Hlink].
      specialize (Hcur g ltac:(lia) Hg).
      constructor; cbn; try lia.
      intros g' _ Hg'. rewrite Hget in Hg' by (cbn; lia). cbn in Hg'. rewrite Z.eqb_refl in Hg'.
      by simplify_eq.
Qed.

(** A new, empty fragment at the fill position. *)
Definition new_frag (a : allocated_headers) : allocated_headers :=
  mkAh (data a) (<[Z.to_nat (nfrag a + 1) := mkFrag (pos a) 0 0]> (frags a))
       (frag_index a) (pos a) (nfrag a + 1) (http_response a).

Lemma new_frag_get a i : AhInv a -> nfrag a + 1 < NFRAGS -> 0 <= i ->
  get_frag (new_frag a) i =
  if i =? nfrag a + 1 then Some (mkFrag (pos a) 0 0) else get_frag a i.
Proof.
  intros Ha Hn Hi. destruct (get_frag_ok a (nfrag a + 1) Ha) as [g Hg].
  { pose proof (ai_nfrag a Ha). lia. }
  destruct Ha. unfold new_frag, get_frag at 1. cbn.
  apply (get_frag_insert _ _ _ g); [lia|done|done].
Qed.

Lemma new_frag_inv a : AhInv a -> nfrag a + 1 < NFRAGS -> AhInv (new_frag a).
Proof.
  intros Ha Hn. assert (Hget := fun i => new_frag_get a i Ha Hn).
  destruct Ha. constructor; cbn; try done; try lia.
  - unfold zlen in *. rewrite length_insert. lia.
  - intros h i Hh. apply ai_first0 in Hh. lia.
  - intros i f Hi Hf. rewrite Hget in Hf by lia. destruct (i =? nfrag a + 1) eqn:E; zbool.
    + simplify_eq. constructor; cbn; lia.
    + pose proof (ai_frag0 i f ltac:(lia) Hf) as [? ? ? Hcur Hlink].
      constructor; cbn; try lia.
      intros g' _ Hg'. rewrite Hget in Hg' by (cbn; lia). cbn in Hg'. rewrite Z.eqb_refl in Hg'.
      simplify_eq. cbn. lia.
Qed.

(** Linking fragment [n] to the current one. *)
Definition link_frag (a : allocated_headers) (n : Z) (f : frag) : allocated_headers :=
  mkAh (data a) (<[Z.to_nat n := mkFrag (f_offset f) (f_len f) (nfrag a)]> (frags a))
       (frag_index a) (pos a) (nfrag a) (http_response a).

Lemma link_frag_get a n f i : AhInv a -> 1 <= n < nfrag a -> get_frag a n = Some f -> 0 <= i ->
  get_frag (link_frag a n f) i =
  if i =? n then Some (mkFrag (f_offset f) (f_len f) (nfrag a)) else get_frag a i.
Proof.
  intros Ha Hn Hf Hi. destruct Ha. unfold link_frag, get_frag at 1. cbn.
  apply (get_frag_insert _ _ _ f); [lia|done|done].
Qed.

Lemma link_frag_inv a n f : AhInv a -> 1 <= n < nfrag a -> get_frag a n = Some f ->
  AhInv (link_frag a n f).
Proof.
  intros Ha Hn Hf. assert (Hget := fun i => link_frag_get a n f i Ha Hn Hf).
  destruct Ha. constructor; cbn; try done; try lia.
  - unfold zlen in *. rewrite length_insert. lia.
  - intros i f' Hi Hf'. rewrite Hget in Hf' by lia. destruct (i =? n) eqn:E; zbool; simplify_eq.
    + pose proof (ai_frag0 n f ltac:(lia) Hf) as [? ? ? Hcur Hlink]. constructor; cbn; try lia.
      intros g Hi' Hg'. rewrite Hget in Hg' by (cbn; lia). cbn in Hg'.
      destruct (nfrag a =? n) eqn:E'; zbool; [lia|]. by apply Hcur.
    + pose proof (ai_frag0 i f' ltac:(lia) Hf') as [? ? ? Hcur Hlink]. constructor; cbn; try lia.
      intros g Hi' Hg'. rewrite Hget in Hg' by (cbn; lia). cbn in Hg'.
      destruct (nfrag a =? n) eqn:E'; zbool; [lia|]. by apply Hcur.
Qed.

(** Token [h] starts at the current fragment. *)
Definition first_frag (a : allocated_headers) (h : Z) : allocated_headers :=
  mkAh (data a) (frags a) (<[Z.to_nat h := nfrag a]> (frag_index a)) (pos a) (nfrag a)
       (http_response a).

Lemma first_frag_inv a h : AhInv a -> AhInv (first_frag a h).
Proof.
  intros []. constructor; cbn; try done; try lia.
  - unfold zlen in *. rewrite length_insert. lia.
  - intros h' i Hh. destruct (decide (Z.to_nat h = h')) as [<-|].
    + destruct (decide (Z.to_nat h < length (frag_index a))%nat).
      * rewrite list_lookup_insert_eq in Hh by done. simplify_eq. lia.
      * rewrite list_insert_ge in Hh by lia. by apply ai_first0 in Hh.
    + rewrite list_lookup_insert_ne in Hh by done. by apply ai_first0 in Hh.
  - intros i f Hi Hf. destruct (ai_frag0 i f Hi Hf). by constructor.
Qed.

(** ** Storing a character *)

(** The connection with the table replaced. *)
Definition with_ah (w : hdr) (a : allocated_headers) : hdr :=
  mkHdr a (ups w) (ues w) (lextable_pos w) (current_token_limit w) (esc_stash w)
        (post_literal_equal w) (parser_state w) (hmode w) (hparsing_completed w)
        (ietf_spec_revision w) (http_status w).

Lemma put_data_eq a c : AhInv a -> pos a < max_http_header_data ->
  put_data a c = Some (mkAh (<[Z.to_nat (pos a) := c]> (data a)) (frags a) (frag_index a)
                            (pos a + 1) (nfrag a) (http_response a)).
Proof.
  intros Ha Hp. pose proof max_ok. destruct Ha. unfold put_data.
  destruct (lookup_lt_is_Some_2 (data a) (Z.to_nat (pos a))) as [x Hx]; [unfold zlen in *; lia|].
  rewrite Hx. cbn. f_equal. destruct a; cbn in *. f_equal. apply u32_small. lia.
Qed.

Lemma add_len_eq a g d : get_frag a (nfrag a) = Some g -> 0 <= f_len g + d < 65536 ->
  add_len a d = Some (upd_cur a (data a) (pos a) (f_len g + d) g).
Proof.
  intros Hg Hd. unfold add_len, set_frag. rewrite Hg. cbn.
  unfold get_frag in Hg. rewrite Hg. cbn. unfold upd_cur. f_equal.
  destruct a; cbn in *. f_equal. destruct g; cbn in *. unfold u16, constant.
  by rewrite wrap_small by lia.
Qed.

(** What issue_char does, on each of its branches. *)
Lemma issue_char_eq w c g :
  AhInv (ah w) -> get_frag (ah w) (nfrag (ah w)) = Some g -> 0 <= f_len g <= current_token_limit w ->
  f_offset g + f_len g <= pos (ah w) -> 0 <= f_offset g ->
  issue_char w c = Some (
    if pos (ah w) =? max_http_header_data then (-1, w)
    else if f_len g <? current_token_limit w then
      (0, with_ah w (upd_cur (ah w) (<[Z.to_nat (pos (ah w)) := c]> (data (ah w)))
                             (pos (ah w) + 1) (f_len g + b2z (nz c)) g))
    else (1, with_ah w (upd_cur (ah w) (<[Z.to_nat (pos (ah w)) := 0]> (data (ah w)))
                                (pos (ah w) + 1) (f_len g) g))).
Proof.
  intros Ha Hg Hl Hoff Hoff0. pose proof max_ok. pose proof (ai_pos _ Ha) as Hpos.
  assert (Hid : forall d p, mkAh d (frags (ah w)) (frag_index (ah w)) p (nfrag (ah w))
                             (http_response (ah w)) = upd_cur (ah w) d p (f_len g) g).
  { intros d p. unfold upd_cur. f_equal. unfold get_frag in Hg.
    symmetry. apply list_insert_id. by rewrite Hg; destruct g. }
  unfold issue_char, lws_pos_in_bounds.
  destruct (pos (ah w) =? max_http_header_data) eqn:E; zbool.
  { rewrite E, Z.ltb_irrefl. done. }
  rewrite (proj2 (Z.ltb_lt _ _)) by lia. cbn. change (nz 0) with false. cbn. rewrite Hg. cbn.
  rewrite (put_data_eq (ah w) c), (put_data_eq (ah w) 0) by (done || lia).
  destruct (f_len g <? current_token_limit w) eqn:El; zbool; cbn.
  - destruct (nz c) eqn:Ec; cbn.
    + rewrite (add_len_eq _ g) by (done || lia). done.
    + rewrite Z.add_0_r. by rewrite Hid.
  - rewrite (proj2 (Z.eqb_eq _ _)) by lia. cbn. by rewrite Hid.
Qed.

(** ** What storing a character keeps *)

(** The parser is inside a value: the current fragment collects it. *)
Record Collecting (w : hdr) : Prop := {
  co_inv : AhInv (ah w);
  co_nfrag : 1 <= nfrag (ah w);
  co_limit : 1 <= current_token_limit w;
  co_len : forall g, get_frag (ah w) (nfrag (ah w)) = Some g -> f_len g <= current_token_limit w
}.

Lemma collecting_cur w : Collecting w ->
  exists g, get_frag (ah w) (nfrag (ah w)) = Some g /\
    0 <= f_offset g /\ 0 <= f_len g <= current_token_limit w /\
    f_offset g + f_len g <= pos (ah w) /\ (f_nfrag g = 0).
Proof.
  intros []. pose proof (ai_nfrag _ co_inv0).
  destruct (get_frag_ok (ah w) (nfrag (ah w)) co_inv0) as [g Hg]; [lia|].
  exists g. destruct (ai_frag _ co_inv0 (nfrag (ah w)) g ltac:(lia) Hg). specialize (co_len0 g Hg).
  repeat split; try done; lia.
Qed.

(** The table changed, the fragments are where they were; what was terminated is. *)
Record Kept (a a' : allocated_headers) : Prop := {
  ke_nfrag : nfrag a' = nfrag a;
  ke_index : frag_index a' = frag_index a;
  ke_data : take (Z.to_nat (pos a)) (data a') = take (Z.to_nat (pos a)) (data a);
  ke_frag : forall i f, 0 <= i -> get_frag a i = Some f ->
    exists f', get_frag a' i = Some f' /\ f_offset f' = f_offset f;
  ke_term : forall i, 1 <= i <= nfrag a -> Term a i -> Term a' i
}.

Definition AllTerm (a : allocated_headers) : Prop := forall i, 1 <= i <= nfrag a -> Term a i.

Lemma upd_cur_grow a g c l : AhInv a -> get_frag a (nfrag a) = Some g -> 1 <= nfrag a ->
  pos a < max_http_header_data -> f_offset g + l <= pos a + 1 -> 0 <= l ->
  let a' := upd_cur a (<[Z.to_nat (pos a) := c]> (data a)) (pos a + 1) l g in
  AhInv a' /\ Kept a a' /\ (c = 0 -> AllTerm a').
Proof.
  intros Ha Hg Hn Hp Hl Hl0 a'. pose proof (ai_pos _ Ha). pose proof (ai_data _ Ha) as Hd.
  assert (Hoff : forall i f, 1 <= i <= nfrag a -> get_frag a' i = Some f ->
            exists f', get_frag a i = Some f' /\ f_offset f' = f_offset f /\ 0 <= f_offset f <= pos a).
  { intros i f Hi Hf. unfold a' in Hf. rewrite (upd_cur_get a _ _ _ g) in Hf by (done || lia).
    destruct (i =? nfrag a) eqn:E; zbool; [simplify_eq|]; cbn.
    - exists g. destruct (ai_frag a Ha (nfrag a) g ltac:(lia) Hg). cbn. split_and!; (done || lia).
    - exists f. destruct (ai_frag a Ha i f ltac:(lia) Hf). repeat split; (done || lia). }
  split_and!.
  - apply upd_cur_inv; try done; [|lia]. unfold zlen in *. by rewrite length_insert.
  - constructor; [done|done|cbn; apply take_insert_ge; lia| |].
    { intros i f Hi Hf. unfold a'. rewrite (upd_cur_get a) by done.
      destruct (i =? nfrag a) eqn:E; zbool; [|by exists f]. subst. eexists. split; [done|].
      cbn. by simplify_eq. }
    intros i Hi Ht f Hf. destruct (Hoff i f Hi Hf) as (f' & Hf' & Ho & ?).
    destruct (Ht f' Hf') as (j & Hj & Hz). exists j. cbn. split; [lia|].
    rewrite list_lookup_insert_ne by lia. done.
  - intros -> i Hi f Hf. cbn in Hi. destruct (Hoff i f Hi Hf) as (f' & Hf' & Ho & ?).
    exists (pos a). cbn. split; [lia|]. apply list_lookup_insert_eq. unfold zlen in *. lia.
Qed.

Lemma issue_char_ok w c : Collecting w ->
  ok (issue_char w c) (fun rw =>
    rw = (-1, w) \/
    exists a', rw.2 = with_ah w a' /\ Collecting rw.2 /\ Kept (ah w) a' /\
      (rw.1 = 0 \/ rw.1 = 1) /\ (rw.1 = 1 \/ c = 0 -> AllTerm a')).
Proof.
  intros Hc. destruct (collecting_cur w Hc) as (g & Hg & Ho & Hl & He & Hnf). destruct Hc.
  rewrite (issue_char_eq w c g) by (done || lia). cbn.
  pose proof (ai_pos _ co_inv0).
  destruct (pos (ah w) =? max_http_header_data) eqn:E; zbool; [by left|right].
  destruct (f_len g <? current_token_limit w) eqn:El; zbool; cbn.
  - destruct (upd_cur_grow (ah w) g c (f_len g + b2z (nz c))) as (Hi & Hk & Ht); try done; try lia.
    { unfold b2z. case_if; lia. } { unfold b2z. case_if; lia. }
    eexists. split; [done|]. split_and!; [|done|by left|intros [|]; [done|by apply Ht]].
    constructor; [done..|]. intros g' Hg'. cbn in Hg'.
    rewrite (upd_cur_get _ _ _ _ g) in Hg' by (done || lia). rewrite Z.eqb_refl in Hg'.
    simplify_eq. cbn. unfold b2z. case_if; lia.
  - destruct (upd_cur_grow (ah w) g 0 (f_len g)) as (Hi & Hk & Ht); try done; try lia.
    eexists. split; [done|]. split_and!; [|done|by right|intros _; by apply Ht].
    constructor; [done..|]. intros g' Hg'. cbn in Hg'.
    rewrite (upd_cur_get _ _ _ _ g) in Hg' by (done || lia). rewrite Z.eqb_refl in Hg'.
    simplify_eq. cbn. lia.
Qed.

(** ** Chains of fragments *)

(** Among the first [m] fragments, links go forward. *)
Definition Links (a : allocated_headers) (m : Z) : Prop :=
  forall i, 1 <= i <= m ->
  exists f, get_frag a i = Some f /\ (f_nfrag f = 0 \/ i < f_nfrag f <= m).

Lemma inv_links a : AhInv a -> Links a (nfrag a).
Proof.
  intros Ha i Hi. pose proof (ai_nfrag _ Ha).
  destruct (get_frag_ok a i Ha) as [f Hf]; [lia|].
  exists f. by destruct (ai_frag a Ha i f Hi Hf).
Qed.

Lemma chain_end_ok a m : Links a m -> forall fuel n, 1 <= n <= m -> m - n < Z.of_nat fuel ->
  ok (chain_end fuel a n) (fun e => n <= e <= m /\ exists f, get_frag a e = Some f).
Proof.
  intros Hl. induction fuel as [|fuel IH]; intros n Hn Hf; [lia|]. cbn.
  destruct (Hl n Hn) as (f & Hg & Hlink). rewrite Hg. cbn.
  destruct (f_nfrag f =? 0) eqn:E; zbool; [cbn; eauto with lia|].
  eapply ok_mono; [apply IH; lia|]. cbn. intros e (? & ?). split; [lia|done].
Qed.

Lemma chain_ok a m : Links a m -> forall fuel n, 1 <= n <= m -> m - n < Z.of_nat fuel ->
  ok (chain fuel a n) (fun fs =>
    Z.of_nat (length fs) <= m - n + 1 /\
    exists f fs', fs = f :: fs' /\ get_frag a n = Some f /\
      Forall (fun f => exists i, 1 <= i <= m /\ get_frag a i = Some f) fs).
Proof.
  intros Hl. induction fuel as [|fuel IH]; intros n Hn Hf; [lia|]. cbn.
  destruct (Hl n Hn) as (f & Hg & Hlink). rewrite Hg. cbn.
  destruct (f_nfrag f =? 0) eqn:E; zbool.
  { cbn. split; [lia|]. exists f, []. repeat constructor; eauto. }
  eapply ok_bind; [apply IH; lia|]. cbn. intros fs (Hlen & f' & fs' & -> & ? & Hall).
  cbn in *. split; [lia|]. exists f, (f' :: fs'). split_and!; [done..|]. constructor; eauto.
Qed.

Lemma hdr_total_length_ok a h : AhInv a -> 0 <= h < WSI_TOKEN_COUNT ->
  ok (lws_hdr_total_length a h) (fun _ => True).
Proof.
  intros Ha Hh. unfold lws_hdr_total_length. pose proof (ai_nfrag _ Ha).
  eapply ok_bind; [by apply get_index_ok|]. intros n Hn. cbn in Hn.
  destruct (n =? 0) eqn:E; zbool; [done|].
  eapply ok_bind; [apply (chain_ok a (nfrag a)); [by apply inv_links|lia|]|done].
  unfold NFRAGS in *. lia.
Qed.

(** ** A new fragment for a token *)

Lemma new_frag_term a i : AhInv a -> nfrag a + 1 < NFRAGS -> 1 <= i <= nfrag a ->
  Term a i -> Term (new_frag a) i.
Proof.
  intros Ha Hn Hi Ht f Hf. rewrite new_frag_get in Hf by (done || lia).
  destruct (i =? nfrag a + 1) eqn:E; zbool; [lia|]. by apply Ht.
Qed.

Lemma link_frag_term a n f i : AhInv a -> 1 <= n < nfrag a -> get_frag a n = Some f ->
  1 <= i -> Term a i -> Term (link_frag a n f) i.
Proof.
  intros Ha Hn Hf Hi Ht f' Hf'. rewrite (link_frag_get a n f) in Hf' by (done || lia).
  destruct (i =? n) eqn:E; zbool; [|by apply Ht].
  subst. simplify_eq. destruct (Ht f Hf) as (j & ?). by exists j.
Qed.

(** [ah->nfrag++] *)
Definition next_nfrag (a : allocated_headers) : allocated_headers :=
  mkAh (data a) (frags a) (frag_index a) (pos a) (nfrag a + 1) (http_response a).

Lemma next_nfrag_eq a : AhInv a -> a {{ nfrag := u8 (nfrag a + 1) }} = next_nfrag a.
Proof.
  intros Ha. pose proof (ai_nfrag _ Ha). unfold next_nfrag. rewrite u8_small; [done|].
  unfold is_u8, NFRAGS, WSI_TOKEN_COUNT in *. lia.
Qed.

Lemma set_frag_new a : AhInv a -> nfrag a + 1 < NFRAGS ->
  set_frag (next_nfrag a) (nfrag a + 1) (mkFrag (pos a) 0 0) = Some (new_frag a).
Proof.
  intros Ha Hn. destruct (get_frag_ok a (nfrag a + 1) Ha) as [g Hg].
  { pose proof (ai_nfrag _ Ha). lia. }
  unfold get_frag in Hg. unfold set_frag. destruct a; cbn in *. by rewrite Hg.
Qed.

Lemma new_frag_old a : AhInv a -> nfrag a + 1 < NFRAGS -> forall i f, 1 <= i <= nfrag a ->
  get_frag a i = Some f -> exists f', get_frag (new_frag a) i = Some f' /\ f_offset f' = f_offset f.
Proof.
  intros Ha Hn i f Hi Hf. exists f. rewrite new_frag_get by (done || lia).
  by destruct (i =? nfrag a + 1) eqn:E; zbool; [lia|].
Qed.

Lemma link_frag_old a n g : AhInv a -> 1 <= n < nfrag a -> get_frag a n = Some g ->
  forall i f, 0 <= i -> get_frag a i = Some f ->
  exists f', get_frag (link_frag a n g) i = Some f' /\ f_offset f' = f_offset f.
Proof.
  intros Ha Hn Hg i f Hi Hf. rewrite (link_frag_get a n g) by done.
  destruct (i =? n) eqn:E; zbool; [|by exists f]. subst. eexists. split; [done|]. cbn. by simplify_eq.
Qed.

Lemma set_frag_link a n f : get_frag a n = Some f ->
  set_frag a n (f {{ f_nfrag := nfrag a }}) = Some (link_frag a n f).
Proof. intros Hf. unfold get_frag in Hf. unfold set_frag. rewrite Hf. by destruct a, f. Qed.

Lemma set_index_first a h : AhInv a -> 0 <= h < WSI_TOKEN_COUNT ->
  set_index a h (nfrag a) = Some (first_frag a h).
Proof.
  intros Ha Hh. unfold set_index.
  destruct (lookup_lt_is_Some_2 (frag_index a) (Z.to_nat h)) as [i Hi].
  { pose proof (ai_index a Ha). unfold zlen in *. lia. }
  rewrite Hi. by destruct a.
Qed.

(** The table and the limits are those of a connection that just entered a value. *)
Lemma collecting_new w a : AhInv a -> 1 <= nfrag a -> 1 <= current_token_limit w ->
  (forall g, get_frag a (nfrag a) = Some g -> f_len g = 0) -> Collecting (with_ah w a).
Proof. intros ? ? ? Hg. constructor; cbn; try done. intros g Hg'. rewrite (Hg g Hg'). lia. Qed.

(** A change of the table that leaves what was stored, and the other tokens. *)
Record Frame (h : Z) (a a' : allocated_headers) : Prop := {
  fr_nfrag : nfrag a <= nfrag a';
  fr_data : take (Z.to_nat (pos a)) (data a') = take (Z.to_nat (pos a)) (data a);
  fr_index : forall h', 0 <= h' -> h' <> h -> get_index a' h' = get_index a h';
  fr_frag : forall i f, 1 <= i <= nfrag a -> get_frag a i = Some f ->
    exists f', get_frag a' i = Some f' /\ f_offset f' = f_offset f
}.

(** label start_fragment *)
Lemma start_fragment_ok w : AhInv (ah w) -> AllTerm (ah w) ->
  0 <= parser_state w < WSI_TOKEN_COUNT -> 1 <= current_token_limit w ->
  ok (start_fragment w) (fun rw => (rw.1 = 0 \/ rw.1 = -1) /\
    (rw.1 = 0 -> exists a, rw.2 = with_ah w a /\ Collecting rw.2 /\
                      (forall i, 1 <= i < nfrag a -> Term a i) /\
                      Frame (parser_state w) (ah w) a)).
Proof.
  intros Ha Ht Hp Hl. pose proof (ai_nfrag _ Ha) as Hn.
  assert (Hs : start_fragment w = excessive (with_ah w (next_nfrag (ah w)))).
  { rewrite <- next_nfrag_eq by done. by destruct w. }
  rewrite Hs. clear Hs. unfold excessive.
  destruct w as [a ups0 ues0 lp limit st ple ps md hc rev stat]. cbn in *.
  destruct (nfrag a + 1 =? NFRAGS) eqn:E; zbool; [cbn; by split; [right|]|].
  rewrite set_frag_new by (done || lia). cbn.
  pose proof (new_frag_inv a Ha ltac:(lia)) as Hnew.
  assert (Hcur : get_frag (new_frag a) (nfrag a + 1) = Some (mkFrag (pos a) 0 0))
    by (rewrite new_frag_get, Z.eqb_refl by (done || lia); done).
  pose proof (get_index_ok a ps Ha Hp) as Hidx. change (get_index (new_frag a) ps) with (get_index a ps).
  eapply ok_bind; [exact Hidx|]. intros n Hni. cbn in Hni.
  destruct (n =? 0) eqn:En; zbool.
  { change (nfrag a + 1) with (nfrag (new_frag a)) at 1.
    rewrite (set_index_first (new_frag a)) by done. cbn. split; [by left|]. intros _.
    exists (first_frag (new_frag a) ps). split; [done|]. split.
    - constructor; cbn; [by apply first_frag_inv|lia|done|].
      intros g Hg. change (get_frag (new_frag a) (nfrag a + 1) = Some g) in Hg. simplify_eq. cbn. lia.
    - split.
      + intros i Hi. cbn in Hi.
        exact (new_frag_term a i Ha ltac:(lia) ltac:(lia) (Ht i ltac:(lia))).
      + constructor; [cbn; lia|done| |exact (new_frag_old a Ha ltac:(lia))].
        intros h' Hh Hne. unfold get_index. cbn. by rewrite list_lookup_insert_ne by lia. }
  eapply ok_bind.
  { apply (chain_end_ok (new_frag a) (nfrag a)); [|lia|unfold NFRAGS, WSI_TOKEN_COUNT in *; lia].
    intros i Hi. rewrite new_frag_get by (done || lia).
    destruct (i =? nfrag a + 1) eqn:Ei; zbool; [lia|]. by apply inv_links. }
  cbn. intros e (He & f & Hf). rewrite Hf. cbn.
  pose proof (set_frag_link (new_frag a) e f Hf) as Hset. cbn in Hset. rewrite Hset. clear Hset. cbn.
  pose proof (link_frag_inv (new_frag a) e f Hnew ltac:(cbn; lia) Hf) as Hlink.
  assert (Hcur' : get_frag (link_frag (new_frag a) e f) (nfrag a + 1) = Some (mkFrag (pos a) 0 0)).
  { rewrite link_frag_get by (done || cbn; lia). destruct (nfrag a + 1 =? e) eqn:Ee; zbool; [lia|done]. }
  eapply ok_bind.
  { apply issue_char_ok. constructor; cbn; [done|lia|done|]. intros g Hg.
    change (get_frag (link_frag (new_frag a) e f) (nfrag a + 1) = Some g) in Hg.
    rewrite Hcur' in Hg. simplify_eq. cbn. lia. }
  intros [r w'] [[= -> ->]|(a' & Hw & Hc & Hk & Hr & _)]; cbn in *; [split; [by right|done]|].
  subst w'. destruct Hr as [-> | ->]; cbn; (split; [by left|]); intros _; exists a'; (split; [done|]).
  all: destruct Hk as [Hkn Hki Hkd Hkf Hkt]; cbn in Hkn, Hki, Hkd, Hkt; (split_and!; [done| |]).
  all: try (intros i Hi; rewrite Hkn in Hi; apply Hkt; [lia|];
    apply (link_frag_term (new_frag a)); try done; cbn; try lia;
    apply new_frag_term; try done; try lia; apply Ht; lia).
  all: constructor; [cbn; lia|exact Hkd|intros h' _ _; unfold get_index; by rewrite Hki|].
  all: cbn; intros i f0 Hi Hf0; destruct (new_frag_old a Ha ltac:(lia) i f0 Hi Hf0) as (f1 & Hf1 & Ho1).
  all: destruct (link_frag_old (new_frag a) e f Hnew ltac:(cbn; lia) Hf i f1 ltac:(lia) Hf1)
    as (f2 & Hf2 & Ho2).
  all: destruct (Hkf i f2 ltac:(lia) Hf2) as (f3 & Hf3 & Ho3); exists f3; split; [done|congruence].
Qed.

End Facts.
End HdrFacts.
