(* ===== verification/HttpHdrInv.v ===== *)
(** * The header parser never faults

    Every byte fed to lws_parse keeps the invariant of the header table and of the
    parser: no access outside of the arrays, no failing assert, every loop ends. *)

From S2P Require Import Prelude Ws Lextable HttpHdr HttpHdrFacts.

Module HdrInv.
Import Hdr HdrFacts.

Section Inv.
Context {ctx : HttpCtx} {ctx_ok : HttpCtxOk ctx}.

(** ** Backing up one directory *)

Lemma upd_cur_upd a d p l g d' p' l' :
  upd_cur (upd_cur a d p l g) d' p' l' (mkFrag (f_offset g) l (f_nfrag g)) = upd_cur a d' p' l' g.
Proof. unfold upd_cur. cbn. by rewrite list_insert_insert_eq. Qed.

(** One step back: the fill position and the length both decrease. *)
Lemma step_back_eq a g : AhInv a -> get_frag a (nfrag a) = Some g ->
  1 <= f_len g <= 65535 -> 1 <= pos a ->
  add_len (a {{ pos := u32 (pos a - 1) }}) (-1) =
  Some (upd_cur a (data a) (pos a - 1) (f_len g - 1) g).
Proof.
  intros Ha Hg Hl Hp. pose proof (ai_pos _ Ha). pose proof max_ok.
  rewrite u32_small by lia. rewrite (add_len_eq _ g); [|by destruct a|lia].
  by destruct a.
Qed.

Lemma back_up_loop_ok fuel : forall a g,
  AhInv a -> 1 <= nfrag a -> get_frag a (nfrag a) = Some g ->
  2 <= f_len g < Z.of_nat fuel + 1 -> f_len g <= 65535 ->
  ok (back_up_loop fuel a) (fun a' => exists k,
    1 <= k /\ 1 <= f_len g - k /\ a' = upd_cur a (data a) (pos a - k) (f_len g - k) g /\
    (f_len g - k = 1 \/ data a !! Z.to_nat (pos a - k) = Some 47)).
Proof.
  induction fuel as [|fuel IH]; intros a g Ha Hn Hg Hl Hl'; [lia|].
  destruct (ai_frag a Ha (nfrag a) g ltac:(lia) Hg). pose proof (ai_pos _ Ha).
  cbn [back_up_loop]. rewrite (step_back_eq a g) by (done || lia). cbn [mbind option_bind].
  set (a1 := upd_cur a (data a) (pos a - 1) (f_len g - 1) g).
  assert (Hg1 : get_frag a1 (nfrag a1) = Some (mkFrag (f_offset g) (f_len g - 1) (f_nfrag g))).
  { unfold a1. rewrite (upd_cur_get a) by (done || cbn; lia). cbn. by rewrite Z.eqb_refl. }
  rewrite Hg1. cbn [mbind option_bind f_len].
  destruct (f_len g - 1 >? 1) eqn:E; zbool; [|exists 1; repeat split; try done; lia].
  destruct (lookup_lt_is_Some_2 (data a1) (Z.to_nat (pos a1))) as [c Hc].
  { pose proof (ai_data _ Ha). cbn. unfold zlen in *. lia. }
  rewrite Hc. cbn [mbind option_bind].
  destruct (c =? 47) eqn:Ec; zbool; cbn [negb].
  { exists 1. repeat split; try lia. right. by subst. }
  eapply ok_mono.
  - apply (IH a1); [|done|exact Hg1|cbn; lia|cbn; lia].
    apply upd_cur_inv; try done; try lia. by apply (ai_data _ Ha).
  - cbn. intros a' (k & ? & ? & -> & Hend). exists (k + 1). unfold a1. rewrite upd_cur_upd.
    replace (pos a - (k + 1)) with (pos a - 1 - k) by lia.
    replace (f_len g - (k + 1)) with (f_len g - 1 - k) by lia.
    repeat split; try lia. done.
Qed.

(** Nothing is removed from a fragment of one or two bytes; otherwise the last byte
    goes, and what precedes it back to a slash or to the first byte. *)
Lemma back_up_ok a g :
  AhInv a -> 1 <= nfrag a -> get_frag a (nfrag a) = Some g -> f_len g <= 65535 ->
  ok (back_up a) (fun a' =>
    (f_len g <= 2 /\ a' = a) \/
    exists k, 2 <= k /\ 1 <= f_len g - k /\
      a' = upd_cur a (data a) (pos a - k) (f_len g - k) g /\
      (f_len g - k = 1 \/ data a !! Z.to_nat (pos a - k) = Some 47)).
Proof.
  intros Ha Hn Hg Hl. destruct (ai_frag a Ha (nfrag a) g ltac:(lia) Hg).
  pose proof (ai_pos _ Ha).
  unfold back_up. rewrite Hg. cbn [mbind option_bind].
  destruct (f_len g >? 2) eqn:E; zbool; [|left; split; [lia|done]].
  rewrite (step_back_eq a g) by (done || lia). cbn [mbind option_bind].
  set (a1 := upd_cur a (data a) (pos a - 1) (f_len g - 1) g).
  eapply ok_mono.
  - apply (back_up_loop_ok _ a1 (mkFrag (f_offset g) (f_len g - 1) (f_nfrag g))).
    + apply upd_cur_inv; try done; try lia. by apply (ai_data _ Ha).
    + done.
    + unfold a1. rewrite (upd_cur_get a) by (done || cbn; lia). cbn. by rewrite Z.eqb_refl.
    + cbn. lia.
    + cbn. lia.
  - cbn. intros a' (k & ? & ? & -> & Hend). right. exists (k + 1). unfold a1. rewrite upd_cur_upd.
    replace (pos a - (k + 1)) with (pos a - 1 - k) by lia.
    replace (f_len g - (k + 1)) with (f_len g - 1 - k) by lia.
    repeat split; try lia. done.
Qed.

(** Shortening the current fragment keeps the parser collecting. *)
Lemma back_up_collecting w : Collecting w ->
  ok (back_up (ah w)) (fun a => Collecting (with_ah w a) /\ nfrag a = nfrag (ah w) /\
                           frag_index a = frag_index (ah w)).
Proof.
  intros Hc. destruct (collecting_cur w Hc) as (g & Hg & Ho & Hl & He & _).
  pose proof (ai_pos _ (co_inv w Hc)). pose proof max_ok.
  eapply ok_mono; [apply (back_up_ok (ah w) g); [apply Hc|apply Hc|done|lia]|].
  cbn. intros a' [(_ & ->)|(k & ? & ? & -> & _)].
  { split; [|done]. by destruct w. }
  split; [|done]. destruct Hc. constructor; cbn; try done.
  - apply upd_cur_inv; try done; try lia. by apply (ai_data _ co_inv0).
  - intros g' Hg'. rewrite (upd_cur_get (ah w)) in Hg' by (done || cbn; lia).
    rewrite Z.eqb_refl in Hg'. simplify_eq. cbn. lia.
Qed.

(** ** The switches of the URI *)

(** Where a flow may lead: still collecting the same value, or out. *)
Definition flow_ok (w : hdr) (f : flow) : Prop :=
  match f with
  | FBreak _ _ w' | FSwallow w' => Collecting w' /\ parser_state w' = parser_state w
  | FForbid _ => True
  | FExcessive w' => nfrag (ah w') = NFRAGS
  | FReturn r _ => r = -1
  end.

(** Collecting depends on the table and on the limit only. *)
Lemma collecting_ext w w' :
  ah w' = ah w -> current_token_limit w' = current_token_limit w -> Collecting w -> Collecting w'.
Proof. intros Ha Hl []. by constructor; rewrite ?Ha, ?Hl. Qed.

Ltac same_hdr := match goal with w : hdr |- _ => eapply (collecting_ext w); [by destruct w|by destruct w|done] end.

Lemma uri_escape_ok w c : Collecting w -> flow_ok w (uri_escape w c).
Proof.
  intros Hc. unfold uri_escape. destruct (ues w); case_ifs; try done.
  all: split; [same_hdr|by destruct w].
Qed.

Lemma issue_char_cases w c : Collecting w ->
  issue_char w c = Some (-1, w) \/
  exists r a, issue_char w c = Some (r, with_ah w a) /\ Collecting (with_ah w a) /\
    Kept (ah w) a /\ (r = 0 \/ r = 1) /\ (r = 1 \/ c = 0 -> AllTerm a).
Proof.
  intros Hc. destruct (ok_some _ _ (issue_char_ok w c Hc)) as ([r w'] & He & Hi). rewrite He.
  cbn in Hi. destruct Hi as [[= -> ->]|(a & -> & Hi)]; [by left|right]. by exists r, a.
Qed.

(** issue_char followed by the test of its result. *)
Lemma issue_flow w c (k : hdr -> option flow) :
  Collecting w ->
  (forall a r, Collecting (with_ah w a) -> Kept (ah w) a -> (r = 0 \/ r = 1) ->
     issue_char w c = Some (r, with_ah w a) ->
     ok (k (with_ah w a)) (flow_ok w)) ->
  ok ('(r, w') ← issue_char w c; if r <? 0 then Some (FReturn (-1) w') else k w') (flow_ok w).
Proof.
  intros Hc Hk.
  destruct (issue_char_cases w c Hc) as [He|(r & a & He & Hc' & Hkept & Hr & _)]; rewrite He; [done|].
  destruct Hr as [-> | ->]; cbn; [apply (Hk a 0)|apply (Hk a 1)]; auto.
Qed.

Lemma issue_char_len w c a r g : Collecting w -> c <> 0 -> 0 <= r ->
  issue_char w c = Some (r, with_ah w a) -> get_frag a (nfrag a) = Some g -> 1 <= f_len g.
Proof.
  intros Hc Hc0 Hr He Hg. destruct (collecting_cur w Hc) as (g0 & Hg0 & Ho & Hl & Hend & _).
  rewrite (issue_char_eq w c g0) in He by (done || apply Hc || lia). pose proof (co_limit w Hc).
  assert (Hnz : nz c = true) by (unfold nz; destruct (c =? 0) eqn:E; zbool; done).
  rewrite Hnz in He. cbn [b2z] in He.
  destruct (pos (ah w) =? max_http_header_data); [by injection He as <- _|].
  destruct (f_len g0 <? current_token_limit w) eqn:El; zbool; injection He as <- Ha; subst a.
  all: rewrite (upd_cur_get (ah w)) in Hg by (apply Hc || done || cbn; pose proof (co_nfrag w Hc); lia).
  all: cbn in Hg; rewrite Z.eqb_refl in Hg; simplify_eq; cbn; lia.
Qed.

(** A delimiter opens the next fragment and links it. *)
Definition delimited (a : allocated_headers) (g : frag) : allocated_headers :=
  let a := upd_cur a (data a) (pos a) (f_len g - 1) g in
  link_frag (new_frag a) (nfrag a) (mkFrag (f_offset g) (f_len g - 1) (f_nfrag g)).

Definition with_frag (a : allocated_headers) (i : Z) (f : frag) : allocated_headers :=
  mkAh (data a) (<[Z.to_nat i := f]> (frags a)) (frag_index a) (pos a) (nfrag a) (http_response a).

Lemma set_frag_eq a i f : 0 <= i < zlen (frags a) -> set_frag a i f = Some (with_frag a i f).
Proof.
  intros Hi. unfold set_frag. destruct (lookup_lt_is_Some_2 (frags a) (Z.to_nat i)) as [g Hg].
  { unfold zlen in Hi. lia. }
  rewrite Hg. by destruct a.
Qed.

Lemma delimited_eq a g : AhInv a -> 1 <= nfrag a -> nfrag a + 1 < NFRAGS ->
  with_frag (next_nfrag (with_frag (upd_cur a (data a) (pos a) (f_len g - 1) g) (nfrag a)
    (mkFrag (f_offset g) (f_len g - 1) (nfrag a + 1)))) (nfrag a + 1) (mkFrag (pos a) 0 0)
  = delimited a g.
Proof.
  intros Ha Hn Hn'. unfold with_frag, next_nfrag, delimited, link_frag, new_frag, upd_cur. cbn.
  f_equal. rewrite !list_insert_insert_eq.
  rewrite (list_insert_insert_ne _ (Z.to_nat (nfrag a)) (Z.to_nat (nfrag a + 1))) by lia.
  by rewrite !list_insert_insert_eq.
Qed.

Lemma delimited_inv a g : AhInv a -> 1 <= nfrag a -> nfrag a + 1 < NFRAGS ->
  get_frag a (nfrag a) = Some g -> 1 <= f_len g ->
  AhInv (delimited a g) /\
  get_frag (delimited a g) (nfrag a + 1) = Some (mkFrag (pos a) 0 0).
Proof.
  intros Ha Hn Hn' Hg Hl. destruct (ai_frag a Ha (nfrag a) g ltac:(lia) Hg). pose proof (ai_pos _ Ha).
  set (a1 := upd_cur a (data a) (pos a) (f_len g - 1) g).
  assert (H1 : AhInv a1) by (apply upd_cur_inv; try done; try lia; apply (ai_data _ Ha)).
  assert (H2 : AhInv (new_frag a1)) by (by apply new_frag_inv).
  assert (H3 : get_frag (new_frag a1) (nfrag a1) = Some (mkFrag (f_offset g) (f_len g - 1) (f_nfrag g))).
  { rewrite new_frag_get by (done || cbn; lia). cbn.
    destruct (nfrag a =? nfrag a + 1) eqn:E; zbool; [lia|].
    unfold a1. rewrite (upd_cur_get a) by (done || lia). by rewrite Z.eqb_refl. }
  split; [apply link_frag_inv; try done; cbn; lia|].
  unfold delimited. rewrite link_frag_get by (done || cbn; lia). cbn.
  destruct (nfrag a + 1 =? nfrag a) eqn:E; zbool; [lia|].
  rewrite new_frag_get by (done || cbn; lia). cbn. by rewrite Z.eqb_refl.
Qed.

(** The delimiter is stored, then the next fragment opened, when there is room. *)
Lemma uri_delimiter_eq w c r a g : Collecting w -> c <> 0 -> 0 <= r ->
  issue_char w c = Some (r, with_ah w a) -> Collecting (with_ah w a) ->
  get_frag a (nfrag a) = Some g ->
  exists w', nfrag (ah w') = nfrag a + 1 /\
  uri_delimiter w c = Some (
    if nfrag a + 1 >=? NFRAGS then FExcessive w'
    else FSwallow (w {{ ah := delimited a g; post_literal_equal := 0 }})).
Proof.
  intros Hc Hc0 Hr He Hc' Hg.
  pose proof (co_inv _ Hc') as Ha. pose proof (co_nfrag _ Hc') as Hn.
  cbn in Ha, Hn. pose proof (ai_nfrag _ Ha) as Hnf. pose proof (ai_pos _ Ha). pose proof max_ok.
  pose proof (ai_frags _ Ha) as Hfl.
  pose proof (issue_char_len w c a r g Hc Hc0 Hr He Hg) as Hl.
  destruct (ai_frag a Ha (nfrag a) g ltac:(lia) Hg).
  unfold uri_delimiter. rewrite He. cbn [mbind option_bind].
  destruct (r <? 0) eqn:Er; zbool; [lia|].
  change (ah (with_ah w a)) with a. rewrite (add_len_eq a g) by (done || lia).
  cbn [mbind option_bind]. change (nfrag (upd_cur _ _ _ _ _)) with (nfrag a).
  rewrite (upd_cur_get a) by (done || lia). rewrite Z.eqb_refl. cbn [mbind option_bind].
  assert (Hu : u8 (nfrag a + 1) = nfrag a + 1)
    by (apply u8_small; unfold is_u8, NFRAGS, WSI_TOKEN_COUNT in *; lia).
  rewrite set_frag_eq by (unfold upd_cur, zlen in *; cbn; rewrite length_insert; lia).
  cbn [mbind option_bind]. rewrite Hu.
  change (mkFrag (f_offset g) (f_len g + -1) (f_nfrag g)) {{ f_nfrag := nfrag a + 1 }}
    with (mkFrag (f_offset g) (f_len g - 1) (nfrag a + 1)).
  match goal with |- context [with_frag ?x ?y ?z] => set (a2 := with_frag x y z) end.
  change (a2 {{ nfrag := u8 (nfrag a2 + 1) }})
    with (mkAh (data a2) (frags a2) (frag_index a2) (pos a2) (u8 (nfrag a + 1)) (http_response a2)).
  rewrite Hu. change (mkAh (data a2) (frags a2) (frag_index a2) (pos a2) (nfrag a + 1) (http_response a2))
    with (next_nfrag a2). change (nfrag (next_nfrag a2)) with (nfrag a + 1).
  eexists (with_ah w (next_nfrag a2)). split; [done|].
  destruct (nfrag a + 1 >=? NFRAGS) eqn:E; zbool; [done|].
  rewrite set_frag_eq by (unfold a2, upd_cur, zlen in *; cbn; rewrite !length_insert; lia).
  cbn [mbind option_bind]. change (pos (next_nfrag a2)) with (pos a).
  unfold a2. change (f_len g + -1) with (f_len g - 1). by rewrite delimited_eq by (done || lia).
Qed.

Lemma delimited_collecting w a g u : Collecting (with_ah w a) -> nfrag a + 1 < NFRAGS ->
  get_frag a (nfrag a) = Some g -> 1 <= f_len g ->
  Collecting (w {{ ah := delimited a g; post_literal_equal := u }}).
Proof.
  intros Hc Hn Hg Hl. pose proof (co_inv _ Hc) as Ha. pose proof (co_nfrag _ Hc) as Hn1.
  destruct (delimited_inv a g Ha Hn1 Hn Hg Hl) as [Hd1 Hd2]. cbn in Hn1.
  constructor; [exact Hd1|cbn; lia|apply (co_limit _ Hc)|].
  intros g' Hg'. change (get_frag (delimited a g) (nfrag a + 1) = Some g') in Hg'.
  rewrite Hd2 in Hg'. simplify_eq. cbn. pose proof (co_limit _ Hc). destruct w; cbn in *. lia.
Qed.

Lemma uri_delimiter_ok w c : Collecting w -> c <> 0 -> ok (uri_delimiter w c) (flow_ok w).
Proof.
  intros Hc Hc0. destruct (issue_char_cases w c Hc) as [He|(r & a & He & Hc' & _ & Hr & _)].
  { unfold uri_delimiter. by rewrite He. }
  pose proof (ai_nfrag _ (co_inv _ Hc')) as Hnf. cbn in Hnf.
  destruct (get_frag_ok a (nfrag a) (co_inv _ Hc')) as [g Hg]; [lia|].
  destruct (uri_delimiter_eq w c r a g) as (w' & Hw' & ->); try done; [lia|].
  destruct (nfrag a + 1 >=? NFRAGS) eqn:E; zbool; [cbn; lia|]. cbn. split; [|by destruct w].
  apply delimited_collecting; try done. by eapply (issue_char_len w c a r); try done; lia.
Qed.

Lemma path_idle_ok w c enc : Collecting w -> ok (path_idle w c enc) (flow_ok w).
Proof.
  intros Hc. unfold path_idle. destruct (c =? 0) eqn:E0; zbool; [done|].
  destruct (((c =? 38) || (c =? 59)) && negb enc) eqn:E; [by apply uri_delimiter_ok|].
  eapply ok_bind; [apply (get_index_ok (ah w)); [apply Hc|done]|].
  intros args _. cbn -[nz]. split; [same_hdr|by destruct w].
Qed.

Lemma path_dot_dot_ok w c enc : Collecting w -> ok (path_dot_dot w c enc) (flow_ok w).
Proof.
  intros Hc. unfold path_dot_dot. destruct ((c =? 47) || (c =? 63)).
  - eapply ok_bind; [by apply back_up_collecting|]. intros a (Hca & Hn & _).
    destruct (collecting_cur _ Hca) as (g & Hg & _). cbn in Hg. rewrite Hg.
    cbn [mbind option_bind ok]. case_if; (split; [|by destruct w]).
    all: by apply (collecting_ext (with_ah w a)).
  - apply (issue_flow w 46 (fun w => _)); [done|]. intros a _ Hca _ _ _.
    destruct (issue_char_cases _ 46 Hca) as [He|(r & a' & He & Hc' & _ & Hr & _)]; rewrite He; [done|].
    destruct Hr as [-> | ->]; cbn; (split; [|by destruct w]).
    all: by apply (collecting_ext (with_ah (with_ah w a) a')).
Qed.

Lemma uri_path_ok w c enc : Collecting w -> ok (uri_path w c enc) (flow_ok w).
Proof.
  intros Hc. unfold uri_path. destruct (ups w).
  - by apply path_idle_ok.
  - cbn. case_ifs; (split; [|by destruct w]); (done || same_hdr).
  - destruct (c =? 46); [cbn; split; [same_hdr|by destruct w]|].
    destruct (c =? 47); [cbn; split; [same_hdr|by destruct w]|].
    assert (Hc' : Collecting (w {{ ups := URIPS_IDLE }})) by same_hdr.
    destruct (issue_char_cases _ 46 Hc') as [He|(r & a & He & Hca & _ & Hr & _)]; rewrite He; [done|].
    destruct Hr as [-> | ->]; cbn; (split; [done|by destruct w]).
  - by apply path_dot_dot_ok.
Qed.

(** ** The invariant of the parser *)

(** Inside the value of a token.  Until the URI is complete its fragments are not
    terminated; every other value ends with a NUL. *)
Record ValueState (w : hdr) : Prop := {
  vs_token : 0 <= parser_state w < WSI_TOKEN_COUNT;
  vs_not_challenge : parser_state w <> WSI_TOKEN_CHALLENGE;
  vs_collecting : Collecting w;
  vs_term : is_method (parser_state w) = false ->
    forall i, 1 <= i < nfrag (ah w) -> Term (ah w) i
}.

(** Outside of a value; while a name is read the position is one of the table. *)
Record NameState (w : hdr) : Prop := {
  ns_state : WSI_TOKEN_NAME_PART <= parser_state w <= WSI_PARSING_COMPLETE;
  ns_inv : AhInv (ah w);
  ns_term : AllTerm (ah w);
  ns_lex : parser_state w = WSI_TOKEN_NAME_PART ->
    terminal (lextable_pos w) = None /\ exists p, (lextable_pos w, p) ∈ states
}.

Definition HdrInv (w : hdr) : Prop := ValueState w \/ NameState w.

(** What lws_parse may return. *)
Definition Parsed (rw : Z * hdr) : Prop :=
  (rw.1 = 0 /\ HdrInv rw.2) \/ rw.1 = -1 \/ rw.1 = 2.

Lemma method_value w : is_method (parser_state w) = true -> Collecting w -> ValueState w.
Proof.
  intros Hm Hc. assert (Hin : List.In (parser_state w) methods).
  { apply existsb_exists in Hm as (x & Hx & He). zbool. by rewrite He. }
  constructor; [| |done|by rewrite Hm].
  - repeat destruct Hin as [Hin|Hin]; try done; rewrite <- Hin; done.
  - repeat destruct Hin as [Hin|Hin]; try done; rewrite <- Hin; done.
Qed.

Lemma outside_state w : AhInv (ah w) -> AllTerm (ah w) ->
  WSI_TOKEN_NAME_PART < parser_state w <= WSI_PARSING_COMPLETE -> NameState w.
Proof. intros Ha Ht Hst. constructor; try done; lia. Qed.

Lemma swallow_other w : parser_state w <> WSI_TOKEN_CHALLENGE -> swallow w = Some (0, w).
Proof. intros H. unfold swallow. by destruct (parser_state w =? WSI_TOKEN_CHALLENGE) eqn:E; zbool. Qed.

(** The value ends here: the state moves to [st]. *)
Definition with_state (w : hdr) (st : Z) : hdr :=
  mkHdr (ah w) (ups w) (ues w) (lextable_pos w) (current_token_limit w) (esc_stash w)
        (post_literal_equal w) st (hmode w) (hparsing_completed w)
        (ietf_spec_revision w) (http_status w).

Lemma check_eol_eq w c : Collecting w -> parser_state w <> WSI_TOKEN_CHALLENGE ->
  check_eol w c =
  if (c =? 13) && negb (bool_decide (ues w = URIES_IDLE)) then Some (forbid w)
  else
    '(n, w) ← (if c =? 13 then issue_char (with_state w WSI_TOKEN_SKIPPING_SAW_CR) 0
               else issue_char w c);
    if n <? 0 then Some (-1, w)
    else Some (0, if n >? 0 then with_state w WSI_TOKEN_SKIPPING else w).
Proof.
  intros Hc Hp. unfold check_eol.
  replace (parser_state w =? WSI_TOKEN_CHALLENGE) with false by (symmetry; by apply Z.eqb_neq).
  cbn [negb andb]. destruct (_ && negb _); [done|].
  assert (Hw : w {{ parser_state ::= fun p => if c =? 13 then WSI_TOKEN_SKIPPING_SAW_CR else p }}
               = if c =? 13 then with_state w WSI_TOKEN_SKIPPING_SAW_CR else w).
  { by destruct w, (c =? 13). }
  rewrite Hw. clear Hw.
  assert (Hi : forall w1 c1, Collecting w1 -> parser_state w1 <> WSI_TOKEN_CHALLENGE ->
    ('(n, w) ← issue_char w1 c1;
     if n <? 0 then Some (-1, w)
     else swallow (w {{ parser_state ::= fun p => if n >? 0 then WSI_TOKEN_SKIPPING else p }})) =
    ('(n, w) ← issue_char w1 c1;
     if n <? 0 then Some (-1, w)
     else Some (0, if n >? 0 then with_state w WSI_TOKEN_SKIPPING else w))).
  { intros w1 c1 Hc1 Hp1.
    destruct (issue_char_cases w1 c1 Hc1) as [He|(r & a & He & _ & _ & Hr & _)]; rewrite He; [done|].
    cbn -[swallow]. clear He Hc1. destruct w1; cbn in *.
    destruct Hr as [-> | ->]; cbn -[swallow]; by rewrite swallow_other. }
  destruct (c =? 13); apply Hi; try done. by apply (collecting_ext w).
Qed.

Lemma check_eol_ok w c : ValueState w -> ok (check_eol w c) Parsed.
Proof.
  intros []. rewrite check_eol_eq by done.
  destruct (_ && _); [cbn; by right; left|].
  destruct (c =? 13).
  - assert (Hc : Collecting (with_state w WSI_TOKEN_SKIPPING_SAW_CR)) by (by apply (collecting_ext w)).
    destruct (issue_char_cases _ 0 Hc) as [He|(r & a & He & Hc' & _ & Hr & Ht)]; rewrite He;
      [cbn; by right; left|].
    pose proof (co_inv _ Hc') as Ha. specialize (Ht (or_intror eq_refl)). cbn in Ha.
    destruct Hr as [-> | ->]; left; (split; [done|]); right; by apply outside_state.
  - destruct (issue_char_cases w c vs_collecting0)
      as [He|(r & a & He & Hc' & [Hkn _ _ _ Hkt] & Hr & Ht)]; rewrite He; [cbn; by right; left|].
    pose proof (co_inv _ Hc') as Ha. cbn in Ha.
    destruct Hr as [-> | ->]; left; (split; [done|]).
    + left. constructor; try done. cbn. intros Hm i Hi. rewrite Hkn in Hi. apply Hkt; [lia|].
      by apply vs_term0.
    + right. apply outside_state; [exact Ha|apply Ht; by left|done].
Qed.

(** A fragment for the value of a token just recognised. *)
Lemma start_value_ok w : AhInv (ah w) -> AllTerm (ah w) ->
  0 <= parser_state w < WSI_TOKEN_COUNT -> parser_state w <> WSI_TOKEN_CHALLENGE ->
  1 <= current_token_limit w -> ok (start_fragment w) Parsed.
Proof.
  intros Ha Ht Hp Hnc Hl. eapply ok_mono; [by apply start_fragment_ok|].
  intros [r w'] [[Hr|Hr] Hs]; cbn in *; [left|by right; left].
  destruct (Hs Hr) as (a & -> & Hc & Hterm & _). split; [done|]. left. by constructor.
Qed.

Lemma uri_end_ok w : ValueState w -> ok (uri_end w) Parsed.
Proof.
  intros [_ _ Hc _]. unfold uri_end. destruct (collecting_cur w Hc) as (g & Hg & _).
  rewrite Hg. cbn [mbind option_bind].
  assert (H1 : ok (if f_len g =? 0 then issue_char w 47 else Some (0, w)) (fun rw =>
    rw.1 = -1 \/ (0 <= rw.1 /\ exists a, rw.2 = with_ah w a /\ Collecting (with_ah w a)))).
  { destruct (f_len g =? 0).
    - destruct (issue_char_cases w 47 Hc) as [->|(r & a & -> & Hc' & _ & Hr & _)]; cbn; [by left|].
      right. split; [lia|]. by exists a.
    - right. split; [done|]. exists (ah w). split; [by destruct w|]. by destruct w. }
  eapply ok_bind; [exact H1|]. intros [r w1] [Hr|[Hr (a1 & Hw & Hc1)]]; cbn in Hr.
  { subst. cbn. by right; left. }
  cbn in Hw. subst w1. destruct (r <? 0) eqn:E; zbool; [cbn; by right; left|].
  set (w1 := with_ah w a1) in *.
  assert (H2 : ok (if bool_decide (ups w1 = URIPS_SEEN_SLASH_DOT_DOT) then back_up (ah w1)
                   else Some (ah w1)) (fun a => Collecting (with_ah w1 a))).
  { case_if; [|done]. eapply ok_mono; [by apply back_up_collecting|]. by intros a [? _]. }
  eapply ok_bind; [exact H2|]. intros a2 Hc2. change (w1 {{ ah := a2 }}) with (with_ah w1 a2).
  destruct (issue_char_cases _ 0 Hc2) as [->|(r3 & a3 & -> & Hc3 & _ & Hr3 & Ht)];
    [cbn; by right; left|].
  cbn [mbind option_bind]. destruct (r3 <? 0) eqn:E3; zbool; [lia|].
  apply start_value_ok; try done; [apply (co_inv _ Hc3)|apply Ht; by right|apply (co_limit _ Hc3)].
Qed.

Lemma excessive_full w : nfrag (ah w) = NFRAGS -> excessive w = Some (-1, w).
Proof. intros H. unfold excessive. by rewrite H. Qed.

Lemma uri_args_ok w : is_method (parser_state w) = true -> Collecting w -> ok (uri_args w) Parsed.
Proof.
  intros Hm Hc. unfold uri_args.
  destruct (negb (bool_decide (ues w = URIES_IDLE))); [cbn; by right; left|].
  destruct (issue_char_cases w 0 Hc) as [->|(r & a & -> & Hc' & _ & Hr & _)]; [cbn; by right; left|].
  cbn [mbind option_bind]. destruct (r <? 0) eqn:E; zbool; [lia|].
  pose proof (co_inv _ Hc') as Ha. cbn in Ha. pose proof (ai_nfrag _ Ha).
  change (ah (with_ah w a)) with a. rewrite next_nfrag_eq by done.
  change (nfrag (next_nfrag a)) with (nfrag a + 1).
  destruct (nfrag a + 1 >=? NFRAGS) eqn:En; zbool.
  { rewrite excessive_full by (cbn; lia). cbn. by right; left. }
  change (pos (next_nfrag a)) with (pos a). rewrite set_frag_new by (done || lia).
  cbn [mbind option_bind]. pose proof (new_frag_inv a Ha ltac:(lia)) as Hn.
  rewrite (set_index_first (new_frag a)) by done. cbn [mbind option_bind].
  assert (Hv : ValueState ((with_ah w a) {{ ah := first_frag (new_frag a) WSI_TOKEN_HTTP_URI_ARGS;
                            post_literal_equal := 0; ups := URIPS_IDLE }})).
  { apply method_value; [done|]. constructor; cbn.
    - by apply first_frag_inv.
    - lia.
    - apply (co_limit _ Hc).
    - intros g Hg. change (get_frag (new_frag a) (nfrag a + 1) = Some g) in Hg.
      rewrite new_frag_get, Z.eqb_refl in Hg by (done || lia). simplify_eq. cbn.
      pose proof (co_limit _ Hc). destruct w; cbn in *. lia. }
  rewrite swallow_other by apply Hv. cbn. left. split; [done|]. by left.
Qed.

Lemma uri_rest_ok w f : is_method (parser_state w) = true -> flow_ok w f -> ok (uri_rest f) Parsed.
Proof.
  intros Hm Hf. destruct f as [c enc w'|w'|w'|w'|r w']; cbn in Hf |- *.
  - destruct Hf as [Hc Hp]. rewrite <- Hp in Hm. eapply ok_bind.
    { apply (get_index_ok (ah w')); [apply Hc|done]. }
    intros args _. destruct (_ && _); [by apply uri_args_ok|]. by apply check_eol_ok, method_value.
  - destruct Hf as [Hc Hp]. rewrite <- Hp in Hm. apply (method_value w' Hm) in Hc as Hv.
    rewrite swallow_other by apply Hv. cbn. left. split; [done|]. by left.
  - by right; left.
  - rewrite excessive_full by done. by right; left.
  - subst. by right; left.
Qed.

Lemma parse_value_ok w c : ValueState w -> ok (parse_value w c) Parsed.
Proof.
  intros Hv. pose proof Hv as [Htok Hnc Hc Hterm]. pose proof (co_inv _ Hc) as Ha.
  pose proof (ai_nfrag _ Ha). unfold parse_value.
  eapply ok_bind; [by apply get_index_ok|]. intros i Hi. cbn in Hi.
  destruct (get_frag_ok (ah w) i Ha) as [f Hf]; [lia|]. rewrite Hf. cbn [mbind option_bind].
  destruct (_ && _); [cbn; left; split; [done|]; by left|].
  destruct (is_method (parser_state w)) eqn:Em; cbn [negb]; [|by apply check_eol_ok].
  destruct (c =? 32); [by apply uri_end_ok|].
  pose proof (uri_escape_ok w c Hc) as Hesc. destruct (uri_escape w c) as [c' enc w'|w'|w'|w'|r w'].
  - destruct Hesc as [Hc' Hp]. eapply ok_bind; [by apply uri_path_ok|].
    intros f' Hf'. apply (uri_rest_ok w'); [by rewrite Hp|done].
  - by apply (uri_rest_ok w).
  - by apply (uri_rest_ok w).
  - by apply (uri_rest_ok w).
  - by apply (uri_rest_ok w).
Qed.

(** ** The end of the headers *)

Lemma cstr_some l : forall j, l !! j = Some 0 -> exists s, cstr l = Some s.
Proof.
  induction l as [|c l IH]; intros j Hj; [done|]. cbn.
  destruct (c =? 0) eqn:E; [by eexists|]. destruct j as [|j]; [cbn in Hj; by simplify_eq|].
  destruct (IH j Hj) as [s ->]. by eexists.
Qed.

Lemma cstr_at_ok a i f : AhInv a -> 1 <= i <= nfrag a -> get_frag a i = Some f -> Term a i ->
  exists s, cstr_at a (f_offset f) = Some s.
Proof.
  intros Ha Hi Hf Ht. destruct (ai_frag a Ha i f Hi Hf). destruct (Ht f Hf) as (j & Hj & Hz).
  apply (cstr_some _ (Z.to_nat j - Z.to_nat (f_offset f))%nat).
  rewrite lookup_drop. rewrite <- Hz. f_equal. lia.
Qed.

Lemma set_parsing_complete_ok w : AhInv (ah w) -> AllTerm (ah w) -> ok (set_parsing_complete w) Parsed.
Proof.
  intros Ha Ht. unfold set_parsing_complete.
  destruct (negb (bool_decide (ues w = URIES_IDLE))); [cbn; by right; left|].
  eapply ok_bind; [by apply hdr_total_length_ok|]. intros up _.
  assert (Hrev : ok (if nz up then
             v ← lws_hdr_total_length (ah w) WSI_TOKEN_VERSION;
             if nz v then
               p ← lws_hdr_simple_ptr (ah w) WSI_TOKEN_VERSION;
               s ← cstr_at (ah w) p;
               Some (u8 (atoi s))
             else Some (ietf_spec_revision w)
           else Some (ietf_spec_revision w)) (fun _ => True)).
  { destruct (nz up); [|done].
    destruct (ok_some _ _ (hdr_total_length_ok (ah w) WSI_TOKEN_VERSION Ha ltac:(done))) as (v & Hv & _).
    rewrite Hv. cbn [mbind option_bind]. destruct (nz v) eqn:Ev; [|done].
    unfold lws_hdr_simple_ptr. unfold lws_hdr_total_length in Hv.
    destruct (ok_some _ _ (get_index_ok (ah w) WSI_TOKEN_VERSION Ha ltac:(done))) as (n & Hn & Hni).
    rewrite Hn in *. cbn [mbind option_bind] in *. pose proof (ai_nfrag _ Ha).
    destruct (n =? 0) eqn:E; zbool; [by simplify_eq|].
    destruct (get_frag_ok (ah w) n Ha) as [f Hf]; [lia|]. rewrite Hf. cbn [mbind option_bind].
    destruct (cstr_at_ok (ah w) n f) as [s ->]; [done|lia|done|apply Ht; lia|done]. }
  eapply ok_bind; [exact Hrev|]. intros rev _. cbn. left. split; [done|]. right.
  apply outside_state; [exact Ha|exact Ht|done].
Qed.

(** ** Names *)

Lemma methods_range n : is_method n = true -> 0 <= n < WSI_TOKEN_COUNT.
Proof.
  intros Hm. apply existsb_exists in Hm as (x & Hx & He). zbool. subst.
  repeat destruct Hx as [Hx|Hx]; try done; rewrite <- Hx; done.
Qed.

Lemma known_name_ok w n : AhInv (ah w) -> AllTerm (ah w) -> 0 <= n < 82 -> ok (known_name w n) Parsed.
Proof.
  intros Ha Ht Hn. unfold known_name.
  assert (Hd : ok (if is_method n then i ← get_index (ah w) n; Some (nz i) else Some false)
                  (fun _ => True)).
  { destruct (is_method n) eqn:E; [|done].
    eapply ok_bind; [apply get_index_ok; [done|by apply methods_range]|done]. }
  eapply ok_bind; [exact Hd|]. intros [] _; [cbn; by right; left|].
  set (n' := if n =? WSI_TOKEN_SWORIGIN then WSI_TOKEN_ORIGIN else n).
  assert (Hn' : 0 <= n' < 82) by (unfold n'; case_if; [done|lia]).
  assert (Hu : u8 (WSI_TOKEN_GET_URI + n') = n') by (apply u8_small; unfold is_u8, WSI_TOKEN_GET_URI; lia).
  rewrite Hu.
  assert (Hl : ok (match token_limits with
            | Some l => l !! Z.to_nat n'
            | None => Some max_http_header_data
            end) (fun l => 1 <= l)).
  { destruct token_limits as [l|] eqn:El; [|cbn; pose proof max_ok; lia].
    destruct (limits_ok l El) as [Hlen Hall].
    destruct (lookup_lt_is_Some_2 l (Z.to_nat n')) as [x Hx]; [rewrite Hlen; unfold WSI_TOKEN_COUNT; lia|].
    rewrite Hx. cbn. rewrite Forall_forall in Hall. apply Hall. by eapply list_elem_of_lookup_2. }
  eapply ok_bind; [exact Hl|]. intros limit Hlim.
  change (parser_state _) with n'. destruct (n' =? WSI_TOKEN_CHALLENGE) eqn:Ec; zbool.
  - by apply set_parsing_complete_ok.
  - apply start_value_ok; try done. change (0 <= n' < 88). lia.
Qed.

Lemma had_method_ok a : AhInv a -> ok (had_method a) (fun _ => True).
Proof.
  intros Ha. unfold had_method. assert (Hm : exists l, mapM (get_index a) methods = Some l).
  { apply mapM_is_Some_2, Forall_forall. intros h Hh.
    assert (Hr : 0 <= h < WSI_TOKEN_COUNT).
    { apply methods_range, existsb_exists. exists h. split; [by apply list_elem_of_In|lia]. }
    destruct (ok_some _ _ (get_index_ok a h Ha Hr)) as (i & Hi & _). by exists i. }
  destruct Hm as [l ->]. done.
Qed.

Lemma short_small x : -1 <= x < zlen lextable -> swrap 16 x = x.
Proof.
  intros Hx. assert (Hl : zlen lextable = 1115) by (vm_compute; reflexivity).
  unfold swrap. rewrite Z.mod_small by lia. lia.
Qed.

Lemma name_part_ok w c : NameState w -> parser_state w = WSI_TOKEN_NAME_PART -> is_u8 c ->
  ok (name_part w c) Parsed.
Proof.
  intros [_ Ha Ht Hlex] Hp Hc. destruct (Hlex Hp) as (Hnt & p & Hst). unfold name_part.
  destruct (decode_state _ p c Hst Hnt Hc) as (q & -> & Hq). cbn [mbind option_bind].
  assert (Hrange : -1 <= q < zlen lextable).
  { destruct Hq as [-> |Hq]; [done|]. apply state_pos in Hq. cbn in Hq. lia. }
  rewrite short_small by done. change (lextable_pos _) with q. change (hmode _) with (hmode w).
  change (ah _) with (ah w).
  assert (Hskip : HdrInv ((w {{ lextable_pos := q }}) {{ parser_state := WSI_TOKEN_SKIPPING }})).
  { right. apply outside_state; [exact Ha|exact Ht|done]. }
  destruct Hq as [-> |Hq].
  - cbn [Z.ltb Z.compare andb]. destruct (bool_decide (hmode w = LWSCM_HTTP_SERVING)); [|by left].
    eapply ok_bind; [by apply had_method_ok|]. intros [] _; [by left|].
    destruct fallback_to_raw; [by right; right|by right; left].
  - apply state_pos in Hq as Hpos. cbn in Hpos.
    destruct (q <? 0) eqn:E; zbool; [lia|]. cbn [andb].
    destruct (terminal q) as [n|] eqn:En.
    + destruct (state_terminal _ _ _ Hq En) as [Hn _]. unfold terminal in En.
      destruct (lextable !! Z.to_nat q) as [b|]; [|done]. cbn [mbind option_bind] in *.
      destruct (b <? FAIL_CHAR); [|done].
      destruct (lextable !! Z.to_nat (q + 1)) as [lo|]; [|done]. cbn [mbind option_bind] in *.
      injection En as ->. by apply known_name_ok.
    + destruct (state_inner _ _ Hq En) as (b & -> & Hb). cbn [mbind option_bind].
      destruct (b <? FAIL_CHAR) eqn:Eb; zbool; [lia|]. left. split; [done|]. right.
      constructor; [|exact Ha|exact Ht|intros _; by split; [|eexists]].
      change (parser_state _) with (parser_state w). by rewrite Hp.
Qed.

(** ** One byte *)

Lemma lws_parse_ok w c : HdrInv w -> is_u8 c -> ok (lws_parse w c) Parsed.
Proof.
  intros Hw Hc. unfold lws_parse. destruct Hw as [Hv|Hn].
  - pose proof (vs_token _ Hv) as Hp. unfold WSI_TOKEN_COUNT in Hp.
    unfold WSI_TOKEN_NAME_PART, WSI_TOKEN_SKIPPING, WSI_TOKEN_SKIPPING_SAW_CR, WSI_PARSING_COMPLETE.
    repeat (case_if; zbool; [lia|]). by apply parse_value_ok.
  - destruct (parser_state w =? WSI_TOKEN_NAME_PART) eqn:E1; zbool; [by apply name_part_ok|].
    pose proof Hn as [Hs Ha Ht _].
    destruct (parser_state w =? WSI_TOKEN_SKIPPING) eqn:E2; zbool.
    { cbn. left. split; [done|]. right. case_if; [|done]. by apply outside_state. }
    destruct (parser_state w =? WSI_TOKEN_SKIPPING_SAW_CR) eqn:E3; zbool.
    { destruct (negb (bool_decide (ues w = URIES_IDLE))); [cbn; by right; left|].
      destruct (c =? 10); cbn; left; (split; [done|]); right; [|by apply outside_state].
      constructor; cbn; try done. intros _. split; [apply start_not_terminal|].
      exists []. apply states_start. }
    destruct (parser_state w =? WSI_PARSING_COMPLETE) eqn:E4; zbool.
    { cbn. left. split; [done|]. by right. }
    unfold WSI_TOKEN_NAME_PART, WSI_TOKEN_SKIPPING, WSI_TOKEN_SKIPPING_SAW_CR, WSI_PARSING_COMPLETE in *.
    lia.
Qed.

Lemma feed_ok s : forall w, HdrInv w -> all_u8 s ->
  ok (feed w s) (fun r => (r.1.1 = 0 /\ HdrInv r.1.2) \/ r.1.1 = -1 \/ r.1.1 = 2).
Proof.
  induction s as [|c s IH]; intros w Hw Hs; cbn [feed]; [by left|]. forall_inv.
  eapply ok_bind; [by apply lws_parse_ok|]. intros [r w'] [(Hr & Hw')|[Hr|Hr]]; cbn in Hr; subst r.
  - change (nz 0) with false. cbv iota.
    destruct (parser_state w' =? WSI_PARSING_COMPLETE); [by left|by apply IH].
  - cbn. by right; left.
  - cbn. by right; right.
Qed.

(** ** Start of a request *)

(** The invariant holds of a table that has just been reset. *)
Lemma reset_inv a : zlen (data a) = max_http_header_data -> zlen (frags a) = NFRAGS ->
  AhInv (_lws_header_table_reset a) /\ AllTerm (_lws_header_table_reset a).
Proof.
  intros Hd Hf. pose proof max_ok. split.
  - destruct a. constructor; unfold _lws_header_table_reset, constant; cbn in *; try done; try lia.
    + intros h i Hi. assert (i = 0) as ->; [|lia].
      apply (list_elem_of_lookup_2 (replicate 88 0) h) in Hi. by apply elem_of_replicate in Hi as [? _].
  - intros i Hi. change (1 <= i <= 0) in Hi. lia.
Qed.

End Inv.
End HdrInv.
