(* ===== verification/HttpUri.v ===== *)
(** * The URI of a request is sanitised

    While the URI arrives, the bytes stored for it ([path]) never contain "/../",
    and do not end in "/.." when it is complete.  The proof follows the URI state
    machine of lws_parse: [PathOk] is what each of its states knows of the bytes
    stored so far. *)

From S2P Require Import Prelude Ws Lextable HttpHdr HttpHdrFacts HttpHdrInv.

Module HttpUri.
Import Hdr HdrFacts HdrInv.

(** ** Bytes that contain no "/../" *)

Definition infix (x s : bytes) : Prop := exists a b, s = a ++ x ++ b.

Definition dd : bytes := bstr "/../".

(** [s] has no "/../", neither has [s ++ "/"]: it does not end in "/.." either. *)
Definition clean (s : bytes) : Prop := ~ infix dd (s ++ [47]).

Lemma infix_app x s t : infix x s -> infix x (s ++ t).
Proof. intros (a & b & ->). exists a, (b ++ t). by rewrite <- !app_assoc. Qed.

Lemma infix_prefix x s t : ~ infix x (s ++ t) -> ~ infix x s.
Proof. intros H Hi. by apply H, infix_app. Qed.

(** A new occurrence ends at the byte added. *)
Lemma infix_snoc x s c : infix x (s ++ [c]) -> x <> [] -> infix x s \/ suffix x (s ++ [c]).
Proof.
  intros (a & b & He) Hx. destruct b as [|b0 b _] using rev_ind.
  - right. exists a. by rewrite app_nil_r in He.
  - left. rewrite !app_assoc in He. apply app_inj_tail in He as [-> _].
    exists a, b. by rewrite app_assoc.
Qed.

Lemma suffix_snoc_inv (x : bytes) y s c : suffix (x ++ [y]) (s ++ [c]) -> y = c /\ suffix x s.
Proof.
  intros [k He]. rewrite app_assoc in He. apply app_inj_tail in He as [-> ->]. split; [done|].
  by exists k.
Qed.

(** What a state of the path machine knows of the bytes stored. *)
Record PathOk (st : uri_path_states) (s : bytes) : Prop := {
  po_dd : ~ infix dd s;
  po_dot : ~ suffix (bstr "/.") s;
  po_dotdot : ~ suffix (bstr "/..") s;
  po_idle : st = URIPS_IDLE -> ~ suffix (bstr "/") s
}.

Lemma path_clean s : ~ infix dd s -> ~ suffix (bstr "/..") s -> clean s.
Proof.
  intros Hd He Hi. apply infix_snoc in Hi as [Hi|Hi]; [done| |done].
  by apply (suffix_snoc_inv (bstr "/..")) in Hi as [_ Hi].
Qed.

Lemma clean_inv s : clean s -> ~ infix dd s /\ ~ suffix (bstr "/..") s.
Proof.
  intros Hc. split; [by apply (infix_prefix _ _ [47])|].
  intros [k ->]. apply Hc. exists k, []. by rewrite app_nil_r, <- app_assoc.
Qed.

(** A byte other than a slash starts no occurrence. *)
Lemma infix_other s c : ~ infix dd s -> c <> 47 -> ~ infix dd (s ++ [c]).
Proof.
  intros Hd Hc Hi. apply infix_snoc in Hi as [Hi|Hi]; [done| |done].
  apply (suffix_snoc_inv (bstr "/..")) in Hi as [? _]. by subst.
Qed.

Lemma infix_slash s : ~ infix dd s -> ~ suffix (bstr "/..") s -> ~ infix dd (s ++ [47]).
Proof. apply path_clean. Qed.

(** The byte [c] stored after a name character. *)
Lemma path_other st s c : ~ infix dd s -> c <> 47 -> c <> 46 -> PathOk st (s ++ [c]).
Proof.
  intros Hd H1 H2. constructor; [by apply infix_other|..].
  - intros H. apply (suffix_snoc_inv (bstr "/")) in H as [? _]. by subst.
  - intros H. apply (suffix_snoc_inv (bstr "/.")) in H as [? _]. by subst.
  - intros _ H. apply (suffix_snoc_inv []) in H as [? _]. by subst.
Qed.

Lemma path_slash st s : st <> URIPS_IDLE -> ~ infix dd s -> ~ suffix (bstr "/..") s ->
  PathOk st (s ++ [47]).
Proof.
  intros Hst Hd He. constructor; [by apply infix_slash|..|done].
  - intros H. by apply (suffix_snoc_inv (bstr "/")) in H as [? _].
  - intros H. by apply (suffix_snoc_inv (bstr "/.")) in H as [? _].
Qed.

(** In a name, any byte but a slash keeps the path fine. *)
Lemma path_name s c : PathOk URIPS_IDLE s -> c <> 47 -> PathOk URIPS_IDLE (s ++ [c]).
Proof.
  intros [Hd H1 H2 H3] Hc. specialize (H3 eq_refl). constructor; [by apply infix_other|..].
  - intros H. apply (suffix_snoc_inv (bstr "/")) in H as [_ ?]. done.
  - intros H. apply (suffix_snoc_inv (bstr "/.")) in H as [_ ?]. done.
  - intros _ H. apply (suffix_snoc_inv []) in H as [? _]. by subst.
Qed.

(** Two dots and another byte after a slash. *)
Lemma path_dots s c : PathOk URIPS_SEEN_SLASH_DOT_DOT s -> c <> 47 ->
  PathOk URIPS_IDLE (((s ++ [46]) ++ [46]) ++ [c]).
Proof.
  intros [Hd H1 H2 _] Hc. constructor; [by repeat apply infix_other|..].
  - intros H. apply (suffix_snoc_inv (bstr "/")) in H as [_ H].
    by apply (suffix_snoc_inv []) in H as [? _].
  - intros H. apply (suffix_snoc_inv (bstr "/.")) in H as [_ H].
    apply (suffix_snoc_inv (bstr "/")) in H as [_ H]. by apply (suffix_snoc_inv []) in H as [? _].
  - intros _ H. apply (suffix_snoc_inv []) in H as [? _]. by subst.
Qed.

(** What is left after removing bytes. *)
Lemma path_prefix st s r : PathOk st (s ++ r) -> ~ infix dd s.
Proof. intros []. by apply (infix_prefix _ _ r). Qed.

Lemma cut_at_slash st s r : PathOk st (s ++ 47 :: r) -> clean s.
Proof.
  intros [Hd _ _ _]. unfold clean. apply (infix_prefix _ _ r). by rewrite <- app_assoc.
Qed.

(** Bytes that end in a delimiter and one more, or a single byte. *)
Definition short_end (s : bytes) : Prop :=
  (exists x, s = [x]) \/ exists p d x, s = p ++ [d; x] /\ (d = 38 \/ d = 59).

Lemma short_end_ok st s : short_end s -> ~ infix dd s -> st <> URIPS_IDLE -> PathOk st s.
Proof.
  intros Hs Hd Hst. constructor; [done|..|done].
  - intros [k He]. destruct Hs as [(x & ->)|(p & d & x & -> & Hdel)].
    + apply (f_equal length) in He. rewrite length_app in He. cbn in He. lia.
    + change (p ++ [d; x] = k ++ [47; 46]) in He.
      apply app_inj_2 in He as [_ He]; [|done]. by destruct Hdel; simplify_eq.
  - intros [k He]. destruct Hs as [(x & ->)|(p & d & x & -> & Hdel)].
    + apply (f_equal length) in He. rewrite length_app in He. cbn in He. lia.
    + change (p ++ [d; x] = k ++ [47] ++ [46; 46]) in He. rewrite app_assoc in He.
      apply app_inj_2 in He as [_ He]; [|done]. by destruct Hdel; simplify_eq.
Qed.

Lemma path_nil st : PathOk st [].
Proof.
  constructor.
  - intros (a & b & He). by destruct a.
  - intros [k He]. by destruct k.
  - intros [k He]. by destruct k.
  - intros _ [k He]. by destruct k.
Qed.

(** ** The bytes stored for the URI *)

Section Uri.
Context {ctx : HttpCtx} {ctx_ok : HttpCtxOk ctx}.

(** The bytes from offset [u] to the fill position. *)
Definition path (u : Z) (a : allocated_headers) : bytes :=
  take (Z.to_nat (pos a - u)) (drop (Z.to_nat u) (data a)).

(** The current fragment holds exactly the bytes from its offset to the fill
    position; it is the first one of the URI or follows a delimiter. *)
Record CurFrag (u : Z) (a : allocated_headers) (g : frag) : Prop := {
  cf_get : get_frag a (nfrag a) = Some g;
  cf_off : 0 <= u <= f_offset g;
  cf_len : 0 <= f_len g;
  cf_end : f_offset g + f_len g = pos a;
  cf_prev : f_offset g = u \/
    (u < f_offset g /\ exists d, (d = 38 \/ d = 59) /\ data a !! Z.to_nat (f_offset g - 1) = Some d)
}.

(** The header of token [h] starts at offset [u]. *)
Definition starts (h u : Z) (a : allocated_headers) : Prop :=
  exists i f, get_index a h = Some i /\ 1 <= i <= nfrag a /\ get_frag a i = Some f /\ f_offset f = u.

Record UriCore (u : Z) (w : hdr) : Prop := {
  uc_method : is_method (parser_state w) = true;
  uc_col : Collecting w;
  uc_limit : current_token_limit w = max_http_header_data;
  uc_starts : starts (parser_state w) u (ah w);
  uc_cur : exists g, CurFrag u (ah w) g
}.

Lemma uri_core_ext u w w' : ah w' = ah w -> current_token_limit w' = current_token_limit w ->
  parser_state w' = parser_state w -> UriCore u w -> UriCore u w'.
Proof.
  intros Ha Hl Hp []. constructor; rewrite ?Ha, ?Hl, ?Hp; try done. by apply (collecting_ext w).
Qed.

Lemma length_path u a : AhInv a -> 0 <= u <= pos a -> zlen (path u a) = pos a - u.
Proof.
  intros Ha Hu. destruct Ha. unfold path, zlen in *. rewrite length_take, length_drop. lia.
Qed.

(** Changing the length of the current fragment moves no header. *)
Lemma starts_upd_cur h u a d p l g : AhInv a -> get_frag a (nfrag a) = Some g ->
  starts h u a -> starts h u (upd_cur a d p l g).
Proof.
  intros Ha Hg (i & f & Hi & Hr & Hf & Ho). pose proof (ai_nfrag _ Ha).
  exists i. destruct (decide (i = nfrag a)) as [->|].
  - eexists. split; [done|]. split; [done|]. rewrite (upd_cur_get a) by (done || lia).
    rewrite Z.eqb_refl. split; [done|]. cbn. by simplify_eq.
  - exists f. split; [done|]. split; [done|]. rewrite (upd_cur_get a) by (done || lia).
    by destruct (i =? nfrag a) eqn:E; zbool.
Qed.

(** Storing a byte extends the URI by it. *)
Lemma issue_path u w c : UriCore u w -> c <> 0 ->
  issue_char w c = Some (-1, w) \/
  exists a, issue_char w c = Some (0, with_ah w a) /\ UriCore u (with_ah w a) /\
    frag_index a = frag_index (ah w) /\ path u a = path u (ah w) ++ [c].
Proof.
  intros [Hm Hc Hlim Hs (g & [Hg Ho Hl He Hprev])] Hc0. pose proof (co_inv _ Hc) as Ha.
  pose proof (ai_pos _ Ha). pose proof (co_nfrag _ Hc) as Hn. pose proof (ai_data _ Ha) as Hd.
  rewrite (issue_char_eq w c g) by (done || lia).
  destruct (pos (ah w) =? max_http_header_data) eqn:E; zbool; [by left|right].
  destruct (f_len g <? current_token_limit w) eqn:El; zbool; [|lia].
  assert (Hnz : nz c = true) by (unfold nz; destruct (c =? 0) eqn:E0; zbool; done).
  rewrite Hnz. cbn [b2z]. eexists. split; [done|].
  set (a' := upd_cur _ _ _ _ _).
  assert (Hg' : get_frag a' (nfrag (ah w)) = Some (mkFrag (f_offset g) (f_len g + 1) (f_nfrag g))).
  { unfold a'. rewrite (upd_cur_get (ah w)) by (done || lia). by rewrite Z.eqb_refl. }
  destruct (upd_cur_grow (ah w) g c (f_len g + 1)) as (Hi & _); try done; try lia.
  split_and!; [|done|].
  - constructor; [done|constructor; [exact Hi|exact Hn|apply (co_limit _ Hc)|]|done|by apply starts_upd_cur|].
    + cbn. intros g' Hg''. fold a' in Hg''. rewrite Hg' in Hg''. simplify_eq. cbn. lia.
    + eexists. constructor; [exact Hg'|cbn; lia..|]. cbn.
      destruct Hprev as [?|(? & d & ? & Hlk)]; [by left|right]. split; [lia|]. exists d. split; [done|].
      rewrite list_lookup_insert_ne by lia. done.
  - unfold path, a', upd_cur. cbn [pos data].
    replace (Z.to_nat (pos (ah w) + 1 - u)) with (S (Z.to_nat (pos (ah w) - u))) by lia.
    replace (Z.to_nat (pos (ah w))) with (Z.to_nat u + Z.to_nat (pos (ah w) - u))%nat at 1 by lia.
    apply fill_insert. unfold zlen in Hd. lia.
Qed.

(** Backing up cuts the URI at a slash or leaves one byte of the current fragment;
    what is removed is at least two bytes, or nothing of a short fragment. *)
Lemma back_up_path u w : UriCore u w ->
  ok (back_up (ah w)) (fun a => UriCore u (with_ah w a) /\ frag_index a = frag_index (ah w) /\
    exists g r, get_frag a (nfrag a) = Some g /\ path u (ah w) = path u a ++ r /\
      ((r = [] /\ a = ah w) \/ ((exists r', r = 47 :: r') /\ 1 < f_len g) \/
       (f_len g <= 1 /\ short_end (path u a)))).
Proof.
  intros [Hm Hc Hlim Hs (g & [Hg Ho Hl He Hprev])]. pose proof (co_inv _ Hc) as Ha.
  pose proof (ai_pos _ Ha). pose proof (co_nfrag _ Hc) as Hn. pose proof (ai_data _ Ha) as Hd.
  pose proof max_ok.
  eapply ok_mono; [apply (back_up_ok (ah w) g); (done || lia)|].
  intros a [(_ & ->)|(k & Hk & Hk1 & -> & Hend)].
  { split_and!; [|done|].
    - apply (uri_core_ext u w); try by destruct w. constructor; try done. exists g. by constructor.
    - exists g, []. rewrite app_nil_r. split_and!; [done..|]. by left. }
  set (a := upd_cur _ _ _ _ _).
  assert (Hg' : get_frag a (nfrag (ah w)) = Some (mkFrag (f_offset g) (f_len g - k) (f_nfrag g))).
  { unfold a. rewrite (upd_cur_get (ah w)) by (done || lia). by rewrite Z.eqb_refl. }
  assert (Hi : AhInv a) by (apply upd_cur_inv; (done || lia)).
  assert (Hcut : path u (ah w) = path u a ++ drop (Z.to_nat (pos (ah w) - k - u)) (path u (ah w))).
  { rewrite <- (take_drop (Z.to_nat (pos (ah w) - k - u)) (path u (ah w))) at 1. f_equal.
    unfold path, a, upd_cur. cbn [pos data]. rewrite take_take. f_equal. lia. }
  split_and!; [|done|].
  - constructor; [done|constructor; [exact Hi|exact Hn|apply (co_limit _ Hc)|]|done|by apply starts_upd_cur|].
    + cbn. intros g' Hg''. fold a in Hg''. rewrite Hg' in Hg''. simplify_eq. cbn. lia.
    + eexists. constructor; [exact Hg'|cbn; lia..|exact Hprev].
  - eexists _, _. split_and!; [exact Hg'|exact Hcut|]. right. cbn [f_len].
    destruct (decide (f_len g - k = 1)) as [Hone|Hmore].
    + right. split; [lia|]. assert (Hlen := length_path u a Hi ltac:(cbn; lia)). cbn [pos a] in Hlen.
      destruct Hprev as [Hfirst|(Hu & d & Hdel & Hlk)].
      * left. destruct (path u a) as [|x [|y l]]; unfold zlen in Hlen; cbn in Hlen; [lia| |lia].
        by exists x.
      * right.
        destruct (lookup_lt_is_Some_2 (data (ah w)) (Z.to_nat (f_offset g))) as [x Hx];
          [unfold zlen in *; lia|].
        exists (take (Z.to_nat (f_offset g - 1 - u)) (drop (Z.to_nat u) (data (ah w)))), d, x.
        split; [|done]. unfold path, a, upd_cur. cbn [pos data].
        replace (Z.to_nat (pos (ah w) - k - u)) with (S (S (Z.to_nat (f_offset g - 1 - u)))) by lia.
        rewrite (take_S_r _ _ x), (take_S_r _ _ d).
        { by rewrite <- app_assoc. }
        { rewrite lookup_drop, <- Hlk. f_equal. lia. }
        { rewrite lookup_drop, <- Hx. f_equal. lia. }
    + left. split; [|lia]. destruct Hend as [?|Hsl]; [done|].
      exists (drop (S (Z.to_nat (pos (ah w) - k - u))) (path u (ah w))).
      apply drop_S. unfold path. rewrite lookup_take_lt by lia. rewrite lookup_drop, <- Hsl. f_equal. lia.
Qed.

(** ** While the path arrives *)

Record PathInv (u : Z) (w : hdr) : Prop := {
  pv_core : UriCore u w;
  pv_args : get_index (ah w) WSI_TOKEN_HTTP_URI_ARGS = Some 0;
  pv_path : PathOk (ups w) (path u (ah w));
  pv_nul : 0 ∉ path u (ah w)
}.

(** [c] is about to be stored, or ends the path when it is a '?'. *)
Record Pending (u c : Z) (w : hdr) : Prop := {
  pe_core : UriCore u w;
  pe_args : get_index (ah w) WSI_TOKEN_HTTP_URI_ARGS = Some 0;
  pe_clean : c = 63 -> clean (path u (ah w));
  pe_path : PathOk (ups w) (path u (ah w) ++ [c]);
  pe_nul : 0 ∉ path u (ah w);
  pe_char : c <> 0 /\ c <> 13
}.

Definition path_flow (u : Z) (w : hdr) (f : flow) : Prop :=
  match f with
  | FBreak c _ w' => Pending u c w' /\ ues w' = ues w
  | FSwallow w' => PathInv u w' /\ ues w' = ues w
  | FForbid _ => True
  | FExcessive w' => nfrag (ah w') = NFRAGS
  | FReturn r _ => r <> 0
  end.

Lemma path_inv_ext u w w' : PathInv u w -> ah w' = ah w ->
  current_token_limit w' = current_token_limit w -> parser_state w' = parser_state w ->
  PathOk (ups w') (path u (ah w)) -> PathInv u w'.
Proof.
  intros [] Ha Hl Hp Hok. constructor; rewrite ?Ha; try done. by apply (uri_core_ext u w).
Qed.

Lemma pending_ext u c w w' : PathInv u w -> ah w' = ah w ->
  current_token_limit w' = current_token_limit w -> parser_state w' = parser_state w ->
  PathOk (ups w') (path u (ah w) ++ [c]) -> c <> 0 /\ c <> 13 -> Pending u c w'.
Proof.
  intros [Hcore Hargs [] Hnul] Ha Hl Hp Hok Hc.
  constructor; rewrite ?Ha; try done; [by apply (uri_core_ext u w)|intros _; by apply path_clean].
Qed.

(** The states SEEN_SLASH and beyond ask the same of the path. *)
Lemma path_seen st st' s : PathOk st s -> st' <> URIPS_IDLE -> PathOk st' s.
Proof. intros [] Hst. by constructor. Qed.

Lemma elem_snoc (x c : Z) s : x ∉ s -> c <> x -> x ∉ s ++ [c].
Proof. intros H1 H2. rewrite elem_of_app, list_elem_of_singleton. naive_solver. Qed.

Lemma nodots_suffix s : ~ infix dd s -> ~ suffix (bstr "/..") s -> clean s.
Proof. apply path_clean. Qed.

(** The table after a delimiter. *)
Lemma delimited_starts h u a g : AhInv a -> 1 <= nfrag a -> nfrag a + 1 < NFRAGS ->
  get_frag a (nfrag a) = Some g -> 1 <= f_len g -> starts h u a -> starts h u (delimited a g).
Proof.
  intros Ha Hn1 Hn Hg Hl Hs. destruct (ai_frag a Ha (nfrag a) g ltac:(lia) Hg).
  set (a1 := upd_cur a (data a) (pos a) (f_len g - 1) g).
  assert (H1 : AhInv a1).
  { apply upd_cur_inv; try done; [apply (ai_data _ Ha)|lia|]. pose proof (ai_pos _ Ha). lia. }
  destruct (starts_upd_cur h u a (data a) (pos a) (f_len g - 1) g Ha Hg Hs)
    as (i & f1 & Hi & Hr & Hf1 & Hof). cbn in Hr.
  destruct (new_frag_old a1 H1 Hn i f1 ltac:(cbn; lia) Hf1) as (f2 & Hf2 & Ho2).
  assert (Hcur : get_frag (new_frag a1) (nfrag a) = Some (mkFrag (f_offset g) (f_len g - 1) (f_nfrag g))).
  { rewrite new_frag_get by (done || cbn; lia). cbn.
    destruct (nfrag a =? nfrag a + 1) eqn:E; zbool; [lia|].
    unfold a1. rewrite (upd_cur_get a) by (done || lia). by rewrite Z.eqb_refl. }
  destruct (link_frag_old (new_frag a1) (nfrag a) _ (new_frag_inv a1 H1 Hn) ltac:(cbn; lia) Hcur
              i f2 ltac:(lia) Hf2) as (f3 & Hf3 & Ho3).
  exists i, f3. split_and!; [done|lia|cbn; lia|exact Hf3|congruence].
Qed.

Lemma delimited_path u w a g ple : UriCore u (with_ah w a) -> CurFrag u a g -> 1 <= f_len g ->
  data a !! Z.to_nat (pos a - 1) = Some 38 \/ data a !! Z.to_nat (pos a - 1) = Some 59 ->
  nfrag a + 1 < NFRAGS -> UriCore u (w {{ ah := delimited a g; post_literal_equal := ple }}).
Proof.
  intros [Hm Hc Hlim Hs _] [Hg Ho _ He _] Hl Hdel Hn.
  pose proof (co_inv _ Hc) as Ha. pose proof (co_nfrag _ Hc) as Hn1. cbn in Ha, Hn1, Hs.
  destruct (delimited_inv a g Ha Hn1 Hn Hg Hl) as [Hd1 Hd2].
  constructor; [done|by apply delimited_collecting|done|by apply delimited_starts|].
  eexists. constructor; [exact Hd2|cbn; lia..|]. right. cbn. split; [lia|]. destruct Hdel; eauto.
Qed.

Lemma delimiter_path u w c : PathInv u w -> ups w = URIPS_IDLE -> c = 38 \/ c = 59 ->
  ok (uri_delimiter w c) (path_flow u w).
Proof.
  intros [Hcore Hargs Hok Hnul] Hidle Hc. rewrite Hidle in Hok.
  destruct (issue_path u w c Hcore) as [He|(a & He & Hcore' & Hidx & Hp)]; [lia|by unfold uri_delimiter; rewrite He|].
  pose proof (uc_col _ _ Hcore') as Hca. destruct (uc_cur _ _ Hcore') as [g Hcur]. cbn in Hcur.
  pose proof Hcur as [Hg Ho _ Hend _].
  destruct (uri_delimiter_eq w c 0 a g) as (w' & Hw' & ->); try done; [apply Hcore|lia|].
  pose proof (ai_nfrag _ (co_inv _ Hca)) as Hnf. cbn in Hnf.
  destruct (nfrag a + 1 >=? NFRAGS) eqn:E; zbool; [cbn; lia|]. cbn. split; [|by destruct w].
  assert (Hl : 1 <= f_len g) by (eapply (issue_char_len w c a 0); try done; [apply Hcore|lia]).
  assert (Hpa : path u (delimited a g) = path u (ah w) ++ [c]) by exact Hp.
  constructor.
  - apply delimited_path; try done.
    assert (Hlk : data a !! Z.to_nat (pos a - 1) = Some c); [|destruct Hc; subst; auto].
    assert (Hlen := length_path u a (co_inv _ Hca) ltac:(lia)). rewrite Hp, zlen_app in Hlen.
    assert (Hlast : path u a !! length (path u (ah w)) = Some c) by (rewrite Hp; by apply list_lookup_middle).
    unfold zlen in Hlen. cbn in Hlen. set (n := length (path u (ah w))) in *. unfold path in Hlast.
    rewrite lookup_take_lt, lookup_drop in Hlast by lia.
    rewrite <- Hlast. f_equal. lia.
  - cbn. unfold get_index in *. cbn. change (frag_index a !! Z.to_nat WSI_TOKEN_HTTP_URI_ARGS = Some 0).
    by rewrite Hidx.
  - change (ups _) with (ups w). change (ah _) with (delimited a g). rewrite Hidle, Hpa.
    apply path_name; [done|lia].
  - change (ah _) with (delimited a g). rewrite Hpa. apply elem_snoc; [done|lia].
Qed.

Lemma path_idle_path u w c enc : PathInv u w -> ups w = URIPS_IDLE -> c <> 0 /\ c <> 13 ->
  ok (path_idle w c enc) (path_flow u w).
Proof.
  intros Hw Hidle Hc. unfold path_idle. destruct (c =? 0) eqn:E0; zbool; [lia|].
  destruct (((c =? 38) || (c =? 59)) && negb enc) eqn:Ed.
  { apply delimiter_path; try done. apply andb_prop in Ed as [Ed _].
    apply orb_prop in Ed as [Ed|Ed]; zbool; auto. }
  rewrite (pv_args _ _ Hw). cbn [mbind option_bind]. change (nz 0) with false.
  cbn [andb negb]. rewrite !andb_false_r. cbn [andb].
  set (c' := if (c =? 43) && negb enc then 32 else c).
  assert (Hc' : c' <> 0 /\ c' <> 13) by (unfold c'; case_if; lia).
  cbn [ok path_flow]. split; [|by destruct w]. pose proof (pv_path _ _ Hw) as Hok. rewrite Hidle in Hok.
  apply (pending_ext u c' w); try done; try by destruct w.
  rewrite andb_true_r. destruct (c' =? 47) eqn:E; zbool.
  - rewrite E. apply path_slash; [by destruct w|by apply (po_dd _ _ Hok)|by apply (po_dotdot _ _ Hok)].
  - change (PathOk (ups w) (path u (ah w) ++ [c'])). rewrite Hidle. by apply path_name.
Qed.

(** After "/..", a slash or a question mark: one directory is removed. *)
Lemma path_dot_dot_path u w c enc :
  PathInv u w -> ups w = URIPS_SEEN_SLASH_DOT_DOT -> c <> 0 /\ c <> 13 ->
  ok (path_dot_dot w c enc) (path_flow u w).
Proof.
  intros Hw Hst Hc. pose proof Hw as [Hcore Hargs Hok Hnul]. unfold path_dot_dot.
  destruct ((c =? 47) || (c =? 63)) eqn:Ec.
  - eapply ok_bind; [by apply back_up_path|]. intros a (Hcore' & Hidx & g & r & Hg & Hp & Hcut).
    rewrite Hg. cbn [mbind option_bind ok].
    assert (Hargs' : get_index a WSI_TOKEN_HTTP_URI_ARGS = Some 0) by (unfold get_index; by rewrite Hidx).
    assert (Hnul' : 0 ∉ path u a) by (rewrite Hp, elem_of_app in Hnul; tauto).
    assert (Hdd : ~ infix dd (path u a)) by (rewrite Hp in Hok; by apply (path_prefix _ _ _ Hok)).
    assert (Hcore'' : UriCore u (w {{ ah := a; ups := URIPS_SEEN_SLASH }}))
      by (by apply (uri_core_ext u (with_ah w a))).
    assert (Hcl : clean (path u a) /\ (f_len g <= 1 -> PathOk URIPS_SEEN_SLASH (path u a))).
    { destruct Hcut as [(-> & ->)|[((r' & ->) & Hl)|(Hl & Hse)]].
      - split; [apply path_clean; apply Hok|]. intros _. by apply (path_seen (ups w)).
      - rewrite Hp in Hok. apply cut_at_slash in Hok as Hcl. split; [done|]. lia.
      - split; [|intros _; by apply short_end_ok].
        destruct (short_end_ok URIPS_SEEN_SLASH _ Hse Hdd); [done|]. by apply path_clean. }
    destruct Hcl as [Hcl Hsmall].
    destruct (f_len g >? 1) eqn:El; zbool; (split; [|by destruct w]); constructor; try done;
      [|by apply Hsmall].
    destruct (clean_inv _ Hcl). apply orb_prop in Ec as [Ec|Ec]; zbool; subst c.
    + by apply path_slash.
    + by apply path_other.
  - apply orb_false_elim in Ec as [Ec1 Ec2]; zbool.
    destruct (issue_path u w 46 Hcore) as [->|(a & -> & Hcore1 & Hidx1 & Hp1)]; [done..|].
    cbn [mbind option_bind Z.ltb Z.compare].
    destruct (issue_path u _ 46 Hcore1) as [->|(a' & -> & Hcore2 & Hidx2 & Hp2)]; [done..|].
    cbn [mbind option_bind Z.ltb Z.compare ok path_flow ah with_ah] in *. split; [|by destruct w].
    pose proof Hok as [Hd _ He _]. rewrite Hst in Hok.
    assert (Hpath : path u a' = (path u (ah w) ++ [46]) ++ [46]) by (by rewrite Hp2, Hp1).
    constructor; try done; change (ah _) with a'; rewrite ?Hpath.
    + by apply (uri_core_ext u (with_ah (with_ah w a) a')).
    + unfold get_index in *. by rewrite Hidx2, Hidx1.
    + by apply path_dots.
    + by repeat apply elem_snoc.
Qed.

Lemma uri_path_path u w c enc : PathInv u w -> c <> 0 /\ c <> 13 ->
  ok (uri_path w c enc) (path_flow u w).
Proof.
  intros Hw Hc. pose proof Hw as [Hcore Hargs Hok Hnul]. unfold uri_path. destruct (ups w) eqn:Hst.
  - by apply path_idle_path.
  - cbn. destruct (c =? 47) eqn:E1; zbool; [done|].
    destruct (c =? 46) eqn:E2; zbool; (split; [|by destruct w]).
    + apply (path_inv_ext u w); try done. by apply (path_seen URIPS_SEEN_SLASH).
    + apply (pending_ext u c w); try done. apply path_other; [apply Hok|done..].
  - destruct (c =? 46) eqn:E1; zbool.
    { split; [|by destruct w]. apply (path_inv_ext u w); try done. by eapply path_seen. }
    destruct (c =? 47) eqn:E2; zbool.
    { split; [|by destruct w]. apply (path_inv_ext u w); try done. by eapply path_seen. }
    assert (Hcore0 : UriCore u (w {{ ups := URIPS_IDLE }})) by (by apply (uri_core_ext u w)).
    destruct (issue_path u _ 46 Hcore0) as [->|(a & -> & Hcore1 & Hidx1 & Hp1)]; [done..|].
    change (ah (w {{ ups := URIPS_IDLE }})) with (ah w) in Hp1, Hidx1.
    cbn [mbind option_bind Z.ltb Z.compare ok path_flow]. split; [|by destruct w].
    pose proof Hok as [Hd Hdot _ _].
    constructor; try done; change (ah _) with a; rewrite ?Hp1.
    + unfold get_index in *. by rewrite Hidx1.
    + intros _. apply path_clean; [by apply infix_other|].
      intros H. by apply (suffix_snoc_inv (bstr "/.")) in H as [_ H].
    + apply path_other; [by apply infix_other|done..].
    + by apply elem_snoc.
  - by apply path_dot_dot_path.
Qed.

(** ** While the arguments arrive *)

(** The sanitised path is stored at [u] and ended by a NUL below offset [o]. *)
Definition Sealed (u : Z) (a : allocated_headers) (o : Z) : Prop :=
  exists s, 0 <= u /\ u + zlen s < o /\ clean s /\ (0 ∉ s) /\
    take (S (length s)) (drop (Z.to_nat u) (data a)) = s ++ [0].

Lemma sealed_same u a a' o o' : Sealed u a o -> o <= o' ->
  take (Z.to_nat o) (data a') = take (Z.to_nat o) (data a) -> Sealed u a' o'.
Proof.
  intros (s & Hu & Ho & Hcl & Hnul & Ht) Hoo He. exists s. split_and!; try done; [lia|].
  rewrite <- Ht. unfold zlen in Ho.
  assert (Hc : forall l : bytes, take (S (length s)) (drop (Z.to_nat u) l)
            = take (S (length s)) (drop (Z.to_nat u) (take (Z.to_nat o) l))).
  { intros l. rewrite skipn_firstn_comm, take_take. f_equal. lia. }
  by rewrite (Hc (data a')), (Hc (data a)), He.
Qed.

Lemma cstr_app s t : 0 ∉ s -> cstr (s ++ 0 :: t) = Some (s ++ [0]).
Proof.
  intros Hnul. induction s as [|c s IH]; cbn; [done|].
  destruct (c =? 0) eqn:E; zbool; [subst; exfalso; apply Hnul; by left|].
  rewrite IH; [done|]. intros H. apply Hnul. by right.
Qed.

Lemma sealed_cstr u a o : Sealed u a o ->
  exists s, cstr_at a u = Some (s ++ [0]) /\ clean s /\ 0 ∉ s.
Proof.
  intros (s & _ & _ & Hcl & Hnul & Ht). exists s. split; [|done]. unfold cstr_at.
  rewrite <- (take_drop (S (length s)) (drop (Z.to_nat u) (data a))), Ht, <- app_assoc.
  by apply cstr_app.
Qed.

Record ArgsInv (u : Z) (w : hdr) : Prop := {
  ag_method : is_method (parser_state w) = true;
  ag_col : Collecting w;
  ag_limit : current_token_limit w = max_http_header_data;
  ag_starts : starts (parser_state w) u (ah w);
  ag_args : exists i, get_index (ah w) WSI_TOKEN_HTTP_URI_ARGS = Some i /\ i <> 0;
  ag_ups : ups w = URIPS_IDLE;
  ag_sealed : Sealed u (ah w) (pos (ah w))
}.

Lemma args_inv_ext u w w' : ArgsInv u w -> ah w' = ah w ->
  current_token_limit w' = current_token_limit w -> parser_state w' = parser_state w ->
  ups w' = ups w -> ArgsInv u w'.
Proof.
  intros [] Ha Hl Hp Hu. constructor; rewrite ?Ha, ?Hl, ?Hp, ?Hu; try done.
  by apply (collecting_ext w).
Qed.

(** With the limit of the whole table, a character is stored or the table is full. *)
Lemma issue_full w c : Collecting w -> current_token_limit w = max_http_header_data ->
  issue_char w c = Some (-1, w) \/
  exists a, issue_char w c = Some (0, with_ah w a) /\ Collecting (with_ah w a) /\
    Kept (ah w) a /\ pos a = pos (ah w) + 1 /\
    data a = <[Z.to_nat (pos (ah w)) := c]> (data (ah w)) /\ (c = 0 -> AllTerm a).
Proof.
  intros Hc Hlim. destruct (collecting_cur w Hc) as (g & Hg & Ho & Hl & He & _).
  pose proof (co_inv _ Hc) as Ha. pose proof (ai_pos _ Ha).
  destruct (issue_char_cases w c Hc) as [?|(r & a & Hi & Hc' & Hk & Hr & Ht)]; [by left|right].
  rewrite (issue_char_eq w c g) in * by (done || lia).
  destruct (pos (ah w) =? max_http_header_data) eqn:E; zbool; [by injection Hi as <- _; lia|].
  destruct (f_len g <? current_token_limit w) eqn:El; zbool; [|lia].
  injection Hi as <- Hw. exists a. subst a. split_and!; try done. intros ->. apply Ht. by right.
Qed.

Lemma kept_starts h u a a' : Kept a a' -> starts h u a -> starts h u a'.
Proof.
  intros [Hn Hi _ Hf _] (i & f & Hx & Hr & Hg & Ho). destruct (Hf i f ltac:(lia) Hg) as (f' & Hg' & Ho').
  exists i, f'. unfold get_index in *. rewrite Hi, Hn. by rewrite Ho'.
Qed.

Lemma issue_args u w c : ArgsInv u w ->
  issue_char w c = Some (-1, w) \/
  exists a, issue_char w c = Some (0, with_ah w a) /\ ArgsInv u (with_ah w a).
Proof.
  intros []. destruct (issue_full w c) as [?|(a & He & Hc & Hk & Hp & Hd & _)]; [done..|by left|right].
  exists a. split; [done|]. constructor; cbn; try done.
  - by apply (kept_starts _ _ (ah w)).
  - destruct ag_args0 as (i & Hi & Hi0). exists i. destruct Hk as [_ Hx _ _ _].
    unfold get_index in *. by rewrite Hx.
  - eapply sealed_same; [done|lia|]. by destruct Hk.
Qed.

(** Where a step inside the URI leads. *)
Definition InUri (u : Z) (w : hdr) : Prop := PathInv u w \/ ArgsInv u w.

Lemma not_challenge w : is_method (parser_state w) = true -> parser_state w <> WSI_TOKEN_CHALLENGE.
Proof. intros Hm He. by rewrite He in Hm. Qed.

Lemma method_args p : is_method p = true -> 0 <= p /\ p <> WSI_TOKEN_HTTP_URI_ARGS.
Proof. intros Hm. split; [apply methods_range in Hm; lia|]. by intros ->. Qed.

(** The NUL that ends the path seals it. *)
Lemma issue_seal u w : UriCore u w -> clean (path u (ah w)) -> 0 ∉ path u (ah w) ->
  issue_char w 0 = Some (-1, w) \/
  exists a, issue_char w 0 = Some (0, with_ah w a) /\ Collecting (with_ah w a) /\
    Kept (ah w) a /\ AllTerm a /\ Sealed u a (pos a).
Proof.
  intros Hcore Hcl Hnul. destruct (uc_cur _ _ Hcore) as [g [Hg Ho Hfl Hend _]].
  pose proof (uc_col _ _ Hcore) as Hc. pose proof (ai_pos _ (co_inv _ Hc)) as Hpos.
  destruct (issue_full w 0 Hc (uc_limit _ _ Hcore)) as [?|(a & He & Hca & Hk & Hp & Hd & Ht)];
    [by left|right].
  exists a. split_and!; try done; [by apply Ht|].
  exists (path u (ah w)). pose proof (length_path u (ah w) (co_inv _ Hc) ltac:(lia)) as Hlen.
  split_and!; [lia|lia|done|done|]. rewrite Hd. unfold path in *. unfold zlen in Hlen.
  rewrite length_take, length_drop in *. pose proof (ai_data _ (co_inv _ Hc)) as Hdl. unfold zlen in Hdl.
  assert (pos a <= max_http_header_data) by (by apply (ai_pos _ (co_inv _ Hca))).
  replace (Z.to_nat (pos (ah w) - u) `min` (length (data (ah w)) - Z.to_nat u))%nat
    with (Z.to_nat (pos (ah w) - u)) by lia.
  replace (Z.to_nat (pos (ah w))) with (Z.to_nat u + Z.to_nat (pos (ah w) - u))%nat at 1 by lia.
  apply fill_insert. lia.
Qed.

(** The start of the arguments seals the path. *)
Lemma uri_args_sealed u w c : Pending u c w -> c = 63 -> ues w = URIES_IDLE ->
  ok (uri_args w) (fun rw => rw.1 <> 0 \/ (InUri u rw.2 /\ ues rw.2 = URIES_IDLE)).
Proof.
  intros [Hcore Hargs Hcl _ Hnul _] -> Hues. specialize (Hcl eq_refl).
  unfold uri_args. rewrite bool_decide_true by done. cbn [negb].
  pose proof (uc_col _ _ Hcore) as Hc.
  destruct (issue_seal u w Hcore Hcl Hnul) as [->|(a & -> & Hca & Hk & _ & Hseal)]; [by left|].
  cbn [mbind option_bind Z.ltb Z.compare].
  pose proof (co_inv _ Hca) as Ha. cbn in Ha. pose proof (ai_nfrag _ Ha). pose proof (co_nfrag _ Hca) as Hn1.
  change (ah (with_ah w a)) with a in *. rewrite next_nfrag_eq by done.
  change (nfrag (next_nfrag a)) with (nfrag a + 1).
  destruct (nfrag a + 1 >=? NFRAGS) eqn:En; zbool.
  { rewrite excessive_full by (cbn; lia). by left. }
  change (pos (next_nfrag a)) with (pos a). rewrite set_frag_new by (done || lia).
  cbn [mbind option_bind]. pose proof (new_frag_inv a Ha ltac:(lia)) as Hn.
  rewrite (set_index_first (new_frag a)) by done. cbn [mbind option_bind].
  assert (Hv : ArgsInv u ((with_ah w a) {{ ah := first_frag (new_frag a) WSI_TOKEN_HTTP_URI_ARGS;
                            post_literal_equal := 0; ups := URIPS_IDLE }})).
  { constructor.
    - exact (uc_method _ _ Hcore).
    - constructor; [by apply first_frag_inv|cbn; lia|apply (co_limit _ Hc)|].
      intros g' Hg'. change (get_frag (new_frag a) (nfrag a + 1) = Some g') in Hg'.
      rewrite new_frag_get, Z.eqb_refl in Hg' by (done || lia). simplify_eq. cbn.
      pose proof (co_limit _ Hc). destruct w; cbn in *. lia.
    - exact (uc_limit _ _ Hcore).
    - destruct (kept_starts _ _ _ a Hk (uc_starts _ _ Hcore)) as (i & f & Hi & Hr & Hf & Hof).
      destruct (new_frag_old a Ha ltac:(lia) i f ltac:(lia) Hf) as (f' & Hf' & Ho').
      exists i, f'. split_and!; [|lia|cbn; lia|exact Hf'|congruence].
      unfold get_index in *. cbn. rewrite list_lookup_insert_ne; [done|].
      destruct (method_args _ (uc_method _ _ Hcore)).
      change (Z.to_nat WSI_TOKEN_HTTP_URI_ARGS <> Z.to_nat (parser_state w)).
      unfold WSI_TOKEN_HTTP_URI_ARGS in *. lia.
    - exists (nfrag a + 1). split; [|lia]. unfold get_index. cbn. apply list_lookup_insert_eq.
      pose proof (ai_index _ Ha). unfold zlen, WSI_TOKEN_COUNT, WSI_TOKEN_HTTP_URI_ARGS in *. lia.
    - done.
    - exact Hseal. }
  rewrite swallow_other by (apply not_challenge, Hv). right. split; [by right|by destruct w].
Qed.

(** A delimiter between arguments. *)
Lemma delimiter_args u w c : ArgsInv u w -> c <> 0 ->
  ok (uri_delimiter w c) (fun f => match f with
    | FSwallow w' => ArgsInv u w' /\ ues w' = ues w
    | FBreak _ _ _ => False
    | FForbid _ => True
    | FExcessive w' => nfrag (ah w') = NFRAGS
    | FReturn r _ => r <> 0
    end).
Proof.
  intros Hw Hc0.
  destruct (issue_args u w c Hw) as [He|(a & He & Hwa)]; [by unfold uri_delimiter; rewrite He|].
  pose proof Hwa as [Hm Hca Hlim Hs Hargs Hups Hseal]. cbn in Hs, Hargs, Hups, Hseal.
  pose proof (co_inv _ Hca) as Ha. pose proof (co_nfrag _ Hca) as Hn1. cbn in Ha, Hn1.
  pose proof (ai_nfrag _ Ha). destruct (get_frag_ok a (nfrag a) Ha) as [g Hg]; [lia|].
  destruct (uri_delimiter_eq w c 0 a g) as (w' & Hw' & ->); try done; [apply Hw|].
  destruct (nfrag a + 1 >=? NFRAGS) eqn:E; zbool; [cbn; lia|]. cbn. split; [|by destruct w].
  assert (Hl : 1 <= f_len g) by (eapply (issue_char_len w c a 0); try done; apply Hw).
  constructor; [exact Hm|by apply delimited_collecting|exact Hlim|by apply delimited_starts|
                exact Hargs|exact Hups|exact Hseal].
Qed.

(** ** One byte of the URI *)

(** The character is stored, or opens the arguments. *)
Definition Stepped (u : Z) (rw : Z * hdr) : Prop :=
  rw.1 <> 0 \/ (InUri u rw.2 /\ ues rw.2 = URIES_IDLE).

Lemma check_eol_other w c : Collecting w -> is_method (parser_state w) = true -> c <> 13 ->
  check_eol w c =
  ('(n, w) ← issue_char w c;
   if n <? 0 then Some (-1, w) else Some (0, if n >? 0 then with_state w WSI_TOKEN_SKIPPING else w)).
Proof.
  intros Hc Hm Hc13. rewrite check_eol_eq by (done || by apply not_challenge).
  by destruct (c =? 13) eqn:E; zbool.
Qed.

Lemma store_path u c enc w : Pending u c w -> ues w = URIES_IDLE -> ok (uri_rest (FBreak c enc w)) (Stepped u).
Proof.
  intros Hp Hues. cbn. rewrite (pe_args _ _ _ Hp). cbn [mbind option_bind].
  change (nz 0) with false. cbn [negb]. rewrite andb_true_r.
  destruct ((c =? 63) && negb enc) eqn:E.
  { zbool. by apply (uri_args_sealed u w c). }
  pose proof Hp as [Hcore Hargs _ Hok Hnul [Hc0 Hc13]].
  rewrite check_eol_other by (done || apply Hcore).
  destruct (issue_path u w c Hcore Hc0) as [->|(a & -> & Hcore' & Hidx & Hpath)]; [by left|].
  assert (Hw : PathInv u (with_ah w a)).
  { constructor; cbn [ah with_ah ups]; rewrite ?Hpath; [done| |done|by apply elem_snoc].
    unfold get_index in *. cbn. by rewrite Hidx. }
  right. split; [by left|by destruct w].
Qed.

Lemma store_args u c enc w : ArgsInv u w -> ues w = URIES_IDLE -> c <> 13 ->
  ok (uri_rest (FBreak c enc w)) (Stepped u).
Proof.
  intros Hw Hues Hc13. cbn. destruct (ag_args _ _ Hw) as (i & Hi & Hi0). rewrite Hi.
  cbn [mbind option_bind].
  assert (Hnz : nz i = true) by (unfold nz; by destruct (i =? 0) eqn:E; zbool).
  rewrite Hnz. cbn [negb]. rewrite andb_false_r.
  rewrite check_eol_other by (done || apply Hw).
  destruct (issue_args u w c Hw) as [->|(a & -> & Hwa)]; [by left|]. right. split; [by right|by destruct w].
Qed.

Lemma flow_stepped u w f : path_flow u w f -> ues w = URIES_IDLE -> ok (uri_rest f) (Stepped u).
Proof.
  intros Hf Hues. destruct f as [c enc w'|w'|w'|w'|r w']; cbn in Hf.
  - destruct Hf as [Hp He]. apply store_path; [done|congruence].
  - destruct Hf as [Hw He]. cbn. rewrite swallow_other by (apply not_challenge, Hw).
    right. split; [by left|cbn; congruence].
  - by left.
  - cbn. rewrite excessive_full by done. by left.
  - by left.
Qed.

(** The decoded character [c] (from %xx when [enc]). *)
Lemma uri_char u w c enc : InUri u w -> ues w = URIES_IDLE -> c <> 0 /\ c <> 13 ->
  ok (f ← uri_path w c enc; uri_rest f) (Stepped u).
Proof.
  intros [Hw|Hw] Hues Hc.
  { eapply ok_bind; [by apply (uri_path_path u)|]. intros f Hf. by apply (flow_stepped u w). }
  unfold uri_path. rewrite (ag_ups _ _ Hw). unfold path_idle.
  destruct (c =? 0) eqn:E0; zbool; [lia|].
  destruct (((c =? 38) || (c =? 59)) && negb enc) eqn:Ed.
  { eapply ok_bind; [by apply (delimiter_args u)|]. intros [| | | |] Hf; try done.
    - destruct Hf as [Hf He]. cbn. rewrite swallow_other by (apply not_challenge, Hf).
      right. split; [by right|cbn; congruence].
    - by left.
    - cbn. rewrite excessive_full by done. by left.
    - by left. }
  destruct (ag_args _ _ Hw) as (i & Hi & Hi0). rewrite Hi. cbn [mbind option_bind].
  assert (Hnz : nz i = true) by (unfold nz; by destruct (i =? 0) eqn:E; zbool).
  rewrite Hnz. cbn [negb]. rewrite !andb_false_r.
  apply store_args; [by apply (args_inv_ext u w)|done|]. repeat case_if; lia.
Qed.

(** ** The space that ends the URI *)

(** The URI of method [h] is stored, sanitised, at [u]. *)
Definition UriDone (h u : Z) (w : hdr) : Prop :=
  parser_state w = WSI_TOKEN_HTTP /\ starts h u (ah w) /\ exists o, Sealed u (ah w) o.

Lemma finish_uri h u w : is_method h = true -> Collecting w -> AllTerm (ah w) -> starts h u (ah w) ->
  Sealed u (ah w) (pos (ah w)) ->
  ok (start_fragment (w {{ parser_state := WSI_TOKEN_HTTP }})) (fun rw => rw.1 <> 0 \/ UriDone h u rw.2).
Proof.
  intros Hm Hc Ht Hs Hseal.
  eapply ok_mono; [apply start_fragment_ok; [apply Hc|done|done|apply (co_limit _ Hc)]|].
  intros [r w'] [[Hr|Hr] Hok]; [|left; cbn in *; lia]. cbn in Hr. subst r.
  destruct (Hok eq_refl) as (a & Hw' & _ & _ & Hfr). cbn in Hw'. subst w'. right.
  destruct Hfr as [Hn Hd Hx Hf]. split; [by destruct w|]. split.
  - destruct Hs as (i & f & Hi & Hir & Hg & Ho). destruct (Hf i f Hir Hg) as (f' & Hg' & Ho').
    exists i, f'. split_and!; [|lia|change (ah (w {{ parser_state := WSI_TOKEN_HTTP }})) with (ah w) in Hn; cbn; lia|exact Hg'|congruence].
    cbn. rewrite Hx; [exact Hi|apply methods_range in Hm; lia|]. intros He.
    change (h = WSI_TOKEN_HTTP) in He. by subst.
  - exists (pos (ah w)). eapply sealed_same; [exact Hseal|done|exact Hd].
Qed.

Lemma uri_end_path u w : PathInv u w ->
  ok (uri_end w) (fun rw => rw.1 <> 0 \/ UriDone (parser_state w) u rw.2).
Proof.
  intros [Hcore _ [Hd _ Hdd _] Hnul]. unfold uri_end.
  destruct (uc_cur _ _ Hcore) as [g [Hg _ _ _ _]]. rewrite Hg. cbn [mbind option_bind].
  assert (H1 : ok (if f_len g =? 0 then issue_char w 47 else Some (0, w)) (fun rw =>
    rw.1 = -1 \/ (rw.1 = 0 /\ exists a, rw.2 = with_ah w a /\ UriCore u (with_ah w a) /\
      ~ infix dd (path u a) /\ ~ suffix (bstr "/..") (path u a) /\ 0 ∉ path u a))).
  { destruct (f_len g =? 0).
    - destruct (issue_path u w 47 Hcore) as [->|(a & -> & Hc' & _ & Hp)]; [done|by left|].
      right. split; [done|]. exists a. rewrite Hp. split_and!; try done.
      + by apply infix_slash.
      + intros H. by apply (suffix_snoc_inv (bstr "/.")) in H as [? _].
      + by apply elem_snoc.
    - right. split; [done|]. exists (ah w). split_and!; try done; by destruct w. }
  eapply ok_bind; [exact H1|]. intros [r w1] [Hr|[Hr (a1 & Hw & Hc1 & Hd1 & He1 & Hn1)]]; cbn in Hr; subst r.
  { by left. }
  cbn in Hw. subst w1. cbn [Z.ltb Z.compare].
  assert (H2 : ok (if bool_decide (ups (with_ah w a1) = URIPS_SEEN_SLASH_DOT_DOT) then back_up a1 else Some a1)
    (fun a => UriCore u (with_ah (with_ah w a1) a) /\ clean (path u a) /\ 0 ∉ path u a)).
  { case_if; [|by split_and!; [done|by apply path_clean|done]].
    eapply ok_mono; [by apply (back_up_path u (with_ah w a1))|].
    intros a (Hc2 & _ & g2 & r & _ & Hp & Hcut). cbn in Hp. split; [done|].
    assert (Hd2 : ~ infix dd (path u a)) by (rewrite Hp in Hd1; by apply (infix_prefix _ _ r)).
    split; [|rewrite Hp, elem_of_app in Hn1; tauto].
    destruct Hcut as [(-> & ->)|[((r' & ->) & _)|(_ & Hse)]].
    - by apply path_clean.
    - rewrite Hp in Hd1. unfold clean. apply (infix_prefix _ _ r'). by rewrite <- app_assoc.
    - destruct (short_end_ok URIPS_SEEN_SLASH _ Hse Hd2); [done|]. by apply path_clean. }
  eapply ok_bind; [exact H2|]. intros a2 (Hc2 & Hcl & Hn2).
  change ((with_ah w a1) {{ ah := a2 }}) with (with_ah (with_ah w a1) a2).
  destruct (issue_seal u _ Hc2 Hcl Hn2) as [->|(a3 & -> & Hc3 & Hk & Ht & Hseal)]; [by left|].
  cbn [mbind option_bind Z.ltb Z.compare]. apply finish_uri; try done; [apply Hcore|].
  apply (kept_starts _ _ a2); [done|]. apply (uc_starts _ _ Hc2).
Qed.

Lemma uri_end_args u w : ArgsInv u w ->
  ok (uri_end w) (fun rw => rw.1 <> 0 \/ UriDone (parser_state w) u rw.2).
Proof.
  intros Hw. unfold uri_end. destruct (collecting_cur w (ag_col _ _ Hw)) as (g & Hg & _).
  rewrite Hg. cbn [mbind option_bind].
  assert (H1 : ok (if f_len g =? 0 then issue_char w 47 else Some (0, w)) (fun rw =>
    rw.1 = -1 \/ (rw.1 = 0 /\ exists a, rw.2 = with_ah w a /\ ArgsInv u (with_ah w a)))).
  { destruct (f_len g =? 0).
    - destruct (issue_args u w 47 Hw) as [->|(a & -> & Hwa)]; [by left|]. right. split; [done|]. by exists a.
    - right. split; [done|]. exists (ah w). split; by destruct w. }
  eapply ok_bind; [exact H1|]. intros [r w1] [Hr|[Hr (a1 & Hw1 & Hwa)]]; cbn in Hr; subst r; [by left|].
  cbn in Hw1. subst w1. cbn [Z.ltb Z.compare]. 
  rewrite bool_decide_false by (by rewrite (ag_ups _ _ Hwa)). cbn [mbind option_bind].
  change ((with_ah w a1) {{ ah := ah (with_ah w a1) }}) with (with_ah w a1).
  destruct (issue_args u _ 0 Hwa) as [->|(a2 & He & Hwa2)]; [by left|].
  destruct (issue_full _ 0 (ag_col _ _ Hwa) (ag_limit _ _ Hwa)) as [He'|(a3 & He' & _ & _ & _ & _ & Ht)];
    rewrite He' in He; [done|]. injection He as Ha. assert (a3 = a2) as -> by done.
  rewrite He'. cbn [mbind option_bind Z.ltb Z.compare].
  apply finish_uri; try done; [apply Hw|apply Hwa2|by apply Ht|exact (ag_starts _ _ Hwa2)|apply Hwa2].
Qed.

(** ** Escapes *)

(** The bytes a URI stands for: %xx is the byte of that value. *)
Fixpoint unescape (s : bytes) : bytes :=
  match s with
  | [] => []
  | c :: r =>
      if c =? 37 then
        match r with
        | a :: b :: r => (16 * char_to_hex a + char_to_hex b) :: unescape r
        | _ => []
        end
      else c :: unescape r
  end.

(** The start of an escape that has been read. *)
Definition pend (w : hdr) : bytes :=
  match ues w with
  | URIES_IDLE => []
  | URIES_SEEN_PERCENT => [37]
  | URIES_SEEN_PERCENT_H1 => [37; esc_stash w]
  end.

Definition EscOk (w : hdr) : Prop :=
  ues w = URIES_SEEN_PERCENT_H1 -> 0 <= char_to_hex (esc_stash w).

(** No byte stands for a NUL or a carriage return. *)
Definition printable (s : bytes) : Prop := Forall (fun c => c <> 0 /\ c <> 13) (unescape s).

Lemma char_to_hex_range c : char_to_hex c <= 15.
Proof. unfold char_to_hex. case_ifs; zbool; lia. Qed.

Lemma hex_ascii c : is_u8 c -> 0 <= char_to_hex (s8 c) -> s8 c = c.
Proof.
  intros Hc Hh. unfold is_u8 in Hc. destruct (decide (c < 128)).
  - unfold s8, swrap. rewrite Z.mod_small; lia.
  - exfalso. assert (s8 c < 0).
    { unfold s8, swrap. replace (c + 2 ^ (8 - 1)) with (c - 128 + 1 * 2 ^ 8) by lia.
      rewrite Z.mod_add, Z.mod_small; lia. }
    unfold char_to_hex in Hh. revert Hh. case_ifs; zbool; lia.
Qed.

Lemma hex_value a b : 0 <= char_to_hex a -> 0 <= char_to_hex b ->
  u8 ((char_to_hex a .<< 4) .| char_to_hex b) = 16 * char_to_hex a + char_to_hex b.
Proof.
  intros Ha Hb. pose proof (char_to_hex_range a). pose proof (char_to_hex_range b).
  rewrite shift_lor_add by lia. rewrite u8_small; [lia|]. unfold is_u8. lia.
Qed.

Lemma in_uri_ext u w w' : InUri u w -> ah w' = ah w ->
  current_token_limit w' = current_token_limit w -> parser_state w' = parser_state w ->
  ups w' = ups w -> InUri u w'.
Proof.
  intros [Hw|Hw] Ha Hl Hp Hu; [left|right; by apply (args_inv_ext u w)].
  apply (path_inv_ext u w); try done. rewrite Hu. apply Hw.
Qed.

Lemma in_uri_method u w : InUri u w -> is_method (parser_state w) = true.
Proof. intros [[[] _ _ _]|[]]; done. Qed.

Lemma in_uri_col u w : InUri u w -> Collecting w.
Proof. intros [[[] _ _ _]|[]]; done. Qed.

(** One byte of the URI: the value of its method. *)
Lemma parse_method w c : Collecting w -> is_method (parser_state w) = true ->
  exists f, lws_parse w c =
    if (f_len f =? 0) && (c =? 32) then Some (0, w)
    else if c =? 32 then uri_end w
    else match uri_escape w c with
         | FBreak c enc w => f ← uri_path w c enc; uri_rest f
         | f => uri_rest f
         end.
Proof.
  intros Hcol Hm. pose proof (methods_range _ Hm) as Hr. unfold WSI_TOKEN_COUNT in Hr. unfold lws_parse.
  unfold WSI_TOKEN_NAME_PART, WSI_TOKEN_SKIPPING, WSI_TOKEN_SKIPPING_SAW_CR, WSI_PARSING_COMPLETE.
  repeat (match goal with |- context [parser_state w =? ?n] =>
            replace (parser_state w =? n) with false by (symmetry; apply Z.eqb_neq; lia) end).
  unfold parse_value.
  destruct (ok_some _ _ (get_index_ok (ah w) (parser_state w) (co_inv _ Hcol) Hr)) as (i & -> & Hi).
  pose proof (ai_nfrag _ (co_inv _ Hcol)). cbn [mbind option_bind].
  destruct (get_frag_ok (ah w) i (co_inv _ Hcol)) as [f ->]; [lia|]. cbn [mbind option_bind].
  exists f. by rewrite Hm.
Qed.

Lemma parse_uri u w c : InUri u w -> c <> 32 ->
  lws_parse w c = match uri_escape w c with
                  | FBreak c enc w => f ← uri_path w c enc; uri_rest f
                  | f => uri_rest f
                  end.
Proof.
  intros Hu Hc.
  destruct (parse_method w c (in_uri_col u w Hu) (in_uri_method u w Hu)) as [f ->].
  rewrite (proj2 (Z.eqb_neq c 32)) by done. by rewrite andb_false_r.
Qed.

Lemma uri_step u w c t : InUri u w -> EscOk w -> is_u8 c -> c <> 32 -> printable (pend w ++ c :: t) ->
  ok (lws_parse w c) (fun rw => rw.1 <> 0 \/ (InUri u rw.2 /\ EscOk rw.2 /\ printable (pend rw.2 ++ t))).
Proof.
  intros Hu Hesc Hc8 Hc Hp. rewrite (parse_uri u) by done. unfold printable, pend in Hp.
  assert (Hchar : forall c' enc w', InUri u w' -> ues w' = URIES_IDLE -> c' <> 0 /\ c' <> 13 -> printable t ->
    ok (f ← uri_path w' c' enc; uri_rest f)
       (fun rw => rw.1 <> 0 \/ (InUri u rw.2 /\ EscOk rw.2 /\ printable (pend rw.2 ++ t)))).
  { intros c' enc w' Hu' He' Hc' Ht. eapply ok_mono; [by apply (uri_char u)|].
    intros rw [Hr|[Hi He]]; [by left|right]. split; [done|]. unfold EscOk, pend. by rewrite He. }
  assert (Hsw : forall w', InUri u w' -> EscOk w' -> printable (pend w' ++ t) ->
    ok (uri_rest (FSwallow w'))
       (fun rw => rw.1 <> 0 \/ (InUri u rw.2 /\ EscOk rw.2 /\ printable (pend rw.2 ++ t)))).
  { intros w' Hu' He' Ht. cbn. rewrite swallow_other by (by apply not_challenge, (in_uri_method u)). by right. }
  unfold uri_escape. destruct (ues w) eqn:Hues; cbn [app] in Hp.
  - cbn in Hp. destruct (c =? 37) eqn:E; zbool.
    + apply Hsw; [by apply (in_uri_ext u w)|done|]. by subst.
    + apply Forall_cons in Hp as [H1 H2]. by apply Hchar.
  - destruct (char_to_hex (s8 c) <? 0) eqn:E; zbool; [by left|].
    apply Hsw; [by apply (in_uri_ext u w)|intros _; exact E|].
    unfold pend. change (esc_stash _) with (s8 c). cbn [ues]. by rewrite hex_ascii.
  - destruct (char_to_hex (s8 c) <? 0) eqn:E; zbool; [by left|].
    specialize (Hesc Hues). pose proof (hex_ascii c Hc8 E) as Ha. rewrite Ha in *.
    rewrite hex_value by done. cbn in Hp. apply Forall_cons in Hp as [H1 H2].
    apply Hchar; [by apply (in_uri_ext u w)|done|done|done].
Qed.

(** The method does not change while its URI is read. *)
Definition SameMethod (w : hdr) (rw : Z * hdr) : Prop :=
  rw.1 = 0 -> is_method (parser_state rw.2) = true -> parser_state rw.2 = parser_state w.

Lemma check_eol_same w c : Collecting w -> is_method (parser_state w) = true ->
  ok (check_eol w c) (SameMethod w).
Proof.
  intros Hc Hm. rewrite check_eol_eq by (done || by apply not_challenge).
  destruct (_ && _); [by intros H|]. destruct (c =? 13).
  - assert (Hc' : Collecting (with_state w WSI_TOKEN_SKIPPING_SAW_CR)) by (by apply (collecting_ext w)).
    destruct (issue_char_cases _ 0 Hc') as [->|(r & a & -> & _ & _ & Hr & _)]; [by intros H|].
    destruct Hr as [-> | ->]; by intros _ H.
  - destruct (issue_char_cases _ c Hc) as [->|(r & a & -> & _ & _ & Hr & _)]; [by intros H|].
    destruct Hr as [-> | ->]; by intros _ H.
Qed.

Lemma uri_args_same w : Collecting w -> is_method (parser_state w) = true ->
  ok (uri_args w) (SameMethod w).
Proof.
  intros Hc Hm. pose proof (uri_args_ok w Hm Hc) as Hok. revert Hok. unfold uri_args.
  destruct (negb _); [by intros _ H|].
  destruct (issue_char_cases w 0 Hc) as [->|(r & a & -> & Hca & _ & Hr & _)]; [by intros _ H|].
  cbn [mbind option_bind]. destruct (r <? 0) eqn:E; zbool; [lia|].
  pose proof (co_inv _ Hca) as Ha. cbn in Ha. pose proof (ai_nfrag _ Ha).
  change (ah (with_ah w a)) with a. rewrite next_nfrag_eq by done.
  change (nfrag (next_nfrag a)) with (nfrag a + 1).
  destruct (nfrag a + 1 >=? NFRAGS) eqn:En; zbool.
  { rewrite excessive_full by (cbn; lia). by intros _ H'. }
  destruct (set_frag _ _ _) as [a1|]; [|done]. cbn [mbind option_bind].
  destruct (set_index _ _ _) as [a2|]; [|done]. cbn [mbind option_bind].
  rewrite swallow_other by (by apply (not_challenge w)). by intros _ _ _.
Qed.

Lemma uri_rest_same w f : is_method (parser_state w) = true -> flow_ok w f -> ok (uri_rest f) (SameMethod w).
Proof.
  intros Hm Hf. destruct f as [c enc w'|w'|w'|w'|r w']; cbn in Hf |- *.
  - destruct Hf as [Hc Hp]. rewrite <- Hp in Hm. eapply ok_bind.
    { apply (get_index_ok (ah w')); [apply Hc|done]. }
    intros args _. unfold SameMethod. rewrite <- Hp.
    destruct (_ && _); [by apply uri_args_same|by apply check_eol_same].
  - destruct Hf as [Hc Hp]. rewrite swallow_other by (apply not_challenge; by rewrite Hp). by intros _ _.
  - by intros H.
  - rewrite excessive_full by done. by intros H.
  - subst. by intros H.
Qed.

Lemma parse_uri_same u w c : InUri u w -> c <> 32 -> ok (lws_parse w c) (SameMethod w).
Proof.
  intros Hu Hc. rewrite (parse_uri u) by done. pose proof (in_uri_method u w Hu) as Hm.
  pose proof (uri_escape_ok w c (in_uri_col u w Hu)) as Hf.
  destruct (uri_escape w c) as [c' enc w'|w'|w'|w'|r w']; try by apply (uri_rest_same w).
  destruct Hf as [Hc' Hp]. eapply ok_bind; [by apply uri_path_ok|]. intros f Hf.
  eapply ok_mono; [apply (uri_rest_same w'); [by rewrite Hp|done]|].
  intros rw Hs. unfold SameMethod. by rewrite <- Hp.
Qed.

(** The whole URI, then a space. *)
Lemma uri_feed u t : forall w w', InUri u w -> EscOk w -> all_u8 t -> (32 ∉ t) -> printable (pend w ++ t) ->
  feed w (t ++ [32]) = Some (0, w', []) ->
  exists w1, InUri u w1 /\ parser_state w1 = parser_state w /\ lws_parse w1 32 = Some (0, w').
Proof.
  induction t as [|c t IH]; intros w w' Hu He Ht Hsp Hp Hf.
  - exists w. split_and!; [done..|]. cbn in Hf. destruct (lws_parse w 32) as [[m w1]|]; [|done].
    cbn in Hf. destruct (nz m) eqn:Em; [by injection Hf as -> <-|].
    assert (m = 0) as -> by (unfold nz in Em; zbool; done).
    destruct (_ =? _); by injection Hf as <-.
  - forall_inv. assert (Hc : c <> 32 /\ (32 ∉ t)) by set_solver. destruct Hc as [Hc Hsp'].
    destruct (ok_some _ _ (uri_step u w c t Hu He H Hc Hp)) as ([m w1] & Hstep & Hres).
    pose proof (parse_uri_same u w c Hu Hc) as Hsame. rewrite Hstep in Hsame. cbn in Hsame.
    cbn in Hf. rewrite Hstep in Hf. cbn in Hf. cbn in Hres.
    destruct (nz m) eqn:Em.
    { injection Hf as -> _ _. by change (nz 0) with false in Em. }
    assert (m = 0) as -> by (unfold nz in Em; zbool; done).
    destruct Hres as [?|(Hu1 & He1 & Hp1)]; [done|].
    specialize (Hsame eq_refl (in_uri_method u w1 Hu1)). cbn in Hsame.
    destruct (parser_state w1 =? WSI_PARSING_COMPLETE) eqn:Ec; zbool.
    { exfalso. pose proof (methods_range _ (in_uri_method u w1 Hu1)).
      unfold WSI_TOKEN_COUNT, WSI_PARSING_COMPLETE in *. lia. }
    destruct (IH w1 w' Hu1 He1 Ht Hsp' Hp1 Hf) as (w2 & ? & Hps & ?).
    exists w2. split_and!; [done|congruence|done].
Qed.

(** The space that ends the URI leaves it sealed. *)
Lemma parse_space u w w' : InUri u w -> lws_parse w 32 = Some (0, w') ->
  parser_state w' = WSI_TOKEN_HTTP -> UriDone (parser_state w) u w'.
Proof.
  intros Hu Hp Hst. 
  destruct (parse_method w 32 (in_uri_col u w Hu) (in_uri_method u w Hu)) as [f Hf]. rewrite Hf in Hp.
  change (32 =? 32) with true in Hp. destruct ((f_len f =? 0) && true).
  { injection Hp as <-. pose proof (in_uri_method u w Hu) as Hm. by rewrite Hst in Hm. }
  assert (Hend : ok (uri_end w) (fun rw => rw.1 <> 0 \/ UriDone (parser_state w) u rw.2))
    by (destruct Hu; [by apply uri_end_path|by apply uri_end_args]).
  rewrite Hp in Hend. by destruct Hend.
Qed.

(** The URI starts with the method's fragment. *)
Lemma uri_start w : HdrInv w -> is_method (parser_state w) = true -> ups w = URIPS_IDLE ->
  current_token_limit w = max_http_header_data ->
  get_index (ah w) (parser_state w) = Some (nfrag (ah w)) ->
  get_frag (ah w) (nfrag (ah w)) = Some (mkFrag (pos (ah w)) 0 0) ->
  get_index (ah w) WSI_TOKEN_HTTP_URI_ARGS = Some 0 -> PathInv (pos (ah w)) w.
Proof.
  intros Hw Hm Hups Hlim Hi Hg Hargs.
  destruct Hw as [[_ _ Hc _]|[Hs _ _ _]].
  2: { pose proof (methods_range _ Hm). unfold WSI_TOKEN_COUNT, WSI_TOKEN_NAME_PART in *. lia. }
  pose proof (ai_pos _ (co_inv _ Hc)). pose proof (co_nfrag _ Hc).
  assert (Hp : path (pos (ah w)) (ah w) = []) by (unfold path; by rewrite Z.sub_diag).
  constructor; rewrite ?Hp; [|done|apply path_nil|by apply not_elem_of_nil].
  constructor; try done.
  - exists (nfrag (ah w)), (mkFrag (pos (ah w)) 0 0). split_and!; (done || lia).
  - eexists. constructor; [exact Hg|cbn; lia..|]. by left.
Qed.

End Uri.

End HttpUri.
