(* ===== verification/HttpHdrProps.v ===== *)
(** * Properties of the header parser

    Memory safety and termination on every input, storing and reading back a
    header, and the sanitising of the URI with its limits. *)

From S2P Require Import Prelude Ws Lextable HttpHdr HttpHdrFacts HttpHdrInv HttpUri.

Module HdrProps.
Import Hdr HdrFacts HdrInv HttpUri.

#[local] Opaque lextable lextable_decode states.

Section Props.
Context {ctx : HttpCtx} {ctx_ok : HttpCtxOk ctx}.

(** ** Names *)

(** How feed continues after a byte. *)
Definition continue (rw : Z * hdr) (r : bytes) : option (Z * hdr * bytes) :=
  if nz rw.1 then Some (rw.1, rw.2, r)
  else if parser_state rw.2 =? WSI_PARSING_COMPLETE then Some (0, rw.2, r)
  else feed rw.2 r.

Lemma feed_cons w c r : feed w (c :: r) = rw ← lws_parse w c; continue rw r.
Proof. cbn. by destruct (lws_parse w c) as [[m w']|]. Qed.

(** The connection at another position of the name table. *)
Definition at_lex (w : hdr) (p : Z) : hdr :=
  mkHdr (ah w) (ups w) (ues w) p (current_token_limit w) (esc_stash w)
        (post_literal_equal w) (parser_state w) (hmode w) (hparsing_completed w)
        (ietf_spec_revision w) (http_status w).

(** A name the table recognises leads to its token. *)
Lemma feed_name n r q : forall w p,
  parser_state w = WSI_TOKEN_NAME_PART -> (lextable_pos w, p) ∈ states ->
  terminal (lextable_pos w) = None -> all_u8 q ->
  lex_name (lextable_pos w) q = Some (Known n []) ->
  exists p', feed w (q ++ r) = rw ← known_name (at_lex w p') n; continue rw r.
Proof.
  unfold lex_name. induction q as [|c q IH]; intros w p Hps Hst Hnt Hq Hlex; [done|].
  forall_inv. cbn in Hlex. unfold lex_step in Hlex.
  destruct (decode_state _ p c Hst Hnt H) as (pos' & Hd & Hpos'). rewrite Hd in Hlex. cbn in Hlex.
  destruct Hpos' as [-> |Hst']; [done|]. pose proof (state_pos _ Hst') as Hrange. cbn in Hrange.
  destruct (pos' <? 0) eqn:E; zbool; [lia|].
  assert (Hparse : lws_parse w c =
    (b ← lextable !! Z.to_nat pos';
     if b <? FAIL_CHAR then
       lo ← lextable !! Z.to_nat (pos' + 1);
       known_name (at_lex w pos') ((b .<< 8) .| lo)
     else Some (0, at_lex w pos'))).
  { unfold lws_parse. rewrite Hps. unfold name_part. rewrite Hd. cbn [mbind option_bind].
    change (WSI_TOKEN_NAME_PART =? WSI_TOKEN_NAME_PART) with true. cbv iota.
    rewrite short_small by lia. change (lextable_pos _) with pos' at 1 2.
    rewrite (proj2 (Z.ltb_ge pos' 0)) by lia. done. }
  cbn [app]. rewrite feed_cons, Hparse.
  destruct (terminal pos') as [n'|] eqn:En.
  - injection Hlex as <- ->. exists pos'. cbn [app]. unfold terminal in En.
    destruct (lextable !! Z.to_nat pos') as [b|]; [|done]. cbn [mbind option_bind] in *.
    destruct (b <? FAIL_CHAR); [|done].
    destruct (lextable !! Z.to_nat (pos' + 1)) as [lo|]; [|done]. cbn [mbind option_bind] in *.
    by injection En as ->.
  - destruct (state_inner _ _ Hst' En) as (b & -> & Hb). cbn [mbind option_bind].
    rewrite (proj2 (Z.ltb_ge b FAIL_CHAR)) by done. cbn [mbind option_bind].
    unfold continue. change (nz 0) with false. cbn [fst snd]. change (parser_state (at_lex w pos')) with (parser_state w).
    rewrite Hps. change (WSI_TOKEN_NAME_PART =? WSI_PARSING_COMPLETE) with false. cbv iota.
    destruct (IH (at_lex w pos') _ Hps Hst' En Hq Hlex) as (p' & Hf). exists p'. exact Hf.
Qed.

(** ** Values *)

(** The table [a] with a fragment for token [h] that holds [s]; [z] is what has
    been stored after it (nothing, or the NUL). *)
Definition val (a : allocated_headers) (h : Z) (s z : bytes) : allocated_headers :=
  mkAh (splice (Z.to_nat (pos a)) (s ++ z) (data a))
       (<[Z.to_nat (nfrag a + 1) := mkFrag (pos a) (zlen s) 0]> (frags a))
       (<[Z.to_nat h := nfrag a + 1]> (frag_index a))
       (pos a + zlen (s ++ z)) (nfrag a + 1) (http_response a).

Lemma splice_snoc (i : nat) (s d : bytes) c : (i + length s < length d)%nat ->
  <[(i + length s)%nat := c]> (splice i s d) = splice i (s ++ [c]) d.
Proof.
  intros Hl. destruct (lookup_lt_is_Some_2 d (i + length s)%nat Hl) as [x Hx].
  unfold splice. rewrite insert_app_r_alt by (rewrite length_take; lia).
  f_equal. rewrite length_take. replace (i + length s - i `min` length d)%nat with (length s) by lia.
  rewrite insert_app_r_alt by lia. rewrite Nat.sub_diag, <- app_assoc. f_equal.
  rewrite length_app. cbn [length]. rewrite (drop_S _ _ _ Hx). cbn. do 2 f_equal. lia.
Qed.

Section Value.
Variables (a : allocated_headers) (h : Z).
Hypothesis Ha : AhInv a.
Hypothesis Hroom : nfrag a + 1 < NFRAGS.
Hypothesis Hh : 0 <= h < WSI_TOKEN_COUNT.

Lemma val_upd s z : val a h s z =
  upd_cur (first_frag (new_frag a) h) (splice (Z.to_nat (pos a)) (s ++ z) (data a))
          (pos a + zlen (s ++ z)) (zlen s) (mkFrag (pos a) 0 0).
Proof. unfold val, upd_cur. cbn. by rewrite list_insert_insert_eq. Qed.

Lemma val_start : val a h [] [] = first_frag (new_frag a) h.
Proof. unfold val, first_frag, new_frag. cbn. by rewrite splice_nil, Z.add_0_r. Qed.

Lemma first_cur : get_frag (first_frag (new_frag a) h) (nfrag a + 1) = Some (mkFrag (pos a) 0 0).
Proof.
  change (get_frag (new_frag a) (nfrag a + 1) = Some (mkFrag (pos a) 0 0)).
  pose proof (ai_nfrag _ Ha). rewrite new_frag_get, Z.eqb_refl by (done || lia). done.
Qed.

Lemma first_new_inv : AhInv (first_frag (new_frag a) h).
Proof. by apply first_frag_inv, new_frag_inv. Qed.

Lemma val_data_len s z : pos a + zlen (s ++ z) <= max_http_header_data ->
  zlen (splice (Z.to_nat (pos a)) (s ++ z) (data a)) = max_http_header_data.
Proof.
  intros Hl. pose proof (ai_data _ Ha) as Hd. pose proof (ai_pos _ Ha). unfold zlen in *.
  rewrite length_splice by lia. done.
Qed.

Lemma val_inv s z : pos a + zlen (s ++ z) <= max_http_header_data -> AhInv (val a h s z).
Proof.
  intros Hl. rewrite val_upd. pose proof (ai_nfrag _ Ha). pose proof (zlen_nonneg z).
  pose proof (zlen_nonneg s). rewrite zlen_app in *.
  apply upd_cur_inv; [apply first_new_inv|cbn; lia|apply first_cur|apply val_data_len; rewrite zlen_app; done|
                      done|cbn; lia].
Qed.

Lemma val_frag s z i : 0 <= i -> get_frag (val a h s z) i =
  if i =? nfrag a + 1 then Some (mkFrag (pos a) (zlen s) 0) else get_frag a i.
Proof.
  intros Hi. pose proof (ai_nfrag _ Ha). destruct (get_frag_ok a (nfrag a + 1) Ha) as [g Hg]; [lia|].
  unfold val, get_frag at 1. cbn. apply (get_frag_insert _ _ _ g); [|done|done].
  pose proof (ai_frags _ Ha). lia.
Qed.

Lemma val_index s z h' : 0 <= h' ->
  get_index (val a h s z) h' = if h' =? h then Some (nfrag a + 1) else get_index a h'.
Proof.
  intros Hh'. unfold get_index, val. cbn. destruct (h' =? h) eqn:E; zbool.
  - subst. apply list_lookup_insert_eq. pose proof (ai_index _ Ha). unfold zlen in *. lia.
  - apply list_lookup_insert_ne. lia.
Qed.

(** The connection is collecting the value of [h]. *)
Lemma val_collecting w s z : pos a + zlen (s ++ z) <= max_http_header_data ->
  ah w = val a h s z -> zlen s <= current_token_limit w -> 1 <= current_token_limit w -> Collecting w.
Proof.
  intros Hl He Hs Hlim. pose proof (ai_nfrag _ Ha).
  constructor; rewrite ?He; [by apply val_inv|cbn; lia|done|].
  intros g Hg. change (nfrag (val a h s z)) with (nfrag a + 1) in Hg.
  rewrite val_frag, Z.eqb_refl in Hg by lia. by simplify_eq.
Qed.

(** A character of the value. *)
Lemma issue_val w s c : ah w = val a h s [] -> zlen s < current_token_limit w ->
  pos a + zlen s < max_http_header_data ->
  issue_char w c = Some (0, with_ah w (if c =? 0 then val a h s [0] else val a h (s ++ [c]) [])).
Proof.
  intros He Hlim Hl. pose proof (ai_nfrag _ Ha). pose proof (zlen_nonneg s). pose proof (ai_pos _ Ha) as Hp.
  pose proof (ai_data _ Ha) as Hd.
  assert (Hg : get_frag (ah w) (nfrag (ah w)) = Some (mkFrag (pos a) (zlen s) 0)).
  { rewrite He. change (nfrag (val a h s [])) with (nfrag a + 1). by rewrite val_frag, Z.eqb_refl by lia. }
  rewrite (issue_char_eq w c _) by
    (first [exact Hg|rewrite He; apply val_inv; rewrite app_nil_r; lia|rewrite ?He; cbn; rewrite ?app_nil_r; lia]).
  rewrite He. cbn [f_len]. change (pos (val a h s [])) with (pos a + zlen (s ++ [])). rewrite app_nil_r.
  destruct (pos a + zlen s =? max_http_header_data) eqn:E1; zbool; [lia|].
  destruct (zlen s <? current_token_limit w) eqn:E2; zbool; [|lia].
  do 3 f_equal. unfold upd_cur, val. cbn [nfrag frags frag_index data http_response f_offset f_nfrag].
  rewrite app_nil_r, list_insert_insert_eq.
  replace (Z.to_nat (pos a + zlen s)) with (Z.to_nat (pos a) + length s)%nat by (unfold zlen; lia).
  rewrite splice_snoc by (unfold zlen in *; lia). unfold nz.
  destruct (c =? 0) eqn:E0; zbool; cbn [negb b2z].
  - subst c. rewrite Z.add_0_r. f_equal. rewrite zlen_app. unfold zlen. cbn. lia.
  - rewrite app_nil_r, zlen_app. change (zlen [c]) with 1. f_equal. lia.
Qed.

Hypothesis Hnm : is_method h = false.
Hypothesis Hnc : h <> WSI_TOKEN_CHALLENGE.

Lemma parse_in_value w s c : ah w = val a h s [] -> parser_state w = h ->
  lws_parse w c = if (zlen s =? 0) && (c =? 32) then Some (0, w) else check_eol w c.
Proof.
  intros He Hp. unfold lws_parse. rewrite Hp. pose proof Hh as Hh'. unfold WSI_TOKEN_COUNT in Hh'.
  unfold WSI_TOKEN_NAME_PART, WSI_TOKEN_SKIPPING, WSI_TOKEN_SKIPPING_SAW_CR, WSI_PARSING_COMPLETE.
  repeat (match goal with |- context [h =? ?n] =>
            replace (h =? n) with false by (symmetry; apply Z.eqb_neq; lia) end).
  unfold parse_value. rewrite Hp, He, val_index, Z.eqb_refl by lia. cbn [mbind option_bind].
  pose proof (ai_nfrag _ Ha). rewrite val_frag, Z.eqb_refl by lia. cbn [mbind option_bind f_len].
  rewrite Hnm. done.
Qed.

(** The parts of the connection the value does not change. *)
Definition at_val (w : hdr) (s : bytes) : hdr := with_ah w (val a h s []).

Lemma feed_spaces w k r : parser_state w = h ->
  feed (at_val w []) (replicate k 32 ++ r) = feed (at_val w []) r.
Proof.
  intros Hp. induction k as [|k IH]; [done|]. cbn [replicate app].
  rewrite feed_cons, (parse_in_value _ []) by done.
  change ((zlen (@nil Z) =? 0) && (32 =? 32)) with true. cbn [mbind option_bind]. unfold continue.
  cbn [fst snd]. change (nz 0) with false. change (parser_state (at_val w [])) with (parser_state w).
  rewrite Hp. replace (h =? WSI_PARSING_COMPLETE) with false; [exact IH|].
  symmetry. apply Z.eqb_neq. unfold WSI_TOKEN_COUNT, WSI_PARSING_COMPLETE in *. lia.
Qed.

Lemma feed_chars w r v : forall s, parser_state w = h ->
  Forall (fun c => c <> 0 /\ c <> 13) v -> (s = [] -> head v <> Some 32) ->
  zlen s + zlen v < current_token_limit w -> pos a + zlen s + zlen v < max_http_header_data ->
  feed (at_val w s) (v ++ r) = feed (at_val w (s ++ v)) r.
Proof.
  induction v as [|c v IH]; intros s Hp Hv Hsp Hlim Hmax; [by rewrite app_nil_r|].
  forall_inv. rewrite zlen_cons in *. pose proof (zlen_nonneg v). pose proof (zlen_nonneg s).
  cbn [app]. rewrite feed_cons, (parse_in_value _ s) by done.
  assert (Hns : (zlen s =? 0) && (c =? 32) = false).
  { destruct s as [|x s]; [|by rewrite zlen_cons, (proj2 (Z.eqb_neq _ 0)) by (pose proof (zlen_nonneg s); lia)].
    destruct (c =? 32) eqn:E; zbool; [|by rewrite andb_false_r]. subst. by destruct (Hsp eq_refl). }
  rewrite Hns.
  assert (Hcol : Collecting (at_val w s)).
  { apply (val_collecting _ s []); cbn; try done; rewrite ?app_nil_r; lia. }
  rewrite check_eol_eq by (done || (cbn; congruence)).
  destruct (c =? 13) eqn:E13; zbool; [lia|]. cbn [andb].
  rewrite (issue_val _ s) by (done || cbn; lia). destruct (c =? 0) eqn:E0; zbool; [lia|].
  cbn [mbind option_bind Z.ltb Z.compare]. unfold continue. cbn [fst snd]. change (nz 0) with false.
  change (parser_state _) with (parser_state w). rewrite Hp.
  replace (h =? WSI_PARSING_COMPLETE) with false
    by (symmetry; apply Z.eqb_neq; unfold WSI_TOKEN_COUNT, WSI_PARSING_COMPLETE in *; lia).
  change (feed (at_val w (s ++ [c])) (v ++ r) = feed (at_val w (s ++ c :: v)) r).
  rewrite (IH (s ++ [c])) by
    (done || (intros He; by destruct s) || (rewrite zlen_app; change (zlen [c]) with 1; lia)).
  by rewrite <- app_assoc.
Qed.

(** The connection after the line. *)
Definition after_line (w : hdr) (v : bytes) : hdr :=
  at_lex (with_state (with_ah w (val a h v [0])) WSI_TOKEN_NAME_PART) 0.

Lemma feed_crlf w v r : parser_state w = h -> ues w = URIES_IDLE ->
  zlen v < current_token_limit w -> pos a + zlen v < max_http_header_data ->
  feed (at_val w v) (13 :: 10 :: r) = feed (after_line w v) r.
Proof.
  intros Hp Hues Hlim Hmax. pose proof (zlen_nonneg v).
  rewrite feed_cons, (parse_in_value _ v) by done. rewrite andb_false_r.
  assert (Hcol : Collecting (at_val w v)).
  { apply (val_collecting _ v []); cbn; try done; rewrite ?app_nil_r; lia. }
  rewrite check_eol_eq by (done || (cbn; congruence)).
  rewrite (bool_decide_true (ues (at_val w v) = URIES_IDLE)) by done. cbn [andb negb Z.eqb Pos.eqb].
  rewrite (issue_val _ v) by (done || cbn; lia). cbn [mbind option_bind Z.ltb Z.compare Z.eqb].
  unfold continue at 1. cbn [fst snd]. change (nz 0) with false.
  change (parser_state _) with WSI_TOKEN_SKIPPING_SAW_CR at 1. cbn [Z.gtb Z.compare].
  change (WSI_TOKEN_SKIPPING_SAW_CR =? WSI_PARSING_COMPLETE) with false.
  rewrite feed_cons. unfold lws_parse. cbn [parser_state with_ah with_state].
  change (WSI_TOKEN_SKIPPING_SAW_CR =? WSI_TOKEN_NAME_PART) with false.
  change (WSI_TOKEN_SKIPPING_SAW_CR =? WSI_TOKEN_SKIPPING) with false.
  change (WSI_TOKEN_SKIPPING_SAW_CR =? WSI_TOKEN_SKIPPING_SAW_CR) with true.
  cbn [ues with_ah with_state at_val]. rewrite bool_decide_true by done. done.
Qed.

(** ** Reading the header back *)

Lemma val_cstr v : (0 ∉ v) -> pos a + zlen v < max_http_header_data ->
  cstr_at (val a h v [0]) (pos a) = Some (v ++ [0]).
Proof.
  intros Hnul Hl. unfold cstr_at, val. cbn [data]. pose proof (ai_pos _ Ha). pose proof (ai_data _ Ha) as Hd.
  unfold splice. unfold zlen in *. rewrite drop_app_le by (rewrite length_take; lia).
  rewrite drop_ge by (rewrite length_take; lia). cbn [app]. rewrite <- app_assoc.
  by apply cstr_app.
Qed.

Lemma val_chain v : chain (Z.to_nat NFRAGS) (val a h v [0]) (nfrag a + 1) = Some [mkFrag (pos a) (zlen v) 0].
Proof.
  pose proof (ai_nfrag _ Ha). change (Z.to_nat NFRAGS) with (S 175). cbn [chain].
  rewrite val_frag, Z.eqb_refl by lia. done.
Qed.

Lemma val_total_length v : 0 <= zlen v < max_http_header_data ->
  lws_hdr_total_length (val a h v [0]) h = Some (zlen v).
Proof.
  intros Hl. pose proof max_ok. pose proof (ai_nfrag _ Ha). unfold lws_hdr_total_length.
  rewrite val_index, Z.eqb_refl by lia. cbn [mbind option_bind].
  rewrite (proj2 (Z.eqb_neq _ 0)) by lia. rewrite val_chain. cbn. f_equal. unfold s32, swrap.
  rewrite Z.mod_small; lia.
Qed.

Lemma copy_val v dst len : (0 ∉ v) -> pos a + zlen v < max_http_header_data -> zlen v < len <= zlen dst ->
  lws_hdr_copy (val a h v [0]) dst len h = Some (zlen v, splice 0 (v ++ [0]) dst).
Proof.
  intros Hnul Hl Hdst. pose proof (ai_pos _ Ha). pose proof (zlen_nonneg v). pose proof (ai_nfrag _ Ha).
  unfold lws_hdr_copy. rewrite val_total_length by lia. cbn [mbind option_bind].
  destruct (zlen v >=? len) eqn:E; zbool; [lia|].
  rewrite val_index, Z.eqb_refl by lia. cbn [mbind option_bind].
  rewrite (proj2 (Z.eqb_neq _ 0)) by lia. rewrite val_chain. cbn [mbind option_bind copy_loop f_offset].
  rewrite val_cstr by done. cbn [mbind option_bind]. unfold store. rewrite zlen_app. change (zlen [0]) with 1.
  rewrite (proj2 (Z.leb_le (0 + (zlen v + 1)) _)) by lia. done.
Qed.

(** The other headers read as before. *)
Lemma chain_val v : forall fuel n, 1 <= n <= nfrag a -> chain fuel (val a h v [0]) n = chain fuel a n.
Proof.
  induction fuel as [|fuel IH]; intros n Hn; [done|]. cbn [chain]. rewrite val_frag by lia.
  rewrite (proj2 (Z.eqb_neq _ _)) by lia. destruct (inv_links a Ha n Hn) as (f & Hf & Hlink). rewrite Hf.
  cbn [mbind option_bind]. destruct (f_nfrag f =? 0) eqn:E; zbool; [done|]. by rewrite IH by lia.
Qed.

Lemma cstr_take (l l' : bytes) : forall n j, take n l' = take n l -> (j < n)%nat -> l !! j = Some 0 -> cstr l' = cstr l.
Proof.
  revert l'. induction l as [|c l IH]; intros l' n j Ht Hj Hz; [done|].
  destruct n as [|n]; [lia|]. destruct l' as [|c' l']; [done|]. cbn in Ht. injection Ht as -> Ht.
  cbn. destruct (c =? 0) eqn:E; [done|]. destruct j as [|j]; [cbn in Hz; simplify_eq; zbool; done|].
  by rewrite (IH l' n j) by (done || lia).
Qed.

Lemma val_cstr_other v i f : AllTerm a -> 1 <= i <= nfrag a -> get_frag a i = Some f ->
  cstr_at (val a h v [0]) (f_offset f) = cstr_at a (f_offset f).
Proof.
  intros Ht Hi Hf. destruct (Ht i Hi f Hf) as (j & Hj & Hz). destruct (ai_frag a Ha i f Hi Hf).
  pose proof (ai_pos _ Ha). pose proof (ai_data _ Ha) as Hd. unfold cstr_at, val. cbn [data].
  apply (cstr_take _ _ (Z.to_nat (pos a) - Z.to_nat (f_offset f)) (Z.to_nat j - Z.to_nat (f_offset f))); [|lia|].
  - rewrite <- !skipn_firstn_comm. unfold splice. rewrite take_app_le; [by rewrite take_take, Nat.min_id|].
    rewrite length_take. unfold zlen in Hd. lia.
  - rewrite lookup_drop, <- Hz. f_equal. lia.
Qed.

Lemma copy_other v dst len h' : AllTerm a -> 0 <= h' < WSI_TOKEN_COUNT -> h' <> h ->
  lws_hdr_copy (val a h v [0]) dst len h' = lws_hdr_copy a dst len h'.
Proof.
  intros Ht Hh' Hne. unfold lws_hdr_copy, lws_hdr_total_length. rewrite val_index by lia.
  rewrite (proj2 (Z.eqb_neq _ _)) by done.
  destruct (ok_some _ _ (get_index_ok a h' Ha Hh')) as (n & -> & Hn). cbn [mbind option_bind].
  destruct (n =? 0) eqn:E; zbool; [done|]. rewrite chain_val by lia. pose proof (ai_nfrag _ Ha).
  destruct (ok_some _ _ (chain_ok a (nfrag a) (inv_links a Ha) (Z.to_nat NFRAGS) n ltac:(lia)
              ltac:(unfold NFRAGS in *; lia))) as (fs & -> & (_ & f & fs' & _ & _ & Hall)).
  cbn [mbind option_bind]. destruct (_ >=? len); [done|].
  assert (Hcopy : forall d i, copy_loop (val a h v [0]) fs d i = copy_loop a fs d i).
  { clear E Hn. induction fs as [|x fs IH]; intros d i; [done|]. apply Forall_cons in Hall as [(k & Hk & Hx) Hall].
    cbn [copy_loop]. rewrite (val_cstr_other v k x) by done. destruct (cstr_at a (f_offset x)) as [b|]; [|done].
    cbn [mbind option_bind]. destruct (store d i b); [|done]. cbn [mbind option_bind]. by apply IH. }
  by rewrite Hcopy.
Qed.

End Value.

(** ** The token just recognised *)

Definition limit_of (n : Z) : option Z :=
  match token_limits with
  | Some l => l !! Z.to_nat n
  | None => Some max_http_header_data
  end.

Definition begin_value (w : hdr) (n lim : Z) : hdr :=
  mkHdr (ah w) (ups w) (ues w) (lextable_pos w) lim (esc_stash w)
        (post_literal_equal w) n (hmode w) (hparsing_completed w)
        (ietf_spec_revision w) (http_status w).

Lemma start_fragment_first w : AhInv (ah w) -> nfrag (ah w) + 1 < NFRAGS ->
  0 <= parser_state w < WSI_TOKEN_COUNT -> get_index (ah w) (parser_state w) = Some 0 ->
  start_fragment w = Some (0, with_ah w (val (ah w) (parser_state w) [] [])).
Proof.
  intros Ha Hn Hp Hi. rewrite val_start. pose proof (ai_nfrag _ Ha).
  assert (Hs : start_fragment w = excessive (with_ah w (next_nfrag (ah w)))).
  { rewrite <- next_nfrag_eq by done. by destruct w. }
  rewrite Hs. unfold excessive. change (ah (with_ah w (next_nfrag (ah w)))) with (next_nfrag (ah w)).
  change (nfrag (next_nfrag (ah w))) with (nfrag (ah w) + 1).
  change (pos (next_nfrag (ah w))) with (pos (ah w)).
  rewrite (proj2 (Z.eqb_neq _ _)) by lia. rewrite set_frag_new by done. cbn [mbind option_bind].
  change (get_index (new_frag (ah w)) _) with (get_index (ah w) (parser_state w)). rewrite Hi.
  cbn [mbind option_bind Z.eqb].
  change (set_index _ _ _) with (set_index (new_frag (ah w)) (parser_state w) (nfrag (new_frag (ah w)))).
  rewrite (set_index_first (new_frag (ah w)) (parser_state w)) by (done || by apply new_frag_inv). done.
Qed.

Lemma known_name_first w n lim : AhInv (ah w) -> nfrag (ah w) + 1 < NFRAGS -> 0 <= n < 82 ->
  is_method n = false -> n <> WSI_TOKEN_CHALLENGE -> n <> WSI_TOKEN_SWORIGIN ->
  get_index (ah w) n = Some 0 -> limit_of n = Some lim ->
  known_name w n = Some (0, with_ah (begin_value w n lim) (val (ah w) n [] [])).
Proof.
  intros Ha Hr Hn Hm Hc Hs Hi Hl. unfold known_name. rewrite Hm. cbn [mbind option_bind].
  rewrite (proj2 (Z.eqb_neq n WSI_TOKEN_SWORIGIN)) by done.
  assert (Hu : u8 (WSI_TOKEN_GET_URI + n) = n) by (apply u8_small; unfold is_u8, WSI_TOKEN_GET_URI; lia).
  rewrite Hu. change (match token_limits with Some l => _ | None => _ end) with (limit_of n).
  rewrite Hl. cbn [mbind option_bind].
  change (parser_state _) with n. rewrite (proj2 (Z.eqb_neq n WSI_TOKEN_CHALLENGE)) by done.
  apply (start_fragment_first (begin_value w n lim)); cbn; try done. unfold WSI_TOKEN_COUNT. lia.
Qed.

(** ** Theorems *)

(** The connection at the start of a request or of a response: the table is reset. *)
Record RequestStart (w : hdr) : Prop := {
  rs_data : zlen (data (ah w)) = max_http_header_data;
  rs_frags : zlen (frags (ah w)) = NFRAGS;
  rs_reset : ah w = _lws_header_table_reset (ah w);
  rs_state : parser_state w = WSI_TOKEN_NAME_PART;
  rs_pos : lextable_pos w = 0
}.

Lemma request_start_inv w : RequestStart w -> HdrInv w.
Proof.
  intros [Hd Hf Hr Hs Hp]. destruct (reset_inv (ah w) Hd Hf) as [Hi Ht]. rewrite <- Hr in Hi, Ht.
  right. constructor; [by rewrite Hs|done..|]. intros _. rewrite Hp.
  split; [apply start_not_terminal|]. exists []. apply states_start.
Qed.

(** C17: memory safety of the header parser.  From a reset table, whatever bytes the
    peer sends, lws_parse never reads or writes outside of the header data, of the
    fragment array, of the index or of the name table, never fails an assert and
    each of its loops ends: feeding the bytes returns 0, -1 or 2, and after 0 the
    invariant of the table and of the parser holds again. *)
Theorem header_parser_safe w s :
  RequestStart w -> all_u8 s ->
  exists r w' rest, feed w s = Some (r, w', rest) /\ (r = 0 \/ r = -1 \/ r = 2) /\
    (r = 0 -> HdrInv w').
Proof.
  intros Hw Hs. destruct (ok_some _ _ (feed_ok s w (request_start_inv w Hw) Hs)) as ([[r w'] rest] & He & Hr).
  exists r, w', rest. split; [done|]. cbn in Hr. destruct Hr as [(-> & Hi)|[-> | ->]]; auto; (split; [auto|done]).
Qed.

Lemma hdr_inv_ah w : HdrInv w -> AhInv (ah w).
Proof. intros [[_ _ Hc _]|[_ Ha _ _]]; [apply Hc|done]. Qed.

Lemma fragment_length_ok a : AhInv a -> forall fuel n k, 1 <= n <= nfrag a ->
  nfrag a - n < Z.of_nat fuel -> ok (fragment_length_loop fuel a n k) (fun l => 0 <= l <= pos a).
Proof.
  intros Ha. pose proof (ai_pos _ Ha). induction fuel as [|fuel IH]; intros n k Hn Hf; [lia|].
  cbn [fragment_length_loop]. destruct (inv_links a Ha n Hn) as (f & Hg & Hl). rewrite Hg. cbn [mbind option_bind].
  destruct (ai_frag a Ha n f Hn Hg). destruct (k =? 0); [cbn; lia|].
  destruct (f_nfrag f =? 0) eqn:E; zbool; cbn [negb]; [cbn; lia|]. apply IH; lia.
Qed.

(** Termination of the walks over a header.  In every state the parser reaches,
    for every token and every fragment number, the loops of lws_hdr_total_length and
    lws_hdr_fragment_length end, and the length of a fragment is within the data
    stored so far. *)
Lemma header_walks_end w h k :
  HdrInv w -> 0 <= h < WSI_TOKEN_COUNT ->
  (exists n, lws_hdr_total_length (ah w) h = Some n) /\
  (exists n, lws_hdr_fragment_length (ah w) h k = Some n /\ 0 <= n <= pos (ah w)).
Proof.
  intros Hw Hh. pose proof (hdr_inv_ah w Hw) as Ha. pose proof (ai_nfrag _ Ha). pose proof (ai_pos _ Ha). split.
  - destruct (ok_some _ _ (hdr_total_length_ok (ah w) h Ha Hh)) as (n & Hn & _). by exists n.
  - apply ok_some. unfold lws_hdr_fragment_length.
    eapply ok_bind; [by apply get_index_ok|]. intros n Hn. cbn in Hn.
    destruct (n =? 0) eqn:E; zbool; [cbn; lia|].
    apply fragment_length_ok; [done|lia|]. unfold NFRAGS in *. lia.
Qed.

(** A header line with a name that has not been seen. *)
Record LineOk (w : hdr) (n lim : Z) (q v : bytes) : Prop := {
  lo_state : parser_state w = WSI_TOKEN_NAME_PART;
  lo_pos : lextable_pos w = 0;
  lo_ues : ues w = URIES_IDLE;
  lo_name : Name n q;
  lo_method : is_method n = false;
  lo_challenge : n <> WSI_TOKEN_CHALLENGE;
  lo_sworigin : n <> WSI_TOKEN_SWORIGIN;
  lo_first : get_index (ah w) n = Some 0;
  lo_room : nfrag (ah w) + 1 < NFRAGS;
  lo_q : all_u8 q;
  lo_v : all_u8 v;
  lo_plain : Forall (fun c => c <> 0 /\ c <> 13) v;
  lo_head : head v <> Some 32;
  lo_limit : limit_of n = Some lim;
  lo_len : zlen v < lim;
  lo_max : pos (ah w) + zlen v < max_http_header_data
}.

Definition line_text (q : bytes) (k : nat) (v : bytes) : bytes := q ++ replicate k 32 ++ v ++ [13; 10].

(** The connection after the line. *)
Definition next_line (w : hdr) (n lim : Z) (v : bytes) : hdr := after_line (ah w) n (begin_value w n lim) v.

Lemma feed_line w n lim q k v r : NameState w -> LineOk w n lim q v ->
  feed w (line_text q k v ++ r) = feed (next_line w n lim v) r.
Proof.
  intros Hw [Hps Hlp Hues Hname Hm Hc Hs Hi Hroom Hq Hv8 Hv Hsp Hlim Hvl Hmax].
  apply name_lower in Hname as [Hn Hset]. pose proof (ns_inv _ Hw) as Ha.
  assert (Hh : 0 <= n < WSI_TOKEN_COUNT) by (unfold WSI_TOKEN_COUNT; lia).
  pose proof (zlen_nonneg v) as Hv0.
  assert (Hlex : lex_name 0 q = Some (Known n [])) by (apply lex_of_set; [done|lia|done]).
  unfold line_text. rewrite <- !app_assoc. cbn [app].
  destruct (feed_name n (replicate k 32 ++ v ++ 13 :: 10 :: r) q w []) as (p & Hf); try done;
    rewrite ?Hlp; try done; [apply states_start|].
  set (wv := begin_value (at_lex w p) n lim).
  rewrite Hf, (known_name_first _ n lim) by done. cbn [mbind option_bind]. unfold continue. cbn [fst snd].
  change (nz 0) with false. change (parser_state _) with n.
  rewrite (proj2 (Z.eqb_neq n WSI_PARSING_COMPLETE)) by (unfold WSI_PARSING_COMPLETE; lia).
  change (with_ah (begin_value (at_lex w p) n lim) (val (ah (at_lex w p)) n [] []))
    with (at_val (ah w) n wv []).
  rewrite feed_spaces by done.
  rewrite (feed_chars (ah w) n) by (done || (change (zlen (@nil Z)) with 0; cbn; lia)).
  cbn [app]. by rewrite feed_crlf by done.
Qed.

Lemma line_name w n lim q v : NameState w -> LineOk w n lim q v -> NameState (next_line w n lim v).
Proof.
  intros Hw Hl. assert (Hfeed : feed w (line_text q 0 v) = Some (0, next_line w n lim v, [])).
  { rewrite <- (app_nil_r (line_text q 0 v)). by rewrite (feed_line w n lim) by done. }
  assert (Hall : all_u8 (line_text q 0 v)).
  { unfold line_text. rewrite !all_u8_app. split_and!; [apply Hl|done|apply Hl|by repeat constructor]. }
  pose proof (feed_ok _ w (or_intror Hw) Hall) as Hok. rewrite Hfeed in Hok. cbn in Hok.
  destruct Hok as [(_ & [Hval|Hname])|[?|?]]; try done. by destruct (vs_token _ Hval).
Qed.

(** C18: a header stored is read back.  At the start of a line, the name of a header
    (in any case) that has not been seen, spaces, a value without NUL or carriage
    return and the end of line are accepted; lws_hdr_copy then gives exactly the
    value, and reads every other header as before. *)
Theorem header_roundtrip w n lim q k v : NameState w -> LineOk w n lim q v ->
  exists w', feed w (line_text q k v) = Some (0, w', []) /\
    parser_state w' = WSI_TOKEN_NAME_PART /\ lextable_pos w' = 0 /\ NameState w' /\
    (forall dst len, zlen v < len <= zlen dst ->
       lws_hdr_copy (ah w') dst len n = Some (zlen v, splice 0 (v ++ [0]) dst)) /\
    (forall h dst len, 0 <= h < WSI_TOKEN_COUNT -> h <> n ->
       lws_hdr_copy (ah w') dst len h = lws_hdr_copy (ah w) dst len h).
Proof.
  intros Hw Hl. exists (next_line w n lim v). pose proof (line_name w n lim q v Hw Hl) as Hw'.
  pose proof (ns_inv _ Hw) as Ha. pose proof (ns_term _ Hw) as Ht.
  assert (Hh : 0 <= n < WSI_TOKEN_COUNT) by (pose proof (lo_name _ _ _ _ _ Hl) as [? _]%name_lower; unfold WSI_TOKEN_COUNT; lia).
  split_and!; try done.
  - rewrite <- (app_nil_r (line_text q k v)). by rewrite (feed_line w n lim) by done.
  - intros dst len Hlen. apply copy_val; try done; try apply Hl. intros Hin. pose proof (lo_plain _ _ _ _ _ Hl) as Hv.
    rewrite Forall_forall in Hv. by destruct (Hv 0 Hin).
  - intros h dst len Hhr Hne. apply copy_other; try done; apply Hl.
Qed.

(** C19: the sanitising of the URI. The parser is at the start of the URI, behind a method's
    name; no token limits are configured and no header line uri-args came before the request
    line. A URI in which no byte (plain or %xx) stands for a NUL or a carriage return, ended
    by a space and accepted, is stored as a C string that contains no "/../" and does not
    end in "/..". (The lemma [uri_sanitising_gaps] has the others.) *)
Theorem uri_sanitised w t w' :
  HdrInv w -> is_method (parser_state w) = true -> ups w = URIPS_IDLE -> ues w = URIES_IDLE ->
  current_token_limit w = max_http_header_data ->
  get_index (ah w) (parser_state w) = Some (nfrag (ah w)) ->
  get_frag (ah w) (nfrag (ah w)) = Some (mkFrag (pos (ah w)) 0 0) ->
  get_index (ah w) WSI_TOKEN_HTTP_URI_ARGS = Some 0 ->
  all_u8 t -> (32 ∉ t) -> printable t ->
  feed w (t ++ [32]) = Some (0, w', []) -> parser_state w' = WSI_TOKEN_HTTP ->
  exists s, lws_hdr_simple_ptr (ah w') (parser_state w) = Some (pos (ah w)) /\
    cstr_at (ah w') (pos (ah w)) = Some (s ++ [0]) /\
    ~ infix (bstr "/../") s /\ ~ suffix (bstr "/..") s.
Proof.
  intros Hw Hm Hups Hues Hlim Hi Hg Hargs Ht Hsp Hpr Hf Hst.
  pose proof (uri_start w Hw Hm Hups Hlim Hi Hg Hargs) as Hp.
  destruct (uri_feed (pos (ah w)) t w w') as (w1 & Hu1 & Hps & Hlast); try done;
    [by left|unfold EscOk; by rewrite Hues|unfold pend; by rewrite Hues|].
  destruct (parse_space _ w1 w' Hu1 Hlast Hst) as (_ & (i & f & Hx & Hir & Hf' & Ho) & (o & Hseal)).
  destruct (sealed_cstr _ _ _ Hseal) as (s & Hs & Hcl & _). apply clean_inv in Hcl as [H1 H2].
  exists s. split_and!; try done. rewrite Hps in Hx. unfold lws_hdr_simple_ptr. rewrite Hx.
  cbn [mbind option_bind]. destruct (i =? 0) eqn:E; zbool; [lia|].
  rewrite Hf'. cbn. by rewrite Ho.
Qed.

(** malformed escapes.  Inside a URI, a '%' followed by a byte that is not a
    hexadecimal digit, or by one digit and such a byte, is refused: lws_parse
    returns -1 and a 403 response is asked for. *)
Lemma bad_escape_refused w h c :
  HdrInv w -> is_method (parser_state w) = true -> ues w = URIES_IDLE -> is_u8 h -> is_u8 c ->
  h <> 32 -> c <> 32 -> 0 <= char_to_hex (s8 h) -> char_to_hex (s8 c) < 0 ->
  exists w1 w2, feed w [37; c] = Some (-1, w1, []) /\ http_status w1 = Some 403 /\
    feed w [37; h; c] = Some (-1, w2, []) /\ http_status w2 = Some 403.
Proof.
  intros Hw Hm Hues Hh8 Hc8 Hh Hc Hhex Hbad.
  assert (Hcol : Collecting w).
  { destruct Hw as [[]|[Hs _ _ _]]; [done|]. pose proof (methods_range _ Hm).
    unfold WSI_TOKEN_COUNT, WSI_TOKEN_NAME_PART in *. lia. }
  assert (Hps : (parser_state w =? WSI_PARSING_COMPLETE) = false).
  { apply Z.eqb_neq. pose proof (methods_range _ Hm). unfold WSI_TOKEN_COUNT, WSI_PARSING_COMPLETE in *. lia. }
  assert (H1 : lws_parse w 37 = Some (0, w {{ ues := URIES_SEEN_PERCENT }})).
  { destruct (parse_method w 37 Hcol Hm) as [f ->]. rewrite andb_false_r. unfold uri_escape. rewrite Hues.
    cbn -[swallow]. by rewrite swallow_other by (by apply (not_challenge w)). }
  set (wp := w {{ ues := URIES_SEEN_PERCENT }}) in *.
  assert (Hcol1 : Collecting wp) by (by apply (collecting_ext w)).
  assert (Hf1 : forall r, feed w (37 :: r) = feed wp r).
  { intros r. rewrite feed_cons, H1. cbn [mbind option_bind]. unfold continue. cbn [fst snd].
    change (nz 0) with false. change (parser_state wp) with (parser_state w). by rewrite Hps. }
  assert (H2 : lws_parse wp h = Some (0, wp {{ esc_stash := s8 h; ues := URIES_SEEN_PERCENT_H1 }})).
  { destruct (parse_method wp h Hcol1 Hm) as [f ->]. rewrite (proj2 (Z.eqb_neq h 32)), andb_false_r by done.
    unfold uri_escape. cbn [ues wp]. rewrite (proj2 (Z.ltb_ge _ 0)) by done.
    cbn -[swallow]. by rewrite swallow_other by (by apply (not_challenge w)). }
  set (wh := wp {{ esc_stash := s8 h; ues := URIES_SEEN_PERCENT_H1 }}) in *.
  assert (Hcol2 : Collecting wh) by (by apply (collecting_ext w)).
  assert (Hf2 : forall r, feed wp (h :: r) = feed wh r).
  { intros r. rewrite feed_cons, H2. cbn [mbind option_bind]. unfold continue. cbn [fst snd].
    change (nz 0) with false. change (parser_state wh) with (parser_state w). by rewrite Hps. }
  assert (Hrefuse : forall w', Collecting w' -> parser_state w' = parser_state w -> ues w' <> URIES_IDLE ->
    feed w' [c] = Some (-1, w' {{ http_status := Some 403 }}, [])).
  { intros w' Hc' Hp' Hu'. rewrite feed_cons. destruct (parse_method w' c Hc') as [f ->]; [by rewrite Hp'|].
    rewrite (proj2 (Z.eqb_neq c 32)), andb_false_r by done. unfold uri_escape.
    rewrite (proj2 (Z.ltb_lt _ 0)) by done. by destruct (ues w'). }
  rewrite !Hf1, Hf2. rewrite (Hrefuse wp), (Hrefuse wh) by done. by eexists _, _.
Qed.

Lemma nth_frag_ok a : AhInv a -> forall k n, 1 <= n <= nfrag a ->
  ok (nth_frag k a n) (fun i => 0 <= i <= nfrag a).
Proof.
  intros Ha. induction k as [|k IH]; intros n Hn; [cbn; lia|]. cbn [nth_frag].
  destruct (inv_links a Ha n Hn) as (f & -> & Hl). cbn [mbind option_bind].
  destruct (f_nfrag f =? 0) eqn:E; zbool; [cbn; lia|]. apply IH. lia.
Qed.

(** Bounds of the fragment copy.  In every state the parser reaches, for every
    token and fragment number, lws_hdr_copy_fragment either fails and leaves the
    caller's buffer alone, or stores the bytes of one fragment and a NUL, fewer than
    [len] bytes in all counting the bytes only, at the start of the buffer. *)
Lemma copy_fragment_bounds w h k dst len :
  HdrInv w -> 0 <= h < WSI_TOKEN_COUNT -> len <= zlen dst ->
  exists r dst', lws_hdr_copy_fragment (ah w) dst len h k = Some (r, dst') /\
    ((r = -1 /\ dst' = dst) \/
     exists i f, get_frag (ah w) i = Some f /\ r = f_len f /\ 0 <= r < len /\
       dst' = splice 0 (take (Z.to_nat r) (drop (Z.to_nat (f_offset f)) (data (ah w))) ++ [0]) dst).
Proof.
  intros Hw Hh Hlen. pose proof (hdr_inv_ah w Hw) as Ha. pose proof (ai_nfrag _ Ha). pose proof (ai_pos _ Ha).
  pose proof (ai_data _ Ha) as Hd. unfold lws_hdr_copy_fragment.
  destruct (ok_some _ _ (get_index_ok (ah w) h Ha Hh)) as (n & -> & Hn). cbn [mbind option_bind].
  destruct (n =? 0) eqn:E; zbool; [by eexists _, _; split; [|left]|].
  destruct (ok_some _ _ (nth_frag_ok (ah w) Ha (Z.to_nat k) n ltac:(lia))) as (i & -> & Hi).
  cbn [mbind option_bind]. destruct (i =? 0) eqn:E2; zbool; [by eexists _, _; split; [|left]|].
  destruct (get_frag_ok (ah w) i Ha) as [f Hf]; [lia|]. rewrite Hf. cbn [mbind option_bind].
  destruct (ai_frag _ Ha i f ltac:(lia) Hf).
  destruct (f_len f >=? len) eqn:E3; zbool; [by eexists _, _; split; [|left]|].
  unfold slice. rewrite Hd. rewrite !(proj2 (Z.leb_le _ _)) by lia. cbn [andb mbind option_bind].
  set (src := take _ _).
  assert (Hsrc : zlen src = f_len f).
  { unfold src, zlen in *. rewrite length_take, length_drop. lia. }
  unfold store. rewrite Hsrc, !(proj2 (Z.leb_le _ _)) by lia. cbn [andb mbind option_bind].
  assert (Hs0 : zlen (splice (Z.to_nat 0) src dst) = zlen dst).
  { unfold zlen in *. rewrite length_splice; lia. }
  rewrite Hs0. change (zlen [0]) with 1. rewrite !(proj2 (Z.leb_le _ _)) by lia. cbn [andb mbind option_bind].
  eexists _, _. split; [done|]. right. exists i, f. split_and!; try done; try lia.
  fold src. unfold splice. change (Z.to_nat 0) with 0%nat. rewrite !take_0. cbn [app Nat.add].
  unfold zlen in *. replace (Z.to_nat (f_len f)) with (length src) by lia.
  rewrite take_app_length, drop_app_ge by (cbn; lia). rewrite <- app_assoc. cbn [app]. do 2 f_equal.
  rewrite drop_drop. f_equal. rewrite length_app. cbn. lia.
Qed.

End Props.
(** ** A concrete server *)

Definition demo_ctx : HttpCtx :=
  {| max_http_header_data := 200; token_limits := None; fallback_to_raw := false |}.

#[local] Instance demo_ctx_ok : HttpCtxOk demo_ctx.
Proof. constructor; [cbn; lia|done]. Qed.

Definition demo_w : hdr :=
  mkHdr (mkAh (replicate 200 0) (replicate 176 (mkFrag 0 0 0)) (replicate 88 0) 0 0 0)
        URIPS_IDLE URIES_IDLE 0 0 0 0 WSI_TOKEN_NAME_PART LWSCM_HTTP_SERVING false 0 None.

Lemma demo_start : RequestStart (ctx := demo_ctx) demo_w.
Proof. by constructor. Qed.

Definition crlf : bytes := [13; 10].

(** The state after some bytes. *)
Definition demo_after (s : bytes) : hdr :=
  match feed (ctx := demo_ctx) demo_w s with
  | Some (_, w, _) => w
  | None => demo_w
  end.

Definition accepted (s : bytes) : bool :=
  match feed (ctx := demo_ctx) demo_w s with
  | Some (r, _, _) => r =? 0
  | None => false
  end.

Lemma demo_after_inv s : all_u8 s -> accepted s = true -> HdrInv (ctx := demo_ctx) (demo_after s).
Proof.
  intros Hs Hacc. unfold accepted, demo_after in *.
  pose proof (feed_ok (ctx := demo_ctx) s demo_w
    (request_start_inv (ctx := demo_ctx) demo_w demo_start) Hs) as Hok.
  destruct (feed demo_w s) as [[[r w] rest]|]; [|done]. zbool. cbn in Hok. subst.
  by destruct Hok as [[_ ?]|[?|?]].
Qed.

Lemma header_parser_safe_witness :
  exists r w' rest, feed (ctx := demo_ctx) demo_w (bstr "GET /%zz") = Some (r, w', rest) /\
    (r = 0 \/ r = -1 \/ r = 2) /\ (r = 0 -> HdrInv (ctx := demo_ctx) w').
Proof. exact (header_parser_safe (ctx := demo_ctx) demo_w _ demo_start (bstr_u8 _)). Defined.

Definition demo_line : bytes := bstr "GET /a HTTP/1.1" ++ crlf.

Lemma demo_line_u8 : all_u8 demo_line.
Proof. apply all_u8_app. split; [apply bstr_u8|]. by repeat constructor. Qed.

Lemma header_walks_end_witness :
  (exists n, lws_hdr_total_length (ah (demo_after demo_line)) 0 = Some n) /\
  (exists n, lws_hdr_fragment_length (ah (demo_after demo_line)) 0 5 = Some n /\
             0 <= n <= pos (ah (demo_after demo_line))).
Proof.
  apply (header_walks_end (ctx := demo_ctx)); [|done].
  apply demo_after_inv; [apply demo_line_u8|vm_compute; reflexivity].
Defined.

Lemma copy_fragment_bounds_witness :
  exists r dst', lws_hdr_copy_fragment (ah (demo_after demo_line)) (replicate 10 7) 10 0 0 = Some (r, dst') /\
    ((r = -1 /\ dst' = replicate 10 7) \/
     exists i f, get_frag (ah (demo_after demo_line)) i = Some f /\ r = f_len f /\ 0 <= r < 10 /\
       dst' = splice 0 (take (Z.to_nat r) (drop (Z.to_nat (f_offset f))
                (data (ah (demo_after demo_line)))) ++ [0]) (replicate 10 7)).
Proof.
  apply (copy_fragment_bounds (ctx := demo_ctx)); [|done|vm_compute; discriminate].
  apply demo_after_inv; [apply demo_line_u8|vm_compute; reflexivity].
Defined.

Lemma demo_line_name : NameState (ctx := demo_ctx) (demo_after demo_line).
Proof.
  destruct (demo_after_inv demo_line demo_line_u8) as [Hv|Hn]; [vm_compute; reflexivity| |done].
  destruct (vs_token _ Hv) as [_ H]. vm_compute in H. done.
Qed.

Lemma demo_host_line : LineOk (ctx := demo_ctx) (demo_after demo_line) 3 200 (bstr "HOST:") (bstr "example.com").
Proof.
  constructor; try (vm_compute; reflexivity); try discriminate; try apply bstr_u8.
  - apply name_lower. split; [lia|reflexivity].
  - by repeat constructor.
Qed.

Lemma header_roundtrip_witness :
  exists w', feed (ctx := demo_ctx) (demo_after demo_line) (line_text (bstr "HOST:") 2 (bstr "example.com")) = Some (0, w', []) /\
    lws_hdr_copy (ah w') (replicate 20 7) 20 3 =
      Some (11, splice 0 (bstr "example.com" ++ [0]) (replicate 20 7)).
Proof.
  destruct (header_roundtrip (ctx := demo_ctx) (demo_after demo_line) 3 200 (bstr "HOST:") 2
              (bstr "example.com")) as (w' & Hf & _ & _ & _ & Hc & _); [apply demo_line_name|apply demo_host_line|].
  exists w'. split; [exact Hf|]. apply (Hc (replicate 20 7) 20). clear. split; vm_compute; [reflexivity|discriminate].
Defined.

Lemma uri_sanitised_witness :
  exists s, lws_hdr_simple_ptr (ah (demo_after (bstr "GET /a/%2e./../b?x=/../ "))) 0 = Some 0 /\
    cstr_at (ah (demo_after (bstr "GET /a/%2e./../b?x=/../ "))) 0 = Some (s ++ [0]) /\
    ~ infix (bstr "/../") s /\ ~ suffix (bstr "/..") s.
Proof.
  apply (uri_sanitised (ctx := demo_ctx) (demo_after (bstr "GET "))
           (bstr "/a/%2e./../b?x=/../") (demo_after (bstr "GET /a/%2e./../b?x=/../ ")));
    try (vm_compute; reflexivity).
  - apply demo_after_inv; [apply bstr_u8|vm_compute; reflexivity].
  - apply bstr_u8.
  - apply (bool_decide_unpack _). by vm_compute.
  - apply (bool_decide_unpack _). by vm_compute.
Defined.

Lemma bad_escape_refused_witness :
  exists w1 w2, feed (ctx := demo_ctx) (demo_after (bstr "GET /")) (bstr "%g") = Some (-1, w1, []) /\
    http_status w1 = Some 403 /\
    feed (ctx := demo_ctx) (demo_after (bstr "GET /")) (bstr "%1g") = Some (-1, w2, []) /\
    http_status w2 = Some 403.
Proof.
  apply (bad_escape_refused (ctx := demo_ctx) (demo_after (bstr "GET /")) 49 103);
    try (vm_compute; (reflexivity || discriminate || (split; (reflexivity || discriminate)))).
  apply demo_after_inv; [apply bstr_u8|vm_compute; reflexivity].
Defined.

(** ** Where the sanitising fails *)

(** The URI of a GET request as the server sees it: the C string at the pointer
    lws_hdr_simple_ptr gives. *)
Definition get_uri (s : bytes) : option bytes :=
  if accepted s then
    p ← lws_hdr_simple_ptr (ah (demo_after s)) WSI_TOKEN_GET_URI;
    cstr_at (ah (demo_after s)) p
  else None.

(** The limits of the sanitising.  A header line "uri-args" (a name meant for
    internal storage) before the request line switches it off altogether; an escaped
    carriage return, an unescaped one and an escaped NUL after "/.." each leave a URI
    that ends in "/.."; and "/..?" at the root loses the question mark, so that the
    arguments become part of the path. *)
Lemma uri_sanitising_gaps :
  get_uri (bstr "uri-args x" ++ crlf ++ bstr "GET /../../etc/passwd HTTP/1.1" ++ crlf ++ crlf)
    = Some (bstr "/../../etc/passwd" ++ [0]) /\
  get_uri (bstr "GET /a/..%0d HTTP/1.1" ++ crlf ++ crlf) = Some (bstr "/a/.." ++ [0]) /\
  get_uri (bstr "GET /a/.." ++ crlf ++ crlf) = Some (bstr "/a/.." ++ [0]) /\
  get_uri (bstr "GET /a/..%00 HTTP/1.1" ++ crlf ++ crlf) = Some (bstr "/a/.." ++ [0]) /\
  get_uri (bstr "GET /..?x=1 HTTP/1.1" ++ crlf ++ crlf) = Some (bstr "/x=1" ++ [0]).
Proof. vm_compute. split_and!; reflexivity. Qed.

(** Lws_hdr_copy overruns the caller's buffer.  The arguments of
    "GET /?a=1&b=2" are two fragments of three bytes, total length 6; the check of
    lws_hdr_copy passes for a buffer of 7 bytes, but the first strcpy copies both
    arguments and the '&' between them, 8 bytes with the NUL. *)
Lemma hdr_copy_overruns dst :
  zlen dst = 7 ->
  lws_hdr_total_length (ah (demo_after (bstr "GET /?a=1&b=2 HTTP/1.1" ++ crlf))) WSI_TOKEN_HTTP_URI_ARGS = Some 6 /\
  lws_hdr_copy (ah (demo_after (bstr "GET /?a=1&b=2 HTTP/1.1" ++ crlf))) dst 7 WSI_TOKEN_HTTP_URI_ARGS = None.
Proof.
  intros Hd. split; [vm_compute; reflexivity|]. unfold zlen in Hd.
  do 7 (destruct dst as [|? dst]; [done|]). destruct dst; [|cbn in Hd; lia]. vm_compute. reflexivity.
Qed.

Lemma hdr_copy_overruns_witness :
  zlen (replicate 7 0) = 7 /\
  lws_hdr_copy (ah (demo_after (bstr "GET /?a=1&b=2 HTTP/1.1" ++ crlf))) (replicate 7 0) 7
    WSI_TOKEN_HTTP_URI_ARGS = None.
Proof. split; [reflexivity|]. apply (hdr_copy_overruns (replicate 7 0)). reflexivity. Defined.

End HdrProps.
