(* ===== verification/HttpReq.v ===== *)
(** * A request, line by line

    What the header table holds after the lines of a request: every header with its
    value, and, after the empty line, the version of the protocol. *)

From S2P Require Import Prelude Ws Lextable HttpHdr HttpHdrFacts HttpHdrInv HttpHdrProps.

Module HttpReq.
Export Hdr HdrFacts HdrInv HdrProps.

Section Request.
Context {ctx : HttpCtx} {ctx_ok : HttpCtxOk ctx}.

(** Header [h] is stored with the value [v], in one piece. *)
Definition Stored (a : allocated_headers) (h : Z) (v : bytes) : Prop :=
  exists i off, 1 <= i <= nfrag a /\ get_index a h = Some i /\ get_frag a i = Some (mkFrag off (zlen v) 0) /\
    0 <= zlen v < max_http_header_data /\ 0 <= off /\ cstr_at a off = Some (v ++ [0]).

Lemma stored_total a h v : Stored a h v -> lws_hdr_total_length a h = Some (zlen v).
Proof.
  intros (i & off & Hi & E1 & E2 & Hl & _). unfold lws_hdr_total_length. rewrite E1. cbn [mbind option_bind].
  rewrite (proj2 (Z.eqb_neq i 0)) by lia. change (Z.to_nat NFRAGS) with (S 175). cbn [chain]. rewrite E2. cbn.
  f_equal. pose proof max_ok. unfold s32, swrap. rewrite Z.mod_small; lia.
Qed.

Lemma stored_ptr a h v : Stored a h v ->
  exists off, lws_hdr_simple_ptr a h = Some off /\ 0 <= off /\ cstr_at a off = Some (v ++ [0]).
Proof.
  intros (i & off & Hi & E1 & E2 & Hl & Ho & E3). exists off. unfold lws_hdr_simple_ptr. rewrite E1. cbn [mbind option_bind].
  rewrite (proj2 (Z.eqb_neq i 0)) by lia. by rewrite E2.
Qed.

Lemma stored_copy a h v dst len : Stored a h v -> zlen v < len <= zlen dst ->
  lws_hdr_copy a dst len h = Some (zlen v, splice 0 (v ++ [0]) dst).
Proof.
  intros S Hd. unfold lws_hdr_copy. rewrite (stored_total a h v S). destruct S as (i & off & Hi & E1 & E2 & Hl & _ & E3).
  cbn [mbind option_bind]. replace (zlen v >=? len) with false by lia. rewrite E1. cbn [mbind option_bind].
  rewrite (proj2 (Z.eqb_neq i 0)) by lia. change (Z.to_nat NFRAGS) with (S 175). cbn [chain]. rewrite E2.
  cbn [mbind option_bind f_nfrag Z.eqb copy_loop f_offset]. rewrite E3. cbn [mbind option_bind]. unfold store.
  rewrite zlen_app. change (zlen [0]) with 1. by rewrite (proj2 (Z.leb_le (0 + (zlen v + 1)) _)) by lia.
Qed.

Lemma missing_total a h : get_index a h = Some 0 -> lws_hdr_total_length a h = Some 0.
Proof. intros E. unfold lws_hdr_total_length. by rewrite E. Qed.

Lemma line_token w n lim q v : LineOk w n lim q v -> 0 <= n < 82.
Proof. intros Hl. by pose proof (lo_name _ _ _ _ _ Hl) as [? _]%name_lower. Qed.

(** A line stores its header and keeps the others. *)
Lemma line_stored w n lim q v : NameState w -> LineOk w n lim q v -> Stored (ah (next_line w n lim v)) n v.
Proof.
  intros Hw Hl. pose proof (ns_inv _ Hw) as Ha. pose proof (line_token _ _ _ _ _ Hl) as Hn.
  assert (Hh : 0 <= n < WSI_TOKEN_COUNT) by (unfold WSI_TOKEN_COUNT; lia). pose proof (lo_room _ _ _ _ _ Hl) as Hroom.
  pose proof (ai_nfrag _ Ha). pose proof (ai_pos _ Ha). pose proof (lo_max _ _ _ _ _ Hl). pose proof (zlen_nonneg v).
  exists (nfrag (ah w) + 1), (pos (ah w)). change (ah (next_line w n lim v)) with (val (ah w) n v [0]). split_and!; try lia.
  - cbn. lia.
  - rewrite val_index by (done || lia). by rewrite Z.eqb_refl.
  - rewrite val_frag by (done || lia). by rewrite Z.eqb_refl.
  - apply val_cstr; try done. intros Hin. pose proof (lo_plain _ _ _ _ _ Hl) as Hv. rewrite Forall_forall in Hv.
    by destruct (Hv 0 Hin).
Qed.

Lemma line_kept w n lim q v h u : NameState w -> LineOk w n lim q v -> 0 <= h -> h <> n ->
  Stored (ah w) h u -> Stored (ah (next_line w n lim v)) h u.
Proof.
  intros Hw Hl Hh0 Hne (i & off & Hi & E1 & E2 & Hlen & Ho & E3). pose proof (ns_inv _ Hw) as Ha.
  pose proof (line_token _ _ _ _ _ Hl) as Hn. pose proof (lo_room _ _ _ _ _ Hl) as Hroom. pose proof (ai_nfrag _ Ha).
  assert (Hh : 0 <= n < WSI_TOKEN_COUNT) by (unfold WSI_TOKEN_COUNT; lia).
  exists i, off. change (ah (next_line w n lim v)) with (val (ah w) n v [0]). split_and!; try done; try lia.
  - cbn. lia.
  - rewrite val_index by (done || lia). by rewrite (proj2 (Z.eqb_neq h n)).
  - rewrite val_frag by (done || lia). by rewrite (proj2 (Z.eqb_neq i (nfrag (ah w) + 1))) by lia.
  - rewrite <- E3. apply (val_cstr_other (ah w) n Ha Hh (lo_challenge _ _ _ _ _ Hl) v i (mkFrag off (zlen u) 0)); try done. apply Hw.
Qed.

Lemma line_missing w n lim q v h : NameState w -> LineOk w n lim q v -> 0 <= h -> h <> n ->
  get_index (ah w) h = Some 0 -> get_index (ah (next_line w n lim v)) h = Some 0.
Proof.
  intros Hw Hl Hh0 Hne E. pose proof (line_token _ _ _ _ _ Hl) as Hn.
  assert (Hh : 0 <= n < WSI_TOKEN_COUNT) by (unfold WSI_TOKEN_COUNT; lia).
  change (ah (next_line w n lim v)) with (val (ah w) n v [0]).
  rewrite val_index by (done || apply (ns_inv _ Hw) || apply Hl || lia). by rewrite (proj2 (Z.eqb_neq h n)).
Qed.

(** ** The lines of a request *)

Record hline := mkLine { l_token : Z; l_limit : Z; l_name : bytes; l_spaces : nat; l_value : bytes }.

Definition text_of (l : hline) : bytes := line_text (l_name l) (l_spaces l) (l_value l).

(** The lines fit, one after the other. *)
Fixpoint LinesOk (w : hdr) (ls : list hline) : Prop :=
  match ls with
  | [] => True
  | l :: ls => LineOk w (l_token l) (l_limit l) (l_name l) (l_value l) /\
      LinesOk (next_line w (l_token l) (l_limit l) (l_value l)) ls
  end.

Fixpoint after_lines (w : hdr) (ls : list hline) : hdr :=
  match ls with
  | [] => w
  | l :: ls => after_lines (next_line w (l_token l) (l_limit l) (l_value l)) ls
  end.

Lemma feed_lines ls r : forall w, NameState w -> LinesOk w ls ->
  feed w (concat (map text_of ls) ++ r) = feed (after_lines w ls) r /\ NameState (after_lines w ls).
Proof.
  induction ls as [|l ls IH]; intros w Hw Hok; [done|]. destruct Hok as [Hl Hok]. cbn [map concat after_lines].
  rewrite <- app_assoc. unfold text_of at 1. rewrite (feed_line w (l_token l) (l_limit l)) by done.
  apply IH; [|done]. by apply (line_name w _ _ (l_name l)).
Qed.

(** What does not depend on the headers. *)
Lemma after_lines_same ls : forall w, ues w = URIES_IDLE -> parser_state w = WSI_TOKEN_NAME_PART -> lextable_pos w = 0 ->
  ues (after_lines w ls) = URIES_IDLE /\ parser_state (after_lines w ls) = WSI_TOKEN_NAME_PART /\
  lextable_pos (after_lines w ls) = 0.
Proof. induction ls as [|l ls IH]; intros w Hu Hp Hx; [done|]. cbn [after_lines]. by apply IH. Qed.

Lemma lines_kept ls h u : forall w, NameState w -> LinesOk w ls -> 0 <= h -> Forall (fun l => l_token l <> h) ls ->
  Stored (ah w) h u -> Stored (ah (after_lines w ls)) h u.
Proof.
  induction ls as [|l ls IH]; intros w Hw Hok Hh Hne Hs; [done|]. destruct Hok as [Hl Hok].
  apply Forall_cons in Hne as [H1 H2]. cbn [after_lines]. apply IH; try done.
  - by apply (line_name w _ _ (l_name l)).
  - by apply (line_kept w _ _ (l_name l)).
Qed.

Lemma lines_missing ls h : forall w, NameState w -> LinesOk w ls -> 0 <= h -> Forall (fun l => l_token l <> h) ls ->
  get_index (ah w) h = Some 0 -> get_index (ah (after_lines w ls)) h = Some 0.
Proof.
  induction ls as [|l ls IH]; intros w Hw Hok Hh Hne Hs; [done|]. destruct Hok as [Hl Hok].
  apply Forall_cons in Hne as [H1 H2]. cbn [after_lines]. apply IH; try done.
  - by apply (line_name w _ _ (l_name l)).
  - by apply (line_missing w _ _ (l_name l)).
Qed.

(** Every line is stored. *)
Lemma lines_stored ls : forall w l, NameState w -> LinesOk w ls -> NoDup (map l_token ls) -> l ∈ ls ->
  Stored (ah (after_lines w ls)) (l_token l) (l_value l).
Proof.
  induction ls as [|x ls IH]; intros w l Hw Hok Hnd Hin; [by apply not_elem_of_nil in Hin|].
  destruct Hok as [Hl Hok]. cbn [map] in Hnd. apply NoDup_cons in Hnd as [Hx Hnd]. cbn [after_lines].
  pose proof (line_name w _ _ (l_name x) _ Hw Hl) as Hw'. apply elem_of_cons in Hin as [->|Hin].
  - apply lines_kept; try done; [by pose proof (line_token _ _ _ _ _ Hl); lia| |by apply (line_stored w _ _ (l_name x))].
    apply Forall_forall. intros y Hy E. apply Hx. rewrite <- E. by apply list_elem_of_fmap_2.
  - by apply IH.
Qed.

(** ** The empty line *)

(** The value of the version header. *)
Definition revision (v : bytes) : Z := u8 (atoi (v ++ [0])).

Lemma nz_zlen (l : bytes) : l <> [] -> nz (zlen l) = true.
Proof. intros Hl. destruct l as [|x l]; [done|]. unfold nz. rewrite zlen_cons. pose proof (zlen_nonneg l).
  by rewrite (proj2 (Z.eqb_neq _ 0)) by lia. Qed.

(** The empty line completes the headers of an upgrade and sets the version. *)
Lemma set_complete w up ver : ues w = URIES_IDLE -> Stored (ah w) WSI_TOKEN_UPGRADE up -> up <> [] ->
  Stored (ah w) WSI_TOKEN_VERSION ver -> ver <> [] ->
  set_parsing_complete w = Some (0, w {{ ietf_spec_revision := revision ver; parser_state := WSI_PARSING_COMPLETE;
                                         hparsing_completed := true }}).
Proof.
  intros Hu Hup Hup0 Hver Hver0. unfold set_parsing_complete. rewrite Hu, bool_decide_true by done. cbn [negb].
  rewrite (stored_total _ _ _ Hup). cbn [mbind option_bind]. rewrite (nz_zlen up Hup0).
  rewrite (stored_total _ _ _ Hver). cbn [mbind option_bind]. rewrite (nz_zlen ver Hver0).
  destruct (stored_ptr _ _ _ Hver) as (off & -> & _ & E). cbn [mbind option_bind]. by rewrite E.
Qed.

Lemma crlf_name : lex_name 0 [13; 10] = Some (Known WSI_TOKEN_CHALLENGE []).
Proof. vm_compute. reflexivity. Qed.

(** The empty line is the name of the last token: parsing is complete. *)
Lemma feed_empty w r : NameState w -> parser_state w = WSI_TOKEN_NAME_PART -> lextable_pos w = 0 ->
  is_Some (limit_of WSI_TOKEN_CHALLENGE) ->
  exists v, feed w (13 :: 10 :: r) = (rw ← set_parsing_complete v; continue rw r) /\ ah v = ah w /\ ues v = ues w.
Proof.
  intros Hw Hps Hlp [lim Hlim].
  destruct (feed_name WSI_TOKEN_CHALLENGE r [13; 10] w []) as (p & Hf); try done;
    rewrite ?Hlp; try done; [apply states_start|by repeat constructor|].
  set (v := (at_lex w p) {{ parser_state := WSI_TOKEN_CHALLENGE; current_token_limit := lim }}).
  assert (Ek : known_name (at_lex w p) WSI_TOKEN_CHALLENGE = set_parsing_complete v).
  { unfold known_name. cbn [mbind option_bind is_method methods existsb].
    change (match token_limits with Some l => _ | None => _ end) with (limit_of WSI_TOKEN_CHALLENGE).
    by rewrite Hlim. }
  rewrite Ek in Hf. exists v. split; [exact Hf|done].
Qed.

Lemma feed_end w up ver r : NameState w -> parser_state w = WSI_TOKEN_NAME_PART -> lextable_pos w = 0 ->
  ues w = URIES_IDLE -> is_Some (limit_of WSI_TOKEN_CHALLENGE) ->
  Stored (ah w) WSI_TOKEN_UPGRADE up -> up <> [] -> Stored (ah w) WSI_TOKEN_VERSION ver -> ver <> [] ->
  exists w', feed w (13 :: 10 :: r) = Some (0, w', r) /\ ah w' = ah w /\
    parser_state w' = WSI_PARSING_COMPLETE /\ ietf_spec_revision w' = revision ver.
Proof.
  intros Hw Hps Hlp Hu Hlim Hup Hup0 Hver Hver0. destruct (feed_empty w r Hw Hps Hlp Hlim) as (v & -> & Ha & Hv).
  rewrite (set_complete v up ver) by (rewrite ?Ha, ?Hv; done). by exists (v {{ ietf_spec_revision := revision ver;
    parser_state := WSI_PARSING_COMPLETE; hparsing_completed := true }}).
Qed.

(** Without an Upgrade header the version stays. *)
Lemma feed_plain_end w r : NameState w -> parser_state w = WSI_TOKEN_NAME_PART -> lextable_pos w = 0 ->
  ues w = URIES_IDLE -> is_Some (limit_of WSI_TOKEN_CHALLENGE) -> get_index (ah w) WSI_TOKEN_UPGRADE = Some 0 ->
  exists w', feed w (13 :: 10 :: r) = Some (0, w', r) /\ ah w' = ah w /\ parser_state w' = WSI_PARSING_COMPLETE.
Proof.
  intros Hw Hps Hlp Hu Hlim Hup. destruct (feed_empty w r Hw Hps Hlp Hlim) as (v & -> & Ha & Hv).
  unfold set_parsing_complete. rewrite Hv, Hu, bool_decide_true by done. cbn [negb].
  rewrite Ha, (missing_total _ _ Hup). cbn [mbind option_bind]. change (nz 0) with false. cbv iota. cbn [mbind option_bind].
  by eexists.
Qed.

End Request.
End HttpReq.
