(* ===== verification/Ranges.v ===== *)
(** * HTTP ranges (lib/ranges.c)

    The parser of the header "Range: bytes=0-499,-500": [lws_ranges_next] gives one
    range after the other, [lws_ranges_init] counts them and stands at the first one.
    The header is copied into a buffer of 128 bytes; the parser runs over it with its
    own position.  [None] stands for a read outside of this buffer.  Every round of the
    loop moves the position, so its fuel is the size of the buffer; the loop of
    [lws_ranges_init] calls it at most once per byte. *)

From S2P Require Import Prelude HttpHdr.

Module Ranges.
Import Hdr.

Definition WSI_TOKEN_HTTP_RANGE : Z := 30.

Inductive range_states :=
| LWSRS_NO_ACTIVE_RANGE | LWSRS_BYTES_EQ | LWSRS_FIRST | LWSRS_STARTING | LWSRS_ENDING
| LWSRS_COMPLETED | LWSRS_SYNTAX.

(** struct lws_range_parsing; start, end, extent and agg are unsigned long long. *)
Record lws_range_parsing := mkRanges {
  r_start : Z;
  r_end : Z;
  r_extent : Z;
  r_agg : Z;
  r_buf : bytes;
  r_pos : Z;
  r_state : range_states;
  start_valid : bool;
  end_valid : bool;
  r_ctr : Z;
  count_ranges : Z;
  did_try : bool;
  r_inside : bool;
  send_ctr : Z
}.

Definition advance (rp : lws_range_parsing) : lws_range_parsing := rp {{ r_pos ::= (fun p => p + 1) }}.

Definition is_digit (c : Z) : bool := (c >=? 48) && (c <=? 57).

(** A round of the loop goes on ([inl]) or returns ([inr]). *)
Definition progress : Type := lws_range_parsing + lws_range_parsing * Z.

(** case LWSRS_BYTES_EQ *)
Definition bytes_eq (rp : lws_range_parsing) (c : Z) : option progress :=
  b ← (bstr "bytes=" ++ [0]) !! Z.to_nat (r_pos rp);
  if negb (c =? b) then Some (inr (rp {{ r_state := LWSRS_SYNTAX }}, -1))
  else Some (inl (advance (if r_pos rp =? 5 then rp {{ r_state := LWSRS_FIRST }} else rp))).

(** case LWSRS_FIRST *)
Definition first (rp : lws_range_parsing) : lws_range_parsing :=
  rp {{ r_start := 0; r_end := 0; start_valid := false; end_valid := false; r_state := LWSRS_STARTING }}.

(** case LWSRS_STARTING *)
Definition starting (rp : lws_range_parsing) (c : Z) : progress :=
  if c =? 45 then inl (advance (rp {{ r_state := LWSRS_ENDING }}))
  else if negb (is_digit c) then inr (rp {{ r_state := LWSRS_SYNTAX }}, 0)
  else inl (advance (rp {{ r_start ::= (fun s => u64 (s * 10 + (c - 48))); start_valid := true }})).

(** The two bounds when the range is complete. *)
Definition settle (rp : lws_range_parsing) : lws_range_parsing :=
  if negb (start_valid rp) then
    let e := if r_end rp >? r_extent rp then r_extent rp else r_end rp in
    rp {{ r_start := u64 (r_extent rp - e); r_end := u64 (r_extent rp - 1) }}
  else if negb (end_valid rp) then rp {{ r_end := u64 (r_extent rp - 1) }}
  else rp.

(** case LWSRS_ENDING *)
Definition ending_ (rp : lws_range_parsing) (c : Z) : progress :=
  if (c =? 44) || (c =? 0) then
    let rp := rp {{ r_state := LWSRS_FIRST }} in
    let rp := if c =? 44 then advance rp else rp in
    let rp := (settle rp) {{ did_try := true }} in
    if r_end rp <? r_start rp then
      if c =? 44 then inl (advance rp) else inr (rp {{ r_state := LWSRS_COMPLETED }}, 0)
    else inr (rp, 1)
  else if negb (is_digit c) then inr (rp {{ r_state := LWSRS_SYNTAX }}, 0)
  else inl (advance (rp {{ r_end ::= (fun s => u64 (s * 10 + (c - 48))); end_valid := true }})).

Definition next_round (rp : lws_range_parsing) : option progress :=
  c ← r_buf rp !! Z.to_nat (r_pos rp);
  match r_state rp with
  | LWSRS_SYNTAX | LWSRS_COMPLETED => Some (inr (rp, 0))
  | LWSRS_NO_ACTIVE_RANGE => Some (inr (rp {{ r_state := LWSRS_COMPLETED }}, 0))
  | LWSRS_BYTES_EQ => bytes_eq rp c
  | LWSRS_FIRST => Some (starting (first rp) c)
  | LWSRS_STARTING => Some (starting rp c)
  | LWSRS_ENDING => Some (ending_ rp c)
  end.

Fixpoint next_loop (fuel : nat) (rp : lws_range_parsing) : option (lws_range_parsing * Z) :=
  match fuel with
  | O => None
  | S fuel =>
      r ← next_round rp;
      match r with
      | inl rp => next_loop fuel rp
      | inr out => Some out
      end
  end.

Definition lws_ranges_next (rp : lws_range_parsing) : option (lws_range_parsing * Z) :=
  next_loop (S (length (r_buf rp))) rp.

Definition lws_ranges_reset (rp : lws_range_parsing) : lws_range_parsing :=
  rp {{ r_pos := 0; r_ctr := 0; r_start := 0; r_end := 0; start_valid := false; end_valid := false;
        r_state := LWSRS_BYTES_EQ }}.

(** [while (lws_ranges_next(rp)) ...] of lws_ranges_init *)
Fixpoint count_loop (fuel : nat) (rp : lws_range_parsing) : option lws_range_parsing :=
  match fuel with
  | O => None
  | S fuel =>
      '(rp, r) ← lws_ranges_next rp;
      if r =? 0 then Some rp
      else count_loop fuel (rp {{ count_ranges ::= (fun n => s8 (n + 1));
                                  r_agg := u64 (r_agg rp + u64 (r_end rp - r_start rp + 1)) }})
  end.

Definition lws_ranges_init (rp : lws_range_parsing) (a : allocated_headers) (extent : Z)
  : option (lws_range_parsing * Z) :=
  let rp := rp {{ r_agg := 0; send_ctr := 0; r_inside := false; count_ranges := 0; did_try := false }} in
  let rp := (lws_ranges_reset rp) {{ r_state := LWSRS_COMPLETED; r_extent := extent }} in
  '(n, buf) ← lws_hdr_copy a (r_buf rp) 128 WSI_TOKEN_HTTP_RANGE;
  let rp := rp {{ r_buf := buf }} in
  if n <=? 0 then Some (rp, 0) else
  rp ← count_loop (S (length buf)) (rp {{ r_state := LWSRS_BYTES_EQ }});
  let rp := lws_ranges_reset rp in
  if did_try rp && (count_ranges rp =? 0) then Some (rp, -1) else
  '(rp, _) ← lws_ranges_next rp;
  Some (rp, count_ranges rp).

End Ranges.
