(* ===== verification/RangesProps.v ===== *)
(** * Properties of the range parser

    Satisfiable ranges are given out one after the other, as RFC 7233 reads them;
    and the headers on which the parser does something else. *)

From S2P Require Import Prelude HttpHdr HttpHdrFacts HttpHdrInv HttpHdrProps HttpReq Ranges.

Module RangesProps.
Import Hdr HdrFacts HdrProps HttpReq Ranges.

(** ** Ranges as the header writes them *)

(** The numbers are strings of digits. *)
Inductive spec := FromTo (a b : bytes) | Onwards (a : bytes) | Last (n : bytes).

Definition spec_text (sp : spec) : bytes :=
  match sp with FromTo a b => a ++ 45 :: b | Onwards a => a ++ [45] | Last n => 45 :: n end.

Fixpoint specs_text (l : list spec) : bytes :=
  match l with
  | [] => []
  | [sp] => spec_text sp
  | sp :: l => spec_text sp ++ 44 :: specs_text l
  end.

Definition range_text (l : list spec) : bytes := bstr "bytes=" ++ specs_text l.

Definition Number (d : bytes) : Prop := d <> [] /\ Forall (fun c => 48 <= c <= 57) d.

(** The range is one of a resource of [ext] bytes. *)
Definition Satisfiable (ext : Z) (sp : spec) : Prop :=
  match sp with
  | FromTo a b => Number a /\ Number b /\ digits 0 a <= digits 0 b < ext
  | Onwards a => Number a /\ digits 0 a < ext
  | Last n => Number n /\ 0 < digits 0 n < 2 ^ 64
  end.

(** First and last byte. *)
Definition range_of (ext : Z) (sp : spec) : Z * Z :=
  match sp with
  | FromTo a b => (digits 0 a, digits 0 b)
  | Onwards a => (digits 0 a, ext - 1)
  | Last n => (ext - Z.min (digits 0 n) ext, ext - 1)
  end.

(** ** Reading one range *)

Lemma digits_step acc c d : 48 <= c <= 57 -> digits acc (c :: d) = digits (acc * 10 + (c - 48)) d.
Proof. intros Hc. cbn. by replace ((c >=? 48) && (c <=? 57)) with true by lia. Qed.

Lemma digits_ge d : Forall (fun c => 48 <= c <= 57) d -> forall acc, 0 <= acc -> acc <= digits acc d.
Proof.
  induction 1 as [|c d Hc _ IH]; intros acc Ha; [done|]. rewrite digits_step by done. specialize (IH (acc * 10 + (c - 48))). lia.
Qed.

Lemma at_mid (l1 : bytes) c l2 : (l1 ++ c :: l2) !! Z.to_nat (zlen l1) = Some c.
Proof. unfold zlen. rewrite Nat2Z.id, lookup_app_r by lia. by rewrite Nat.sub_diag. Qed.

Section Reading.
Context (ext agg : Z) (buf : bytes) (ctr cnt : Z) (ins : bool) (sc : Z).

(** The parser at [pos], with the parts of the range read so far. *)
Definition at_ (st : range_states) (pos s e : Z) (sv ev tried : bool) : lws_range_parsing :=
  mkRanges s e ext agg buf pos st sv ev ctr cnt tried ins sc.

Definition not_empty (d : bytes) (b : bool) : bool := match d with [] => b | _ => true end.

Lemma start_digits r t e d : Forall (fun c => 48 <= c <= 57) d -> forall fuel l s sv, buf = l ++ d ++ r -> 0 <= s -> digits s d < 2 ^ 64 ->
  next_loop (length d + fuel) (at_ LWSRS_STARTING (zlen l) s e sv false t) =
  next_loop fuel (at_ LWSRS_STARTING (zlen (l ++ d)) (digits s d) e (not_empty d sv) false t).
Proof.
  induction 1 as [|c d Hc Hd IH]; intros fuel l s sv Hb Hs Hlt; [cbn; by rewrite app_nil_r|]. rewrite digits_step in * by done.
  pose proof (digits_ge d Hd (s * 10 + (c - 48)) ltac:(lia)). cbn [length Nat.add next_loop]. unfold next_round at 1. cbn [r_buf r_pos at_].
  rewrite Hb. cbn [app]. rewrite at_mid. cbn [mbind option_bind r_state at_]. unfold starting, is_digit.
  rewrite (proj2 (Z.eqb_neq c 45)) by lia. replace ((c >=? 48) && (c <=? 57)) with true by lia. cbn [negb].
  specialize (IH fuel (l ++ [c]) (s * 10 + (c - 48)) true). rewrite <- !app_assoc in IH. cbn [app] in IH.
  replace (not_empty d true) with true in IH by (by destruct d). cbn [not_empty]. rewrite <- IH by (done || lia).
  unfold advance, at_. cbn. rewrite u64_small by lia. do 2 f_equal. rewrite zlen_app. done.
Qed.

Lemma end_digits r t s sv d : Forall (fun c => 48 <= c <= 57) d -> forall fuel l e ev, buf = l ++ d ++ r -> 0 <= e -> digits e d < 2 ^ 64 ->
  next_loop (length d + fuel) (at_ LWSRS_ENDING (zlen l) s e sv ev t) =
  next_loop fuel (at_ LWSRS_ENDING (zlen (l ++ d)) s (digits e d) sv (not_empty d ev) t).
Proof.
  induction 1 as [|c d Hc Hd IH]; intros fuel l e ev Hb Hs Hlt; [cbn; by rewrite app_nil_r|]. rewrite digits_step in * by done.
  pose proof (digits_ge d Hd (e * 10 + (c - 48)) ltac:(lia)). cbn [length Nat.add next_loop]. unfold next_round at 1. cbn [r_buf r_pos at_].
  rewrite Hb. cbn [app]. rewrite at_mid. cbn [mbind option_bind r_state at_]. unfold ending_, is_digit.
  rewrite (proj2 (Z.eqb_neq c 44)), (proj2 (Z.eqb_neq c 0)) by lia. cbn [orb]. replace ((c >=? 48) && (c <=? 57)) with true by lia. cbn [negb].
  specialize (IH fuel (l ++ [c]) (e * 10 + (c - 48)) true). rewrite <- !app_assoc in IH. cbn [app] in IH.
  replace (not_empty d true) with true in IH by (by destruct d). cbn [not_empty]. rewrite <- IH by (done || lia).
  unfold advance, at_. cbn. rewrite u64_small by lia. do 2 f_equal. rewrite zlen_app. done.
Qed.

Lemma dash r t l s e sv fuel : buf = l ++ 45 :: r ->
  next_loop (S fuel) (at_ LWSRS_STARTING (zlen l) s e sv false t) = next_loop fuel (at_ LWSRS_ENDING (zlen (l ++ [45])) s e sv false t).
Proof.
  intros Hb. cbn [next_loop]. unfold next_round at 1. cbn [r_buf r_pos at_]. rewrite Hb, at_mid. cbn [mbind option_bind r_state at_].
  unfold starting. cbn [Z.eqb Pos.eqb]. unfold advance, at_. cbn. do 2 f_equal. rewrite zlen_app. done.
Qed.

(** A new range: what is left of the one before does not matter. *)
Lemma first_loop fuel pos s e sv ev t :
  next_loop fuel (at_ LWSRS_FIRST pos s e sv ev t) = next_loop fuel (at_ LWSRS_STARTING pos 0 0 false false t).
Proof. destruct fuel as [|fuel]; [done|]. cbn [next_loop]. unfold next_round. cbn [r_buf r_pos r_state at_]. by destruct (buf !! Z.to_nat pos). Qed.

(** The end of a range that is one. *)
Lemma finish r t l c s e sv ev fuel s' e' : buf = l ++ c :: r -> c = 44 \/ c = 0 ->
  r_start (settle (at_ LWSRS_ENDING (zlen l) s e sv ev t)) = s' -> r_end (settle (at_ LWSRS_ENDING (zlen l) s e sv ev t)) = e' -> s' <= e' ->
  next_loop (S fuel) (at_ LWSRS_ENDING (zlen l) s e sv ev t) =
    Some (at_ LWSRS_FIRST (if c =? 44 then zlen l + 1 else zlen l) s' e' sv ev true, 1).
Proof.
  intros Hb Hc Hs He Hle. cbn [next_loop]. unfold next_round at 1. cbn [r_buf r_pos at_]. rewrite Hb, at_mid. cbn [mbind option_bind r_state at_].
  unfold ending_. replace ((c =? 44) || (c =? 0)) with true by (destruct Hc as [->| ->]; done).
  unfold settle, at_ in *. cbn in *. destruct (c =? 44), sv, ev; cbn in *; subst; by rewrite (proj2 (Z.ltb_ge _ _)) by done.
Qed.

Lemma next_range sp l c r fuel s e sv ev t : 0 < ext < 2 ^ 64 -> Satisfiable ext sp -> buf = l ++ spec_text sp ++ c :: r -> c = 44 \/ c = 0 ->
  (length (spec_text sp) < fuel)%nat ->
  exists sv' ev', next_loop fuel (at_ LWSRS_FIRST (zlen l) s e sv ev t) =
    Some (at_ LWSRS_FIRST (zlen (l ++ spec_text sp) + if c =? 44 then 1 else 0) (range_of ext sp).1 (range_of ext sp).2 sv' ev' true, 1).
Proof.
  intros Hext Hsat Hb Hc Hf. rewrite first_loop.
  assert (Hpos : forall p, (if c =? 44 then p + 1 else p) = p + if c =? 44 then 1 else 0) by (intros p; destruct (c =? 44); lia).
  destruct sp as [a b|a|n]; cbn [spec_text Satisfiable range_of fst snd] in *.
  - destruct Hsat as ([Ha0 Ha] & [Hb0 Hbd] & Hle). pose proof (digits_ge a Ha 0 ltac:(lia)). rewrite length_app in Hf. cbn [length] in Hf.
    replace fuel with (length a + S (length b + S (fuel - length a - length b - 2)))%nat by lia.
    rewrite (start_digits ((45 :: b) ++ c :: r)) by (done || lia || (by rewrite Hb, <- app_assoc)).
    rewrite (dash (b ++ c :: r)) by (by rewrite Hb, <- !app_assoc).
    rewrite (end_digits (c :: r)) by (done || lia || (by rewrite Hb, <- !app_assoc)).
    eexists _, _. rewrite (finish r t _ c _ _ _ _ _ (digits 0 a) (digits 0 b)); [| |done| | |lia].
    + by rewrite Hpos, <- !app_assoc.
    + by rewrite Hb, <- !app_assoc.
    + unfold settle. destruct a, b; done.
    + unfold settle. destruct a, b; done.
  - destruct Hsat as ([Ha0 Ha] & Hlt). pose proof (digits_ge a Ha 0 ltac:(lia)). rewrite length_app in Hf. cbn [length] in Hf.
    replace fuel with (length a + S (S (fuel - length a - 2)))%nat by lia.
    rewrite (start_digits ([45] ++ c :: r)) by (done || lia || (by rewrite Hb, <- app_assoc)).
    rewrite (dash (c :: r)) by (by rewrite Hb, <- !app_assoc).
    eexists _, _. rewrite (finish r t _ c _ _ _ _ _ (digits 0 a) (ext - 1)); [| |done| | |lia].
    + by rewrite Hpos, <- !app_assoc.
    + by rewrite Hb, <- !app_assoc.
    + unfold settle. destruct a; done.
    + unfold settle. destruct a; [done|]. cbn. by rewrite u64_small by lia.
  - destruct Hsat as ([Hn0 Hn] & Hlt). cbn [length] in Hf.
    replace fuel with (S (length n + S (fuel - length n - 2)))%nat by lia.
    rewrite (dash (n ++ c :: r)) by (by rewrite Hb).
    rewrite (end_digits (c :: r)) by (done || lia || (by rewrite Hb, <- !app_assoc)).
    eexists _, _. rewrite (finish r t _ c _ _ _ _ _ (ext - Z.min (digits 0 n) ext) (ext - 1)); [| |done| | |lia].
    + by rewrite Hpos, <- !app_assoc.
    + by rewrite Hb, <- !app_assoc.
    + cbn. unfold constant. destruct (digits 0 n >? ext) eqn:E; zbool; rewrite u64_small by lia; lia.
    + cbn. unfold constant. by rewrite u64_small by lia.
Qed.

(** Behind the last range. *)
Lemma no_more l r s e sv ev t : buf = l ++ 0 :: r -> exists rp, lws_ranges_next (at_ LWSRS_FIRST (zlen l) s e sv ev t) = Some (rp, 0) /\
  r_state rp = LWSRS_SYNTAX /\ r_extent rp = ext /\ r_buf rp = buf /\ r_agg rp = agg /\ count_ranges rp = cnt /\ did_try rp = t /\
  r_ctr rp = ctr /\ r_inside rp = ins /\ send_ctr rp = sc.
Proof.
  intros Hb. unfold lws_ranges_next. rewrite first_loop. cbn [r_buf at_ next_loop]. unfold next_round. cbn [r_buf r_pos at_]. rewrite Hb, at_mid. cbn.
  eexists. split; [done|]. cbn. by rewrite <- Hb.
Qed.

End Reading.

(** The word before the ranges. *)
Lemma bytes_word ext agg ctr cnt ins sc r fuel t :
  next_loop (6 + fuel) (at_ ext agg (bstr "bytes=" ++ r) ctr cnt ins sc LWSRS_BYTES_EQ 0 0 0 false false t) =
  next_loop fuel (at_ ext agg (bstr "bytes=" ++ r) ctr cnt ins sc LWSRS_FIRST 6 0 0 false false t).
Proof. reflexivity. Qed.

(** ** All ranges *)

(** The ranges that the parser gives out from here on. *)
Fixpoint issued (fuel : nat) (rp : lws_range_parsing) : option (list (Z * Z)) :=
  match fuel with
  | O => None
  | S fuel =>
      '(rp, r) ← lws_ranges_next rp;
      if r =? 1 then l ← issued fuel rp; Some ((r_start rp, r_end rp) :: l) else Some []
  end.

(** The text of the ranges, with what ends the first one. *)
Lemma specs_cons sp l r : exists c r', specs_text (sp :: l) ++ 0 :: r = spec_text sp ++ c :: r' /\
  ((c =? 44) = true /\ r' = specs_text l ++ 0 :: r \/ c = 0 /\ l = [] /\ r' = r).
Proof.
  destruct l as [|sp' l].
  - exists 0, r. split; [done|]. right. done.
  - exists 44, (specs_text (sp' :: l) ++ 0 :: r). cbn [specs_text]. rewrite <- app_assoc. split; [done|]. by left.
Qed.

Lemma next_loop_mono rp x : forall fuel k, next_loop fuel rp = Some x -> next_loop (k + fuel) rp = Some x.
Proof.
  intros fuel. revert rp. induction fuel as [|fuel IH]; intros rp k E; [done|]. rewrite Nat.add_succ_r. cbn [next_loop] in *.
  destruct (next_round rp) as [[rp'|out]|]; [|done|done]. by apply IH.
Qed.

Section All.
Context (ext : Z) (buf : bytes) (ctr : Z) (ins : bool) (sc : Z) (ext_ok : 0 < ext < 2 ^ 64).

Lemma next_of_specs agg cnt sp l pre r s e sv ev t : Satisfiable ext sp -> buf = pre ++ specs_text (sp :: l) ++ 0 :: r ->
  exists pre' sv' ev', lws_ranges_next (at_ ext agg buf ctr cnt ins sc LWSRS_FIRST (zlen pre) s e sv ev t) =
    Some (at_ ext agg buf ctr cnt ins sc LWSRS_FIRST (zlen pre') (range_of ext sp).1 (range_of ext sp).2 sv' ev' true, 1) /\
    buf = pre' ++ specs_text l ++ 0 :: r.
Proof.
  intros Hs Hb. destruct (specs_cons sp l r) as (c & r' & Et & Hc). rewrite Et in Hb.
  assert (Hf : (length (spec_text sp) < S (length buf))%nat) by (rewrite Hb, !length_app; lia).
  assert (Hc0 : c = 44 \/ c = 0) by (destruct Hc as [[E _]|(-> & _)]; [left; lia|by right]).
  destruct (next_range ext agg buf ctr cnt ins sc sp pre c r' (S (length buf)) s e sv ev t ext_ok Hs Hb Hc0 Hf) as (sv' & ev' & E).
  unfold lws_ranges_next. cbn [r_buf at_]. rewrite E. destruct Hc as [[Ec ->]|(-> & -> & ->)].
  - exists (pre ++ spec_text sp ++ [44]), sv', ev'. rewrite Ec. assert (c = 44) as -> by lia. split.
    + do 3 f_equal. rewrite !zlen_app. change (zlen [44]) with 1. lia.
    + rewrite Hb. by rewrite <- !app_assoc.
  - exists (pre ++ spec_text sp), sv', ev'. split; [by rewrite Z.add_0_r|]. rewrite Hb. by rewrite <- app_assoc.
Qed.

Lemma issued_ok agg cnt r l : Forall (Satisfiable ext) l -> forall fuel pre s e sv ev t, buf = pre ++ specs_text l ++ 0 :: r ->
  (length l < fuel)%nat ->
  issued fuel (at_ ext agg buf ctr cnt ins sc LWSRS_FIRST (zlen pre) s e sv ev t) = Some (map (range_of ext) l).
Proof.
  induction 1 as [|sp l Hs _ IH]; intros fuel pre s e sv ev t Hb Hf; (destruct fuel as [|fuel]; [cbn in Hf; lia|]); cbn [issued].
  - destruct (no_more ext agg buf ctr cnt ins sc pre r s e sv ev t Hb) as (rp & -> & _). done.
  - destruct (next_of_specs agg cnt sp l pre r s e sv ev t Hs Hb) as (pre' & sv' & ev' & -> & Hb'). cbn [mbind option_bind].
    change (1 =? 1) with true. cbv iota. rewrite IH by (done || cbn in Hf; lia). cbn [mbind option_bind r_start r_end at_ map].
    by destruct (range_of ext sp).
Qed.

(** The number of bytes in all ranges. *)
Definition total (l : list spec) : Z := foldr (fun sp n => ((range_of ext sp).2 - (range_of ext sp).1 + 1) + n) 0 l.

Lemma u64_add a b c : u64 (u64 (a + u64 b) + c) = u64 (a + (b + c)).
Proof.
  unfold u64, wrap. rewrite Zplus_mod_idemp_l. replace (a + b mod 2 ^ 64 + c) with (a + c + b mod 2 ^ 64) by lia.
  rewrite Zplus_mod_idemp_r. f_equal. lia.
Qed.

Lemma count_ok r l : Forall (Satisfiable ext) l -> forall fuel pre agg cnt s e sv ev t, buf = pre ++ specs_text l ++ 0 :: r ->
  (length l < fuel)%nat -> 0 <= cnt -> cnt + zlen l < 128 ->
  exists rp, count_loop fuel (at_ ext agg buf ctr cnt ins sc LWSRS_FIRST (zlen pre) s e sv ev t) = Some rp /\
    lws_ranges_reset rp = at_ ext (if (0 <? zlen l) then u64 (agg + total l) else agg) buf 0 (cnt + zlen l) ins sc
      LWSRS_BYTES_EQ 0 0 0 false false (t || (0 <? zlen l)).
Proof.
  induction 1 as [|sp l Hs _ IH]; intros fuel pre agg cnt s e sv ev t Hb Hf Hc Hl; (destruct fuel as [|fuel]; [cbn in Hf; lia|]); cbn [count_loop].
  - destruct (no_more ext agg buf ctr cnt ins sc pre r s e sv ev t Hb) as (rp & -> & E1 & E2 & E3 & E4 & E5 & E6 & E7 & E8 & E9).
    exists rp. split; [done|]. destruct rp. cbn in *. subst. change (zlen []) with 0. rewrite !Z.add_0_r. by destruct t.
  - rewrite zlen_cons in Hl. pose proof (zlen_nonneg l).
    destruct (next_of_specs agg cnt sp l pre r s e sv ev t Hs Hb) as (pre' & sv' & ev' & -> & Hb'). cbn [mbind option_bind].
    change (1 =? 0) with false. cbv iota.
    set (agg' := u64 (agg + u64 ((range_of ext sp).2 - (range_of ext sp).1 + 1))).
    destruct (IH fuel pre' agg' (cnt + 1) (range_of ext sp).1 (range_of ext sp).2 sv' ev' true Hb') as (rp & E & Er); [cbn in Hf; lia|lia|lia|].
    exists rp. split.
    + rewrite <- E. unfold at_, agg'. cbn. do 2 f_equal. unfold s8, swrap. rewrite Z.mod_small; lia.
    + rewrite Er, zlen_cons. rewrite (proj2 (Z.ltb_lt 0 (1 + zlen l))), orb_true_r by lia. cbn [orb].
      f_equal; [|lia]. cbn [total foldr]. fold (total l). unfold agg'. destruct (0 <? zlen l) eqn:E0; [by rewrite u64_add|].
      zbool. assert (l = []) as -> by (destruct l; [done|]; rewrite zlen_cons in *; pose proof (zlen_nonneg l); lia). cbn [total foldr].
      rewrite Z.add_0_r. unfold u64, wrap. by rewrite Z.add_mod_idemp_r by done.
Qed.

(** From the start of the header. *)
Lemma next_from_start agg cnt sp l r t : Satisfiable ext sp -> buf = bstr "bytes=" ++ specs_text (sp :: l) ++ 0 :: r ->
  lws_ranges_next (at_ ext agg buf ctr cnt ins sc LWSRS_BYTES_EQ 0 0 0 false false t) =
  lws_ranges_next (at_ ext agg buf ctr cnt ins sc LWSRS_FIRST 6 0 0 false false t).
Proof.
  intros Hs Hb. unfold lws_ranges_next. cbn [r_buf at_].
  destruct (specs_cons sp l r) as (c & r' & Et & Hc). rewrite Et in Hb.
  assert (Hc0 : c = 44 \/ c = 0) by (destruct Hc as [[E _]|(-> & _)]; [left; lia|by right]).
  assert (Hl : S (length buf) = (6 + S (length (spec_text sp ++ c :: r')))%nat) by (by rewrite Hb, length_app).
  destruct (next_range ext agg buf ctr cnt ins sc sp (bstr "bytes=") c r' (S (length (spec_text sp ++ c :: r'))) 0 0 false false t ext_ok Hs Hb Hc0)
    as (sv' & ev' & E); [rewrite length_app; lia|]. change (zlen (bstr "bytes=")) with 6 in E.
  rewrite Hl. rewrite (next_loop_mono _ _ _ 6 E), <- E. rewrite Hb. apply bytes_word.
Qed.

End All.

Lemma specs_length l : (length l <= length (specs_text l))%nat.
Proof.
  assert (Hsp : forall sp, (1 <= length (spec_text sp))%nat) by (intros [a b|a|n]; cbn; rewrite ?length_app; cbn; lia).
  induction l as [|sp l IH]; [cbn; lia|]. pose proof (Hsp sp). destruct l as [|sp' l]; [cbn; lia|].
  change (specs_text (sp :: sp' :: l)) with (spec_text sp ++ 44 :: specs_text (sp' :: l)). rewrite length_app. cbn [length] in *. lia.
Qed.

Section Theorems.
Context {ctx : HttpCtx} {ctx_ok : HttpCtxOk ctx}.

(** C32: satisfiable ranges are served in their order.  When the Range header holds
    ranges of the forms a-b, a- and -n that lie inside of the resource,
    lws_ranges_init returns their number, adds up their lengths and stands at the
    first one; lws_ranges_next gives the others in the order of the header, each with
    the first and the last byte RFC 7233 says, and then no more. *)
Theorem ranges_served a rp ext sp l : Stored a WSI_TOKEN_HTTP_RANGE (range_text (sp :: l)) -> Forall (Satisfiable ext) (sp :: l) ->
  0 < ext < 2 ^ 64 -> zlen (r_buf rp) = 128 -> zlen (range_text (sp :: l)) < 128 ->
  exists rp', lws_ranges_init rp a ext = Some (rp', zlen (sp :: l)) /\ r_agg rp' = u64 (total ext (sp :: l)) /\
    (r_start rp', r_end rp') = range_of ext sp /\ issued 128 rp' = Some (map (range_of ext) l).
Proof.
  intros Hst Hs Hext Hb Hlen. pose proof (Forall_cons_1 _ _ _ Hs) as [Hsp Hl]. set (v := range_text (sp :: l)) in *.
  assert (Hv : v = bstr "bytes=" ++ specs_text (sp :: l)) by done.
  assert (Hpos : 0 < zlen v) by (rewrite Hv, zlen_app; change (zlen (bstr "bytes=")) with 6; pose proof (zlen_nonneg (specs_text (sp :: l))); lia).
  unfold lws_ranges_init. destruct rp as [s0 e0 x0 g0 buf0 p0 st0 sv0 ev0 c0 n0 t0 i0 k0]. cbn [r_buf] in Hb.
  cbv zeta. change (lws_hdr_copy a _ 128 WSI_TOKEN_HTTP_RANGE) with (lws_hdr_copy a buf0 128 WSI_TOKEN_HTTP_RANGE).
  rewrite (stored_copy a WSI_TOKEN_HTTP_RANGE v buf0 128 Hst) by lia. cbn [mbind option_bind].
  rewrite (proj2 (Z.leb_gt (zlen v) 0)) by done.
  assert (Hbuf : exists r, splice 0 (v ++ [0]) buf0 = bstr "bytes=" ++ specs_text (sp :: l) ++ 0 :: r).
  { eexists. unfold splice. cbn [take app]. rewrite Hv, <- !app_assoc. done. }
  destruct Hbuf as [r Hbuf]. rewrite Hbuf. set (buf := bstr "bytes=" ++ specs_text (sp :: l) ++ 0 :: r) in *.
  set (rp1 := _ : lws_range_parsing). assert (E1 : rp1 = at_ ext 0 buf 0 0 false 0 LWSRS_BYTES_EQ 0 0 0 false false false) by reflexivity.
  rewrite E1. clear rp1 E1. pose proof (specs_length (sp :: l)) as Hsl.
  assert (Hlb : (6 + length (specs_text (sp :: l)) < length buf)%nat) by (unfold buf; rewrite !length_app; change (length (bstr "bytes=")) with 6%nat; cbn [length]; lia).
  assert (Hz : zlen (sp :: l) < 122).
  { rewrite Hv, zlen_app in Hlen. change (zlen (bstr "bytes=")) with 6 in Hlen. unfold zlen in *. lia. }
  assert (Hcl : forall f, count_loop (S f) (at_ ext 0 buf 0 0 false 0 LWSRS_BYTES_EQ 0 0 0 false false false) =
    count_loop (S f) (at_ ext 0 buf 0 0 false 0 LWSRS_FIRST 6 0 0 false false false)).
  { intros f. cbn [count_loop]. by rewrite (next_from_start ext buf 0 false 0 Hext 0 0 sp l r false Hsp eq_refl). }
  rewrite Hcl. destruct (count_ok ext buf 0 false 0 Hext r (sp :: l) Hs (S (length buf)) (bstr "bytes=") 0 0 0 0 false false false eq_refl)
    as (rp2 & E2 & Er); [cbn [length] in *; lia|lia|lia|]. change (zlen (bstr "bytes=")) with 6 in E2. rewrite E2. cbn [mbind option_bind].
  rewrite Er. replace (0 <? zlen (sp :: l)) with true in * by (rewrite zlen_cons; pose proof (zlen_nonneg l); lia). cbn [orb] in *.
  rewrite !Z.add_0_l in *. cbn [did_try count_ranges at_ andb].
  rewrite (proj2 (Z.eqb_neq (zlen (sp :: l)) 0)) by (rewrite zlen_cons; pose proof (zlen_nonneg l); lia).
  rewrite (next_from_start ext buf 0 false 0 Hext _ _ sp l r true Hsp eq_refl).
  destruct (next_of_specs ext buf 0 false 0 Hext (u64 (total ext (sp :: l))) (zlen (sp :: l)) sp l (bstr "bytes=") r 0 0 false false true Hsp eq_refl)
    as (pre' & sv' & ev' & E3 & Hb3). change (zlen (bstr "bytes=")) with 6 in E3. rewrite E3. cbn [mbind option_bind].
  eexists. split; [done|]. split; [done|]. split; [by destruct (range_of ext sp)|].
  apply (issued_ok ext buf 0 false 0 Hext _ _ r l Hl); [done|]. rewrite zlen_cons in Hz. unfold zlen in Hz. lia.
Qed.

End Theorems.

(** ** Requests *)

(** The header table after a request with a Range header, and a parser's memory. *)
Definition table (v : bytes) : allocated_headers := ah (demo_after (demo_line ++ bstr "Range: " ++ v ++ crlf)).

Definition blank : lws_range_parsing :=
  mkRanges 0 0 0 0 (replicate 128 0) 0 LWSRS_NO_ACTIVE_RANGE false false 0 0 false false 0.

Definition demo_specs : list spec := [Onwards (bstr "9500"); FromTo (bstr "0") (bstr "499"); Last (bstr "500")].

Lemma ranges_served_witness : exists rp',
  lws_ranges_init blank (table (bstr "bytes=9500-,0-499,-500")) 10000 = Some (rp', 3) /\ r_agg rp' = 1500 /\
  (r_start rp', r_end rp') = (9500, 9999) /\ issued 128 rp' = Some [(0, 499); (9500, 9999)].
Proof.
  apply (ranges_served (ctx := demo_ctx) (ctx_ok := demo_ctx_ok) (table (bstr "bytes=9500-,0-499,-500")) blank 10000
    (Onwards (bstr "9500")) [FromTo (bstr "0") (bstr "499"); Last (bstr "500")]).
  - exists 3, 12. vm_compute. split_and!; try reflexivity; discriminate.
  - repeat constructor; try discriminate.
  - done.
  - reflexivity.
  - reflexivity.
Defined.

(** Result of the set-up, and all ranges that are given out. *)
Definition serve (v : bytes) (ext : Z) : option (Z * list (Z * Z)) :=
  '(rp, n) ← lws_ranges_init blank (table v) ext;
  l ← issued 128 rp;
  Some (n, if n >? 0 then (r_start rp, r_end rp) :: l else []).

(** Where the parser of ranges goes wrong.  A last byte behind the end of the
    resource is not cut down to it.  After a range that is skipped, the first
    character of the next one is skipped too, so 30-31 becomes 0-31.  For an empty
    resource the last five bytes are all 2^64.  Another unit than bytes counts as one
    range.  A header of 127 bytes whose last range is skipped makes the parser read
    behind its buffer of 128. *)
Lemma ranges_gaps :
  serve (bstr "bytes=0-9999") 100 = Some (1, [(0, 9999)]) /\
  serve (bstr "bytes=5-2,30-31") 10000 = Some (1, [(0, 31)]) /\
  serve (bstr "bytes=-5") 0 = Some (1, [(0, 2 ^ 64 - 1)]) /\
  serve (bstr "items=0-1") 100 = Some (1, [(0, 0)]) /\
  (zlen (bstr "bytes=" ++ replicate 117 48 ++ bstr "5-2,") = 127 /\
   serve (bstr "bytes=" ++ replicate 117 48 ++ bstr "5-2,") 100 = None).
Proof. vm_compute. split_and!; reflexivity. Qed.

End RangesProps.
