(* ===== verification/HeaderPool.v ===== *)
(** * The pool of header tables (lib/parsers.c)

    Each service thread has a fixed number of header tables.  A connection that wants
    to parse headers attaches one; when all are in use it goes on a list of waiting
    connections and stops reading from its socket.  A connection that is done
    detaches its table, which goes to the connection that has waited longest.

    The list is the one of the C code: a pointer in the thread ([pt_ah_wait_list]) and
    one in every connection ([w_ah_wait_list]), walked with a pointer to such a pointer
    ([link]).  Pointers to connections are keys of [pt_wsis]; a key that is not there
    is a freed connection.  [None] stands for an access to a freed or null object, an
    index out of range, a failed assert (unless NDEBUG is set) or a walk that does not
    end; a walk has as many rounds as there are connections, and one more.

    Connections are those of a server: none is in the state LWSS_CLIENT_UNCONNECTED. *)

From stdpp Require Import gmap.
From S2P Require Import Prelude Ws HttpHdr.

Module HeaderPool.
Import Hdr.

(** ** Data *)

(** struct _lws_header_related and the index of struct lws, for the pool. *)
Record wsi := mkWsi {
  w_ah : option nat;                 (* u.hdr.ah: index in the pool *)
  w_ah_wait_list : option Z;
  preamble_rx : option bytes;
  position_in_fds_table : Z
}.

(** struct allocated_headers: the part beside the headers themselves. *)
Record slot := mkSlot {
  s_wsi : option Z;
  in_use : bool;
  assigned : Z;
  rx : bytes;
  rxpos : Z;
  rxlen : Z;
  headers : allocated_headers
}.

(** struct lws_context_per_thread *)
Record pt := mkPt {
  pt_wsis : gmap Z wsi;
  pt_fds : list Z;                   (* fds[].events *)
  ah_pool : list slot;
  pt_ah_wait_list : option Z;
  ah_wait_list_length : Z;
  ah_count_in_use : Z
}.

(** The clock, the service of a connection that has read ahead, the size of the pool
    and the build. *)
Class PoolEnv := {
  time : pt -> Z;
  lws_service_fd_tsi : pt -> Z -> option pt;
  max_http_header_pool : nat;
  ndebug : bool
}.

(** Conversion to a short, the type of the counter of tables. *)
Definition s16 (x : Z) : Z := swrap 16 x.

(** Size of the buffer [rx] of a table. *)
Definition RX_SIZE : Z := 2048.

(** ** Pointers *)

(** A place that holds a pointer to a waiting connection. *)
Inductive link := LHead | LNext (id : Z).

Definition get_link (p : pt) (l : link) : option (option Z) :=
  match l with
  | LHead => Some (pt_ah_wait_list p)
  | LNext id => w ← pt_wsis p !! id; Some (w_ah_wait_list w)
  end.

Definition upd_wsi (p : pt) (id : Z) (f : wsi -> wsi) : option pt :=
  w ← pt_wsis p !! id; Some (p {{ pt_wsis ::= <[id := f w]> }}).

Definition set_link (p : pt) (l : link) (v : option Z) : option pt :=
  match l with
  | LHead => Some (p {{ pt_ah_wait_list := v }})
  | LNext id => upd_wsi p id (fun w => w {{ w_ah_wait_list := v }})
  end.

Definition upd_slot (p : pt) (n : nat) (f : slot -> slot) : option pt :=
  s ← ah_pool p !! n; Some (p {{ ah_pool ::= <[n := f s]> }}).

Definition fuel_of (p : pt) : nat := S (size (pt_wsis p)).

(** The place that points to [id]: [Some None] when the list does not have it. *)
Fixpoint find_link (fuel : nat) (p : pt) (l : link) (id : Z) : option (option link) :=
  match fuel with
  | O => None
  | S fuel =>
      v ← get_link p l;
      match v with
      | None => Some None
      | Some x => if x =? id then Some (Some l) else find_link fuel p (LNext x) id
      end
  end.

(** [while (( *pwsi)->u.hdr.ah_wait_list) pwsi = &( *pwsi)->u.hdr.ah_wait_list;] *)
Fixpoint last_link (fuel : nat) (p : pt) (l : link) : option link :=
  match fuel with
  | O => None
  | S fuel =>
      v ← get_link p l;
      match v with
      | None => None
      | Some x =>
          w ← pt_wsis p !! x;
          match w_ah_wait_list w with
          | None => Some l
          | Some _ => last_link fuel p (LNext x)
          end
      end
  end.

(** Takes [id], to which [l] points, off the list. *)
Definition take_off (p : pt) (l : link) (id : Z) : option pt :=
  w ← pt_wsis p !! id;
  p ← set_link p l (w_ah_wait_list w);
  p ← upd_wsi p id (fun w => w {{ w_ah_wait_list := None }});
  Some (p {{ ah_wait_list_length ::= (fun n => s32 (n - 1)) }}).

Section Pool.
Context `{PoolEnv}.

Definition assert (b : bool) : option unit := if b || ndebug then Some tt else None.

(** _lws_change_pollfd (pollfd.c); its result is not used here. *)
Definition lws_change_pollfd (p : pt) (id _and _or : Z) : option pt :=
  w ← pt_wsis p !! id;
  let n := position_in_fds_table w in
  if n <? 0 then Some p else
  e ← pt_fds p !! Z.to_nat n;
  Some (p {{ pt_fds ::= <[Z.to_nat n := (e .& Z.lnot _and) .| _or]> }}).

(** ** Reset *)

Definition lws_header_table_reset (p : pt) (id : Z) (autoservice : bool) : option pt :=
  w ← pt_wsis p !! id;
  n ← w_ah w;
  s ← ah_pool p !! n;
  _ ← assert (bool_decide (s_wsi s = Some id));
  p ← upd_slot p n (fun s => s {{ headers ::= _lws_header_table_reset }});
  match preamble_rx w with
  | None => Some p
  | Some b =>
      r ← store (rx s) 0 b;
      p ← upd_slot p n (fun s => s {{ rx := r; rxlen := zlen b }});
      p ← upd_wsi p id (fun w => w {{ preamble_rx := None }});
      if autoservice then lws_service_fd_tsi p id else Some p
  end.

(** The label reset and what follows: the same at the end of attach and, for the
    connection that waited, of detach. *)
Definition restart (p : pt) (id : Z) (autoservice : bool) : option pt :=
  w ← pt_wsis p !! id;
  n ← w_ah w;
  p ← upd_slot p n (fun s => s {{ rxpos := 0; rxlen := 0 }});
  p ← lws_header_table_reset p id autoservice;
  w ← pt_wsis p !! id;
  n ← w_ah w;
  let now := time p in
  upd_slot p n (fun s => s {{ assigned := now }}).

(** ** Attach *)

(** The first table that is not in use. *)
Definition first_free (l : list slot) : option nat := fst <$> list_find (fun s => in_use s = false) l.

Definition pool_full (p : pt) : bool := ah_count_in_use p =? Z.of_nat max_http_header_pool.

(** To the front of the list; the socket is not read from any more. *)
Definition wait (p : pt) (id : Z) : option pt :=
  p ← upd_wsi p id (fun w => w {{ w_ah_wait_list := pt_ah_wait_list p }});
  let p := p {{ pt_ah_wait_list := Some id; ah_wait_list_length ::= (fun n => s32 (n + 1)) }} in
  lws_change_pollfd p id LWS_POLLIN 0.

Definition take_free (p : pt) (id : Z) : option pt :=
  n ← first_free (ah_pool p);
  p ← upd_wsi p id (fun w => w {{ w_ah := Some n }});
  p ← upd_slot p n (fun s => s {{ in_use := true; s_wsi := Some id }});
  let p := p {{ ah_count_in_use ::= (fun n => s16 (n + 1)) }} in
  lws_change_pollfd p id 0 LWS_POLLIN.

Definition lws_header_table_attach (p : pt) (id : Z) (autoservice : bool) : option (pt * Z) :=
  w ← pt_wsis p !! id;
  match w_ah w with
  | Some _ => p ← restart p id autoservice; Some (p, 0)
  | None =>
      l ← find_link (fuel_of p) p LHead id;
      if match l with Some _ => pool_full p | None => false end then Some (p, 1) else
      p ← (match l with None => Some p | Some l => take_off p l id end);
      if pool_full p then p ← wait p id; Some (p, 1)
      else
        p ← take_free p id;
        p ← restart p id autoservice;
        Some (p, 0)
  end.

(** ** Detach *)

(** The table [n] goes to the connection that has waited longest, the last one of
    the list. *)
Definition hand_over (p : pt) (n : nat) (autoservice : bool) : option pt :=
  l ← last_link (fuel_of p) p LHead;
  v ← get_link p l;
  id ← v;
  p ← upd_wsi p id (fun w => w {{ w_ah := Some n }});
  p ← upd_slot p n (fun s => s {{ s_wsi := Some id }});
  p ← restart p id autoservice;
  w ← pt_wsis p !! id;
  p ← (if position_in_fds_table w =? -1 then Some p else lws_change_pollfd p id 0 LWS_POLLIN);
  p ← take_off p l id;
  _ ← assert (bool_decide (nz (ah_wait_list_length p) = match pt_ah_wait_list p with Some _ => true | None => false end));
  Some p.

Definition lws_header_table_detach (p : pt) (id : Z) (autoservice : bool) : option pt :=
  p ← upd_wsi p id (fun w => w {{ preamble_rx := None }});
  w ← pt_wsis p !! id;
  match w_ah w with
  | None =>
      l ← find_link (fuel_of p) p LHead id;
      match l with None => Some p | Some l => take_off p l id end
  | Some n =>
      s ← ah_pool p !! n;
      if negb (rxpos s =? rxlen s) then _ ← assert false; Some p else
      p ← upd_slot p n (fun s => s {{ assigned := 0 }});
      _ ← assert (ah_count_in_use p >? 0);
      _ ← assert (in_use s);
      p ← upd_wsi p id (fun w => w {{ w_ah := None }});
      p ← upd_slot p n (fun s => s {{ s_wsi := None }});
      match pt_ah_wait_list p with
      | None =>
          p ← upd_slot p n (fun s => s {{ in_use := false }});
          Some (p {{ ah_count_in_use ::= (fun n => s16 (n - 1)) }})
      | Some _ => hand_over p n autoservice
      end
  end.

(** ** The callers *)

(** [ah->rxpos = ah->rxlen], "losing some rx is OK", before a detach. *)
Definition drop_rx (p : pt) (id : Z) : option pt :=
  w ← pt_wsis p !! id;
  match w_ah w with
  | None => Some p
  | Some n => upd_slot p n (fun s => s {{ rxpos := rxlen s }})
  end.

(** The end of a request (server.c, label bail_nuke_ah). *)
Definition bail_nuke_ah (p : pt) (id : Z) : option pt :=
  p ← drop_rx p id; lws_header_table_detach p id true.

(** The end of a connection: lws_close_free_wsi drops the unread bytes, lws_free_wsi
    detaches and frees. *)
Definition lws_free_wsi (p : pt) (id : Z) : option pt :=
  p ← drop_rx p id;
  p ← lws_header_table_detach p id false;
  Some (p {{ pt_wsis ::= delete id }}).

(** A new connection at [pos] in the table of sockets. *)
Definition new_wsi (p : pt) (id pos : Z) : option pt :=
  match pt_wsis p !! id with
  | Some _ => None
  | None => Some (p {{ pt_wsis ::= <[id := mkWsi None None None pos]> }})
  end.

(** Bytes of the socket [id] are read into the buffer of its table. *)
Definition read_rx (p : pt) (id : Z) (b : bytes) : option pt :=
  w ← pt_wsis p !! id;
  n ← w_ah w;
  s ← ah_pool p !! n;
  r ← store (rx s) 0 b;
  upd_slot p n (fun s => s {{ rx := r; rxpos := 0; rxlen := zlen b }}).

(** lws_adopt_socket_readbuf: the bytes that came with the connection. *)
Definition adopt_socket_readbuf (p : pt) (id : Z) (readbuf : bytes) : option (pt * bool) :=
  if zlen readbuf =? 0 then Some (p, true) else
  if zlen readbuf >? RX_SIZE then p ← lws_free_wsi p id; Some (p, false) else
  w ← pt_wsis p !! id;
  '(p, r) ← (match w_ah w with Some _ => Some (p, 0) | None => lws_header_table_attach p id false end);
  if r =? 0 then
    p ← read_rx p id readbuf;
    p ← lws_service_fd_tsi p id;
    Some (p, bool_decide (is_Some (pt_wsis p !! id)))
  else
    p ← upd_wsi p id (fun w => w {{ preamble_rx := Some readbuf }});
    Some (p, true).

End Pool.

(** context.c: all tables free. *)
Definition new_slot (data_len : nat) : slot :=
  mkSlot None false 0 (replicate 2048 0) 0 0
    (mkAh (replicate data_len 0) (replicate 176 (mkFrag 0 0 0)) (replicate 88 0) 0 0 0).

Definition new_pt (pool data_len : nat) (fds : list Z) : pt :=
  mkPt ∅ fds (replicate pool (new_slot data_len)) None 0 0.

End HeaderPool.
