(* ===== verification/HeaderPoolFacts.v ===== *)
(** * The invariant of the header table pool

    The list of waiting connections as a sequence, the ownership of the tables, and
    what each primitive operation does to them. *)

From stdpp Require Import gmap.
From S2P Require Import Prelude Ws HttpHdr HeaderPool.

Module HeaderPoolFacts.
Export HeaderPool.
Import Hdr.

(** ** Counting *)

Definition used (l : list slot) : list slot := filter (fun s => in_use s = true) l.
#[global] Arguments used : simpl never.

Lemma used_insert l n s s' : l !! n = Some s ->
  zlen (used (<[n := s']> l)) = zlen (used l) - b2z (in_use s) + b2z (in_use s').
Proof.
  intros Hn. rewrite <- (take_drop_middle l n s Hn) at 2. rewrite insert_take_drop by (by eapply lookup_lt_Some).
  unfold used. rewrite !filter_app, !filter_cons, !zlen_app. unfold b2z.
  destruct (in_use s), (in_use s'); repeat case_decide; try done; rewrite ?zlen_cons; lia.
Qed.

Lemma used_le l : zlen (used l) <= zlen l.
Proof. unfold zlen, used. pose proof (length_filter (fun s => in_use s = true) l). lia. Qed.

Lemma first_free_some l : zlen (used l) < zlen l -> exists n s, first_free l = Some n /\ l !! n = Some s /\ in_use s = false.
Proof.
  intros Hl. unfold first_free. destruct (list_find _ l) as [[n s]|] eqn:E.
  - apply list_find_Some in E as (Hn & Hu & _). by exists n, s.
  - exfalso. apply list_find_None in E. assert (Ha : used l = l).
    { unfold used. clear Hl. induction l as [|s l IH]; [done|]. apply Forall_cons in E as [Es El].
      rewrite filter_cons. destruct (in_use s); [|done]. rewrite decide_True by done. f_equal. by apply IH. }
    rewrite Ha in Hl. lia.
Qed.

(** ** The invariant *)

Definition SlotOk (data_len : Z) (s : slot) : Prop :=
  zlen (rx s) = RX_SIZE /\ zlen (data (headers s)) = data_len /\ zlen (frags (headers s)) = NFRAGS.

Definition WsiOk (fds : list Z) (w : wsi) : Prop :=
  position_in_fds_table w < zlen fds /\ match preamble_rx w with Some b => zlen b <= RX_SIZE | None => True end.

Section Inv.
Context `{PoolEnv} (data_len : Z).

(** The state of the thread with [q] on the list, from the one that came last to the
    one that has waited longest; the table [lost] is in use but has no owner. *)
Record Core (p : pt) (q : list Z) (lost : option nat) : Prop := {
  c_pool : length (ah_pool p) = max_http_header_pool;
  c_max : Z.of_nat max_http_header_pool < 2 ^ 15;
  c_own id w n : pt_wsis p !! id = Some w -> w_ah w = Some n ->
    exists s, ah_pool p !! n = Some s /\ in_use s = true /\ s_wsi s = Some id;
  c_slot n s : ah_pool p !! n = Some s -> in_use s = true -> lost <> Some n ->
    exists id w, s_wsi s = Some id /\ pt_wsis p !! id = Some w /\ w_ah w = Some n;
  c_lost n : lost = Some n -> exists s, ah_pool p !! n = Some s /\ in_use s = true /\
    forall id w, pt_wsis p !! id = Some w -> w_ah w <> Some n;
  c_count : ah_count_in_use p = zlen (used (ah_pool p));
  c_head : pt_ah_wait_list p = q !! 0%nat;
  c_next i x : q !! i = Some x -> exists w, pt_wsis p !! x = Some w /\ w_ah_wait_list w = q !! S i;
  c_nodup : NoDup q;
  c_len : ah_wait_list_length p = zlen q;
  c_conns : Z.of_nat (size (pt_wsis p)) < 2 ^ 31;
  c_slots : Forall (SlotOk data_len) (ah_pool p);
  c_wsis : map_Forall (fun _ w => WsiOk (pt_fds p) w) (pt_wsis p)
}.

(** Between the operations: who waits has no table, and nobody waits while a table
    is free. *)
Record PoolInv (p : pt) (q : list Z) : Prop := {
  pi_core : Core p q None;
  pi_wait x w : x ∈ q -> pt_wsis p !! x = Some w -> w_ah w = None;
  pi_full : q <> [] -> ah_count_in_use p = Z.of_nat max_http_header_pool
}.

Lemma queue_known p q lost x : Core p q lost -> x ∈ q -> exists w, pt_wsis p !! x = Some w.
Proof. intros C Hx. apply list_elem_of_lookup in Hx as [i Hi]. destruct (c_next _ _ _ C i x Hi) as (w & Hw & _). by exists w. Qed.

Lemma queue_size p q lost : Core p q lost -> (length q <= size (pt_wsis p))%nat.
Proof.
  intros C. rewrite <- (size_list_to_set (C := gset Z) q) by apply C. rewrite <- size_dom. apply subseteq_size.
  intros x Hx. apply elem_of_list_to_set in Hx. apply elem_of_dom. destruct (queue_known _ _ _ _ C Hx) as [w Hw]. by exists w.
Qed.

(** ** Walking the list *)

Definition link_at (q : list Z) (i : nat) : link :=
  match i with
  | O => LHead
  | S j => match q !! j with Some x => LNext x | None => LHead end
  end.

Lemma get_link_at p q lost i : Core p q lost -> (i <= length q)%nat -> get_link p (link_at q i) = Some (q !! i).
Proof.
  intros C Hi. destruct i as [|j]; cbn; [by rewrite (c_head _ _ _ C)|].
  destruct (lookup_lt_is_Some_2 q j) as [x Hx]; [lia|]. rewrite Hx. cbn.
  destruct (c_next _ _ _ C j x Hx) as (w & -> & E). cbn. by rewrite E.
Qed.

Lemma link_at_next q i x : q !! i = Some x -> LNext x = link_at q (S i).
Proof. intros E. cbn. by rewrite E. Qed.

Lemma find_link_some p q lost id j : Core p q lost -> q !! j = Some id -> forall fuel i, (i <= j)%nat -> (j - i < fuel)%nat ->
  find_link fuel p (link_at q i) id = Some (Some (link_at q j)).
Proof.
  intros C Hj. pose proof (lookup_lt_Some _ _ _ Hj) as Hl.
  induction fuel as [|fuel IH]; intros i Hi Hf; [lia|]. cbn [find_link]. rewrite (get_link_at p q lost) by (done || lia).
  cbn [mbind option_bind]. destruct (lookup_lt_is_Some_2 q i) as [x Hx]; [lia|]. rewrite Hx. destruct (x =? id) eqn:E; zbool.
  - subst. by rewrite (NoDup_lookup _ _ _ _ (c_nodup _ _ _ C) Hx Hj).
  - rewrite (link_at_next q i x Hx). assert (i <> j) by (intros ->; congruence). apply IH; lia.
Qed.

Lemma find_link_none p q lost id : Core p q lost -> (id ∉ q) -> forall fuel i, (i <= length q)%nat -> (length q - i < fuel)%nat ->
  find_link fuel p (link_at q i) id = Some None.
Proof.
  intros C Hn. induction fuel as [|fuel IH]; intros i Hi Hf; [lia|]. cbn [find_link]. rewrite (get_link_at p q lost) by done.
  cbn [mbind option_bind]. destruct (q !! i) as [x|] eqn:Hx; [|done]. pose proof (lookup_lt_Some _ _ _ Hx).
  rewrite (proj2 (Z.eqb_neq x id)) by (intros ->; apply Hn; by eapply list_elem_of_lookup_2).
  rewrite (link_at_next q i x Hx). apply IH; lia.
Qed.

(** The search as the operations use it. *)
Lemma find_ok p q lost id : Core p q lost ->
  (exists j, q !! j = Some id /\ find_link (fuel_of p) p LHead id = Some (Some (link_at q j))) \/
  ((id ∉ q) /\ find_link (fuel_of p) p LHead id = Some None).
Proof.
  intros C. pose proof (queue_size _ _ _ C). unfold fuel_of. change LHead with (link_at q 0).
  destruct (decide (id ∈ q)) as [Hin|Hn]; [left|right].
  - apply list_elem_of_lookup in Hin as [j Hj]. exists j. split; [done|]. pose proof (lookup_lt_Some _ _ _ Hj).
    eapply find_link_some; [done|done|lia|lia].
  - split; [done|]. eapply find_link_none; [done|done|lia|lia].
Qed.

Lemma last_link_ok p q lost j id : Core p q lost -> q !! j = Some id -> S j = length q -> forall fuel i, (i <= j)%nat -> (j - i < fuel)%nat ->
  last_link fuel p (link_at q i) = Some (link_at q j).
Proof.
  intros C Hj Hl. induction fuel as [|fuel IH]; intros i Hi Hf; [lia|]. cbn [last_link]. rewrite (get_link_at p q lost) by (done || lia).
  cbn [mbind option_bind]. destruct (lookup_lt_is_Some_2 q i) as [x Hx]; [lia|]. rewrite Hx.
  destruct (c_next _ _ _ C i x Hx) as (w & -> & E). cbn [mbind option_bind]. rewrite E. destruct (q !! S i) as [y|] eqn:Hy.
  - pose proof (lookup_lt_Some _ _ _ Hy). rewrite (link_at_next q i x Hx). apply IH; lia.
  - apply lookup_ge_None in Hy. by replace j with i by lia.
Qed.

(** ** The primitive operations *)

(** The table of a connection and its bytes read ahead; [None] for no connection. *)
Definition ah_of (p : pt) (x : Z) : option (option nat) := w_ah <$> pt_wsis p !! x.
Definition pre_of (p : pt) (x : Z) : option (option bytes) := preamble_rx <$> pt_wsis p !! x.

(** Nobody gains or loses a table, or bytes read ahead. *)
Definition Frame (p p' : pt) : Prop :=
  (forall x, ah_of p' x = ah_of p x) /\ (forall x, pre_of p' x = pre_of p x) /\ ah_count_in_use p' = ah_count_in_use p.

#[global] Instance frame_pre : PreOrder Frame.
Proof. split; [done|]. intros a b c (F1 & F2 & F3) (G1 & G2 & G3). split_and!; congruence. Qed.

Lemma fmap_insert_same {A} (f : wsi -> A) (m : gmap Z wsi) id w w' x : m !! id = Some w -> f w' = f w ->
  f <$> <[id := w']> m !! x = f <$> m !! x.
Proof. intros Hw E. destruct (decide (x = id)) as [->|]; [by rewrite lookup_insert_eq, Hw; cbn; rewrite E|by rewrite lookup_insert_ne]. Qed.

Lemma size_insert_same (m : gmap Z wsi) id w w' : m !! id = Some w -> size (<[id := w']> m) = size m.
Proof. intros Hw. by apply map_size_insert_Some. Qed.

Lemma slot_step p q lost n s f : Core p q lost -> ah_pool p !! n = Some s ->
  in_use (f s) = in_use s -> s_wsi (f s) = s_wsi s -> SlotOk data_len (f s) ->
  exists p', upd_slot p n f = Some p' /\ Core p' q lost /\ pt_wsis p' = pt_wsis p /\
    ah_pool p' = <[n := f s]> (ah_pool p) /\ ah_count_in_use p' = ah_count_in_use p.
Proof.
  intros C Hn Hu Ho Hs. unfold upd_slot. rewrite Hn. cbn [mbind option_bind]. eexists. split; [done|].
  assert (Hlook : forall m t, <[n := f s]> (ah_pool p) !! m = Some t ->
    exists t0, ah_pool p !! m = Some t0 /\ in_use t = in_use t0 /\ s_wsi t = s_wsi t0).
  { intros m t Hm. apply list_lookup_insert_Some in Hm as [(-> & <- & _)|[_ Hm]]; [by exists s|by exists t]. }
  assert (Hget : forall m t0, ah_pool p !! m = Some t0 ->
    exists t, <[n := f s]> (ah_pool p) !! m = Some t /\ in_use t = in_use t0 /\ s_wsi t = s_wsi t0).
  { intros m t0 Hm. destruct (decide (m = n)) as [->|].
    - exists (f s). rewrite list_lookup_insert_eq by (by eapply lookup_lt_Some). naive_solver.
    - exists t0. by rewrite list_lookup_insert_ne. }
  destruct p as [ws fds pool hd len cnt], C. cbn in *. split; [|done]. constructor; cbn; try done.
  - by rewrite length_insert.
  - intros id w m Hw Ha. destruct (c_own0 id w m Hw Ha) as (t0 & Ht & Hi & Hx). destruct (Hget m t0 Ht) as (t & ? & ? & ?).
    exists t. split_and!; congruence.
  - intros m t Hm Hi Hl. destruct (Hlook m t Hm) as (t0 & Ht & E1 & E2). rewrite E2. apply (c_slot0 m t0); congruence.
  - intros m Hm. destruct (c_lost0 m Hm) as (t0 & Ht & Hi & Hx). destruct (Hget m t0 Ht) as (t & ? & ? & ?).
    exists t. split_and!; [congruence|congruence|exact Hx].
  - rewrite (used_insert _ _ s) by done. rewrite Hu. lia.
  - by apply Forall_insert.
Qed.

Lemma wsi_step p q lost id w f : Core p q lost -> pt_wsis p !! id = Some w ->
  w_ah (f w) = w_ah w -> w_ah_wait_list (f w) = w_ah_wait_list w -> WsiOk (pt_fds p) (f w) ->
  exists p', upd_wsi p id f = Some p' /\ Core p' q lost /\ pt_wsis p' = <[id := f w]> (pt_wsis p) /\
    ah_pool p' = ah_pool p /\ pt_fds p' = pt_fds p /\ ah_count_in_use p' = ah_count_in_use p.
Proof.
  intros C Hw Ha Hn Hok. unfold upd_wsi. rewrite Hw. cbn [mbind option_bind]. eexists. split; [done|].
  assert (Hlook : forall x v, <[id := f w]> (pt_wsis p) !! x = Some v -> exists v0, pt_wsis p !! x = Some v0 /\ w_ah v = w_ah v0).
  { intros x v Hx. apply lookup_insert_Some in Hx as [(<- & <-)|[_ Hx]]; [by exists w|by exists v]. }
  assert (Hget : forall x v0, pt_wsis p !! x = Some v0 ->
    exists v, <[id := f w]> (pt_wsis p) !! x = Some v /\ w_ah v = w_ah v0 /\ w_ah_wait_list v = w_ah_wait_list v0).
  { intros x v0 Hx. destruct (decide (x = id)) as [->|].
    - exists (f w). rewrite lookup_insert_eq. naive_solver.
    - exists v0. by rewrite lookup_insert_ne. }
  destruct p as [ws fds pool hd len cnt], C. cbn in *. split; [|done]. constructor; cbn; try done.
  - intros x v m Hx Hv. destruct (Hlook x v Hx) as (v0 & ? & ?). apply (c_own0 x v0); congruence.
  - intros m t Hm Hi Hl. destruct (c_slot0 m t Hm Hi Hl) as (x & v0 & ? & Hx & ?). destruct (Hget x v0 Hx) as (v & ? & ? & ?).
    exists x, v. split_and!; congruence.
  - intros m Hm. destruct (c_lost0 m Hm) as (t & ? & ? & Hx). exists t. split_and!; try done. intros x v Hv.
    destruct (Hlook x v Hv) as (v0 & ? & ->). by apply (Hx x).
  - intros i x Hi. destruct (c_next0 i x Hi) as (v0 & Hv & Hq). destruct (Hget x v0 Hv) as (v & ? & ? & ?).
    exists v. split; congruence.
  - by rewrite (size_insert_same _ _ w).
  - by apply map_Forall_insert_2.
Qed.

Lemma pollfd_step p q lost id w a o : Core p q lost -> pt_wsis p !! id = Some w ->
  exists p', lws_change_pollfd p id a o = Some p' /\ Core p' q lost /\ pt_wsis p' = pt_wsis p /\
    ah_pool p' = ah_pool p /\ ah_count_in_use p' = ah_count_in_use p.
Proof.
  intros C Hw. unfold lws_change_pollfd. rewrite Hw. cbn [mbind option_bind].
  destruct (position_in_fds_table w <? 0) eqn:E; zbool; [by exists p|].
  pose proof (c_wsis _ _ _ C id w Hw) as [Hpos _].
  destruct (lookup_lt_is_Some_2 (pt_fds p) (Z.to_nat (position_in_fds_table w))) as [e He]; [unfold zlen in Hpos; lia|].
  rewrite He. cbn [mbind option_bind]. eexists. split; [done|].
  destruct p as [ws fds pool hd len cnt], C. cbn in *. split; [|done]. constructor; cbn; try done.
  intros x v Hx. destruct (c_wsis0 x v Hx). split; [|done]. unfold zlen in *. by rewrite length_insert.
Qed.

(** ** Changing the list *)

(** What the list does not touch of a connection. *)
Definition obs (w : wsi) := (w_ah w, preamble_rx w, position_in_fds_table w).

Lemma relink p q lost ws' hd' len' q' : Core p q lost ->
  (forall x, obs <$> ws' !! x = obs <$> pt_wsis p !! x) -> hd' = q' !! 0%nat ->
  (forall i x, q' !! i = Some x -> exists w, ws' !! x = Some w /\ w_ah_wait_list w = q' !! S i) ->
  NoDup q' -> len' = zlen q' ->
  Core (mkPt ws' (pt_fds p) (ah_pool p) hd' len' (ah_count_in_use p)) q' lost /\
  Frame p (mkPt ws' (pt_fds p) (ah_pool p) hd' len' (ah_count_in_use p)).
Proof.
  intros C Hobs Hh Hn Hd Hl.
  assert (Hlook : forall x v, ws' !! x = Some v -> exists v0, pt_wsis p !! x = Some v0 /\ obs v = obs v0).
  { intros x v Hx. specialize (Hobs x). rewrite Hx in Hobs. destruct (pt_wsis p !! x) as [v0|]; [|done].
    exists v0. split; [done|]. cbn in Hobs. congruence. }
  assert (Hget : forall x v0, pt_wsis p !! x = Some v0 -> exists v, ws' !! x = Some v /\ obs v = obs v0).
  { intros x v0 Hx. specialize (Hobs x). rewrite Hx in Hobs. destruct (ws' !! x) as [v|]; [|done].
    exists v. split; [done|]. cbn in Hobs. congruence. }
  assert (Hsize : size ws' = size (pt_wsis p)).
  { rewrite <- !(size_dom (D := gset Z)). f_equal. apply set_eq. intros x. rewrite !elem_of_dom. specialize (Hobs x).
    destruct (ws' !! x), (pt_wsis p !! x); done. }
  split.
  - destruct C. constructor; cbn; try done.
    + intros x v m Hx Hv. destruct (Hlook x v Hx) as (v0 & ? & [= E _ _]). apply (c_own0 x v0); congruence.
    + intros m t Hm Hi Hlo. destruct (c_slot0 m t Hm Hi Hlo) as (x & v0 & ? & Hx & ?).
      destruct (Hget x v0 Hx) as (v & ? & [= E _ _]). exists x, v. split_and!; congruence.
    + intros m Hm. destruct (c_lost0 m Hm) as (t & ? & ? & Hx). exists t. split_and!; try done. intros x v Hv.
      destruct (Hlook x v Hv) as (v0 & ? & [= -> _ _]). by apply (Hx x).
    + by rewrite Hsize.
    + intros x v Hx. destruct (Hlook x v Hx) as (v0 & Hx0 & [= _ E1 E2]). destruct (c_wsis0 x v0 Hx0). split; rewrite ?E1, ?E2; done.
  - split_and!; [| |done]; intros x; unfold ah_of, pre_of; cbn; specialize (Hobs x);
      destruct (ws' !! x) as [v|], (pt_wsis p !! x) as [v0|]; cbn in *; try done; injection Hobs; congruence.
Qed.

Lemma obs_insert (m : gmap Z wsi) id w w' x : m !! id = Some w -> obs w' = obs w -> obs <$> <[id := w']> m !! x = obs <$> m !! x.
Proof. apply fmap_insert_same. Qed.

Lemma s16_len n : 0 <= n < 2 ^ 15 -> s16 n = n.
Proof. intros Hn. unfold s16, swrap. rewrite Z.mod_small; lia. Qed.

Lemma wait_step p q lost id w : Core p q lost -> pt_wsis p !! id = Some w -> (id ∉ q) ->
  exists p', wait p id = Some p' /\ Core p' (id :: q) lost /\ Frame p p'.
Proof.
  intros C Hw Hn. pose proof (queue_size _ _ _ C) as Hq. pose proof (c_conns _ _ _ C) as Hc.
  assert (Hl : (length q < size (pt_wsis p))%nat).
  { rewrite <- (size_dom (D := gset Z)).
    apply (Nat.lt_le_trans _ (length (id :: q))); [cbn; lia|]. rewrite <- (size_list_to_set (C := gset Z) (id :: q)) by (constructor; [done|apply C]).
    apply subseteq_size. intros x Hx. apply elem_of_list_to_set, elem_of_cons in Hx. apply elem_of_dom.
    destruct Hx as [->|Hx]; [by exists w|]. destruct (queue_known _ _ _ _ C Hx) as [v Hv]. by exists v. }
  unfold wait, upd_wsi. rewrite Hw. cbn [mbind option_bind].
  destruct (relink p q lost (<[id := w {{ w_ah_wait_list := pt_ah_wait_list p }}]> (pt_wsis p)) (Some id)
    (s32 (ah_wait_list_length p + 1)) (id :: q) C) as [C' F]; try done.
  - intros x. apply (obs_insert _ _ w); [done|by destruct w].
  - intros i x Hi. destruct i as [|i]; cbn in *.
    + injection Hi as <-. rewrite lookup_insert_eq. eexists. split; [done|]. destruct w. cbn. apply C.
    + assert (x <> id) by (intros ->; apply Hn; by eapply list_elem_of_lookup_2). rewrite lookup_insert_ne by done. by apply C.
  - constructor; [done|apply C].
  - rewrite (c_len _ _ _ C), zlen_cons. unfold zlen in *. rewrite s32_small; lia.
  - destruct (pollfd_step _ _ _ id (w {{ w_ah_wait_list := pt_ah_wait_list p }}) LWS_POLLIN 0 C') as (p' & E & C2 & W & A & K);
      [apply lookup_insert_eq|].
    exists p'. split; [destruct p; exact E|]. split; [done|]. transitivity (mkPt (<[id := w {{ w_ah_wait_list := pt_ah_wait_list p }}]> (pt_wsis p))
      (pt_fds p) (ah_pool p) (Some id) (s32 (ah_wait_list_length p + 1)) (ah_count_in_use p)); [done|].
    unfold Frame, ah_of, pre_of. by rewrite W, K.
Qed.

(** The pointers after the element [j] is cut out. *)
Lemma delete_next (q : list Z) j id i x : q !! j = Some id -> delete j q !! i = Some x ->
  (i < j /\ q !! i = Some x /\ delete j q !! S i = if decide (S i = j) then q !! S (S i) else q !! S i)%nat \/
  (j <= i /\ q !! S i = Some x /\ delete j q !! S i = q !! S (S i))%nat.
Proof.
  intros Hj Hi. destruct (decide (i < j)%nat) as [Hlt|Hge].
  - left. split; [done|]. rewrite list_lookup_delete_lt in Hi by done. split; [done|]. case_decide.
    + by rewrite list_lookup_delete_ge by lia.
    + by rewrite list_lookup_delete_lt by lia.
  - right. rewrite list_lookup_delete_ge in Hi by lia. split; [lia|]. split; [done|]. by rewrite list_lookup_delete_ge by lia.
Qed.

Lemma delete_other (q : list Z) j id i x : NoDup q -> q !! j = Some id -> delete j q !! i = Some x -> x <> id.
Proof.
  intros Hd Hj Hi ->. destruct (delete_next q j id i id Hj Hi) as [(H1 & H2 & _)|(H1 & H2 & _)];
    pose proof (NoDup_lookup _ _ _ _ Hd H2 Hj); lia.
Qed.

Lemma take_off_step p q lost j id : Core p q lost -> q !! j = Some id ->
  exists p', take_off p (link_at q j) id = Some p' /\ Core p' (delete j q) lost /\ Frame p p'.
Proof.
  intros C Hj. pose proof (c_nodup _ _ _ C) as Hd. destruct (c_next _ _ _ C j id Hj) as (w & Hw & Hnx).
  pose proof (lookup_lt_Some _ _ _ Hj) as Hlt. pose proof (queue_size _ _ _ C) as Hqs. pose proof (c_conns _ _ _ C) as Hcs.
  assert (Hlen : s32 (ah_wait_list_length p - 1) = zlen (delete j q)).
  { rewrite (c_len _ _ _ C). unfold zlen in *. rewrite length_delete by (by eexists). rewrite s32_small; lia. }
  assert (Hdd : NoDup (delete j q)) by (eapply sublist_NoDup; [done|apply sublist_delete]).
  unfold take_off. rewrite Hw. cbn [mbind option_bind]. rewrite Hnx. destruct j as [|k].
  - destruct (relink p q lost (<[id := w {{ w_ah_wait_list := None }}]> (pt_wsis p)) (q !! 1%nat) (s32 (ah_wait_list_length p - 1))
      (delete 0%nat q) C) as [C' F]; try done.
    + intros x. apply (obs_insert _ _ w); [done|by destruct w].
    + by rewrite list_lookup_delete_ge by lia.
    + intros i x Hi. pose proof (delete_other q 0 id i x Hd Hj Hi) as Hne. rewrite lookup_insert_ne by done.
      destruct (delete_next q 0 id i x Hj Hi) as [[? _]|(_ & Hi' & ->)]; [lia|]. by apply C.
    + eexists. split; [|split; [exact C'|exact F]]. cbn [set_link link_at mbind option_bind]. unfold upd_wsi.
      destruct p. cbn in *. by rewrite Hw.
  - destruct (lookup_lt_is_Some_2 q k) as [y Hy]; [lia|]. destruct (c_next _ _ _ C k y Hy) as (v & Hv & _).
    assert (Hyid : y <> id) by (intros ->; pose proof (NoDup_lookup _ _ _ _ Hd Hy Hj); lia).
    set (ws1 := <[y := v {{ w_ah_wait_list := q !! S (S k) }}]> (pt_wsis p)).
    assert (Hw1 : ws1 !! id = Some w) by (unfold ws1; by rewrite lookup_insert_ne).
    destruct (relink p q lost (<[id := w {{ w_ah_wait_list := None }}]> ws1) (pt_ah_wait_list p) (s32 (ah_wait_list_length p - 1))
      (delete (S k) q) C) as [C' F]; try done.
    + intros x. rewrite (obs_insert _ _ w) by (done || by destruct w). apply (obs_insert _ _ v); [done|by destruct v].
    + rewrite list_lookup_delete_lt by lia. apply C.
    + intros i x Hi. pose proof (delete_other q (S k) id i x Hd Hj Hi) as Hne. rewrite lookup_insert_ne by done.
      destruct (delete_next q (S k) id i x Hj Hi) as [(H1 & Hi' & ->)|(H1 & Hi' & ->)].
      * case_decide as Hk.
        { injection Hk as ->. rewrite Hy in Hi'. injection Hi' as <-. unfold ws1. rewrite lookup_insert_eq. eexists. split; [done|].
          by destruct v. }
        assert (x <> y) by (intros ->; pose proof (NoDup_lookup _ _ _ _ Hd Hi' Hy); lia).
        unfold ws1. rewrite lookup_insert_ne by done. by apply C.
      * assert (x <> y) by (intros ->; pose proof (NoDup_lookup _ _ _ _ Hd Hi' Hy); lia).
        unfold ws1. rewrite lookup_insert_ne by done. by apply C.
    + eexists. split; [|split; [exact C'|exact F]]. cbn [link_at]. rewrite Hy. cbn [set_link]. unfold upd_wsi. rewrite Hv. cbn [mbind option_bind].
      destruct p. cbn in *. fold ws1. by rewrite Hw1.
Qed.

(** ** Changing the owner *)

(** The connection [id] gets the table [n], which has none; the others keep theirs. *)
Definition Gets (p p' : pt) (id : Z) (o : option nat) : Prop :=
  (forall x, ah_of p' x = if decide (x = id) then Some o else ah_of p x) /\ (forall x, pre_of p' x = pre_of p x).

Lemma gets_insert p ws' (f : wsi -> wsi) id w o fds pool hd len cnt : pt_wsis p !! id = Some w -> ws' = <[id := f w]> (pt_wsis p) ->
  w_ah (f w) = o -> preamble_rx (f w) = preamble_rx w -> Gets p (mkPt ws' fds pool hd len cnt) id o.
Proof.
  intros Hw -> Ho Hp. split; intros x; unfold ah_of, pre_of; cbn.
  - case_decide as E; [by rewrite E, lookup_insert_eq; cbn; rewrite Ho|by rewrite lookup_insert_ne].
  - by apply (fmap_insert_same _ _ _ w).
Qed.

Lemma next_insert p q lost id w w' : Core p q lost -> pt_wsis p !! id = Some w -> w_ah_wait_list w' = w_ah_wait_list w ->
  forall i x, q !! i = Some x -> exists v, <[id := w']> (pt_wsis p) !! x = Some v /\ w_ah_wait_list v = q !! S i.
Proof.
  intros C Hw E i x Hi. destruct (c_next _ _ _ C i x Hi) as (v & Hv & Hn). destruct (decide (x = id)) as [->|].
  - exists w'. rewrite lookup_insert_eq. split; congruence.
  - exists v. by rewrite lookup_insert_ne.
Qed.

(** Connection [id] gets table [n], which was free or lost. *)
Lemma own_core p q lost n id w w' s s' : Core p q lost -> pt_wsis p !! id = Some w -> w_ah w = None -> w_ah w' = Some n ->
  w_ah_wait_list w' = w_ah_wait_list w -> WsiOk (pt_fds p) w' ->
  ah_pool p !! n = Some s -> in_use s' = true -> s_wsi s' = Some id -> SlotOk data_len s' ->
  lost = Some n /\ in_use s = true \/ lost = None /\ in_use s = false ->
  Core (mkPt (<[id := w']> (pt_wsis p)) (pt_fds p) (<[n := s']> (ah_pool p)) (pt_ah_wait_list p) (ah_wait_list_length p)
          (ah_count_in_use p + (1 - b2z (in_use s)))) q None.
Proof.
  intros C Hw Hw0 Hw1 Hwn Hwo Hn Hu Ho Hs Hlost. pose proof (next_insert p q lost id w w' C Hw Hwn) as Hnext.
  assert (Hown : forall x v m, pt_wsis p !! x = Some v -> w_ah v = Some m -> m <> n).
  { intros x v m Hx Hv ->. destruct (c_own _ _ _ C x v n Hx Hv) as (t & Ht & Hi & _).
    destruct Hlost as [[-> _]|[_ Hf]]; [|congruence]. destruct (c_lost _ _ _ C n eq_refl) as (_ & _ & _ & Hno). by apply (Hno x v). }
  pose proof (lookup_lt_Some _ _ _ Hn). destruct C. constructor; cbn; try done.
  - by rewrite length_insert.
  - intros x v m Hx Hv. apply lookup_insert_Some in Hx as [(<- & <-)|[Hne Hx]].
    + assert (m = n) as -> by congruence. exists s'. by rewrite list_lookup_insert_eq.
    + rewrite list_lookup_insert_ne by (symmetry; by apply (Hown x v)). by apply (c_own0 x v).
  - intros m t Hm Hi _. apply list_lookup_insert_Some in Hm as [(-> & <- & _)|[Hne Hm]].
    + exists id, w'. by rewrite lookup_insert_eq.
    + destruct (c_slot0 m t Hm Hi) as (x & v & ? & ? & ?); [destruct Hlost as [[-> _]|[-> _]]; congruence|].
      exists x, v. rewrite lookup_insert_ne by congruence. done.
  - rewrite (used_insert _ _ s) by done. rewrite Hu. cbn. lia.
  - by rewrite (size_insert_same _ _ w).
  - by apply Forall_insert.
  - by apply map_Forall_insert_2.
Qed.

(** Connection [id] gives up its table [n]. *)
Lemma disown_core p q n id w w' s s' : Core p q None -> pt_wsis p !! id = Some w -> w_ah w = Some n -> w_ah w' = None ->
  w_ah_wait_list w' = w_ah_wait_list w -> WsiOk (pt_fds p) w' ->
  ah_pool p !! n = Some s -> in_use s' = true -> SlotOk data_len s' ->
  Core (mkPt (<[id := w']> (pt_wsis p)) (pt_fds p) (<[n := s']> (ah_pool p)) (pt_ah_wait_list p) (ah_wait_list_length p)
          (ah_count_in_use p)) q (Some n).
Proof.
  intros C Hw Hw0 Hw1 Hwn Hwo Hn Hu Hs. pose proof (next_insert p q None id w w' C Hw Hwn) as Hnext.
  destruct (c_own _ _ _ C id w n Hw Hw0) as (s0 & Hs0 & Hu0 & Ho0). assert (s0 = s) as -> by congruence.
  assert (Hown : forall x v m, x <> id -> pt_wsis p !! x = Some v -> w_ah v = Some m -> m <> n).
  { intros x v m Hne Hx Hv ->. destruct (c_own _ _ _ C x v n Hx Hv) as (t & Ht & _ & Ho). congruence. }
  pose proof (lookup_lt_Some _ _ _ Hn). destruct C. constructor; cbn; try done.
  - by rewrite length_insert.
  - intros x v m Hx Hv. apply lookup_insert_Some in Hx as [(<- & <-)|[Hne Hx]]; [congruence|].
    rewrite list_lookup_insert_ne by (symmetry; apply (Hown x v); congruence). by apply (c_own0 x v).
  - intros m t Hm Hi Hl. apply list_lookup_insert_Some in Hm as [(-> & <- & _)|[Hne Hm]]; [congruence|].
    destruct (c_slot0 m t Hm Hi) as (x & v & ? & ? & ?); [done|].
    exists x, v. rewrite lookup_insert_ne by congruence. done.
  - intros m [= <-]. exists s'. rewrite list_lookup_insert_eq by done. split_and!; try done.
    intros x v Hx. apply lookup_insert_Some in Hx as [(<- & <-)|[Hne Hx]]; [congruence|]. intros Hv. by apply (Hown x v n).
  - rewrite (used_insert _ _ s) by done. rewrite Hu, Hu0. cbn. lia.
  - by rewrite (size_insert_same _ _ w).
  - by apply Forall_insert.
  - by apply map_Forall_insert_2.
Qed.

(** A lost table becomes a free one. *)
Lemma free_core p q n s s' : Core p q (Some n) -> ah_pool p !! n = Some s -> in_use s' = false -> SlotOk data_len s' ->
  Core (mkPt (pt_wsis p) (pt_fds p) (<[n := s']> (ah_pool p)) (pt_ah_wait_list p) (ah_wait_list_length p)
          (ah_count_in_use p - 1)) q None.
Proof.
  intros C Hn Hu Hs. destruct (c_lost _ _ _ C n eq_refl) as (s0 & Hs0 & Hu0 & Hno). assert (s0 = s) as -> by congruence.
  destruct C. constructor; cbn; try done.
  - by rewrite length_insert.
  - intros x v m Hx Hv. rewrite list_lookup_insert_ne by (intros <-; by apply (Hno x v)). by apply (c_own0 x v).
  - intros m t Hm Hi _. apply list_lookup_insert_Some in Hm as [(-> & <- & _)|[Hne Hm]]; [congruence|].
    apply (c_slot0 m t); congruence.
  - rewrite (used_insert _ _ s) by done. rewrite Hu, Hu0. cbn. lia.
  - by apply Forall_insert.
Qed.

(** ** Reset *)

(** Nobody gains or loses a table. *)
Definition Keeps (p p' : pt) : Prop := (forall x, ah_of p' x = ah_of p x) /\ ah_count_in_use p' = ah_count_in_use p.

#[global] Instance keeps_pre : PreOrder Keeps.
Proof. split; [done|]. intros a b c (F1 & F2) (G1 & G2). split; congruence. Qed.

Lemma keeps_same p p' : pt_wsis p' = pt_wsis p -> ah_count_in_use p' = ah_count_in_use p -> Keeps p p'.
Proof. intros Hw Hc. split; [|done]. intros x. unfold ah_of. by rewrite Hw. Qed.

(** A table whose headers have just been reset. *)
Definition Fresh (s : slot) : Prop := exists a, headers s = _lws_header_table_reset a.

Lemma slot_ok_reset s : SlotOk data_len s -> SlotOk data_len (s {{ headers ::= _lws_header_table_reset }}).
Proof. destruct s as [o u a r rp rl h], h. done. Qed.

Lemma table_reset_ok p q lost id w n s auto : Core p q lost -> pt_wsis p !! id = Some w -> w_ah w = Some n ->
  ah_pool p !! n = Some s -> s_wsi s = Some id -> auto = false \/ preamble_rx w = None ->
  exists p', lws_header_table_reset p id auto = Some p' /\ Core p' q lost /\ Keeps p p' /\
    exists w' s', pt_wsis p' !! id = Some w' /\ w_ah w' = Some n /\ ah_pool p' !! n = Some s' /\ Fresh s'.
Proof.
  intros C Hw Hn Hs Ho Ha. pose proof (Forall_lookup_1 _ _ _ _ (c_slots _ _ _ C) Hs) as Hok.
  pose proof (lookup_lt_Some _ _ _ Hs) as Hlt.
  unfold lws_header_table_reset. rewrite Hw. cbn [mbind option_bind]. rewrite Hn. cbn [mbind option_bind]. rewrite Hs. cbn [mbind option_bind].
  unfold assert. rewrite bool_decide_true by done. cbn [orb mbind option_bind].
  destruct (slot_step p q lost n s (fun s => s {{ headers ::= _lws_header_table_reset }}) C Hs) as (p1 & -> & C1 & W1 & A1 & K1);
    [by destruct s|by destruct s|by apply slot_ok_reset|]. cbn [mbind option_bind].
  assert (Hf : Fresh (s {{ headers ::= _lws_header_table_reset }})) by (exists (headers s); by destruct s).
  destruct (preamble_rx w) as [b|] eqn:Hb.
  2:{ exists p1. split; [done|]. split; [done|]. split; [by apply keeps_same|]. eexists w, _. rewrite W1, A1.
      rewrite list_lookup_insert_eq by done. done. }
  destruct Ha as [-> |Ha]; [|done]. pose proof (c_wsis _ _ _ C id w Hw) as [Hp1 Hp2]. rewrite Hb in Hp2.
  assert (Hst : exists r, store (rx s) 0 b = Some r /\ zlen r = RX_SIZE).
  { destruct Hok as (Hr & _). pose proof (zlen_nonneg b). unfold store.
    replace (0 + zlen b <=? zlen (rx s)) with true by lia. eexists. split; [done|]. unfold zlen in *. rewrite length_splice; lia. }
  destruct Hst as (r & -> & Hr). cbn [mbind option_bind].
  destruct (slot_step p1 q lost n (s {{ headers ::= _lws_header_table_reset }}) (fun s => s {{ rx := r; rxlen := zlen b }}) C1)
    as (p2 & -> & C2 & W2 & A2 & K2); [by rewrite A1, list_lookup_insert_eq|by destruct s|by destruct s| |].
  { destruct Hok as (_ & ? & ?). destruct s as [o u a r0 rp rl h], h. done. }
  cbn [mbind option_bind].
  destruct (wsi_step p2 q lost id w (fun w => w {{ preamble_rx := None }}) C2) as (p3 & -> & C3 & W3 & A3 & _ & K3);
    [by rewrite W2, W1|by destruct w|by destruct w| |].
  { pose proof (c_wsis _ _ _ C2 id w) as Hx. rewrite W2, W1 in Hx. destruct (Hx Hw). by destruct w. }
  cbn [mbind option_bind]. exists p3. split; [done|]. split; [done|]. split.
  - split; [|congruence]. intros x. unfold ah_of. rewrite W3, W2, W1. apply (fmap_insert_same _ _ _ w); [done|by destruct w].
  - eexists _, _. rewrite W3, A3, A2, A1, lookup_insert_eq. split; [done|]. split; [by destruct w|].
    rewrite list_lookup_insert_eq by (by rewrite length_insert). split; [done|]. exists (headers s). by destruct s.
Qed.

Lemma restart_ok p q lost id w n auto : Core p q lost -> pt_wsis p !! id = Some w -> w_ah w = Some n ->
  auto = false \/ preamble_rx w = None ->
  exists p', restart p id auto = Some p' /\ Core p' q lost /\ Keeps p p' /\ exists s', ah_pool p' !! n = Some s' /\ Fresh s'.
Proof.
  intros C Hw Hn Ha. destruct (c_own _ _ _ C id w n Hw Hn) as (s & Hs & Hu & Ho).
  pose proof (Forall_lookup_1 _ _ _ _ (c_slots _ _ _ C) Hs) as Hok. pose proof (lookup_lt_Some _ _ _ Hs) as Hlt.
  unfold restart. rewrite Hw. cbn [mbind option_bind]. rewrite Hn. cbn [mbind option_bind].
  destruct (slot_step p q lost n s (fun s => s {{ rxpos := 0; rxlen := 0 }}) C Hs) as (p1 & -> & C1 & W1 & A1 & K1);
    [by destruct s|by destruct s|by destruct s|]. cbn [mbind option_bind].
  destruct (table_reset_ok p1 q lost id w n (s {{ rxpos := 0; rxlen := 0 }}) auto C1) as (p2 & -> & C2 & F2 & w2 & s2 & Hw2 & Hn2 & Hs2 & Hf2);
    [by rewrite W1|done|by rewrite A1, list_lookup_insert_eq|by destruct s|done|]. cbn [mbind option_bind].
  rewrite Hw2. cbn [mbind option_bind]. rewrite Hn2. cbn [mbind option_bind].
  destruct (slot_step p2 q lost n s2 (fun s => s {{ assigned := time p2 }}) C2 Hs2) as (p3 & -> & C3 & W3 & A3 & K3);
    [by destruct s2|by destruct s2| |].
  { pose proof (Forall_lookup_1 _ _ _ _ (c_slots _ _ _ C2) Hs2). by destruct s2. }
  exists p3. split; [done|]. split; [done|]. split.
  - transitivity p2; [transitivity p1; [by apply keeps_same|done]|by apply keeps_same].
  - eexists. rewrite A3, list_lookup_insert_eq by (by eapply lookup_lt_Some). split; [done|]. destruct Hf2 as [a Ea]. exists a. by destruct s2.
Qed.

(** ** Giving out tables *)

Lemma wsi_ok_ah fds w o : WsiOk fds w -> WsiOk fds (w {{ w_ah := o }}).
Proof. by destruct w. Qed.

Lemma take_free_ok p q id w : Core p q None -> pt_wsis p !! id = Some w -> w_ah w = None ->
  ah_count_in_use p < Z.of_nat max_http_header_pool ->
  exists p' n, take_free p id = Some p' /\ Core p' q None /\ Gets p p' id (Some n) /\ ah_count_in_use p' = ah_count_in_use p + 1.
Proof.
  intros C Hw Ha Hc. pose proof (c_count _ _ _ C) as Hcnt. pose proof (c_pool _ _ _ C) as Hpool. pose proof (c_max _ _ _ C).
  destruct (first_free_some (ah_pool p)) as (n & s & Hf & Hn & Hu); [unfold zlen at 2; lia|].
  pose proof (Forall_lookup_1 _ _ _ _ (c_slots _ _ _ C) Hn) as Hok.
  pose proof (own_core p q None n id w (w {{ w_ah := Some n }}) s (s {{ in_use := true; s_wsi := Some id }}) C Hw Ha) as C1.
  set (p1 := mkPt _ _ _ _ _ _) in C1.
  assert (C1' : Core p1 q None).
  { apply C1; [by destruct w|by destruct w|apply wsi_ok_ah; by apply (c_wsis _ _ _ C id)|done|by destruct s|by destruct s|by destruct s|by right]. }
  destruct (pollfd_step p1 q None id (w {{ w_ah := Some n }}) 0 LWS_POLLIN C1') as (p2 & E2 & C2 & W2 & _ & K2); [apply lookup_insert_eq|].
  exists p2, n. split; [|split; [done|split]].
  - unfold take_free. rewrite Hf. cbn [mbind option_bind]. unfold upd_wsi. rewrite Hw. cbn [mbind option_bind].
    unfold upd_slot. assert (Hp : forall ws, ah_pool (p {{ pt_wsis := ws }}) = ah_pool p) by (by destruct p).
    rewrite <- E2. unfold p1. destruct p as [ws fds pool hd len cnt]. cbn in *. rewrite Hn. cbn. f_equal. f_equal.
    rewrite Hu. cbn. pose proof (zlen_nonneg (used pool)). rewrite s16_len; lia.
  - assert (G : Gets p p1 id (Some n)) by (unfold p1; apply (gets_insert p _ (fun w => w {{ w_ah := Some n }}) id w); try done; by destruct w).
    destruct G as [G1 G2]. split; intros x; unfold ah_of, pre_of in *; rewrite W2; [apply G1|apply G2].
  - rewrite K2. cbn. rewrite Hu. cbn. lia.
Qed.

Lemma hand_over_ok p q n j id w auto : Core p q (Some n) -> q !! j = Some id -> S j = length q ->
  pt_wsis p !! id = Some w -> w_ah w = None -> auto = false \/ preamble_rx w = None ->
  exists p', hand_over p n auto = Some p' /\ Core p' (delete j q) None /\ ah_count_in_use p' = ah_count_in_use p /\
    forall x, ah_of p' x = if decide (x = id) then Some (Some n) else ah_of p x.
Proof.
  intros C Hj Hl Hw Ha Hauto. destruct (c_lost _ _ _ C n eq_refl) as (s & Hn & Hu & _).
  pose proof (Forall_lookup_1 _ _ _ _ (c_slots _ _ _ C) Hn) as Hok. pose proof (queue_size _ _ _ C).
  unfold hand_over. change LHead with (link_at q 0).
  rewrite (last_link_ok p q (Some n) j id C Hj Hl) by (unfold fuel_of; lia). cbn [mbind option_bind].
  rewrite (get_link_at p q (Some n) j) by (done || lia). cbn [mbind option_bind]. rewrite Hj. cbn [mbind option_bind].
  set (w1 := w {{ w_ah := Some n }}). set (s1 := s {{ s_wsi := Some id }}).
  pose proof (own_core p q (Some n) n id w w1 s s1 C Hw Ha) as C1. set (p1 := mkPt _ _ _ _ _ _) in C1.
  assert (C1' : Core p1 q None).
  { apply C1; [by destruct w|by destruct w|apply wsi_ok_ah; by apply (c_wsis _ _ _ C id)|done|by destruct s|by destruct s|by destruct s|by left]. }
  clear C1. assert (E1 : (p ← upd_wsi p id (fun w => w {{ w_ah := Some n }}); upd_slot p n (fun s => s {{ s_wsi := Some id }})) = Some p1).
  { unfold upd_wsi, upd_slot, p1. rewrite Hw. cbn [mbind option_bind]. destruct p as [ws fds pool hd len cnt]. cbn in *. rewrite Hn. cbn.
    do 2 f_equal. rewrite Hu. cbn. lia. }
  destruct (upd_wsi p id _) as [p0|]; [|done]. cbn [mbind option_bind] in *. rewrite E1. cbn [mbind option_bind].
  assert (G1 : Gets p p1 id (Some n)) by (unfold p1; apply (gets_insert p _ (fun w => w {{ w_ah := Some n }}) id w); try done; by destruct w).
  assert (K1 : ah_count_in_use p1 = ah_count_in_use p) by (unfold p1; cbn; rewrite Hu; cbn; lia).
  destruct (restart_ok p1 q None id w1 n auto C1') as (p2 & -> & C2 & [F2 K2] & _);
    [apply lookup_insert_eq|by destruct w|destruct Hauto; [by left|right; by destruct w]|]. cbn [mbind option_bind].
  assert (Hw2 : exists w2, pt_wsis p2 !! id = Some w2).
  { specialize (F2 id). unfold ah_of in F2. unfold p1 in F2 at 1. cbn in F2. rewrite lookup_insert_eq in F2.
    destruct (pt_wsis p2 !! id) as [w2|]; [by exists w2|done]. }
  destruct Hw2 as [w2 Hw2]. rewrite Hw2. cbn [mbind option_bind].
  assert (P3 : exists p3, (if position_in_fds_table w2 =? -1 then Some p2 else lws_change_pollfd p2 id 0 LWS_POLLIN) = Some p3 /\
    Core p3 q None /\ Keeps p2 p3).
  { destruct (position_in_fds_table w2 =? -1); [by exists p2|].
    destruct (pollfd_step p2 q None id w2 0 LWS_POLLIN C2 Hw2) as (p3 & ? & ? & ? & _ & ?). exists p3. split; [done|]. split; [done|]. by apply keeps_same. }
  destruct P3 as (p3 & -> & C3 & [F3 K3]). cbn [mbind option_bind].
  destruct (take_off_step p3 q None j id C3 Hj) as (p4 & -> & C4 & F4 & _ & K4). cbn [mbind option_bind].
  assert (Hcheck : nz (ah_wait_list_length p4) = match pt_ah_wait_list p4 with Some _ => true | None => false end).
  { rewrite (c_len _ _ _ C4), (c_head _ _ _ C4). destruct (delete j q) as [|y l]; [done|]. cbn. unfold nz. rewrite zlen_cons.
    pose proof (zlen_nonneg l). by rewrite (proj2 (Z.eqb_neq _ 0)) by lia. }
  unfold assert. rewrite bool_decide_true by done. cbn [orb mbind option_bind].
  exists p4. split; [done|]. split; [done|]. split; [congruence|]. intros x. rewrite F4, F3, F2. apply G1.
Qed.

End Inv.
End HeaderPoolFacts.
