(* ===== verification/HeaderPoolProps.v ===== *)
(** * The pool of header tables is a fair allocator

    The pool, with its pointers and flags, does what a set of holders and a queue
    would do; a connection that waits is served in its turn. *)

From stdpp Require Import gmap.
From S2P Require Import Prelude Ws HttpHdr HttpHdrFacts HttpHdrInv HttpHdrProps HeaderPool HeaderPoolFacts.

Module HeaderPoolProps.
Export HeaderPoolFacts.
Import Hdr HdrFacts HdrInv HdrProps.

(** ** The abstract allocator *)

(** Who has a table, who waits (the longest first), and how many tables are free. *)
Record fifo := mkFifo { holding : gset Z; queue : list Z; free : nat }.

Definition spec_attach (a : fifo) (id : Z) : fifo * Z :=
  if decide (id ∈ holding a) then (a, 0) else
  match free a with
  | S k => (mkFifo ({[ id ]} ∪ holding a) (queue a) k, 0)
  | O => (if decide (id ∈ queue a) then a else mkFifo (holding a) (queue a ++ [id]) O, 1)
  end.

Definition spec_detach (a : fifo) (id : Z) : fifo :=
  if decide (id ∈ holding a) then
    match queue a with
    | [] => mkFifo (holding a ∖ {[ id ]}) [] (S (free a))
    | x :: q => mkFifo ({[ x ]} ∪ (holding a ∖ {[ id ]})) q (free a)
    end
  else mkFifo (holding a) (filter (fun x => x <> id) (queue a)) (free a).

(** ** Operations *)

Inductive op :=
| OConnect (id pos : Z)               (* a new connection *)
| OAttach (id : Z)
| ODetach (id : Z) (auto : bool)      (* the unread bytes dropped, as the callers do *)
| OFree (id : Z)                      (* the connection is closed *)
| ORead (id : Z) (b : bytes)          (* bytes arrive on a connection with a table *)
| OAdopt (id : Z) (b : bytes).        (* a connection that comes with bytes, all tables in use *)

Definition spec_step (a : fifo) (o : op) : fifo * Z :=
  match o with
  | OConnect _ _ | ORead _ _ => (a, 0)
  | OAttach id => spec_attach a id
  | ODetach id _ | OFree id => (spec_detach a id, 0)
  | OAdopt id _ => ((spec_attach a id).1, 0)
  end.

Section Props.
Context `{PoolEnv} (data_len : Z).

Definition step (p : pt) (o : op) : option (pt * Z) :=
  match o with
  | OConnect id pos => p ← new_wsi p id pos; Some (p, 0)
  | OAttach id => lws_header_table_attach p id false
  | ODetach id auto => p ← drop_rx p id; p ← lws_header_table_detach p id auto; Some (p, 0)
  | OFree id => p ← lws_free_wsi p id; Some (p, 0)
  | ORead id b => p ← read_rx p id b; Some (p, 0)
  | OAdopt id b => '(p, _) ← adopt_socket_readbuf p id b; Some (p, 0)
  end.

(** What the callers see to.  Only a connection that came with bytes is served out of
    the middle of a detach: [auto] is for a pool without them. *)
Definition Allowed (p : pt) (o : op) : Prop :=
  match o with
  | OConnect id pos => pt_wsis p !! id = None /\ pos < zlen (pt_fds p) /\ Z.of_nat (size (pt_wsis p)) < 2 ^ 31 - 1
  | OAttach id | OFree id => is_Some (pt_wsis p !! id)
  | ODetach id auto => is_Some (pt_wsis p !! id) /\ (auto = true -> map_Forall (fun _ w => preamble_rx w = None) (pt_wsis p))
  | ORead id b => is_Some (mjoin (ah_of p id)) /\ zlen b <= RX_SIZE
  | OAdopt id b => ah_of p id = Some None /\ pool_full p = true /\ 0 < zlen b <= RX_SIZE
  end.

(** The pool holds what the allocator says. *)
Record Implements (p : pt) (a : fifo) : Prop := {
  im_inv : PoolInv data_len p (reverse (queue a));
  im_holding x : x ∈ holding a <-> exists n, ah_of p x = Some (Some n);
  im_free : ah_count_in_use p + Z.of_nat (free a) = Z.of_nat max_http_header_pool
}.

(** ** Lists *)

Lemma filter_none (q : list Z) id : (id ∉ q) -> filter (fun x => x <> id) q = q.
Proof.
  induction q as [|x q IH]; intros Hn; [done|]. apply not_elem_of_cons in Hn as [Hx Hn]. rewrite filter_cons.
  rewrite decide_True by congruence. f_equal. by apply IH.
Qed.

Lemma delete_filter (q : list Z) j id : NoDup q -> q !! j = Some id -> delete j q = filter (fun x => x <> id) q.
Proof.
  revert j. induction q as [|x q IH]; intros j Hd Hj; [done|]. apply NoDup_cons in Hd as [Hx Hd].
  rewrite filter_cons. destruct j as [|j]; cbn in Hj.
  - injection Hj as ->. rewrite decide_False by tauto. by rewrite filter_none.
  - change (delete (S j) (x :: q)) with (x :: delete j q). rewrite (IH j) by done. rewrite decide_True; [done|].
    intros ->. apply Hx. by eapply list_elem_of_lookup_2.
Qed.

(** ** Attach *)

Lemma ah_some p id w : pt_wsis p !! id = Some w -> ah_of p id = Some (w_ah w).
Proof. intros Hw. unfold ah_of. by rewrite Hw. Qed.

Lemma ah_some_inv p id o : ah_of p id = Some o -> exists w, pt_wsis p !! id = Some w /\ w_ah w = o.
Proof. unfold ah_of. intros E. destruct (pt_wsis p !! id) as [w|]; [|done]. exists w. split; [done|]. by injection E. Qed.

Lemma inv_keeps p p' q : PoolInv data_len p q -> Core data_len p' q None -> Keeps p p' -> PoolInv data_len p' q.
Proof.
  intros [C Hw Hf] C' [K1 K2]. constructor; [done| |intros Hq; rewrite K2; by apply Hf].
  intros x w' Hx Hw'. apply ah_some in Hw'. rewrite K1 in Hw'. apply ah_some_inv in Hw' as (w & E & <-). by apply (Hw x).
Qed.

Lemma implements_keeps p p' a : Implements p a -> Core data_len p' (reverse (queue a)) None -> Keeps p p' -> Implements p' a.
Proof.
  intros [I Hh Hf] C' K. constructor; [by apply (inv_keeps p)| |by rewrite (proj2 K)].
  intros x. rewrite (proj1 K). apply Hh.
Qed.

Lemma queue_in_reverse a x : x ∈ reverse (queue a) <-> x ∈ queue a.
Proof. apply elem_of_reverse. Qed.

Lemma count_le p q lost : Core data_len p q lost -> ah_count_in_use p <= Z.of_nat max_http_header_pool.
Proof. intros C. rewrite (c_count _ _ _ _ C), <- (c_pool _ _ _ _ C). apply used_le. Qed.

Lemma not_holding p a id w : Implements p a -> pt_wsis p !! id = Some w -> w_ah w = None -> (id ∉ holding a).
Proof. intros I Hw Ha Hin. apply (im_holding _ _ I) in Hin as [n Hn]. rewrite (ah_some p id w Hw), Ha in Hn. done. Qed.

(** A table is attached: the connection has one whose headers are reset. *)
Definition Attached (p : pt) (id : Z) : Prop :=
  exists n s, ah_of p id = Some (Some n) /\ ah_pool p !! n = Some s /\ Fresh s.

Lemma restart_attached p a id w n : Implements p a -> pt_wsis p !! id = Some w -> w_ah w = Some n ->
  exists p', restart p id false = Some p' /\ Implements p' a /\ Attached p' id.
Proof.
  intros I Hw Hn. destruct (restart_ok data_len p (reverse (queue a)) None id w n false) as (p' & E & C' & K & s & Hs & Hf);
    [apply I|done|done|by left|]. exists p'. split; [done|]. split; [by apply (implements_keeps p)|].
  exists n, s. rewrite (proj1 K), (ah_some p id w Hw), Hn. done.
Qed.

Lemma attach_ok p a id : Implements p a -> is_Some (pt_wsis p !! id) ->
  exists p', lws_header_table_attach p id false = Some (p', (spec_attach a id).2) /\ Implements p' (spec_attach a id).1 /\
    ((spec_attach a id).2 = 0 -> Attached p' id).
Proof.
  intros I [w Hw]. pose proof (im_inv _ _ I) as PI. pose proof (pi_core _ _ _ PI) as C. pose proof (im_free _ _ I) as Hfree.
  unfold lws_header_table_attach, spec_attach. rewrite Hw. cbn [mbind option_bind]. destruct (w_ah w) as [n|] eqn:Ha.
  { rewrite decide_True by (apply (im_holding _ _ I); exists n; by rewrite (ah_some p id w Hw), Ha).
    destruct (restart_attached p a id w n I Hw Ha) as (p' & -> & I' & At'). by exists p'. }
  rewrite decide_False by (by apply (not_holding p a id w)).
  destruct (find_ok data_len p _ None id C) as [(j & Hj & ->)|[Hn ->]]; cbn [mbind option_bind].
  - assert (Hin : id ∈ queue a) by (apply queue_in_reverse; by eapply list_elem_of_lookup_2).
    assert (Hc : ah_count_in_use p = Z.of_nat max_http_header_pool) by (apply PI; intros E; by rewrite E in Hj).
    unfold pool_full. rewrite Hc, Z.eqb_refl. replace (free a) with 0%nat by lia. rewrite decide_True by done. by exists p.
  - rewrite queue_in_reverse in Hn. unfold pool_full. destruct (ah_count_in_use p =? Z.of_nat max_http_header_pool) eqn:Ec; zbool.
    + replace (free a) with 0%nat by lia. rewrite decide_False by done.
      destruct (wait_step data_len p _ None id w C Hw) as (p' & -> & C' & F1 & _ & F3); [by rewrite queue_in_reverse|].
      cbn [mbind option_bind]. exists p'. split; [done|]. split; [|done].
      cbn [fst]. constructor; cbn [holding queue free]; rewrite ?reverse_snoc.
      * constructor; [done| |by rewrite F3]. intros x v Hx Hv. apply ah_some in Hv. rewrite F1 in Hv.
        apply ah_some_inv in Hv as (v0 & Hv0 & <-). apply elem_of_cons in Hx as [->|Hx]; [congruence|by apply (pi_wait _ _ _ PI x)].
      * intros x. rewrite F1. apply I.
      * rewrite F3. lia.
    + pose proof (count_le _ _ _ C). destruct (free a) as [|k] eqn:Ek; [lia|].
      destruct (take_free_ok data_len p _ id w C Hw Ha) as (p1 & n & -> & C1 & [G1 _] & K1); [lia|]. cbn [mbind option_bind].
      assert (Hq : reverse (queue a) = []) by (destruct (reverse (queue a)); [done|]; destruct Ec; by apply PI).
      assert (I1 : Implements p1 (mkFifo ({[id]} ∪ holding a) (queue a) k)).
      { constructor; cbn [holding queue free]; rewrite ?Hq in *.
        - constructor; [done|by intros x v ?%not_elem_of_nil|done].
        - intros x. rewrite elem_of_union, elem_of_singleton, G1. case_decide as Ex; [split; [by eexists|by left]|].
          rewrite <- (im_holding _ _ I). tauto.
        - lia. }
      destruct (ah_some_inv p1 id (Some n)) as (w1 & Hw1 & Hn1); [by rewrite G1, decide_True|].
      destruct (restart_attached p1 _ id w1 n I1 Hw1 Hn1) as (p' & -> & I' & At'). by exists p'.
Qed.

(** ** Detach *)

Lemma wsi_ok_quiet fds w : WsiOk fds w -> WsiOk fds (w {{ preamble_rx := None }}).
Proof. destruct w. by intros [? _]. Qed.

(** A connection without a table: it leaves the list, if it is on it. *)
Lemma leave_ok p a id w : Implements p a -> pt_wsis p !! id = Some w -> w_ah w = None ->
  exists p', (l ← find_link (fuel_of p) p LHead id; match l with None => Some p | Some l => take_off p l id end) = Some p' /\
    Implements p' (spec_detach a id).
Proof.
  intros I Hw Ha. pose proof (im_inv _ _ I) as PI. pose proof (pi_core _ _ _ PI) as C.
  unfold spec_detach. rewrite decide_False by (by apply (not_holding p a id w)).
  assert (Hd : NoDup (reverse (queue a))) by apply C.
  destruct (find_ok data_len p _ None id C) as [(j & Hj & ->)|[Hn ->]]; cbn [mbind option_bind].
  - destruct (take_off_step data_len p _ None j id C Hj) as (p' & -> & C' & F1 & _ & F3). exists p'. split; [done|].
    assert (E : delete j (reverse (queue a)) = reverse (filter (fun x => x <> id) (queue a)))
      by (by rewrite (delete_filter _ j id Hd Hj), filter_reverse).
    rewrite E in C'. constructor; cbn [holding queue free]; [|intros x; rewrite F1; apply I|rewrite F3; apply I].
    constructor; [done| |].
    + intros x v Hx Hv. rewrite elem_of_reverse in Hx. apply list_elem_of_filter in Hx as [_ Hx]. apply ah_some in Hv. rewrite F1 in Hv.
      apply ah_some_inv in Hv as (v0 & Hv0 & <-). apply (pi_wait _ _ _ PI x); [by rewrite queue_in_reverse|done].
    + intros _. rewrite F3. apply PI. intros E0. by rewrite E0 in Hj.
  - rewrite queue_in_reverse in Hn. exists p. split; [done|]. rewrite filter_none by done. by destruct a.
Qed.

(** The holder [id] has let go of table [n], and nobody has it yet. *)
Record Released (p : pt) (a : fifo) (id : Z) (n : nat) : Prop := {
  rl_core : Core data_len p (reverse (queue a)) (Some n);
  rl_id : id ∈ holding a;
  rl_holding x : x ∈ holding a ∖ {[ id ]} <-> exists m, ah_of p x = Some (Some m);
  rl_free : ah_count_in_use p + Z.of_nat (free a) = Z.of_nat max_http_header_pool;
  rl_wait x w : x ∈ reverse (queue a) -> pt_wsis p !! x = Some w -> w_ah w = None;
  rl_full : reverse (queue a) <> [] -> ah_count_in_use p = Z.of_nat max_http_header_pool
}.

Lemma release_free p a id n : Released p a id n -> queue a = [] ->
  exists p', (p ← upd_slot p n (fun s => s {{ in_use := false }}); Some (p {{ ah_count_in_use ::= (fun n => s16 (n - 1)) }})) = Some p' /\
    Implements p' (spec_detach a id).
Proof.
  intros [C Hin Hh Hfree _ _] Eq. destruct (c_lost _ _ _ _ C n eq_refl) as (s & Hs & Hu & Hno).
  unfold spec_detach. rewrite decide_True by done. rewrite Eq in *. change (reverse (@nil Z)) with (@nil Z) in *.
  pose proof (Forall_lookup_1 _ _ _ _ (c_slots _ _ _ _ C) Hs) as Hok.
  pose proof (free_core data_len p [] n s (s {{ in_use := false }}) C Hs) as C'. unfold upd_slot. rewrite Hs. cbn [mbind option_bind].
  eexists. split; [done|]. pose proof (c_count _ _ _ _ C) as Hcnt. pose proof (count_le _ _ _ C) as Hle. pose proof (c_max _ _ _ _ C).
  assert (Hpos : 0 < ah_count_in_use p).
  { pose proof (used_insert (ah_pool p) n s (s {{ in_use := false }}) Hs) as Hui. rewrite Hu in Hui.
    pose proof (zlen_nonneg (used (<[n:=s {{ in_use := false }}]> (ah_pool p)))). destruct s. cbn in *. lia. }
  assert (E16 : s16 (ah_count_in_use p - 1) = ah_count_in_use p - 1) by (apply s16_len; lia).
  destruct p as [ws fds pool hd len cnt]. cbn in *. rewrite E16. constructor; cbn.
  - constructor; [apply C'; by destruct s|by intros y v ?%not_elem_of_nil|done].
  - intros y. by rewrite Hh.
  - lia.
Qed.

Lemma release_over p a id n x q auto : Released p a id n -> queue a = x :: q ->
  auto = false \/ map_Forall (fun _ w => preamble_rx w = None) (pt_wsis p) ->
  exists p', hand_over p n auto = Some p' /\ Implements p' (spec_detach a id).
Proof.
  intros [C Hin Hh Hfree Hwait Hfull] Eq Hauto. unfold spec_detach. rewrite decide_True by done. rewrite Eq in *. rewrite reverse_cons in *.
  assert (Hj : (reverse q ++ [x]) !! length q = Some x).
  { rewrite lookup_app_r by (rewrite length_reverse; done). by rewrite length_reverse, Nat.sub_diag. }
  destruct (queue_known data_len p _ _ x C) as [w Hw]; [set_solver|].
  destruct (hand_over_ok data_len p (reverse q ++ [x]) n (length q) x w auto C Hj) as (p' & -> & C' & K & Hah); try done.
  { rewrite length_app, length_reverse. cbn. lia. }
  { apply (Hwait x); [set_solver|done]. }
  { destruct Hauto as [?|Hp]; [by left|right; by apply (Hp x)]. }
  assert (Ed : delete (length q) (reverse q ++ [x]) = reverse q).
  { rewrite <- (length_reverse q), delete_middle. apply app_nil_r. }
  rewrite Ed in C'. exists p'. split; [done|]. constructor; cbn [holding queue free].
  - constructor; [done| |intros _; rewrite K; apply Hfull; by destruct (reverse q)].
    intros z v Hz Hv. pose proof (c_nodup _ _ _ _ C) as Hd. apply ah_some in Hv. rewrite Hah in Hv. case_decide as Ez.
    + subst. apply NoDup_app in Hd as (_ & Hd & _). destruct (Hd x Hz). set_solver.
    + apply ah_some_inv in Hv as (v0 & Hv0 & <-). apply (Hwait z); [set_solver|done].
  - intros z. rewrite elem_of_union, elem_of_singleton, Hah. case_decide as Ez; [split; [by eexists|by left]|].
    rewrite <- Hh. split; [|by right]. by intros [?|?].
  - by rewrite K.
Qed.

(** The connection without what it had read ahead. *)
Lemma quiet_ok p a id w : Implements p a -> pt_wsis p !! id = Some w ->
  exists p', upd_wsi p id (fun w => w {{ preamble_rx := None }}) = Some p' /\ Implements p' a /\
    pt_wsis p' = <[id := w {{ preamble_rx := None }}]> (pt_wsis p) /\ ah_pool p' = ah_pool p.
Proof.
  intros I Hw. pose proof (pi_core _ _ _ (im_inv _ _ I)) as C.
  destruct (wsi_step data_len p _ None id w (fun w => w {{ preamble_rx := None }}) C Hw) as (p' & E & C' & W & A & _ & K);
    [by destruct w|by destruct w|apply wsi_ok_quiet; by apply (c_wsis _ _ _ _ C id)|].
  exists p'. split; [done|]. split; [|done]. apply (implements_keeps p); [done|done|]. split; [|done]. intros x. unfold ah_of. rewrite W.
  apply (fmap_insert_same _ _ _ w); [done|by destruct w].
Qed.

(** The steps of detach up to the release of the table. *)
Lemma let_go_ok p a id w n s : Implements p a -> pt_wsis p !! id = Some w -> w_ah w = Some n -> ah_pool p !! n = Some s ->
  exists p1 p2 p3, upd_slot p n (fun s => s {{ assigned := 0 }}) = Some p1 /\ (ah_count_in_use p1 >? 0) = true /\ in_use s = true /\
    upd_wsi p1 id (fun w => w {{ w_ah := None }}) = Some p2 /\ upd_slot p2 n (fun s => s {{ s_wsi := None }}) = Some p3 /\
    Released p3 a id n /\ pt_wsis p3 = <[id := w {{ w_ah := None }}]> (pt_wsis p).
Proof.
  intros I Hw Ha Hs. pose proof (im_inv _ _ I) as PI. pose proof (pi_core _ _ _ PI) as C.
  destruct (c_own _ _ _ _ C id w n Hw Ha) as (s0 & Hs0 & Hu & _). assert (s0 = s) as -> by congruence.
  pose proof (Forall_lookup_1 _ _ _ _ (c_slots _ _ _ _ C) Hs) as Hok.
  destruct (slot_step data_len p _ None n s (fun s => s {{ assigned := 0 }}) C Hs) as (p1 & E1 & C1 & W1 & A1 & K1);
    [by destruct s|by destruct s|by destruct s|].
  assert (Hcnt : (ah_count_in_use p1 >? 0) = true).
  { rewrite K1, (c_count _ _ _ _ C). pose proof (used_insert (ah_pool p) n s (s {{ in_use := false }}) Hs) as Hui. rewrite Hu in Hui.
    pose proof (zlen_nonneg (used (<[n:=s {{ in_use := false }}]> (ah_pool p)))). destruct s. cbn in *. lia. }
  pose proof (disown_core data_len p1 _ n id w (w {{ w_ah := None }}) (s {{ assigned := 0 }}) ((s {{ assigned := 0 }}) {{ s_wsi := None }}) C1) as C3.
  set (p3 := mkPt _ _ _ _ _ _) in C3. assert (Hs1 : ah_pool p1 !! n = Some (s {{ assigned := 0 }}))
    by (by rewrite A1, list_lookup_insert_eq by (by eapply lookup_lt_Some)).
  exists p1, (p1 {{ pt_wsis ::= <[id := w {{ w_ah := None }}]> }}), p3. split; [done|]. split; [done|]. split; [done|].
  split; [unfold upd_wsi; by rewrite W1, Hw|].
  split; [unfold upd_slot, p3; destruct p1; cbn in *; by rewrite Hs1|]. split; [|cbn; by rewrite W1].
  assert (Hah : forall x, ah_of p3 x = if decide (x = id) then Some None else ah_of p x).
  { intros x. unfold ah_of, p3. cbn. rewrite W1. case_decide as Ex; [by rewrite Ex, lookup_insert_eq; destruct w|by rewrite lookup_insert_ne]. }
  constructor.
  - apply C3; [by rewrite W1|by destruct w|by destruct w|by destruct w|apply wsi_ok_ah; apply (c_wsis _ _ _ _ C1 id); by rewrite W1|done|
      by destruct s|by destruct s].
  - apply (im_holding _ _ I). exists n. by rewrite (ah_some p id w Hw), Ha.
  - intros x. rewrite elem_of_difference, elem_of_singleton, Hah, (im_holding _ _ I). case_decide; [|tauto]. split; [tauto|]. by intros [m ?].
  - cbn. rewrite K1. apply I.
  - intros x v Hx Hv. apply ah_some in Hv. rewrite Hah in Hv. case_decide; [by injection Hv|].
    apply ah_some_inv in Hv as (v0 & Hv0 & <-). by apply (pi_wait _ _ _ PI x).
  - cbn. rewrite K1. apply PI.
Qed.

Lemma detach_ok p a id w auto : Implements p a -> pt_wsis p !! id = Some w ->
  (forall n s, w_ah w = Some n -> ah_pool p !! n = Some s -> rxpos s = rxlen s) ->
  auto = false \/ map_Forall (fun _ w => preamble_rx w = None) (pt_wsis p) ->
  exists p', lws_header_table_detach p id auto = Some p' /\ Implements p' (spec_detach a id).
Proof.
  intros I Hw Hrx Hauto. unfold lws_header_table_detach.
  destruct (quiet_ok p a id w I Hw) as (p1 & -> & I1 & W1 & A1). cbn [mbind option_bind].
  set (w1 := w {{ preamble_rx := None }}) in W1. assert (Hw1 : pt_wsis p1 !! id = Some w1) by (by rewrite W1, lookup_insert_eq).
  assert (Ha1 : w_ah w1 = w_ah w) by (by destruct w). rewrite Hw1. cbn [mbind option_bind]. rewrite Ha1.
  destruct (w_ah w) as [n|] eqn:Ha; [|by apply (leave_ok p1 a id w1)].
  pose proof (pi_core _ _ _ (im_inv _ _ I1)) as C1. destruct (c_own _ _ _ _ C1 id w1 n Hw1 Ha1) as (s & Hs & _).
  rewrite Hs. cbn [mbind option_bind]. rewrite (Hrx n s eq_refl), Z.eqb_refl by congruence. cbn [negb].
  destruct (let_go_ok p1 a id w1 n s I1 Hw1 Ha1 Hs) as (p2 & p3 & p4 & -> & Hc & Hu & E3 & E4 & R & W4). cbn [mbind option_bind].
  unfold assert. rewrite Hc, Hu. cbn [orb mbind option_bind]. rewrite E3. cbn [mbind option_bind]. rewrite E4. cbn [mbind option_bind].
  rewrite (c_head _ _ _ _ (rl_core _ _ _ _ R)). destruct (queue a) as [|x q] eqn:Eq; [by apply release_free|].
  destruct (reverse (x :: q) !! 0%nat) eqn:E0; [|apply lookup_ge_None in E0; rewrite length_reverse in E0; cbn in E0; lia].
  apply (release_over p4 a id n x q); [done|done|]. destruct Hauto as [?|Hq]; [by left|right]. rewrite W4, W1.
  apply map_Forall_insert_2; [by destruct w|]. apply map_Forall_insert_2; [by destruct w|done].
Qed.

Lemma drop_rx_ok p a id : Implements p a -> is_Some (pt_wsis p !! id) ->
  exists p' w, drop_rx p id = Some p' /\ Implements p' a /\ pt_wsis p' = pt_wsis p /\ pt_wsis p !! id = Some w /\
    forall n s, w_ah w = Some n -> ah_pool p' !! n = Some s -> rxpos s = rxlen s.
Proof.
  intros I [w Hw]. pose proof (pi_core _ _ _ (im_inv _ _ I)) as C. unfold drop_rx. rewrite Hw. cbn [mbind option_bind].
  destruct (w_ah w) as [n|] eqn:Ha; [|exists p, w; by split_and!; try congruence].
  destruct (c_own _ _ _ _ C id w n Hw Ha) as (s & Hs & _). pose proof (Forall_lookup_1 _ _ _ _ (c_slots _ _ _ _ C) Hs) as Hok.
  destruct (slot_step data_len p _ None n s (fun s => s {{ rxpos := rxlen s }}) C Hs) as (p1 & E1 & C1 & W1 & A1 & K1);
    [by destruct s|by destruct s|by destruct s|].
  exists p1, w. split; [done|]. split; [apply (implements_keeps p); [done|done|by apply keeps_same]|]. split; [done|]. split; [done|].
  intros m t Hm Ht. assert (m = n) as -> by congruence. rewrite A1, list_lookup_insert_eq in Ht by (by eapply lookup_lt_Some).
  injection Ht as <-. by destruct s.
Qed.

(** ** The other operations *)

Lemma gone p a id : Implements p a -> (id ∉ holding (spec_detach a id)) /\ (id ∉ queue (spec_detach a id)).
Proof.
  intros I. pose proof (im_inv _ _ I) as PI. unfold spec_detach. case_decide as Hin; cbn.
  - assert (Hn : id ∉ queue a).
    { intros Hq. rewrite <- queue_in_reverse in Hq. destruct (queue_known _ _ _ _ _ (pi_core _ _ _ PI) Hq) as [w Hw].
      apply (im_holding _ _ I) in Hin as [n Hn]. rewrite (ah_some _ _ _ Hw), (pi_wait _ _ _ PI id w Hq Hw) in Hn. done. }
    destruct (queue a) as [|x q]; cbn; [set_solver|]. apply not_elem_of_cons in Hn as [? ?]. set_solver.
  - split; [done|]. rewrite list_elem_of_filter. tauto.
Qed.

Lemma forget_ok p a id : Implements p a -> (id ∉ holding a) -> (id ∉ queue a) -> Implements (p {{ pt_wsis ::= delete id }}) a.
Proof.
  intros I Hh Hq. rewrite <- queue_in_reverse in Hq. destruct I as [[C Hwait Hfull] Hhold Hfree].
  assert (Hno : forall w, pt_wsis p !! id = Some w -> w_ah w = None).
  { intros w Hw. destruct (w_ah w) as [n|] eqn:E; [|done]. destruct Hh. apply Hhold. exists n. by rewrite (ah_some _ _ _ Hw), E. }
  destruct C, p as [ws fds pool hd len cnt]. cbn in *. unfold ah_of in *. cbn in *. constructor; cbn; [|intros x; unfold ah_of; cbn|done].
  - constructor; [constructor; cbn; try done| |done].
    + intros x w n Hx. apply lookup_delete_Some in Hx as [_ Hx]. by apply c_own0.
    + intros n s Hs Hu Hl. destruct (c_slot0 n s Hs Hu Hl) as (x & w & ? & Hx & Ha). exists x, w. split; [done|].
      rewrite lookup_delete_ne; [done|]. intros <-. by rewrite (Hno w Hx) in Ha.
    + intros i x Hi. destruct (c_next0 i x Hi) as (w & Hx & ?). exists w. split; [|done].
      rewrite lookup_delete_ne; [done|]. intros <-. apply Hq. by eapply list_elem_of_lookup_2.
    + rewrite map_size_delete. destruct (ws !! id); [|done]. lia.
    + by apply map_Forall_delete.
    + intros x w Hx Hw. cbn in Hw. apply lookup_delete_Some in Hw as [_ Hw]. by apply (Hwait x).
  - destruct (decide (x = id)) as [->|]; [rewrite lookup_delete_eq; cbn; split; [done|by intros [? ?]]|].
    rewrite lookup_delete_ne by done. apply Hhold.
Qed.

Lemma new_wsi_ok p a id pos : Implements p a -> Allowed p (OConnect id pos) ->
  exists p', new_wsi p id pos = Some p' /\ Implements p' a.
Proof.
  intros I (Hid & Hpos & Hsize). unfold new_wsi. rewrite Hid. eexists. split; [done|].
  assert (Hq : id ∉ reverse (queue a)).
  { intros Hq. destruct (queue_known _ _ _ _ _ (pi_core _ _ _ (im_inv _ _ I)) Hq) as [w Hw]. congruence. }
  destruct I as [[C Hwait Hfull] Hhold Hfree]. destruct C, p as [ws fds pool hd len cnt]. cbn in *. unfold ah_of in *. cbn in *.
  constructor; cbn; [|intros x; unfold ah_of; cbn|done].
  - constructor; [constructor; cbn; try done| |done].
    + intros x w n Hx. apply lookup_insert_Some in Hx as [(<- & <-)|[_ Hx]]; [done|by apply c_own0].
    + intros n s Hs Hu Hl. destruct (c_slot0 n s Hs Hu Hl) as (x & w & ? & Hx & Ha). exists x, w. split; [done|].
      rewrite lookup_insert_ne; [done|]. by intros <-; congruence.
    + intros i x Hi. destruct (c_next0 i x Hi) as (w & Hx & ?). exists w. split; [|done].
      rewrite lookup_insert_ne; [done|]. intros <-; congruence.
    + rewrite map_size_insert_None by done. lia.
    + by apply map_Forall_insert_2.
    + intros x w Hx Hw. cbn in Hw. apply lookup_insert_Some in Hw as [(<- & <-)|[_ Hw]]; [done|by apply (Hwait x)].
  - destruct (decide (x = id)) as [->|].
    + rewrite lookup_insert_eq. cbn. rewrite Hhold, Hid. split; by intros [? ?].
    + rewrite lookup_insert_ne by done. apply Hhold.
Qed.

Lemma read_ok p a id b : Implements p a -> Allowed p (ORead id b) -> exists p', read_rx p id b = Some p' /\ Implements p' a.
Proof.
  intros I ([n Hn] & Hb). pose proof (pi_core _ _ _ (im_inv _ _ I)) as C.
  destruct (ah_of p id) as [[m|]|] eqn:Hah; try done. injection Hn as ->. apply ah_some_inv in Hah as (w & Hw & Ha).
  destruct (c_own _ _ _ _ C id w n Hw Ha) as (s & Hs & _). pose proof (Forall_lookup_1 _ _ _ _ (c_slots _ _ _ _ C) Hs) as Hok.
  unfold read_rx. rewrite Hw. cbn [mbind option_bind]. rewrite Ha. cbn [mbind option_bind]. rewrite Hs. cbn [mbind option_bind].
  pose proof (zlen_nonneg b). destruct Hok as (Hr & Hok). unfold store. replace (0 + zlen b <=? zlen (rx s)) with true by lia. cbn [Z.leb Z.compare andb mbind option_bind].
  destruct (slot_step data_len p _ None n s (fun s0 => s0 {{ rx := splice (Z.to_nat 0) b (rx s); rxpos := 0; rxlen := zlen b }}) C Hs)
    as (p1 & E1 & C1 & W1 & A1 & K1); [by destruct s|by destruct s| |].
  { assert (Hl : zlen (splice (Z.to_nat 0) b (rx s)) = RX_SIZE) by (unfold zlen in *; rewrite length_splice; lia). by destruct s. }
  exists p1. split; [done|]. apply (implements_keeps p); [done|done|by apply keeps_same].
Qed.

Lemma adopt_ok p a id b : Implements p a -> Allowed p (OAdopt id b) ->
  exists p' r, adopt_socket_readbuf p id b = Some (p', r) /\ Implements p' (spec_attach a id).1.
Proof.
  intros I (Hid & Hf & Hb). apply ah_some_inv in Hid as (w & Hw & Ha). unfold adopt_socket_readbuf.
  rewrite (proj2 (Z.eqb_neq _ 0)) by lia. replace (zlen b >? RX_SIZE) with false by lia. rewrite Hw. cbn [mbind option_bind]. rewrite Ha.
  destruct (attach_ok p a id I) as (p1 & -> & I1 & _); [by eexists|]. cbn [mbind option_bind].
  assert (Hr : (spec_attach a id).2 = 1).
  { unfold pool_full in Hf. zbool. pose proof (im_free _ _ I). unfold spec_attach. rewrite decide_False by (by apply (not_holding p a id w)).
    by replace (free a) with 0%nat by lia. }
  rewrite Hr. change (1 =? 0) with false. cbv iota. pose proof (pi_core _ _ _ (im_inv _ _ I1)) as C1.
  assert (Hw1 : exists w1, pt_wsis p1 !! id = Some w1).
  { apply (queue_known data_len p1 _ None id C1). rewrite queue_in_reverse. unfold spec_attach in *. revert Hr.
    repeat case_match; cbn; intros Hr; try done. set_solver. }
  destruct Hw1 as [w1 Hw1].
  destruct (wsi_step data_len p1 _ None id w1 (fun w => w {{ preamble_rx := Some b }}) C1 Hw1) as (p2 & -> & C2 & W2 & A2 & _ & K2);
    [by destruct w1|by destruct w1| |].
  { pose proof (c_wsis _ _ _ _ C1 id w1 Hw1) as [? _]. destruct w1. split; [done|]. cbn. lia. }
  cbn [mbind option_bind]. exists p2, true. split; [done|]. apply (implements_keeps p1); [done|done|]. split; [|done].
  intros x. unfold ah_of. rewrite W2. apply (fmap_insert_same _ _ _ w1); [done|by destruct w1].
Qed.

(** ** Runs *)

Lemma step_ok p a o : Implements p a -> Allowed p o ->
  exists p', step p o = Some (p', (spec_step a o).2) /\ Implements p' (spec_step a o).1.
Proof.
  intros I Ha. destruct o as [id pos|id|id auto|id|id b|id b]; cbn [step spec_step fst snd].
  - destruct (new_wsi_ok p a id pos I Ha) as (p' & -> & I'). by exists p'.
  - destruct (attach_ok p a id I Ha) as (p' & -> & I' & _). by exists p'.
  - destruct Ha as [Hid Hauto]. destruct (drop_rx_ok p a id I Hid) as (p1 & w & -> & I1 & W1 & Hw & Hrx). cbn [mbind option_bind].
    destruct (detach_ok p1 a id w auto I1) as (p2 & -> & I2); rewrite ?W1; try done; [destruct auto; [right; by apply Hauto|by left]|].
    by exists p2.
  - unfold lws_free_wsi. destruct (drop_rx_ok p a id I Ha) as (p1 & w & -> & I1 & W1 & Hw & Hrx). cbn [mbind option_bind].
    destruct (detach_ok p1 a id w false I1) as (p2 & -> & I2); rewrite ?W1; try done; [by left|]. cbn [mbind option_bind].
    eexists. split; [done|]. by apply forget_ok; [|eapply gone..].
  - destruct (read_ok p a id b I Ha) as (p' & -> & I'). by exists p'.
  - destruct (adopt_ok p a id b I Ha) as (p' & r & -> & I'). by exists p'.
Qed.

(** A sequence of operations and their results. *)
Fixpoint runs (p : pt) (l : list op) : option (pt * list Z) :=
  match l with
  | [] => Some (p, [])
  | o :: l => '(p, r) ← step p o; '(p, rs) ← runs p l; Some (p, r :: rs)
  end.

Fixpoint spec_runs (a : fifo) (l : list op) : fifo * list Z :=
  match l with
  | [] => (a, [])
  | o :: l => let '(a, r) := spec_step a o in let '(a, rs) := spec_runs a l in (a, r :: rs)
  end.

Fixpoint AllowedRun (p : pt) (l : list op) : Prop :=
  match l with
  | [] => True
  | o :: l => Allowed p o /\ forall p' r, step p o = Some (p', r) -> AllowedRun p' l
  end.

(** The same, computed. *)
#[global] Instance allowed_dec p o : Decision (Allowed p o).
Proof. destruct o; cbn; apply _. Defined.

Fixpoint allowed_run (p : pt) (l : list op) : bool :=
  match l with
  | [] => true
  | o :: l => bool_decide (Allowed p o) && match step p o with Some (p', _) => allowed_run p' l | None => true end
  end.

Lemma allowed_run_ok l : forall p, allowed_run p l = true -> AllowedRun p l.
Proof.
  induction l as [|o l IH]; intros p Ha; [done|]. cbn in *. apply andb_true_iff in Ha as [Ho Ha]. apply bool_decide_eq_true_1 in Ho.
  split; [done|]. intros p' r E. rewrite E in Ha. by apply IH.
Qed.

Lemma runs_ok l : forall p a, Implements p a -> AllowedRun p l ->
  exists p', runs p l = Some (p', (spec_runs a l).2) /\ Implements p' (spec_runs a l).1.
Proof.
  induction l as [|o l IH]; intros p a I Hr; [by exists p|]. destruct Hr as [Ho Hr]. cbn [runs spec_runs].
  destruct (step_ok p a o I Ho) as (p1 & E1 & I1). rewrite E1. cbn [mbind option_bind]. specialize (Hr _ _ E1).
  destruct (spec_step a o) as [a1 r]. cbn [fst snd] in *. destruct (IH p1 a1 I1 Hr) as (p2 & E2 & I2). rewrite E2. cbn [mbind option_bind].
  destruct (spec_runs a1 l) as [a2 rs]. by exists p2.
Qed.

(** No two connections have the same table. *)
Lemma exclusive p a x y n : Implements p a -> ah_of p x = Some (Some n) -> ah_of p y = Some (Some n) -> x = y.
Proof.
  intros I Hx Hy. pose proof (pi_core _ _ _ (im_inv _ _ I)) as C.
  apply ah_some_inv in Hx as (w & Hw & Ha). apply ah_some_inv in Hy as (v & Hv & Hb).
  destruct (c_own _ _ _ _ C x w n Hw Ha) as (s & Hs & _ & Ho). destruct (c_own _ _ _ _ C y v n Hv Hb) as (t & Ht & _ & Hp). congruence.
Qed.

End Props.

Section Theorems.
Context `{PoolEnv}.

Lemma start_ok (data_len : nat) fds : Z.of_nat max_http_header_pool < 2 ^ 15 ->
  Implements (Z.of_nat data_len) (new_pt max_http_header_pool data_len fds) (mkFifo ∅ [] max_http_header_pool).
Proof.
  intros Hm. assert (Hrep : forall n s, replicate max_http_header_pool (new_slot data_len) !! n = Some s -> s = new_slot data_len).
  { intros n s Hs. by apply lookup_replicate in Hs as [-> _]. }
  assert (Hused : forall k, used (replicate k (new_slot data_len)) = []).
  { induction k as [|k IH]; [done|]. cbn [replicate]. unfold used in *. rewrite filter_cons. by rewrite decide_False. }
  constructor; cbn.
  - constructor; [constructor; cbn; try done| |done].
    + apply length_replicate.
    + intros n s Hs Hu. rewrite (Hrep n s Hs) in Hu. done.
    + by rewrite Hused.
    + by constructor.
    + apply Forall_replicate. split_and!; [vm_compute; reflexivity|cbn; unfold zlen; by rewrite length_replicate|vm_compute; reflexivity].
    + by intros x w ?%not_elem_of_nil.
  - intros x. split; [by intros ?%not_elem_of_empty|]. by intros [n ?].
  - done.
Qed.

(** C12: the pool of header tables is a fair allocator.  From the start of the thread,
    for every sequence of new connections, attaches, detaches, closes and reads, the
    operations on the pool (with its flags, owners, counters and pointers between
    connections) end, touch no freed connection, fail no assert, and return what a
    set of holders with a first-in first-out queue returns.  Afterwards exactly the
    holders have a table, the pointers spell the queue, no table has two owners, and
    nobody waits while a table is free. *)
Theorem pool_refines_fifo (data_len : nat) fds l :
  Z.of_nat max_http_header_pool < 2 ^ 15 -> AllowedRun (new_pt max_http_header_pool data_len fds) l ->
  exists p, runs (new_pt max_http_header_pool data_len fds) l = Some (p, (spec_runs (mkFifo ∅ [] max_http_header_pool) l).2) /\
    Implements (Z.of_nat data_len) p (spec_runs (mkFifo ∅ [] max_http_header_pool) l).1 /\
    (forall x y n, ah_of p x = Some (Some n) -> ah_of p y = Some (Some n) -> x = y).
Proof.
  intros Hm Hr. destruct (runs_ok (Z.of_nat data_len) l _ _ (start_ok data_len fds Hm) Hr) as (p & E & I).
  exists p. split; [done|]. split; [done|]. intros x y n. by apply (exclusive (Z.of_nat data_len) p (spec_runs (mkFifo ∅ [] max_http_header_pool) l).1).
Qed.

(** ** Waiting ends *)

(** The operation gives a table free, or on to the next. *)
Definition releasing (a : fifo) (o : op) : bool :=
  match o with ODetach id _ | OFree id => bool_decide (id ∈ holding a) | _ => false end.

Fixpoint releases (a : fifo) (l : list op) : nat :=
  match l with
  | [] => 0
  | o :: l => (if releasing a o then 1 else 0) + releases (spec_step a o).1 l
  end.

(** The operation is not the end of the request or of the connection [id]. *)
Definition Stays (id : Z) (o : op) : Prop :=
  match o with ODetach x _ | OFree x => x <> id | _ => True end.

Lemma filter_closer (l : list Z) x id : id <> x -> forall k, l !! k = Some id ->
  exists k', (k' <= k)%nat /\ filter (fun y => y <> x) l !! k' = Some id.
Proof.
  intros Hne. induction l as [|y l IH]; intros k Hk; [done|]. rewrite filter_cons. destruct k as [|k]; cbn in Hk.
  - injection Hk as ->. rewrite decide_True by done. exists 0%nat. split; [lia|done].
  - destruct (IH k Hk) as (k' & Hle & Hk'). case_decide; [exists (S k'); split; [lia|done]|exists k'; split; [lia|done]].
Qed.

Lemma attach_queue a x id k : queue a !! k = Some id -> queue (spec_attach a x).1 !! k = Some id.
Proof. intros Hk. unfold spec_attach. repeat case_match; cbn; try done. by apply lookup_app_l_Some. Qed.

Lemma attach_holding a x id : id ∈ holding a -> id ∈ holding (spec_attach a x).1.
Proof. intros Hk. unfold spec_attach. repeat case_match; cbn; try done. set_solver. Qed.

(** One operation: a holder stays one, and a waiting connection comes closer. *)
Lemma holding_step a o id : id ∈ holding a -> Stays id o -> id ∈ holding (spec_step a o).1.
Proof.
  intros Hh Hs. destruct o as [| x | x au | x | |x b]; cbn in *; try done; try by apply attach_holding.
  all: unfold spec_detach; repeat case_match; cbn; set_solver.
Qed.

Lemma detach_queue a x id k : queue a !! k = Some id -> x <> id ->
  if bool_decide (x ∈ holding a)
  then (k = 0%nat /\ id ∈ holding (spec_detach a x)) \/ (exists j, k = S j /\ queue (spec_detach a x) !! j = Some id)
  else exists j, (j <= k)%nat /\ queue (spec_detach a x) !! j = Some id.
Proof.
  intros Hk Hx. unfold spec_detach. case_bool_decide as Hh; [rewrite decide_True by done|rewrite decide_False by done].
  - destruct (queue a) as [|y q]; [done|]. destruct k as [|k]; cbn in *; [left|right; by exists k].
    injection Hk as ->. split; [done|]. set_solver.
  - apply filter_closer; [congruence|done].
Qed.

Lemma served l : forall a id, Forall (Stays id) l ->
  (id ∈ holding a \/ exists k, queue a !! k = Some id /\ (k < releases a l)%nat) -> id ∈ holding (spec_runs a l).1.
Proof.
  induction l as [|o l IH]; intros a id Hf Hc; [destruct Hc as [?|(k & _ & Hk)]; [done|cbn in Hk; lia]|].
  apply Forall_cons in Hf as [Ho Hf]. cbn [spec_runs].
  assert (Hc' : id ∈ holding (spec_step a o).1 \/ exists k, queue (spec_step a o).1 !! k = Some id /\ (k < releases (spec_step a o).1 l)%nat).
  { destruct Hc as [Hh|(k & Hk & Hlt)]; [left; by apply holding_step|]. cbn [releases] in Hlt.
    destruct o as [| x | x au | x | |x b]; cbn [releasing Stays spec_step fst] in *; cbn [Nat.add] in Hlt;
      try (right; exists k; split; [try done; by apply attach_queue|done]).
    all: pose proof (detach_queue a x id k Hk Ho) as Hd; case_bool_decide.
    all: first [destruct Hd as [[-> Hh]|(j & -> & Hj)]; [by left|right; exists j; split; [done|lia]] |
                destruct Hd as (j & Hle & Hj); right; exists j; split; [done|lia]]. }
  specialize (IH _ id Hf Hc'). destruct (spec_step a o) as [a1 r]. cbn [fst] in *. by destruct (spec_runs a1 l).
Qed.

(** C13: waiting ends.  A connection with [k] others before it in the queue has a
    table after any run in which k+1 tables are given back (by requests that end or
    by connections that close), whoever else comes, waits or leaves in between, as
    long as it does not leave itself. *)
Theorem waiter_served data_len p a id k l : Implements data_len p a -> queue a !! k = Some id -> AllowedRun p l ->
  Forall (Stays id) l -> (k < releases a l)%nat ->
  exists p' rs n, runs p l = Some (p', rs) /\ ah_of p' id = Some (Some n).
Proof.
  intros I Hk Hr Hs Hlt. destruct (runs_ok data_len l p a I Hr) as (p' & E & I'). exists p', (spec_runs a l).2.
  assert (Hh : id ∈ holding (spec_runs a l).1) by (apply served; [done|right; by exists k]).
  apply (im_holding _ _ _ I') in Hh as [n Hn]. by exists n.
Qed.

(** ** The table and the parser *)

(** C37: a table from the pool is fit for the header parser.  After an attach that
    returns 0, whatever the table was used for before, a parser at its start with
    this table handles every sequence of bytes inside the table's memory. *)
Theorem attached_table_parses {ctx : HttpCtx} {ctx_ok : HttpCtxOk ctx} p a id p' :
  Implements max_http_header_data p a -> is_Some (pt_wsis p !! id) -> lws_header_table_attach p id false = Some (p', 0) ->
  exists n s, ah_of p' id = Some (Some n) /\ ah_pool p' !! n = Some s /\
    forall w bs, ah w = headers s -> parser_state w = WSI_TOKEN_NAME_PART -> lextable_pos w = 0 -> all_u8 bs ->
      exists r w' rest, feed w bs = Some (r, w', rest) /\ (r = 0 -> HdrInv w').
Proof.
  intros I Hid E. destruct (attach_ok max_http_header_data p a id I Hid) as (p1 & E1 & I1 & Hat). rewrite E in E1.
  injection E1 as <- Er. destruct (Hat (eq_sym Er)) as (n & s & Hn & Hs & Hf). exists n, s. split; [done|]. split; [done|].
  intros w bs Hw Hps Hlp Hbs. pose proof (Forall_lookup_1 _ _ _ _ (c_slots _ _ _ _ (pi_core _ _ _ (im_inv _ _ _ I1))) Hs) as (_ & Hd & Hg).
  assert (Hstart : RequestStart w).
  { constructor; rewrite ?Hw; try done. destruct Hf as [t ->]. by destruct t. }
  destruct (ok_some _ _ (feed_ok bs w (request_start_inv w Hstart) Hbs)) as ([[r w'] rest] & He & Hr).
  exists r, w', rest. split; [done|]. intros ->. cbn in Hr. destruct Hr as [[_ ?]|[?|?]]; done.
Qed.

End Theorems.

(** ** A thread with one table *)

#[local] Instance demo_pool : PoolEnv :=
  {| time _ := 100; lws_service_fd_tsi p _ := Some p; max_http_header_pool := 1; ndebug := false |}.

Definition demo_start_pt : pt := new_pt 1 200 [1; 1; 1].

(** Connection 1 has the table, 2 and 3 wait for it. *)
Definition three : list op := [OConnect 1 0; OConnect 2 1; OConnect 3 2; OAttach 1; OAttach 2; OAttach 3].

Lemma pool_refines_fifo_witness :
  let l := three ++ [ORead 1 [71; 69; 84]; OAttach 2; ODetach 1 true; OFree 2; OFree 1; OAttach 3] in
  spec_runs (mkFifo ∅ [] 1) l = (mkFifo {[ 3 ]} [] 0, [0; 0; 0; 0; 1; 1; 0; 1; 0; 0; 0; 0]) /\
  exists p, runs demo_start_pt l = Some (p, [0; 0; 0; 0; 1; 1; 0; 1; 0; 0; 0; 0]) /\ ah_of p 3 = Some (Some 0%nat).
Proof.
  cbv zeta. set (l := three ++ _). assert (E : spec_runs (mkFifo ∅ [] 1) l = (mkFifo {[ 3 ]} [] 0, [0; 0; 0; 0; 1; 1; 0; 1; 0; 0; 0; 0]))
    by (vm_compute; reflexivity).
  split; [exact E|]. destruct (pool_refines_fifo 200 [1; 1; 1] l) as (p & Er & I & _);
    [reflexivity|apply allowed_run_ok; vm_compute; reflexivity|]. change (max_http_header_pool) with 1%nat in Er, I. rewrite E in Er, I.
  exists p. split; [exact Er|]. cbn [fst] in I. destruct (proj1 (im_holding _ _ _ I 3)) as [n Hn]; [cbn; set_solver|].
  destruct (ah_some_inv p 3 (Some n) Hn) as (w & Hw & Hwn).
  destruct (c_own _ _ _ _ (pi_core _ _ _ (im_inv _ _ _ I)) 3 w n Hw Hwn) as (s & Hs & _).
  apply lookup_lt_Some in Hs. rewrite (c_pool _ _ _ _ (pi_core _ _ _ (im_inv _ _ _ I))) in Hs. cbn in Hs.
  by replace 0%nat with n by lia.
Defined.

(** The thread after [l]. *)
Definition after (l : list op) : pt := match runs demo_start_pt l with Some (p, _) => p | None => demo_start_pt end.

Lemma after_ok l : allowed_run demo_start_pt l = true -> Implements 200 (after l) (spec_runs (mkFifo ∅ [] 1) l).1.
Proof.
  intros Ha. destruct (runs_ok 200 l _ _ (start_ok (H := demo_pool) 200 [1; 1; 1] eq_refl) (allowed_run_ok l _ Ha)) as (p & E & I).
  unfold after. change (new_pt max_http_header_pool 200 [1; 1; 1]) with demo_start_pt in E. by rewrite E.
Qed.

Lemma waiter_served_witness :
  let l := [ODetach 1 true; OAttach 1; OFree 2] in
  exists p' rs n, runs (after three) l = Some (p', rs) /\ ah_of p' 3 = Some (Some n).
Proof.
  cbv zeta. apply (waiter_served 200 (after three) (spec_runs (mkFifo ∅ [] 1) three).1 3 1).
  - apply after_ok. vm_compute. reflexivity.
  - vm_compute. reflexivity.
  - apply allowed_run_ok. vm_compute. reflexivity.
  - repeat constructor; discriminate.
  - vm_compute. lia.
Defined.

Lemma attached_table_parses_witness : exists n s, ah_of (after three) 1 = Some (Some n) /\ ah_pool (after three) !! n = Some s.
Proof.
  assert (Ha : exists p', lws_header_table_attach (after (take 3 three)) 1 false = Some (p', 0) /\ ah_of p' 1 = ah_of (after three) 1 /\
    length (ah_pool p') = length (ah_pool (after three))) by (eexists; split; [vm_compute; reflexivity|split; vm_compute; reflexivity]).
  destruct Ha as (p' & E & Ea & El).
  destruct (attached_table_parses (ctx := demo_ctx) (ctx_ok := demo_ctx_ok) (after (take 3 three)) (spec_runs (mkFifo ∅ [] 1) (take 3 three)).1 1 p')
    as (n & s & Hn & Hs & _); [apply after_ok; vm_compute; reflexivity|vm_compute; by eexists|exact E|].
  destruct (lookup_lt_is_Some_2 (ah_pool (after three)) n) as [t Ht]; [rewrite <- El; by eapply lookup_lt_Some|].
  exists n, t. by rewrite <- Ea.
Defined.

(** ** Service in the middle of a detach *)

(** A thread whose service of a connection finds the request complete, or wrong, and
    ends it at once. *)
Definition ending (b : bool) : PoolEnv :=
  {| time _ := 100; max_http_header_pool := 1; ndebug := b; lws_service_fd_tsi p id := bail_nuke_ah p id |}.

(** A table is handed over while its new owner still waits.  lws_header_table_detach
    resets the table for the oldest waiting connection, which serves the bytes it came
    with, before that connection is taken off the list.  When its request ends there,
    the inner detach finds the connection itself as the oldest one waiting and gives
    it the table again; both calls then take it off the list.  In a debug build an
    assert fails; in a release build the length of the list is -1, and the connection
    whose request is over owns the table again, for as long as it stays open. *)
Lemma detach_reentered :
  let l := [OConnect 1 0; OConnect 2 1; OAttach 1; OAdopt 2 (bstr "GET /")] in
  bail_nuke_ah (H := ending false) (after l) 1 = None /\
  exists p, bail_nuke_ah (H := ending true) (after l) 1 = Some p /\
    ah_wait_list_length p = -1 /\ pt_ah_wait_list p = None /\ ah_of p 1 = Some None /\ ah_of p 2 = Some (Some 0%nat) /\
    ah_count_in_use p = 1.
Proof. split; [vm_compute; reflexivity|]. eexists. split; [vm_compute; reflexivity|]. split_and!; reflexivity. Qed.

End HeaderPoolProps.
