(* ===== verification/Region.v ===== *)
(** * Text in memory

    Loops over a C string and stores into a buffer, as the handshake and the string
    helpers use them: what [store] leaves where, and where a search stops. *)

From S2P Require Import Prelude HttpHdr.

Module Region.
Import Hdr.

(** [while ( *q && stop( *q) fails) q++] *)
Fixpoint skip_to (fuel : nat) (stop : Z -> bool) (buf : bytes) (q : Z) : option Z :=
  match fuel with
  | O => None
  | S fuel =>
      c ← buf !! Z.to_nat q;
      if (c =? 0) || stop c then Some q else skip_to fuel stop buf (q + 1)
  end.

(** ** Regions *)

(** [s] lies in [buf] at [off]. *)
Definition At (buf : bytes) (off : Z) (s : bytes) : Prop :=
  0 <= off /\ off + zlen s <= zlen buf /\ take (length s) (drop (Z.to_nat off) buf) = s.

Lemma store_some buf p s : 0 <= p -> p + zlen s <= zlen buf -> store buf p s = Some (splice (Z.to_nat p) s buf).
Proof. intros Hp Hl. unfold store. by rewrite (proj2 (Z.leb_le 0 p)), (proj2 (Z.leb_le _ _)) by lia. Qed.

Lemma zlen_splice p s (buf : bytes) : 0 <= p -> p + zlen s <= zlen buf -> zlen (splice (Z.to_nat p) s buf) = zlen buf.
Proof. intros Hp Hl. unfold zlen in *. rewrite length_splice; lia. Qed.

Lemma at_splice p s (buf : bytes) : 0 <= p -> p + zlen s <= zlen buf -> At (splice (Z.to_nat p) s buf) p s.
Proof.
  intros Hp Hl. split; [done|]. split; [by rewrite zlen_splice|]. unfold splice, zlen in *.
  rewrite drop_app_ge by (rewrite length_take; lia). rewrite length_take.
  replace (Z.to_nat p - Z.to_nat p `min` length buf)%nat with 0%nat by lia. rewrite drop_0. apply take_app_length.
Qed.

Lemma drop_splice_before p s (buf : bytes) q : 0 <= p -> p + zlen s <= q -> p + zlen s <= zlen buf ->
  drop (Z.to_nat q) (splice (Z.to_nat p) s buf) = drop (Z.to_nat q) buf.
Proof.
  intros Hp Hq Hl. unfold splice, zlen in *. rewrite !drop_app_ge by (rewrite ?length_take; lia).
  rewrite drop_drop. f_equal. rewrite length_take. lia.
Qed.

Lemma take_splice_after p s (buf : bytes) q : 0 <= q <= p -> p <= zlen buf ->
  take (Z.to_nat q) (splice (Z.to_nat p) s buf) = take (Z.to_nat q) buf.
Proof.
  intros Hq Hl. unfold splice, zlen in *. rewrite take_app_le by (rewrite length_take; lia).
  rewrite take_take. f_equal. lia.
Qed.

(** Writing next to a region keeps it. *)
Lemma at_before p s buf off t : At buf off t -> 0 <= p -> p + zlen s <= off -> At (splice (Z.to_nat p) s buf) off t.
Proof.
  intros (H1 & H2 & H3) Hp Hl. pose proof (zlen_nonneg t). split; [done|]. split; [rewrite zlen_splice; lia|].
  by rewrite drop_splice_before by lia.
Qed.

Lemma at_after p s buf off t : At buf off t -> off + zlen t <= p -> p + zlen s <= zlen buf -> At (splice (Z.to_nat p) s buf) off t.
Proof.
  intros (H1 & H2 & H3) Hp Hl. pose proof (zlen_nonneg t). pose proof (zlen_nonneg s). split; [done|].
  split; [rewrite zlen_splice; lia|].
  rewrite <- H3 at 2. rewrite !take_drop_commute. f_equal.
  replace (Z.to_nat off + length t)%nat with (Z.to_nat (off + zlen t)) by (unfold zlen; lia).
  apply take_splice_after; lia.
Qed.

Lemma at_app buf off s t : At buf off s -> At buf (off + zlen s) t -> At buf off (s ++ t).
Proof.
  intros (H1 & H2 & H3) (H4 & H5 & H6). split; [done|]. split; [rewrite zlen_app; lia|].
  rewrite length_app, <- take_take_drop. rewrite H3. f_equal. rewrite drop_drop.
  replace (Z.to_nat off + length s)%nat with (Z.to_nat (off + zlen s)) by (unfold zlen; lia). exact H6.
Qed.

Lemma at_prefix buf off s t : At buf off (s ++ t) -> At buf off s.
Proof.
  intros (H1 & H2 & H3). rewrite zlen_app in H2. pose proof (zlen_nonneg t). split; [done|]. split; [lia|].
  rewrite <- (take_app_length s t) at 2. rewrite <- H3, take_take, length_app. f_equal. lia.
Qed.

Lemma at_suffix buf off s t : At buf off (s ++ t) -> At buf (off + zlen s) t.
Proof.
  intros (H1 & H2 & H3). rewrite zlen_app in H2. pose proof (zlen_nonneg s). split; [lia|]. split; [lia|].
  rewrite length_app, <- take_take_drop in H3. apply app_inj_1 in H3 as [_ H3].
  - rewrite drop_drop in H3. by replace (Z.to_nat (off + zlen s)) with (Z.to_nat off + length s)%nat by (unfold zlen; lia).
  - rewrite length_take, length_drop. unfold zlen in *. lia.
Qed.

(** Appending to the text at [off]. *)
Lemma at_append buf off s t z : At buf off s -> off + zlen s + zlen (t ++ z) <= zlen buf ->
  At (splice (Z.to_nat (off + zlen s)) (t ++ z) buf) off (s ++ t).
Proof.
  intros Ha Hl. pose proof Ha as (H1 & H2 & _). pose proof (zlen_nonneg s). apply at_app.
  - apply at_after; [done|lia|lia].
  - apply (at_prefix _ _ t z), at_splice; lia.
Qed.

(** The string at the start of the buffer. *)
Lemma cstr_text s r : (0 ∉ s) -> cstr (s ++ 0 :: r) = Some (s ++ [0]).
Proof.
  induction s as [|c s IH]; intros Hn; [done|]. apply not_elem_of_cons in Hn as [Hc Hn]. cbn.
  rewrite (proj2 (Z.eqb_neq c 0)) by done. by rewrite IH.
Qed.

Lemma at_cstr buf s : At buf 0 (s ++ [0]) -> (0 ∉ s) -> cstr buf = Some (s ++ [0]).
Proof.
  intros (_ & _ & H3) Hn. rewrite <- (take_drop (length (s ++ [0])) buf). change (Z.to_nat 0) with 0%nat in H3. rewrite drop_0 in H3. rewrite H3, <- app_assoc.
  by apply cstr_text.
Qed.

Lemma at_cons buf off c s : At buf off (c :: s) -> buf !! Z.to_nat off = Some c /\ At buf (off + 1) s.
Proof.
  intros (H1 & H2 & H3). rewrite zlen_cons in H2. pose proof (zlen_nonneg s).
  assert (Hl : (Z.to_nat off < length buf)%nat) by (unfold zlen in *; lia).
  destruct (lookup_lt_is_Some_2 buf (Z.to_nat off) Hl) as [x Hx]. rewrite (drop_S _ x) in H3 by done. cbn in H3. injection H3 as -> H3.
  split; [done|]. split; [lia|]. split; [lia|]. by replace (Z.to_nat (off + 1)) with (S (Z.to_nat off)) by lia.
Qed.

(** Two stores next to each other. *)
Lemma splice_app p s t (mem : bytes) : 0 <= p -> p + zlen s + zlen t <= zlen mem ->
  splice (Z.to_nat (p + zlen s)) t (splice (Z.to_nat p) s mem) = splice (Z.to_nat p) (s ++ t) mem.
Proof.
  intros Hp Hl. unfold splice, zlen in *. replace (Z.to_nat (p + Z.of_nat (length s))) with (Z.to_nat p + length s)%nat by lia.
  assert (Ea : length (take (Z.to_nat p) mem ++ s) = (Z.to_nat p + length s)%nat) by (rewrite length_app, length_take; lia).
  rewrite !(app_assoc (take (Z.to_nat p) mem) s), <- Ea, take_app_length. rewrite drop_app_ge by lia.
  rewrite drop_drop, <- !app_assoc. do 3 f_equal. rewrite !length_app, ?length_take. f_equal. lia.
Qed.

Lemma splice_cons p c s (buf : bytes) : 0 <= p -> p + 1 + zlen s <= zlen buf ->
  splice (Z.to_nat (p + 1)) s (splice (Z.to_nat p) [c] buf) = splice (Z.to_nat p) (c :: s) buf.
Proof. apply (splice_app p [c] s buf). Qed.

(** Writing before a region, or behind it. *)
Lemma at_apart p s buf off t : At buf off t -> 0 <= p -> p + zlen s <= zlen buf -> p + zlen s <= off \/ off + zlen t <= p ->
  At (splice (Z.to_nat p) s buf) off t.
Proof. intros Ha Hp Hl [Hd|Hd]; [by apply at_before|by apply at_after]. Qed.

End Region.
