(* ===== verification/Handshake.v ===== *)
(** * The server's opening handshake (lib/server-handshake.c)

    [handshake_0405] answers an upgrade request whose headers are in the header
    table: it computes the accept key out of the client's key with SHA-1 and base64,
    writes the response and makes the connection an established one.  The work
    happens in the thread's scratch buffer [serv_buf]: first the key, then its
    encoding, then (from [RESPONSE] on) the response, and in between the list of
    extensions of the client; positions in it are offsets.

    [None] stands for an access outside of [serv_buf] or of another array, and for a
    string that does not end.  The loops over the extensions take the size of
    [serv_buf] as fuel: every round moves forward in it. *)

From S2P Require Import Prelude Base64 Sha1 Ws WsTx HttpHdr Region.
Export Hdr.

Module Handshake.
Import Region.

Definition WSI_TOKEN_EXTENSIONS : Z := 9.
Definition WSI_TOKEN_PROTOCOL : Z := 12.
Definition WSI_TOKEN_KEY : Z := 32.
Definition MAX_WEBSOCKET_04_KEY_LEN : Z := 128.
Definition LWS_MAX_EXTENSIONS_ACTIVE : nat := 2.
Definition LWSMPRO_CGI : Z := 3.
Definition LWSMPRO_CALLBACK : Z := 6.

(** ** Data *)

(** struct lws_http_mount: the part the search uses.  [cgienv] tells whether there
    is one, [m_protocol] whether the mount names a protocol. *)
Record mount := mkMount {
  mountpoint : bytes;
  mountpoint_len : Z;
  origin_protocol : Z;
  m_protocol : bool;
  cgienv : bool
}.

(** What the handshake reads of the protocol, the vhost and the extensions. *)
Class Vhost := {
  protocol_name : option bytes;                 (* wsi->protocol->name *)
  per_session_data_size : Z;
  mount_list : list mount;
  extensions : list bytes;                      (* names of vhost->extensions *)
  confirm_extension : lws -> bytes -> Z;        (* LWS_CALLBACK_CONFIRM_EXTENSION_OKAY *)
  construct_extension : lws -> nat -> option (list (bytes * bool));
    (* LWS_EXT_CB_CONSTRUCT: the options, and whether they take no argument *)
  set_extension_option : lws -> nat -> nat -> Z; (* LWS_EXT_CB_OPTION_SET *)
  handshake_reply : lws -> bytes -> Z;          (* LWS_EXT_CB_HANDSHAKE_REPLY_TX, all active extensions *)
  mount_callback : lws -> mount -> Z            (* LWS_CALLBACK_HTTP_PMO *)
}.

(** A connection that is being upgraded. *)
Record conn := mkConn {
  c_hdr : hdr;
  c_wsi : lws;
  serv_buf : bytes;
  user_space : bool;
  active_extensions : list nat
}.

(** ** Strings in the scratch buffer *)

(** The string [s] without its NUL. *)
Definition chars (s : bytes) : bytes := take (length s - 1) s.

(** LWS_CPYAPP *)
Definition LWS_CPYAPP (buf : bytes) (p : Z) (str : bytes) : option (bytes * Z) :=
  buf ← store buf p (str ++ [0]); Some (buf, p + zlen str).

(** [lws_snprintf(p, size, "%s", s)]; the result for a string that does not fit is
    the size. *)
Definition lws_snprintf (buf : bytes) (p size : Z) (s : bytes) : option (bytes * Z) :=
  if size =? 0 then Some (buf, 0) else
  buf ← store buf p (take (Z.to_nat (size - 1)) s ++ [0]);
  Some (buf, if zlen s >=? size then size else zlen s).

(** [!strncmp(a, b, n)] for strings that end with a NUL or with the list *)
Fixpoint strneq (n : nat) (a b : bytes) : bool :=
  match n with
  | O => true
  | S n => (deref a =? deref b) && ((deref a =? 0) || strneq n (drop 1 a) (drop 1 b))
  end.

Section Server.
Context `{LwsEnv} `{Vhost}.

(** ** Extensions *)

(** The loop over the options of the extension: those that take no argument and are
    a prefix of the text at [args]. *)
Fixpoint offer_options (w : lws) (ext i : nat) (opts : list (bytes * bool)) (buf : bytes) (p e args : Z)
  : option (bytes * Z) :=
  match opts with
  | [] => Some (buf, p)
  | (name, none) :: opts =>
      '(buf, p) ← (if none && strneq (length name) (drop (Z.to_nat args) buf) name
                      && (set_extension_option w ext i =? 0)
                   then '(buf, k) ← lws_snprintf buf p (e - p) (bstr "; " ++ name); Some (buf, p + k)
                   else Some (buf, p));
      offer_options w ext (S i) opts buf p e args
  end.

(** [while (args && *args && *args != ',')] *)
Fixpoint option_loop (fuel : nat) (w : lws) (ext : nat) (opts : list (bytes * bool)) (buf : bytes) (p e args : Z)
  : option (bytes * Z * Z) :=
  match fuel with
  | O => None
  | S fuel =>
      c ← buf !! Z.to_nat args;
      if (c =? 0) || (c =? 44) then Some (buf, p, args) else
      args ← skip_to (length buf) (fun c => negb (c =? 32)) buf args;
      '(buf, p) ← offer_options w ext 0 opts buf p e args;
      args ← skip_to (length buf) (fun c => (c =? 44) || (c =? 59)) buf args;
      option_loop fuel w ext opts buf p e args
  end.

(** What the loop over the extensions carries. *)
Record exts := mkExts {
  x_conn : conn;
  x_p : Z;
  x_count : Z;                 (* ext_count *)
  x_args : option Z
}.

(** One supported extension, its index [i], against the name the client gave; [inl]
    ends the handshake. *)
Definition try_extension (x : exts) (e : Z) (ext_name : bytes) (i : nat) (name : bytes) : option (exts + exts) :=
  let c := x_conn x in
  if negb (beqb ext_name name) then Some (inr x) else
  if existsb (Nat.eqb i) (take (count_act_ext (c_wsi c)) (active_extensions c)) then Some (inl x) else
  if nz (confirm_extension (c_wsi c) ext_name) then Some (inr x) else
  let k := count_act_ext (c_wsi c) in
  if (LWS_MAX_EXTENSIONS_ACTIVE <=? k)%nat then None else
  let c := c {{ active_extensions := take k (active_extensions c) ++ [i] }} in
  match construct_extension (c_wsi c) i with
  | None => Some (inr (x {{ x_conn := c }}))
  | Some opts =>
      let ext_count := x_count x + 1 in
      '(buf, p) ← (if ext_count >? 1 then buf ← store (serv_buf c) (x_p x) [44]; Some (buf, x_p x + 1)
                   else LWS_CPYAPP (serv_buf c) (x_p x) (([13; 10] ++ bstr "Sec-WebSocket-Extensions: ")));
      '(buf, n) ← lws_snprintf buf p (e - p) ext_name;
      '(buf, p, args) ← (match x_args x with
                         | None => Some (buf, p + n, None)
                         | Some args =>
                             '(buf, p, args) ← option_loop (length buf) (c_wsi c) i opts buf (p + n) e args;
                             Some (buf, p, Some args)
                         end);
      Some (inr (mkExts (c {{ serv_buf := buf; c_wsi ::= (fun w => w {{ count_act_ext ::= S }}) }}) p ext_count args))
  end.

Fixpoint try_extensions (x : exts) (e : Z) (ext_name : bytes) (i : nat) (l : list bytes) : option (exts + exts) :=
  match l with
  | [] => Some (inr x)
  | name :: l =>
      r ← try_extension x e ext_name i name;
      match r with
      | inl x => Some (inl x)
      | inr x => try_extensions x e ext_name (S i) l
      end
  end.

(** [while (more)]: [c] walks over the header, [name] is ext_name[0..n). *)
Fixpoint extension_loop (fuel : nat) (x : exts) (e c : Z) (name : bytes) (ignore : bool) : option (exts + exts) :=
  match fuel with
  | O => None
  | S fuel =>
      ch ← serv_buf (x_conn x) !! Z.to_nat c;
      if negb (ch =? 0) && negb (ch =? 44) && negb (ch =? 9) then
        let ignore := ignore || (ch =? 59) in
        let x := if ch =? 59 then x {{ x_args := Some (c + 1) }} else x in
        if ignore || (ch =? 32) then extension_loop fuel x e (c + 1) name ignore
        else extension_loop fuel x e (c + 1) (if (length name <? 63)%nat then name ++ [ch] else name) ignore
      else if negb (ch =? 0) && (length name =? 0)%nat then extension_loop fuel x e (c + 1) name false
      else
        args ← (match x_args x with
                | None => Some None
                | Some q => q ← skip_to (length (serv_buf (x_conn x))) (fun c => negb (c =? 32)) (serv_buf (x_conn x)) q;
                            Some (Some q)
                end);
        r ← try_extensions (x {{ x_args := args }}) e name 0 extensions;
        match r with
        | inl x => Some (inl x)
        | inr x =>
            let x := x {{ x_args := None }} in
            if ch =? 0 then Some (inr x) else extension_loop fuel x e (c + 1) [] false
        end
  end.

Definition lws_extension_server_handshake (c : conn) (p budget : Z) : option (Z * conn * Z) :=
  let a := ah (c_hdr c) in
  len ← lws_hdr_total_length a WSI_TOKEN_EXTENSIONS;
  if len =? 0 then Some (0, c, p) else
  '(r, buf) ← lws_hdr_copy a (serv_buf c) (pt_serv_buf_size (c_wsi c)) WSI_TOKEN_EXTENSIONS;
  let c := c {{ serv_buf := buf }} in
  if r <? 0 then Some (1, c, p) else
  let c := c {{ c_wsi ::= (fun w => w {{ count_act_ext := 0%nat }}) }} in
  r ← extension_loop (S (length buf)) (mkExts c p 0 None) (p + budget - 1) 0 [] false;
  Some (match r with
        | inl x => (1, x_conn x, x_p x)
        | inr x => (0, x_conn x, x_p x)
        end).

(** extension.c *)
Definition lws_any_extension_handled (w : lws) (v : bytes) : Z :=
  if (count_act_ext w =? 0)%nat then 0 else handshake_reply w v.

(** ** Mounts (server.c) *)

(** [uri] is the C string of the URI; [best] the length of the longest mountpoint so
    far. *)
Fixpoint find_mount_loop (get_uri_len : Z) (uri : bytes) (uri_len best : Z) (hit : option mount) (l : list mount)
  : option mount :=
  match l with
  | [] => hit
  | hm :: l =>
      let n := Z.to_nat (mountpoint_len hm) in
      let next := deref (drop n uri) in
      if (uri_len >=? mountpoint_len hm) && strneq n uri (mountpoint hm)
         && ((next =? 0) || (next =? 47) || (mountpoint_len hm =? 1))
         && ((origin_protocol hm =? LWSMPRO_CALLBACK) ||
             (((origin_protocol hm =? LWSMPRO_CGI) || nz get_uri_len || m_protocol hm) && (mountpoint_len hm >? best)))
      then find_mount_loop get_uri_len uri uri_len (mountpoint_len hm) (Some hm) l
      else find_mount_loop get_uri_len uri uri_len best hit l
  end.

(** A NULL [uri_ptr] (offset -1) is not looked at when no mount is there. *)
Definition lws_find_mount (a : allocated_headers) (uri_ptr uri_len : Z) : option (option mount) :=
  match mount_list with
  | [] => Some None
  | _ =>
      n ← lws_hdr_total_length a WSI_TOKEN_GET_URI;
      if uri_ptr <? 0 then
        (if existsb (fun hm => uri_len >=? mountpoint_len hm) mount_list then None else Some None)
      else uri ← cstr_at a uri_ptr; Some (find_mount_loop n uri uri_len 0 None mount_list)
  end.

(** ** The handshake *)

(** libwebsockets.c *)
Definition lws_ensure_user_space (c : conn) : conn * Z :=
  if nz per_session_data_size && negb (user_space c) then
    if malloc_ok (c_wsi c) per_session_data_size then (c {{ user_space := true }}, 0) else (c, 1)
  else (c, 0).

Definition guid : bytes := bstr "258EAFA5-E914-47DA-95CA-C5AB0DC85B11".

(** Offset of the response in [serv_buf]. *)
Definition RESPONSE : Z := MAX_WEBSOCKET_04_KEY_LEN + LWS_PRE.

Definition CRLF : bytes := [13; 10].

Definition status_lines : bytes :=
  bstr "HTTP/1.1 101 Switching Protocols" ++ CRLF ++ bstr "Upgrade: WebSocket" ++ CRLF ++
  bstr "Connection: Upgrade" ++ CRLF ++ bstr "Sec-WebSocket-Accept: ".

(** The accept key: the encoding of the hash is left at the start of [serv_buf]. *)
Definition make_accept (c : conn) (key : bytes) : option (conn * Z) :=
  buf ← store (serv_buf c) 0 (key ++ guid ++ [0]);
  let hash := Sha1.lws_SHA1 (take (length (key ++ guid)) buf) in
  let '(out, n) := Base64.lws_b64_encode_string hash (pt_serv_buf_size (c_wsi c)) in
  buf ← store buf 0 out;
  Some (c {{ serv_buf := buf }}, n).

(** The protocol header, when the client asked for one and ours has a name. *)
Definition protocol_header (c : conn) (p : Z) : option (conn * Z) :=
  plen ← lws_hdr_total_length (ah (c_hdr c)) WSI_TOKEN_PROTOCOL;
  match protocol_name with
  | Some (x :: name) =>
      if nz plen then
        '(buf, p) ← LWS_CPYAPP (serv_buf c) p (CRLF ++ bstr "Sec-WebSocket-Protocol: ");
        '(buf, n) ← lws_snprintf buf p 128 (x :: name);
        Some (c {{ serv_buf := buf }}, p + n)
      else Some (c, p)
  | _ => Some (c, p)
  end.

(** The response from [RESPONSE] to the result; [inl] is the label bail. *)
Definition make_response (c : conn) (accept_len : Z) : option (conn + conn * Z) :=
  '(buf, p) ← LWS_CPYAPP (serv_buf c) RESPONSE status_lines;
  accept ← cstr buf;
  buf ← store buf p accept;
  '(c, p) ← protocol_header (c {{ serv_buf := buf }}) (p + accept_len);
  '(bad, c, p) ← lws_extension_server_handshake c p 192;
  if nz bad then Some (inl c) else
  '(buf, p) ← LWS_CPYAPP (serv_buf c) p (CRLF ++ CRLF);
  Some (inr (c {{ serv_buf := buf }}, p)).

(** The write of the response; [inl] is the label bail. *)
Definition send_response (fuel : nat) (c : conn) (p : Z) : option (conn + conn) :=
  let len := p - RESPONSE in
  if nz (lws_any_extension_handled (c_wsi c) (take (Z.to_nat len) (drop (Z.to_nat RESPONSE) (serv_buf c))))
  then Some (inr c) else
  '(w, n, mem) ← lws_write fuel (c_wsi c) (drop (Z.to_nat MAX_WEBSOCKET_04_KEY_LEN) (serv_buf c)) len LWS_WRITE_HTTP_HEADERS;
  let c := c {{ c_wsi := w; serv_buf ::= (fun b => take (Z.to_nat MAX_WEBSOCKET_04_KEY_LEN) b ++ mem) }} in
  Some (if n =? len then inr c else inl c).

Definition establish (c : conn) : option (conn * Z) :=
  let c := c {{ c_wsi ::= (fun w => w {{ state := LWSS_ESTABLISHED; lws_rx_parse_state := RXPS_NEW }}) }} in
  let a := ah (c_hdr c) in
  uri_ptr ← lws_hdr_simple_ptr a WSI_TOKEN_GET_URI;
  uri_len ← lws_hdr_total_length a WSI_TOKEN_GET_URI;
  hit ← lws_find_mount a uri_ptr uri_len;
  Some (c, match hit with
           | Some hm => if cgienv hm && nz (mount_callback (c_wsi c) hm) then 1 else 0
           | None => 0
           end).

Definition handshake_0405 (fuel : nat) (c : conn) : option (conn * Z) :=
  let a := ah (c_hdr c) in
  host ← lws_hdr_total_length a WSI_TOKEN_HOST;
  key ← lws_hdr_total_length a WSI_TOKEN_KEY;
  if negb (nz host) || negb (nz key) then Some (c, -1) else
  if key >=? MAX_WEBSOCKET_04_KEY_LEN then Some (c, -1) else
  ptr ← lws_hdr_simple_ptr a WSI_TOKEN_KEY;
  k ← cstr_at a ptr;
  '(c, accept_len) ← make_accept c (chars k);
  if accept_len <? 0 then Some (c, -1) else
  let '(c, bad) := lws_ensure_user_space c in
  if nz bad then Some (c, -1) else
  r ← make_response c accept_len;
  match r with
  | inl c => Some (c, -1)
  | inr (c, p) =>
      r ← send_response fuel c p;
      match r with
      | inl c => Some (c, -1)
      | inr c => establish c
      end
  end.

End Server.
End Handshake.
