(* ===== verification/HandshakeFacts.v ===== *)
(** * The steps of the handshake on its scratch buffer *)

From S2P Require Import Prelude Base64 Sha1 Ws WsTx WsTxFacts HttpHdr HttpHdrFacts HttpHdrInv HttpHdrProps HttpReq Region Handshake.

Module HandshakeFacts.
Export Region Handshake HttpReq.

Lemma cpyapp_at buf off s t : At buf off s -> off + zlen s + zlen t + 1 <= zlen buf ->
  exists buf', LWS_CPYAPP buf (off + zlen s) t = Some (buf', off + zlen s + zlen t) /\
    zlen buf' = zlen buf /\ At buf' off (s ++ t) /\ (forall u, At buf 0 u -> zlen u <= off -> At buf' 0 u).
Proof.
  intros Ha Hl. pose proof Ha as (H1 & H2 & _). pose proof (zlen_nonneg s). pose proof (zlen_nonneg t).
  unfold LWS_CPYAPP. rewrite store_some by (rewrite ?zlen_app; change (zlen [0]) with 1; lia). cbn [mbind option_bind].
  eexists. split; [done|]. split; [rewrite zlen_splice by (rewrite ?zlen_app; change (zlen [0]) with 1; lia); done|].
  split; [apply at_append; [done|]; rewrite zlen_app; change (zlen [0]) with 1; lia|].
  intros u Hu Hul. apply at_after; [done|lia|]. rewrite zlen_app. change (zlen [0]) with 1. lia.
Qed.

(** ** The steps *)

Section Steps.
Context `{LwsEnv} `{Vhost} {ctx : HttpCtx} {ctx_ok : HttpCtxOk ctx}.

(** RFC 6455, 4.2.2: the accept key. *)
Definition accept_key (key : bytes) : bytes := Base64.rfc4648 (Sha1.fips_sha1 (key ++ guid)).

Lemma accept_ok key n : zlen key < 2 ^ 60 -> 29 < n ->
  Base64.lws_b64_encode_string (Sha1.lws_SHA1 (key ++ guid)) n = (accept_key key ++ [0], 28) /\
  zlen (accept_key key) = 28 /\ (0 ∉ accept_key key).
Proof.
  intros Hk Hn. unfold accept_key. rewrite <- Sha1.sha1_fips by (rewrite zlen_app; change (zlen guid) with 36; lia).
  pose proof (Sha1.lws_SHA1_u8 (key ++ guid)) as Hu. pose proof (Sha1.length_lws_SHA1 (key ++ guid)) as Hl.
  assert (E : zlen (Sha1.lws_SHA1 (key ++ guid)) = 20) by (unfold zlen; lia).
  rewrite Base64.encode_string_fits by (done || (rewrite E; change (Base64.b64_len 20) with 28; lia)).
  rewrite Base64.zlen_rfc4648, E by done. split; [done|]. split; [done|]. apply Base64.rfc4648_nonzero.
Qed.

(** A connection with nothing but another scratch buffer. *)
Definition with_buf (c : conn) (buf : bytes) : conn := mkConn (c_hdr c) (c_wsi c) buf (user_space c) (active_extensions c).

Lemma with_buf_eq c buf : c {{ serv_buf := buf }} = with_buf c buf.
Proof. by destruct c. Qed.

Lemma make_accept_ok c key : zlen key < 128 -> 1024 <= zlen (serv_buf c) -> pt_serv_buf_size (c_wsi c) = zlen (serv_buf c) ->
  exists buf, make_accept c key = Some (with_buf c buf, 28) /\ zlen buf = zlen (serv_buf c) /\ At buf 0 (accept_key key ++ [0]).
Proof.
  intros Hk Hb Hs. pose proof (zlen_nonneg key). unfold make_accept. rewrite Hs.
  assert (Hl1 : zlen (key ++ guid ++ [0]) = zlen key + 37) by (rewrite !zlen_app; change (zlen guid) with 36; change (zlen [0]) with 1; lia).
  rewrite store_some by lia. cbn [mbind option_bind]. set (buf1 := splice _ _ _).
  assert (Ha : At buf1 0 (key ++ guid)).
  { apply (at_prefix _ _ _ [0]). rewrite <- app_assoc. apply at_splice; lia. }
  assert (Hz1 : zlen buf1 = zlen (serv_buf c)) by (apply zlen_splice; lia).
  replace (take (length (key ++ guid)) buf1) with (key ++ guid)
    by (destruct Ha as (_ & _ & E); change (Z.to_nat 0) with 0%nat in E; by rewrite drop_0 in E).
  destruct (accept_ok key (zlen (serv_buf c))) as (-> & Hz & _); [lia|lia|].
  assert (Hz2 : zlen (accept_key key ++ [0]) = 29) by (rewrite zlen_app, Hz; done).
  rewrite store_some by lia. cbn [mbind option_bind]. rewrite with_buf_eq. eexists. split; [done|].
  split; [rewrite zlen_splice by lia; done|]. apply at_splice; lia.
Qed.

(** The part of the response that names the protocol. *)
Definition protocol_line (plen : Z) : bytes :=
  match protocol_name with
  | Some (x :: name) => if nz plen then CRLF ++ bstr "Sec-WebSocket-Protocol: " ++ x :: name else []
  | _ => []
  end.

Lemma protocol_header_ok c s plen : lws_hdr_total_length (ah (c_hdr c)) WSI_TOKEN_PROTOCOL = Some plen ->
  zlen (default [] protocol_name) < 128 -> At (serv_buf c) RESPONSE s -> zlen s <= 200 -> 1024 <= zlen (serv_buf c) ->
  exists buf, protocol_header c (RESPONSE + zlen s) = Some (with_buf c buf, RESPONSE + zlen (s ++ protocol_line plen)) /\
    zlen buf = zlen (serv_buf c) /\ At buf RESPONSE (s ++ protocol_line plen) /\ zlen (s ++ protocol_line plen) <= 400.
Proof.
  intros Hp Hn Ha Hs Hb. unfold protocol_header, protocol_line. rewrite Hp. cbn [mbind option_bind].
  assert (Hsame : exists buf, Some (c, RESPONSE + zlen s) = Some (with_buf c buf, RESPONSE + zlen (s ++ [])) /\
    zlen buf = zlen (serv_buf c) /\ At buf RESPONSE (s ++ []) /\ zlen (s ++ []) <= 400).
  { exists (serv_buf c). rewrite app_nil_r. split; [by destruct c|]. split; [done|]. split; [done|lia]. }
  destruct protocol_name as [[|x name]|]; try exact Hsame. destruct (nz plen); [|exact Hsame]. clear Hsame.
  change (zlen (x :: name) < 128) in Hn. set (hd := CRLF ++ bstr "Sec-WebSocket-Protocol: "). assert (Hh : zlen hd = 26) by done.
  pose proof (zlen_nonneg s). unfold RESPONSE, MAX_WEBSOCKET_04_KEY_LEN, LWS_PRE in *.
  destruct (cpyapp_at (serv_buf c) _ s hd Ha) as (buf & E1 & Z1 & A1 & _); [lia|].
  rewrite E1. cbn [mbind option_bind]. unfold lws_snprintf. change (128 =? 0) with false. cbv iota.
  assert (Ht : take (Z.to_nat (128 - 1)) (x :: name) = x :: name) by (apply take_ge; unfold zlen in Hn; lia). rewrite Ht.
  assert (Hz : zlen ((x :: name) ++ [0]) = zlen (x :: name) + 1) by (by rewrite zlen_app). pose proof (zlen_nonneg (x :: name)).
  rewrite store_some by lia. cbn [mbind option_bind].
  replace (zlen (x :: name) >=? 128) with false by lia. rewrite with_buf_eq. eexists. split; [|split; [|split]].
  - do 2 f_equal. change (CRLF ++ bstr "Sec-WebSocket-Protocol: " ++ x :: name) with (hd ++ x :: name).
    rewrite !zlen_app. lia.
  - rewrite zlen_splice by lia. done.
  - change (CRLF ++ bstr "Sec-WebSocket-Protocol: " ++ x :: name) with (hd ++ x :: name). rewrite app_assoc.
    replace (128 + 16 + zlen s + zlen hd) with (128 + 16 + zlen (s ++ hd)) by (rewrite zlen_app; lia).
    apply at_append; [done|]. rewrite zlen_app. lia.
  - change (CRLF ++ bstr "Sec-WebSocket-Protocol: " ++ x :: name) with (hd ++ x :: name). rewrite !zlen_app. lia.
Qed.

(** ** No extension is supported *)

Lemma skip_to_ok buf stop : forall fuel q j, 0 <= q <= j -> buf !! Z.to_nat j = Some 0 -> j - q < Z.of_nat fuel ->
  exists r, skip_to fuel stop buf q = Some r.
Proof.
  induction fuel as [|fuel IH]; intros q j Hq Hj Hf; [lia|]. cbn [skip_to].
  destruct (lookup_lt_is_Some_2 buf (Z.to_nat q)) as [c Hc]; [apply lookup_lt_Some in Hj; lia|]. rewrite Hc. cbn [mbind option_bind].
  destruct ((c =? 0) || stop c) eqn:E; [by eexists|]. apply orb_false_elim in E as [E _]. zbool.
  apply (IH (q + 1) j); [|done|lia]. destruct (decide (q = j)) as [->|]; [congruence|lia].
Qed.

Lemma skip_args_ok x c j : c <= j -> serv_buf (x_conn x) !! Z.to_nat j = Some 0 ->
  match x_args x with Some q => 0 <= q <= c | None => True end ->
  exists args, match x_args x with
    | None => Some None
    | Some q => q ← skip_to (length (serv_buf (x_conn x))) (fun c => negb (c =? 32)) (serv_buf (x_conn x)) q; Some (Some q)
    end = Some args.
Proof.
  intros Hc Hj Ha. pose proof (lookup_lt_Some _ _ _ Hj). destruct (x_args x) as [q|]; [|by eexists].
  destruct (skip_to_ok (serv_buf (x_conn x)) (fun c => negb (c =? 32)) (length (serv_buf (x_conn x))) q j) as [r ->];
    [lia|done|lia|by eexists].
Qed.

Lemma extension_loop_none : extensions = [] -> forall fuel x e c name ignore j,
  0 <= c <= j -> serv_buf (x_conn x) !! Z.to_nat j = Some 0 -> j - c < Z.of_nat fuel ->
  match x_args x with Some q => 0 <= q <= c | None => True end ->
  exists x', extension_loop fuel x e c name ignore = Some (inr x') /\ x_conn x' = x_conn x /\ x_p x' = x_p x.
Proof.
  intros Hnone. induction fuel as [|fuel IH]; intros x e c name ignore j Hc Hj Hf Ha; [lia|]. cbn [extension_loop].
  assert (Hlen : (Z.to_nat j < length (serv_buf (x_conn x)))%nat) by (by apply lookup_lt_Some in Hj).
  destruct (lookup_lt_is_Some_2 (serv_buf (x_conn x)) (Z.to_nat c)) as [ch Hch]; [lia|]. rewrite Hch. cbn [mbind option_bind].
  destruct (ch =? 0) eqn:E0; zbool; cbn [negb andb].
  - pose proof (skip_args_ok x c j ltac:(lia) Hj Ha) as Hs.
    destruct Hs as [args ->]. cbn [mbind option_bind]. rewrite Hnone. cbn [try_extensions mbind option_bind].
    eexists. split; [done|]. by destruct x.
  - assert (Hc1 : 0 <= c + 1 <= j) by (destruct (decide (c = j)) as [->|]; [congruence|lia]).
    destruct (negb (ch =? 44) && negb (ch =? 9)).
    + set (x1 := if ch =? 59 then x {{ x_args := Some (c + 1) }} else x).
      assert (F : x_conn x1 = x_conn x /\ x_p x1 = x_p x /\ match x_args x1 with Some q => 0 <= q <= c + 1 | None => True end).
      { unfold x1. destruct (ch =? 59); destruct x; cbn in *; [by split_and!; try lia|]. split; [done|]. split; [done|].
        case_match; [lia|done]. }
      destruct F as (F1 & F2 & F3).
      destruct ((ignore || (ch =? 59)) || (ch =? 32)); rewrite <- F1, <- F2; apply (IH x1 e (c + 1) _ _ j); try done; try lia;
        by rewrite F1.
    + destruct (length name =? 0)%nat.
      { apply (IH x e (c + 1) name false j); try done; [lia|]. case_match; [lia|done]. }
      pose proof (skip_args_ok x c j ltac:(lia) Hj Ha) as Hs.
      destruct Hs as [args ->]. cbn [mbind option_bind]. rewrite Hnone. cbn [try_extensions mbind option_bind].
      set (x1 := (x {{ x_args := args }}) {{ x_args := None }}).
      assert (F : x_conn x1 = x_conn x /\ x_p x1 = x_p x /\ x_args x1 = None) by (by destruct x).
      destruct F as (F1 & F2 & F3). rewrite <- F1, <- F2. apply (IH x1 e (c + 1) [] false j); try lia; [by rewrite F1|by rewrite F3].
Qed.

(** The extensions header of the client: none, or one short enough not to reach the
    response. *)
Definition ExtensionsHeader (a : allocated_headers) : Prop :=
  get_index a WSI_TOKEN_EXTENSIONS = Some 0 \/ exists v, Stored a WSI_TOKEN_EXTENSIONS v /\ zlen v < RESPONSE.

Lemma extension_handshake_ok c s p : extensions = [] -> ExtensionsHeader (ah (c_hdr c)) -> count_act_ext (c_wsi c) = 0%nat ->
  At (serv_buf c) RESPONSE s -> 1024 <= zlen (serv_buf c) -> pt_serv_buf_size (c_wsi c) = zlen (serv_buf c) ->
  exists buf, lws_extension_server_handshake c p 192 = Some (0, with_buf c buf, p) /\
    zlen buf = zlen (serv_buf c) /\ At buf RESPONSE s.
Proof.
  intros Hnone He Hx Ha Hb Hs. unfold lws_extension_server_handshake.
  assert (Hsame : exists buf, Some (0, c, p) = Some (0, with_buf c buf, p) /\ zlen buf = zlen (serv_buf c) /\ At buf RESPONSE s)
    by (exists (serv_buf c); split; [by destruct c|done]).
  destruct He as [He|(v & Hv & Hvl)]; [by rewrite (missing_total _ _ He)|].
  rewrite (stored_total _ _ _ Hv). cbn [mbind option_bind]. destruct (zlen v =? 0); [exact Hsame|]. clear Hsame.
  unfold RESPONSE, MAX_WEBSOCKET_04_KEY_LEN, LWS_PRE in *. pose proof (zlen_nonneg v).
  rewrite (stored_copy _ _ v) by (done || lia). cbn [mbind option_bind]. rewrite (proj2 (Z.ltb_ge (zlen v) 0)) by lia.
  set (buf := splice 0 (v ++ [0]) (serv_buf c)).
  assert (Hz0 : zlen (v ++ [0]) = zlen v + 1) by (by rewrite zlen_app).
  assert (Hz : zlen buf = zlen (serv_buf c)) by (apply (zlen_splice 0); lia).
  assert (Hc : (c {{ serv_buf := buf }}) {{ c_wsi ::= (fun w => w {{ count_act_ext := 0%nat }}) }} = with_buf c buf).
  { destruct c as [h w b u x]. cbn in *. f_equal. destruct w. cbn in *. by subst. }
  rewrite Hc.
  destruct (extension_loop_none Hnone (S (length buf)) (mkExts (with_buf c buf) p 0 None) (p + 192 - 1) 0 [] false (zlen v))
    as (x & -> & E1 & E2); cbn [x_conn x_p x_args serv_buf with_buf]; [lia| | |done|].
  - pose proof (at_splice 0 (v ++ [0]) (serv_buf c)) as Hat. destruct Hat as (_ & _ & Hat); [lia|lia|].
    change (Z.to_nat 0) with 0%nat in Hat. rewrite drop_0 in Hat. fold buf in Hat.
    rewrite <- (take_drop (length (v ++ [0])) buf), Hat. rewrite lookup_app_l by (rewrite length_app; unfold zlen; cbn; lia).
    rewrite lookup_app_r by (unfold zlen; lia). unfold zlen. by rewrite Nat2Z.id, Nat.sub_diag.
  - unfold zlen in *. lia.
  - cbn [mbind option_bind]. rewrite E1, E2. exists buf. split; [done|]. split; [done|].
    apply (at_before 0); [done|lia|lia].
Qed.

(** ** The response *)

Definition response (key : bytes) (plen : Z) : bytes :=
  status_lines ++ accept_key key ++ protocol_line plen ++ CRLF ++ CRLF.

Lemma make_response_ok c key plen : zlen key < 128 -> extensions = [] -> ExtensionsHeader (ah (c_hdr c)) ->
  count_act_ext (c_wsi c) = 0%nat -> zlen (default [] protocol_name) < 128 ->
  lws_hdr_total_length (ah (c_hdr c)) WSI_TOKEN_PROTOCOL = Some plen ->
  At (serv_buf c) 0 (accept_key key ++ [0]) -> 1024 <= zlen (serv_buf c) -> pt_serv_buf_size (c_wsi c) = zlen (serv_buf c) ->
  exists buf, make_response c 28 = Some (inr (with_buf c buf, RESPONSE + zlen (response key plen))) /\
    zlen buf = zlen (serv_buf c) /\ At buf RESPONSE (response key plen) /\ zlen (response key plen) <= 404.
Proof.
  intros Hk Hnone He Hx Hn Hp Ha Hb Hs. unfold make_response.
  assert (Hr : RESPONSE = 144) by done. assert (Hst : zlen status_lines = 97) by done.
  destruct (accept_ok key 30) as (_ & Hz & Hnul); [lia|lia|].
  assert (Ha0 : At (serv_buf c) RESPONSE []) by (split; [done|]; split; [change (zlen []) with 0; lia|done]).
  destruct (cpyapp_at (serv_buf c) RESPONSE [] status_lines Ha0) as (b1 & E1 & Z1 & A1 & K1); [change (zlen []) with 0; lia|].
  change (RESPONSE + zlen []) with RESPONSE in E1. rewrite E1. cbn [mbind option_bind]. cbn [app] in A1.
  assert (Hz2 : zlen (accept_key key ++ [0]) = 29) by (rewrite zlen_app, Hz; done).
  assert (A1' : At b1 0 (accept_key key ++ [0])) by (apply K1; [done|lia]).
  rewrite (at_cstr b1 (accept_key key) A1' Hnul). cbn [mbind option_bind].
  rewrite store_some by lia. cbn [mbind option_bind]. set (b2 := splice _ _ b1).
  assert (A2 : At b2 RESPONSE (status_lines ++ accept_key key)) by (apply at_append; [done|lia]).
  assert (Z2 : zlen b2 = zlen (serv_buf c)) by (unfold b2; rewrite zlen_splice by lia; done). rewrite with_buf_eq.
  assert (Hz3 : zlen (status_lines ++ accept_key key) = 125) by (rewrite zlen_app, Hz; lia).
  destruct (protocol_header_ok (with_buf c b2) (status_lines ++ accept_key key) plen) as (b3 & E3 & Z3 & A3 & L3);
    cbn [c_hdr serv_buf with_buf] in *; try done; try lia.
  replace (RESPONSE + zlen status_lines + 28) with (RESPONSE + zlen (status_lines ++ accept_key key)) by lia.
  rewrite E3. cbn [mbind option_bind]. set (s3 := (status_lines ++ accept_key key) ++ protocol_line plen) in *.
  destruct (extension_handshake_ok (with_buf (with_buf c b2) b3) s3 (RESPONSE + zlen s3)) as (b4 & E4 & Z4 & A4);
    cbn [c_hdr c_wsi serv_buf with_buf] in *; try done; try lia.
  rewrite E4. cbn [mbind option_bind]. change (nz 0) with false. cbv iota. cbn [serv_buf with_buf].
  destruct (cpyapp_at b4 RESPONSE s3 (CRLF ++ CRLF) A4) as (b5 & E5 & Z5 & A5 & _); [change (zlen (CRLF ++ CRLF)) with 4; lia|].
  rewrite E5. cbn [mbind option_bind]. rewrite with_buf_eq. exists b5.
  assert (Hresp : response key plen = s3 ++ CRLF ++ CRLF) by (unfold response, s3; by rewrite <- !app_assoc).
  rewrite Hresp. split; [|split; [lia|split; [done|]]].
  - do 3 f_equal. rewrite !zlen_app. lia.
  - rewrite zlen_app. change (zlen (CRLF ++ CRLF)) with 4. lia.
Qed.

End Steps.

End HandshakeFacts.
