(* ===== verification/HandshakeProps.v ===== *)
(** * The opening handshake, from the bytes of the request to the response

    An upgrade request is answered with the accept key of RFC 6455, and the
    connection becomes an established one. *)

From S2P Require Import Prelude Base64 Sha1 Ws WsRx WsRxProps WsTx WsTxFacts WsTxProps WsTxHttp.
From S2P Require Import HttpHdr HttpHdrFacts HttpHdrInv HttpHdrProps HttpReq Handshake HandshakeFacts.

Module HandshakeProps.
Export HandshakeFacts.

Section Upgrade.
Context `{SocketOk} `{Vhost} {ctx : HttpCtx} {ctx_ok : HttpCtxOk ctx}.

(** The server as the application sets it up: no extensions, no mounts. *)
Record PlainVhost : Prop := {
  pv_extensions : extensions = [];
  pv_mounts : mount_list = [];
  pv_name : zlen (default [] protocol_name) < 128
}.

(** A connection whose request is complete: nothing waits to be sent. *)
Record Ready (c : conn) : Prop := {
  rd_buf : 1024 <= zlen (serv_buf c);
  rd_size : pt_serv_buf_size (c_wsi c) = zlen (serv_buf c);
  rd_tx : TxInv (c_wsi c);
  rd_free : trunc_len (tx (c_wsi c)) = 0;
  rd_state : state (c_wsi c) <> LWSS_ESTABLISHED;
  rd_flush : state (c_wsi c) <> LWSS_FLUSHING_STORED_SEND_BEFORE_CLOSE;
  rd_user : nz per_session_data_size && negb (user_space c) = true -> malloc_ok (c_wsi c) per_session_data_size = true
}.

(** ** Sending the response *)

Lemma send_response_ok fuel c s : Ready c -> At (serv_buf c) RESPONSE s -> zlen s <= 404 ->
  exists c', (send_response (S fuel) c (RESPONSE + zlen s) = Some (inl c') /\ SendFails (c_wsi c) s \/
    (send_response (S fuel) c (RESPONSE + zlen s) = Some (inr c') /\ c_hdr c' = c_hdr c /\
     sent (c_wsi c') ++ pending (c_wsi c') = sent (c_wsi c) ++ s)).
Proof.
  intros [Hb Hs Ht Hf Hst Hfl _] Ha Hl. pose proof (zlen_nonneg s). unfold send_response, lws_any_extension_handled.
  rewrite (ti_noext _ Ht). cbn [Nat.eqb]. change (nz 0) with false. cbv iota.
  replace (RESPONSE + zlen s - RESPONSE) with (zlen s) by lia.
  set (mem := drop (Z.to_nat MAX_WEBSOCKET_04_KEY_LEN) (serv_buf c)).
  rewrite (write_http (S fuel) (c_wsi c) mem (zlen s) LWS_WRITE_HTTP_HEADERS Hst) by done.
  destruct (lws_issue_raw (c_wsi c) (PUser (drop (Z.to_nat LWS_PRE) mem)) (zlen s)) as [w' r] eqn:Ei.
  cbn [mbind option_bind]. set (c' := c {{ c_wsi := w'; serv_buf ::= _ }}).
  assert (F : c_wsi c' = w' /\ c_hdr c' = c_hdr c) by (unfold c'; by destruct c). destruct F as [F1 F2].
  destruct Ha as (Ha1 & Ha2 & Ha3). assert (Hd : drop (Z.to_nat LWS_PRE) mem = drop (Z.to_nat RESPONSE) (serv_buf c))
    by (unfold mem; by rewrite drop_drop).
  assert (Hts : take (Z.to_nat (zlen s)) (drop (Z.to_nat LWS_PRE) mem) = s) by (rewrite Hd; unfold zlen; by rewrite Nat2Z.id).
  exists c'. destruct (decide (r = -1)) as [->|Hr].
  { left. rewrite (proj2 (Z.eqb_neq (-1) (zlen s))) by lia. split; [done|].
    destruct (issue_user_result (c_wsi c) (drop (Z.to_nat LWS_PRE) mem) (zlen s) (ti_noext _ Ht)) as (_ & Hr & _); [lia|].
    rewrite Ei, Hts in Hr. cbn [snd] in Hr. destruct (Hr Hf); [lia|done]. }
  right.
  destruct (issue_raw_ok (c_wsi c) (PUser (drop (Z.to_nat LWS_PRE) mem)) (zlen s) w' r) as (_ & _ & _ & Q1 & Q2); try done; [lia| |].
  - split; [done|]. rewrite Hd. change RESPONSE with 144 in *. unfold zlen in *. rewrite length_drop. lia.
  - subst r. rewrite Z.eqb_refl, F1, F2. split; [done|]. split; [done|]. rewrite Q1. cbn [ptr_data]. f_equal. exact Hts.
Qed.

Lemma establish_ok c : AhInv (ah (c_hdr c)) -> mount_list = [] -> exists c', establish c = Some (c', 0) /\
  state (c_wsi c') = LWSS_ESTABLISHED /\ lws_rx_parse_state (c_wsi c') = RXPS_NEW /\
  sent (c_wsi c') = sent (c_wsi c) /\ pending (c_wsi c') = pending (c_wsi c).
Proof.
  intros Ha Hm. unfold establish. set (c' := c {{ c_wsi ::= _ }}).
  assert (F : c_hdr c' = c_hdr c /\ c_wsi c' = (c_wsi c) {{ state := LWSS_ESTABLISHED; lws_rx_parse_state := RXPS_NEW }})
    by (unfold c'; by destruct c). destruct F as [F1 F2]. rewrite F1.
  assert (Hu : 0 <= WSI_TOKEN_GET_URI < WSI_TOKEN_COUNT) by done.
  assert (Hp : exists p, lws_hdr_simple_ptr (ah (c_hdr c)) WSI_TOKEN_GET_URI = Some p).
  { unfold lws_hdr_simple_ptr. destruct (ok_some _ _ (get_index_ok _ _ Ha Hu)) as (n & -> & Hn). cbn [mbind option_bind].
    destruct (n =? 0) eqn:E; zbool; [by eexists|]. pose proof (ai_nfrag _ Ha).
    destruct (get_frag_ok (ah (c_hdr c)) n Ha) as [f ->]; [lia|]. by eexists. }
  destruct Hp as [p ->]. destruct (ok_some _ _ (hdr_total_length_ok _ _ Ha Hu)) as (n & -> & _). cbn [mbind option_bind].
  unfold lws_find_mount. rewrite Hm. cbn [mbind option_bind]. exists c'. split; [done|]. rewrite F2.
  destruct (c_wsi c). done.
Qed.

(** The handshake on a table that holds the headers. *)
Lemma handshake_ok fuel c host key plen : PlainVhost -> Ready c -> AhInv (ah (c_hdr c)) ->
  Stored (ah (c_hdr c)) WSI_TOKEN_HOST host -> host <> [] ->
  Stored (ah (c_hdr c)) WSI_TOKEN_KEY key -> key <> [] -> zlen key < 128 ->
  ExtensionsHeader (ah (c_hdr c)) -> lws_hdr_total_length (ah (c_hdr c)) WSI_TOKEN_PROTOCOL = Some plen ->
  exists c' r, handshake_0405 (S fuel) c = Some (c', r) /\
    (r = -1 /\ SendFails (c_wsi c) (response key plen) \/ r = 0 /\ state (c_wsi c') = LWSS_ESTABLISHED /\ lws_rx_parse_state (c_wsi c') = RXPS_NEW /\
       sent (c_wsi c') ++ pending (c_wsi c') = sent (c_wsi c) ++ response key plen).
Proof.
  intros [Hx Hm Hn] Hr Ha Hh Hh0 Hk Hk0 Hkl He Hp. unfold handshake_0405.
  rewrite (stored_total _ _ _ Hh), (stored_total _ _ _ Hk). cbn [mbind option_bind]. rewrite !nz_zlen by done. cbn [negb orb].
  unfold MAX_WEBSOCKET_04_KEY_LEN. replace (zlen key >=? 128) with false by lia.
  destruct (stored_ptr _ _ _ Hk) as (off & -> & _ & Ek). cbn [mbind option_bind]. rewrite Ek. cbn [mbind option_bind].
  assert (Ec : chars (key ++ [0]) = key).
  { unfold chars. rewrite length_app. cbn [length]. replace (length key + 1 - 1)%nat with (length key) by lia. apply take_app_length. }
  rewrite Ec. pose proof Hr as [Hb Hs Ht _ _ _ Hu].
  destruct (make_accept_ok c key Hkl Hb Hs) as (b1 & -> & Z1 & A1). cbn [mbind option_bind].
  change (28 <? 0) with false. cbv iota.
  assert (Hu' : exists c1, lws_ensure_user_space (with_buf c b1) = (c1, 0) /\ c_hdr c1 = c_hdr c /\ c_wsi c1 = c_wsi c /\ serv_buf c1 = b1 /\
    (user_space c = true -> user_space c1 = true) /\ Ready c1).
  { unfold lws_ensure_user_space. cbn [user_space with_buf c_wsi]. destruct (nz per_session_data_size && negb (user_space c)) eqn:Eu.
    - rewrite Hu by done. eexists. split; [done|]. cbn. split_and!; try done. destruct Hr. constructor; cbn; try done; try congruence.
      rewrite andb_false_r. done.
    - eexists. split; [done|]. split_and!; try done. destruct Hr. constructor; cbn; try done; congruence. }
  destruct Hu' as (c1 & -> & C1 & C2 & C3 & _ & Hr1). change (nz 0) with false. cbv iota.
  destruct (make_response_ok c1 key plen) as (b2 & -> & Z2 & A2 & L2); rewrite ?C1, ?C2, ?C3; try done; try lia; [apply Ht|].
  cbn [mbind option_bind].
  assert (Hr2 : Ready (with_buf c1 b2)) by (destruct Hr1; constructor; cbn; try done; lia).
  destruct (send_response_ok fuel (with_buf c1 b2) (response key plen) Hr2 A2 L2) as (c3 & [[-> Hrel]|(-> & D1 & D2)]); cbn [mbind option_bind].
  { eexists _, _. split; [done|]. left. split; [done|]. by rewrite <- C2. }
  destruct (establish_ok c3) as (c4 & -> & E1 & E2 & E3 & E4); [by rewrite D1; cbn; rewrite C1|done|].
  eexists _, _. split; [done|]. right. split; [done|]. split; [done|]. split; [done|]. rewrite E3, E4, D2. cbn. by rewrite C2.
Qed.

(** ** From the bytes to the response *)

(** The lines [ls] give header [h] the value [v]; the empty one when there is no
    such line. *)
Definition Sent (w : hdr) (ls : list hline) (h : Z) (v : bytes) : Prop :=
  (exists l, l ∈ ls /\ l_token l = h /\ l_value l = v) \/
  (v = [] /\ Forall (fun l => l_token l <> h) ls /\ get_index (ah w) h = Some 0).

Lemma sent_some w ls h v : NameState w -> LinesOk w ls -> NoDup (map l_token ls) -> Sent w ls h v -> v <> [] ->
  Stored (ah (after_lines w ls)) h v.
Proof. intros Hw Hok Hnd [(l & Hl & <- & <-)|(-> & _)] Hv; [by apply lines_stored|done]. Qed.

Lemma sent_any w ls h v : NameState w -> LinesOk w ls -> NoDup (map l_token ls) -> 0 <= h -> Sent w ls h v ->
  (v = [] /\ get_index (ah (after_lines w ls)) h = Some 0) \/ Stored (ah (after_lines w ls)) h v.
Proof.
  intros Hw Hok Hnd Hh [(l & Hl & <- & <-)|(-> & Hf & Hi)]; [right; by apply lines_stored|].
  left. split; [done|]. by apply lines_missing.
Qed.

(** An upgrade request after its first line: the header lines, with the values the
    handshake looks at. *)
Record UpgradeRequest (w : hdr) (ls : list hline) (key protocols : bytes) : Prop := {
  ur_name : NameState w;
  ur_state : parser_state w = WSI_TOKEN_NAME_PART;
  ur_pos : lextable_pos w = 0;
  ur_ues : ues w = URIES_IDLE;
  ur_limit : is_Some (limit_of WSI_TOKEN_CHALLENGE);
  ur_lines : LinesOk w ls;
  ur_once : NoDup (map l_token ls);
  ur_host : exists v, Sent w ls WSI_TOKEN_HOST v /\ v <> [];
  ur_upgrade : exists v, Sent w ls WSI_TOKEN_UPGRADE v /\ v <> [];
  ur_version : Sent w ls WSI_TOKEN_VERSION (bstr "13");
  ur_key : Sent w ls WSI_TOKEN_KEY key;
  ur_key_len : 0 < zlen key < MAX_WEBSOCKET_04_KEY_LEN;
  ur_protocols : Sent w ls WSI_TOKEN_PROTOCOL protocols;
  ur_extensions : exists v, Sent w ls WSI_TOKEN_EXTENSIONS v /\ zlen v < RESPONSE
}.

Lemma request_extensions w ls key ps : UpgradeRequest w ls key ps -> ExtensionsHeader (ah (after_lines w ls)).
Proof.
  intros U. destruct (ur_extensions _ _ _ _ U) as (v & Hv & Hl).
  destruct (sent_any w ls WSI_TOKEN_EXTENSIONS v) as [[_ ?]|?]; try done; try apply U; [by left|right; by eexists].
Qed.

Lemma request_protocols w ls key ps : UpgradeRequest w ls key ps ->
  lws_hdr_total_length (ah (after_lines w ls)) WSI_TOKEN_PROTOCOL = Some (zlen ps).
Proof.
  intros U. destruct (sent_any w ls WSI_TOKEN_PROTOCOL ps) as [[-> ?]|?]; try done; try apply U;
    [by apply missing_total|by apply stored_total].
Qed.

(** C5: an upgrade request is answered with the accept key of RFC 6455. The vhost has no
    extensions and no mounts and a protocol name shorter than 128 bytes ([PlainVhost]), as
    in the application. The header lines of a request for version 13, in any order and among
    others, none twice and with room for each in the table, with a host, an upgrade and a
    key of less than 128 bytes, and with a list of extensions shorter than 144 bytes, and
    the empty line are parsed to the end, one byte at a time; what follows them is left.
    Then handshake_0405, on a connection with nothing to send, a service buffer of at least
    1024 bytes and memory for its session data, either sends exactly the response with the
    accept key of the client's key (what the socket does not take at once is kept to be
    sent) and makes the connection an established one at the start of a frame, or returns
    -1, and then the socket failed for a part of this response, or memory for its rest was
    refused, in this very call. The choice of the protocol, which comes between the two in
    lws_handshake_server, is not a part of this. *)
Theorem upgrade_accepted w ls key protocols r : UpgradeRequest w ls key protocols -> PlainVhost ->
  exists w', feed w (concat (map text_of ls) ++ [13; 10] ++ r) = Some (0, w', r) /\
    parser_state w' = WSI_PARSING_COMPLETE /\ Hdr.ietf_spec_revision w' = 13 /\
    forall c fuel, c_hdr c = w' -> Ready c ->
      exists c' n, handshake_0405 (S fuel) c = Some (c', n) /\
        (n = -1 /\ SendFails (c_wsi c) (response key (zlen protocols)) \/
         n = 0 /\ state (c_wsi c') = LWSS_ESTABLISHED /\ lws_rx_parse_state (c_wsi c') = RXPS_NEW /\
         sent (c_wsi c') ++ pending (c_wsi c') = sent (c_wsi c) ++ response key (zlen protocols)).
Proof.
  intros U V. pose proof U as [Hw Hps Hlp Hu Hlim Hok Hnd (host & Hh & Hh0) (up & Hup & Hup0) Hver Hk Hkl _ _].
  destruct (feed_lines ls ([13; 10] ++ r) w Hw Hok) as [-> Hw']. destruct (after_lines_same ls w Hu Hps Hlp) as (Hu' & Hps' & Hlp').
  destruct (feed_end (after_lines w ls) up (bstr "13") r) as (w' & Hf & Ha & Hc & Hr); try done; try by apply sent_some.
  exists w'. split; [exact Hf|]. split; [done|]. split; [done|]. intros c fuel <- Hrd.
  assert (Hk0 : key <> []) by (intros ->; change (zlen []) with 0 in Hkl; lia).
  apply (handshake_ok fuel c host key (zlen protocols)); try done; rewrite ?Ha; try by apply sent_some.
  - apply Hw'.
  - apply Hkl.
  - by apply (request_extensions w ls key protocols).
  - by apply (request_protocols w ls key protocols).
Qed.

End Upgrade.

(** ** The example of RFC 6455 *)

#[local] Existing Instances demo_env WsTxProps.demo_socket.

#[local] Instance demo_vhost : Vhost := {|
  protocol_name := Some (bstr "chat"); per_session_data_size := 0; mount_list := []; extensions := [];
  confirm_extension _ _ := 0; construct_extension _ _ := None; set_extension_option _ _ _ := 0;
  handshake_reply _ _ := 0; mount_callback _ _ := 0
|}.

Definition chat_w : hdr := demo_after (bstr "GET /chat HTTP/1.1" ++ crlf).

Definition chat_lines : list hline :=
  [mkLine 3 200 (bstr "Host:") 1 (bstr "server.example.com");
   mkLine 5 200 (bstr "Upgrade:") 1 (bstr "websocket");
   mkLine 4 200 (bstr "Connection:") 1 (bstr "Upgrade");
   mkLine 32 200 (bstr "Sec-WebSocket-Key:") 1 (bstr "dGhlIHNhbXBsZSBub25jZQ==");
   mkLine 6 200 (bstr "Origin:") 1 (bstr "http://example.com");
   mkLine 12 200 (bstr "Sec-WebSocket-Protocol:") 1 (bstr "chat, superchat");
   mkLine 33 200 (bstr "Sec-WebSocket-Version:") 1 (bstr "13")].

Lemma chat_name : NameState (ctx := demo_ctx) chat_w.
Proof.
  destruct (demo_after_inv (bstr "GET /chat HTTP/1.1" ++ crlf)) as [Hv|Hn]; [| vm_compute; reflexivity| |exact Hn].
  - apply all_u8_app. split; [apply bstr_u8|by repeat constructor].
  - destruct (vs_token _ Hv) as [_ H]. vm_compute in H. done.
Qed.

(** One line of the example. *)
Ltac chat_line :=
  constructor; try (vm_compute; reflexivity); try discriminate; try apply bstr_u8;
  [apply name_lower; split; [lia|vm_compute; reflexivity]|by repeat constructor].

Lemma chat_lines_ok : LinesOk (ctx := demo_ctx) chat_w chat_lines.
Proof. unfold chat_lines. cbn [LinesOk l_token l_limit l_name l_value]. repeat (split; [chat_line|]). exact I. Qed.

Lemma chat_sent h v : In (h, v) (map (fun l => (l_token l, l_value l)) chat_lines) -> Sent chat_w chat_lines h v.
Proof. intros Hin. left. apply in_map_iff in Hin as (l & [= <- <-] & Hl). exists l. split; [by apply list_elem_of_In|done]. Qed.

Lemma chat_request : UpgradeRequest (ctx := demo_ctx) chat_w chat_lines (bstr "dGhlIHNhbXBsZSBub25jZQ==") (bstr "chat, superchat").
Proof.
  constructor; try (vm_compute; reflexivity).
  - apply chat_name.
  - by eexists.
  - apply chat_lines_ok.
  - apply (bool_decide_eq_true_1 (NoDup (map l_token chat_lines))). vm_compute. reflexivity.
  - eexists. split; [apply chat_sent; cbn; by left|done].
  - eexists. split; [apply chat_sent; cbn; by right; left|done].
  - apply chat_sent. cbn. tauto.
  - apply chat_sent. cbn. tauto.
  - by split.
  - apply chat_sent. cbn. tauto.
  - exists []. split; [|done]. right. split; [done|]. split; [by repeat constructor|vm_compute; reflexivity].
Qed.

(** The connection the request [h] came on. *)
Definition chat_conn (h : hdr) : conn :=
  mkConn h ((demo_wsi 4) {{ state := LWSS_HTTP; mode := LWSCM_HTTP_SERVING }}) (replicate 4096 7) false [].

Lemma chat_ready h : Ready (chat_conn h).
Proof. constructor; try done; try (vm_compute; discriminate); try (vm_compute; reflexivity). Qed.

Lemma upgrade_accepted_witness : exists w',
  feed (ctx := demo_ctx) chat_w (concat (map text_of chat_lines) ++ [13; 10] ++ [129]) = Some (0, w', [129]) /\
  exists c' n, handshake_0405 1 (chat_conn w') = Some (c', n) /\ n = 0 /\ state (c_wsi c') = LWSS_ESTABLISHED /\
    sent (c_wsi c') ++ pending (c_wsi c') =
      status_lines ++ bstr "s3pPLMBiTxaQ9kYGzzhZRbK+xOo=" ++ CRLF ++ bstr "Sec-WebSocket-Protocol: chat" ++ CRLF ++ CRLF.
Proof.
  destruct (upgrade_accepted (ctx := demo_ctx) (ctx_ok := demo_ctx_ok) chat_w chat_lines (bstr "dGhlIHNhbXBsZSBub25jZQ==")
    (bstr "chat, superchat") [129] chat_request) as (w' & Hf & _ & _ & Hc); [by constructor|].
  exists w'. split; [exact Hf|]. destruct (Hc (chat_conn w') 0%nat eq_refl (chat_ready w')) as (c' & n & E & Hn).
  exists c', n. split; [exact E|]. destruct Hn as [[_ Hn]|(Hn & Hs & _ & Ht)].
  - exfalso. revert Hn. apply reliable_sends. split; [|done].
    intros w b. cbn. pose proof (zlen_nonneg b). unfold LWS_SSL_CAPABLE_ERROR. lia.
  - split; [done|]. split; [done|]. rewrite Ht. vm_compute. reflexivity.
Defined.

(** ** A long list of extensions *)

Definition long_ctx : HttpCtx := {| max_http_header_data := 1024; token_limits := None; fallback_to_raw := false |}.

Definition long_w : hdr := demo_w {{ ah ::= (fun a => a {{ data := replicate 1024 0 }}) }}.

(** A request with the value [v] for the extensions, and what the server sends. *)
Definition answer_to (V : Vhost) (v : bytes) : option bytes :=
  '(_, w, _) ← feed (ctx := long_ctx) long_w
     (bstr "GET /chat HTTP/1.1" ++ crlf ++ bstr "Sec-WebSocket-Extensions: " ++ v ++ crlf ++
      concat (map text_of chat_lines) ++ crlf);
  '(c, n) ← handshake_0405 (H0 := V) 1 (chat_conn w);
  if n =? 0 then Some (sent (c_wsi c)) else None.

(** The handshake copies the client's list of extensions to the start of the buffer
    whose rest holds the response it has already written: from 144 bytes on, the
    list runs over the response, and the server answers with the client's own text. *)
Lemma extensions_overwrite_response :
  take 16 <$> answer_to demo_vhost (replicate 143 120) = Some (bstr "HTTP/1.1 101 Swi") /\
  take 16 <$> answer_to demo_vhost (replicate 144 120) = Some (0 :: bstr "TTP/1.1 101 Swi") /\
  take 16 <$> answer_to demo_vhost (replicate 144 120 ++ bstr "HTTP/1.1 302 Abc") = Some (bstr "HTTP/1.1 302 Abc").
Proof. vm_compute. split_and!; reflexivity. Qed.

(** ** Options that are never left *)

(** A ';' where the search for options stands: no option starts with it, and the step
    to the next option stops at once. *)
Lemma option_loop_stuck w ext opts buf p e args :
  buf !! Z.to_nat args = Some 59 -> (forall i, offer_options w ext i opts buf p e args = Some (buf, p)) ->
  forall fuel, option_loop fuel w ext opts buf p e args = None.
Proof.
  intros Hc Ho. pose proof (lookup_lt_Some _ _ _ Hc) as Hl.
  assert (Hskip : forall stop, stop 59 = true -> skip_to (length buf) stop buf args = Some args).
  { intros stop Hs. destruct (length buf); [lia|]. cbn [skip_to]. rewrite Hc. cbn [mbind option_bind]. by rewrite Hs. }
  induction fuel as [|fuel IH]; [done|]. cbn [option_loop]. rewrite Hc. cbn [mbind option_bind].
  change ((59 =? 0) || (59 =? 44)) with false. cbv iota. rewrite Hskip by done. cbn [mbind option_bind].
  rewrite Ho. cbn [mbind option_bind]. rewrite Hskip by done. exact IH.
Qed.

(** A server that supports permessage-deflate: the options of
    lib/extension-permessage-deflate.c and whether they take no argument. *)
Definition deflate_options : list (bytes * bool) :=
  [(bstr "server_no_context_takeover", true); (bstr "client_no_context_takeover", true);
   (bstr "server_max_window_bits", false); (bstr "client_max_window_bits", false);
   (bstr "rx_buf_size", false); (bstr "tx_buf_size", false); (bstr "compression_level", false); (bstr "mem_level", false)].

Definition deflate_vhost : Vhost := {|
  protocol_name := Some (bstr "chat"); per_session_data_size := 0; mount_list := [];
  extensions := [bstr "permessage-deflate"];
  confirm_extension _ _ := 0; construct_extension _ _ := Some deflate_options; set_extension_option _ _ _ := 0;
  handshake_reply _ _ := 0; mount_callback _ _ := 0
|}.

(** A list of extensions that keeps the server busy for ever.  A tab ends an
    extension for the loop over the names but not for the loop over the options: in
    "permessage-deflate;a<TAB>b;c" the latter runs on to the ';' behind the tab, where
    no option starts and from where it does not move.  With the list at the start of
    the buffer, as the handshake puts it there, the loop does not end however many
    rounds it is given, and the handshake of a server that supports the extension has
    no result; the same list with a comma instead is answered. *)
Lemma extension_options_hang :
  (forall w p e r fuel, option_loop (H0 := deflate_vhost) fuel w 0 deflate_options
     (bstr "permessage-deflate;a" ++ [9] ++ bstr "b;c" ++ 0 :: r) p e 19 = None) /\
  answer_to deflate_vhost (bstr "permessage-deflate;a" ++ [9] ++ bstr "b;c") = None /\
  is_Some (answer_to deflate_vhost (bstr "permessage-deflate;a,b;c")).
Proof.
  split; [|split; [vm_compute; reflexivity|by vm_compute; eexists]]. intros w p e r fuel.
  set (buf := _ ++ _). destruct fuel as [|fuel]; [done|]. cbn [option_loop].
  assert (E1 : buf !! Z.to_nat 19 = Some 97) by done. rewrite E1. cbn [mbind option_bind].
  change ((97 =? 0) || (97 =? 44)) with false. cbv iota.
  assert (E2 : skip_to (length buf) (fun c => negb (c =? 32)) buf 19 = Some 19) by done. rewrite E2. cbn [mbind option_bind].
  assert (E3 : offer_options (H0 := deflate_vhost) w 0 0 deflate_options buf p e 19 = Some (buf, p)) by done.
  rewrite E3. cbn [mbind option_bind].
  assert (E4 : skip_to (length buf) (fun c => (c =? 44) || (c =? 59)) buf 19 = Some 22) by done. rewrite E4. cbn [mbind option_bind].
  by apply option_loop_stuck.
Qed.

End HandshakeProps.
