(* ===== verification/HttpOut.v ===== *)
(** * The writer of HTTP headers

    lib/header.c: the functions that write a status line and headers into a buffer
    [p..end), and the two that send a whole response, for a status and for a
    redirect. *)

From S2P Require Import Prelude Ws WsTx Lextable HttpHdr.

Module HttpOut.
Export Lextable Hdr.

(** The part of struct lws that the writer uses, beside the connection that sends;
    [serv_buf] is the buffer of the thread. *)
Record http_conn := mkHttp {
  h_wsi : lws;
  serv_buf : bytes;
  request_version : Z;
  content_length : Z;
  content_remain : Z
}.

(** The vhost and the context: extra headers, options, the name of the server. *)
Class Site := {
  vh_headers : list (bytes * bytes);
  vh_options : Z;
  server_string : option bytes
}.

Definition LWSAHH_CODE_MASK : Z := (1 .<< 16) - 1.
Definition LWSAHH_FLAG_NO_SERVER_NAME : Z := 1 .<< 30.
Definition LWS_SERVER_OPTION_STS : Z := 1 .<< 15.

Definition WSI_TOKEN_HTTP_LOCATION : Z := 59.
Definition WSI_TOKEN_HTTP_SERVER : Z := 65.
Definition WSI_TOKEN_HTTP_CONTENT_TYPE : Z := 28.
Definition WSI_TOKEN_HTTP_CONTENT_LENGTH : Z := 27.

(** ** sprintf *)

(** %u, %lu and %d of a number that is not negative; a 64 bit number has at most 20
    digits. *)
Fixpoint dec_loop (fuel : nat) (n : Z) (acc : bytes) : bytes :=
  match fuel with
  | O => acc
  | S fuel => let acc := (48 + n mod 10) :: acc in
      if n / 10 =? 0 then acc else dec_loop fuel (n / 10) acc
  end.

Definition dec (n : Z) : bytes := dec_loop 20 n [].

(** sprintf into an array of [size] bytes: the text, if it fits with its NUL. *)
Definition sprintf (size : Z) (s : bytes) : option bytes := if zlen s + 1 <=? size then Some s else None.

(** ** Headers

    A function that writes gets the memory, the offset [*p] and the offset of [end]
    and gives the result, the new [*p] and the memory; [None] is an access outside of
    the memory or of the value. *)

Definition lws_token_to_string (token : Z) : option bytes :=
  if u32 token >=? zlen set then None else set !! Z.to_nat (u32 token).

(** [while ( *p < end && *name) *(( *p)++) = *name++;] *)
Fixpoint copy_name (name : bytes) (mem : bytes) (p end_ : Z) : option (Z * bytes) :=
  match name with
  | [] => Some (p, mem)
  | c :: name =>
      if p <? end_ then mem ← store mem p [c]; copy_name name mem (p + 1) end_
      else Some (p, mem)
  end.

(** From the check of the space for the value on. *)
Definition add_value (value : bytes) (length : Z) (mem : bytes) (p end_ : Z) : option (Z * Z * bytes) :=
  if p + length + 3 >=? end_ then Some (1, p, mem)
  else
    if (0 <=? length) && (length <=? zlen value) then
      mem ← store mem p (take (Z.to_nat length) value);
      mem ← store mem (p + length) [13];
      mem ← store mem (p + length + 1) [10];
      Some (0, p + length + 2, mem)
    else None.

Definition lws_add_http_header_by_name (name : option bytes) (value : bytes) (length : Z)
    (mem : bytes) (p end_ : Z) : option (Z * Z * bytes) :=
  match name with
  | Some name =>
      '(p, mem) ← copy_name name mem p end_;
      if p =? end_ then Some (1, p, mem)
      else mem ← store mem p [32]; add_value value length mem (p + 1) end_
  | None => add_value value length mem p end_
  end.

Definition lws_finalize_http_header (mem : bytes) (p end_ : Z) : option (Z * Z * bytes) :=
  if end_ - p <? 3 then Some (1, p, mem)
  else mem ← store mem p [13]; mem ← store mem (p + 1) [10]; Some (0, p + 2, mem).

Definition lws_add_http_header_by_token (token : Z) (value : bytes) (length : Z)
    (mem : bytes) (p end_ : Z) : option (Z * Z * bytes) :=
  match lws_token_to_string token with
  | None => Some (1, p, mem)
  | Some name => lws_add_http_header_by_name (Some name) value length mem p end_
  end.

(** [if (f(...)) return 1;]: go on with the memory that [f] has left. *)
Definition and_then (f g : bytes -> Z -> Z -> option (Z * Z * bytes)) (mem : bytes) (p end_ : Z)
    : option (Z * Z * bytes) :=
  '(r, p, mem) ← f mem p end_; if nz r then Some (1, p, mem) else g mem p end_.

Infix ";;;" := and_then (at level 60, right associativity).

(** The members are unsigned int, the argument is an unsigned long. *)
Definition lws_add_http_header_content_length (c : http_conn) (len : Z)
    (mem : bytes) (p end_ : Z) : option (Z * http_conn * Z * bytes) :=
  b ← sprintf 24 (dec len);
  '(r, p, mem) ← lws_add_http_header_by_token WSI_TOKEN_HTTP_CONTENT_LENGTH b (zlen b) mem p end_;
  if nz r then Some (1, c, p, mem)
  else Some (0, c {{ content_length := u32 len; content_remain := u32 len }}, p, mem).

Definition err400 : list bytes :=
  [bstr "Bad Request"; bstr "Unauthorized"; bstr "Payment Required"; bstr "Forbidden"; bstr "Not Found";
   bstr "Method Not Allowed"; bstr "Not Acceptable"; bstr "Proxy Auth Required"; bstr "Request Timeout";
   bstr "Conflict"; bstr "Gone"; bstr "Length Required"; bstr "Precondition Failed";
   bstr "Request Entity Too Large"; bstr "Request URI too Long"; bstr "Unsupported Media Type";
   bstr "Requested Range Not Satisfiable"; bstr "Expectation Failed"].

Definition err500 : list bytes :=
  [bstr "Internal Server Error"; bstr "Not Implemented"; bstr "Bad Gateway"; bstr "Service Unavailable";
   bstr "Gateway Timeout"; bstr "HTTP Version Not Supported"].

Definition hver : list bytes := [bstr "HTTP/1.0"; bstr "HTTP/1.1"; bstr "HTTP/2"].

Definition description (code : Z) : bytes :=
  let d := [] in
  let d := if (code >=? 400) && (code <? 400 + zlen err400) then default [] (err400 !! Z.to_nat (code - 400)) else d in
  let d := if (code >=? 500) && (code <? 500 + zlen err500) then default [] (err500 !! Z.to_nat (code - 500)) else d in
  let d := if code =? 200 then bstr "OK" else d in
  if code =? 304 then bstr "Not Modified"
  else if (code >=? 300) && (code <? 400) then bstr "Redirect" else d.

(** [request_version] is an unsigned member. *)
Definition version_text (c : http_conn) : bytes := default (bstr "HTTP/1.0") (hver !! Z.to_nat (request_version c)).

(** The loop over the headers of the vhost. *)
Fixpoint add_vhost_headers (hs : list (bytes * bytes)) (mem : bytes) (p end_ : Z) : option (Z * Z * bytes) :=
  match hs with
  | [] => Some (0, p, mem)
  | (name, value) :: hs =>
      (lws_add_http_header_by_name (Some name) value (zlen value) ;;; add_vhost_headers hs) mem p end_
  end.

(** context->server_string_len is a short. *)
Definition server_string_len (s : bytes) : Z := swrap 16 (zlen s).

Definition STS_NAME : bytes := bstr "Strict-Transport-Security:".
Definition STS_VALUE : bytes := bstr "max-age=15768000 ; includeSubDomains".

Section Out.
Context `{LwsEnv} `{Site}.

Definition lws_add_http_header_status (c : http_conn) (_code : Z) (mem : bytes) (p end_ : Z)
    : option (Z * Z * bytes) :=
  let code := _code .& LWSAHH_CODE_MASK in
  code_and_desc ← sprintf 60 (version_text c ++ [32] ++ dec code ++ [32] ++ description code);
  (lws_add_http_header_by_name None code_and_desc (zlen code_and_desc) ;;;
   add_vhost_headers vh_headers ;;;
   (fun mem p end_ =>
      match server_string with
      | Some s => if nz (_code .& LWSAHH_FLAG_NO_SERVER_NAME) then Some (0, p, mem)
                  else lws_add_http_header_by_token WSI_TOKEN_HTTP_SERVER s (server_string_len s) mem p end_
      | None => Some (0, p, mem)
      end) ;;;
   (fun mem p end_ =>
      if nz (vh_options .& LWS_SERVER_OPTION_STS)
      then lws_add_http_header_by_name (Some STS_NAME) STS_VALUE 36 mem p end_
      else Some (0, p, mem))) mem p end_.

(** ** Responses *)

(** [lws_write] of [len] bytes at [buf] of the memory. *)
Definition write_at (fuel : nat) (c : http_conn) (mem : bytes) (buf len wp : Z) : option (http_conn * Z * bytes) :=
  '(w, r, m) ← lws_write fuel (h_wsi c) (drop (Z.to_nat (buf - LWS_PRE)) mem) len wp;
  Some (c {{ h_wsi := w }}, r, splice (Z.to_nat (buf - LWS_PRE)) m mem).

Definition html_text (code : Z) (html_body : bytes) : bytes :=
  bstr "<html><body><h1>" ++ dec code ++ bstr "</h1>" ++ html_body ++ bstr "</body></html>".

(** [html_body] is the text, empty for NULL; [code] is an unsigned int. *)
Definition lws_return_http_status (fuel : nat) (c : http_conn) (code : Z) (html_body : option bytes)
    : option (http_conn * Z) :=
  let p := LWS_PRE in
  let start := p in
  let body := p + 512 in
  let end_ := p + pt_serv_buf_size (h_wsi c) - LWS_PRE in
  let text := html_text code (default [] html_body) in
  let len := zlen text in
  mem ← store (serv_buf c) body (text ++ [0]);
  slen ← sprintf 20 (dec len);
  let n := zlen slen in
  '(r, p, mem) ← (lws_add_http_header_status c code ;;;
                  lws_add_http_header_by_token WSI_TOKEN_HTTP_CONTENT_TYPE (bstr "text/html") 9 ;;;
                  lws_add_http_header_by_token WSI_TOKEN_HTTP_CONTENT_LENGTH slen n ;;;
                  lws_finalize_http_header) mem p end_;
  if nz r then Some (c {{ serv_buf := mem }}, 1)
  else
    '(c, m, mem) ← write_at fuel c mem start (p - start) LWS_WRITE_HTTP_HEADERS;
    if negb (m =? s32 (p - start)) then Some (c {{ serv_buf := mem }}, 1)
    else
      '(c, m, mem) ← write_at fuel c mem body len LWS_WRITE_HTTP;
      Some (c {{ serv_buf := mem }}, b2z (negb (m =? n))).

(** The buffer is the caller's. *)
Definition lws_http_redirect (fuel : nat) (c : http_conn) (code : Z) (loc : bytes) (len : Z)
    (mem : bytes) (p end_ : Z) : option (http_conn * Z * Z * bytes) :=
  let start := p in
  '(r, p, mem) ← (lws_add_http_header_status c (u32 code) ;;;
                  lws_add_http_header_by_token WSI_TOKEN_HTTP_LOCATION loc len ;;;
                  lws_add_http_header_by_token WSI_TOKEN_HTTP_CONTENT_TYPE (bstr "text/html") 9 ;;;
                  lws_add_http_header_by_token WSI_TOKEN_HTTP_CONTENT_LENGTH (bstr "0") 1 ;;;
                  lws_finalize_http_header) mem p end_;
  if nz r then Some (c, -1, p, mem)
  else
    '(c, n, mem) ← write_at fuel c mem start (p - start) LWS_WRITE_HTTP_HEADERS;
    Some (c, n, p, mem).

End Out.
End HttpOut.
