(* ===== verification/HttpOutProps.v ===== *)
(** * The responses that header.c writes

    The text of the headers stays inside the buffer; a response that is sent is one
    that the header parser of a client reads back, with the length of its body. *)

From S2P Require Import Prelude Ws WsRx WsRxProps WsTx WsTxFacts WsTxProps WsTxHttp Lextable.
From S2P Require Import HttpHdr HttpHdrFacts HttpHdrInv HttpHdrProps HttpReq RangesProps Region HttpOut.

Module HttpOutProps.
Export HttpReq HttpOut.
Import Region.

(** ** Numbers *)

Definition is_dec (c : Z) : Prop := 48 <= c <= 57.

Lemma dec_loop_digits fuel : forall n acc, 0 <= n < 10 ^ Z.of_nat fuel ->
  digits 0 (dec_loop fuel n acc) = digits n acc.
Proof.
  induction fuel as [|fuel IH]; intros n acc Hn; [by replace n with 0 by lia|].
  rewrite Nat2Z.inj_succ, Z.pow_succ_r in Hn by lia. cbn [dec_loop].
  assert (Hd : forall m, digits m ((48 + n mod 10) :: acc) = digits (m * 10 + n mod 10) acc).
  { intros m. rewrite RangesProps.digits_step by dm_lia. f_equal. lia. }
  destruct (n / 10 =? 0) eqn:E; zbool.
  - rewrite Hd. f_equal. dm_lia.
  - rewrite IH by dm_lia. rewrite Hd. f_equal. dm_lia.
Qed.

Lemma dec_value n : 0 <= n < 10 ^ 20 -> digits 0 (dec n) = n.
Proof. intros. unfold dec. by rewrite dec_loop_digits. Qed.

Lemma dec_loop_dec fuel : forall n acc, 0 <= n -> Forall is_dec acc -> Forall is_dec (dec_loop fuel n acc).
Proof.
  induction fuel as [|fuel IH]; intros n acc Hn Ha; [done|]. cbn [dec_loop].
  assert (Forall is_dec ((48 + n mod 10) :: acc)) by (constructor; [unfold is_dec; dm_lia|done]).
  destruct (_ =? 0); [done|]. apply IH; [dm_lia|done].
Qed.

Lemma dec_loop_length fuel : forall k n acc, 0 <= n < 10 ^ Z.of_nat (S k) ->
  zlen acc <= zlen (dec_loop fuel n acc) <= zlen acc + Z.of_nat (S k).
Proof.
  induction fuel as [|fuel IH]; intros k n acc Hn; [cbn [dec_loop]; lia|]. cbn [dec_loop].
  destruct (_ =? 0) eqn:E; zbool; [rewrite zlen_cons; lia|].
  destruct k as [|k]; [exfalso; dm_lia|]. rewrite Nat2Z.inj_succ, Z.pow_succ_r in Hn by lia.
  specialize (IH k (n / 10) ((48 + n mod 10) :: acc)). rewrite zlen_cons in IH. dm_lia.
Qed.

Lemma dec_dec n : 0 <= n -> Forall is_dec (dec n).
Proof. intros. by apply dec_loop_dec. Qed.

Lemma dec_length k n : 0 <= n < 10 ^ Z.of_nat (S k) -> 0 <= zlen (dec n) <= Z.of_nat (S k).
Proof. intros Hn. pose proof (dec_loop_length 20 k n [] Hn) as Hl. exact Hl. Qed.

(** ** Writers

    [f] writes the text [s]: all of it, or, when [s] and a byte more do not fit, a part
    of it and an error; nothing outside of [p..end) is touched. *)
Definition Writer (f : bytes -> Z -> Z -> option (Z * Z * bytes)) (s : bytes) : Prop :=
  forall mem p e, 0 <= p <= e -> e <= zlen mem ->
    (f mem p e = Some (0, p + zlen s, splice (Z.to_nat p) s mem) /\ p + zlen s <= e) \/
    (exists t, f mem p e = Some (1, p + zlen t, splice (Z.to_nat p) t mem) /\
       t `prefix_of` s /\ p + zlen t <= e /\ e <= p + zlen s + 1).

Lemma writer_seq f g s t : Writer f s -> Writer g t -> Writer (f ;;; g) (s ++ t).
Proof.
  intros Hf Hg mem p e Hp He. pose proof (zlen_nonneg s). pose proof (zlen_nonneg t). unfold and_then. rewrite zlen_app.
  destruct (Hf mem p e Hp He) as [[-> Hs]|(u & -> & Hu & Hs & Hfit)]; cbn [mbind option_bind].
  - change (nz 0) with false. cbv iota. assert (Hz : zlen (splice (Z.to_nat p) s mem) = zlen mem) by (apply zlen_splice; lia).
    destruct (Hg (splice (Z.to_nat p) s mem) (p + zlen s) e) as [[-> Ht]|(u & -> & Hu & Ht & Hfit)]; [lia|lia| |].
    + left. rewrite splice_app by lia. split; [do 3 f_equal|]; lia.
    + right. exists (s ++ u). pose proof (zlen_nonneg u). rewrite splice_app, zlen_app by lia. split_and!; try lia; [do 3 f_equal; lia|].
      by apply prefix_app.
  - change (nz 1) with true. cbv iota. right. exists u. split_and!; try done; [|lia]. by apply prefix_app_r.
Qed.

Lemma writer_skip : Writer (fun mem p _ => Some (0, p, mem)) [].
Proof. intros mem p e Hp He. left. rewrite splice_nil. change (zlen (@nil Z)) with 0. split; [by rewrite Z.add_0_r|lia]. Qed.

Lemma copy_name_eq name : forall mem p e, 0 <= p <= e -> e <= zlen mem ->
  let t := take (Z.to_nat (e - p)) name in
  copy_name name mem p e = Some (p + zlen t, splice (Z.to_nat p) t mem).
Proof.
  induction name as [|c name IH]; intros mem p e Hp He; cbv zeta; cbn [copy_name].
  - rewrite take_nil. cbn. by rewrite splice_nil, Z.add_0_r.
  - destruct (p <? e) eqn:E; zbool.
    + rewrite store_some by (change (zlen [c]) with 1; lia). cbn [mbind option_bind].
      assert (Hz : zlen (splice (Z.to_nat p) [c] mem) = zlen mem) by (apply zlen_splice; change (zlen [c]) with 1; lia).
      rewrite IH by lia. replace (Z.to_nat (e - p)) with (S (Z.to_nat (e - (p + 1)))) by lia. cbn [take].
      set (t := take _ name). assert (Ht : zlen t <= e - (p + 1)) by (unfold t, zlen; rewrite length_take; lia).
      rewrite zlen_cons, splice_cons by lia. do 2 f_equal. lia.
    + replace (e - p) with 0 by lia. change (take (Z.to_nat 0) (c :: name)) with (@nil Z). rewrite splice_nil. by rewrite Z.add_0_r.
Qed.

Lemma writer_value v : Writer (add_value v (zlen v)) (v ++ [13; 10]).
Proof.
  intros mem p e Hp He. pose proof (zlen_nonneg v). unfold add_value. rewrite zlen_app. change (zlen [13; 10]) with 2.
  destruct (_ >=? _) eqn:E; zbool.
  { right. exists []. rewrite splice_nil. change (zlen (@nil Z)) with 0. split_and!; try lia; [by rewrite Z.add_0_r|apply prefix_nil]. }
  left. rewrite (proj2 (Z.leb_le 0 _)), (proj2 (Z.leb_le (zlen v) _)) by lia. cbn [andb].
  replace (take (Z.to_nat (zlen v)) v) with v by (unfold zlen; by rewrite Nat2Z.id, firstn_all).
  assert (L : forall q s, p <= q -> q + zlen s <= p + zlen v + 2 -> forall m, zlen m = zlen mem -> store m q s = Some (splice (Z.to_nat q) s m))
    by (intros; apply store_some; lia).
  assert (Hv : zlen (splice (Z.to_nat p) v mem) = zlen mem) by (apply zlen_splice; lia).
  rewrite (L p v) by lia. cbn [mbind option_bind].
  rewrite (L (p + zlen v) [13]) by (change (zlen [13]) with 1; lia). cbn [mbind option_bind].
  rewrite (splice_app p v [13]) by (change (zlen [13]) with 1; lia).
  assert (Hz : zlen (splice (Z.to_nat p) (v ++ [13]) mem) = zlen mem)
    by (apply zlen_splice; rewrite ?zlen_app; change (zlen [13]) with 1; lia).
  rewrite (L (p + zlen v + 1) [10]) by (change (zlen [10]) with 1; lia). cbn [mbind option_bind].
  replace (p + zlen v + 1) with (p + zlen (v ++ [13])) by (rewrite zlen_app; change (zlen [13]) with 1; lia).
  rewrite splice_app by (rewrite ?zlen_app; change (zlen [13]) with 1; change (zlen [10]) with 1; lia).
  rewrite <- app_assoc. split; [do 3 f_equal|]; lia.
Qed.

(** The name and the space before the value. *)
Definition add_name (q : bytes) (mem : bytes) (p end_ : Z) : option (Z * Z * bytes) :=
  '(p, mem) ← copy_name q mem p end_;
  if p =? end_ then Some (1, p, mem) else mem ← store mem p [32]; Some (0, p + 1, mem).

Lemma by_name_seq q v len mem p e :
  lws_add_http_header_by_name (Some q) v len mem p e = (add_name q ;;; add_value v len) mem p e.
Proof.
  unfold lws_add_http_header_by_name, add_name, and_then. destruct (copy_name q mem p e) as [[p' m]|]; [|done]. cbn [mbind option_bind].
  destruct (p' =? e); [done|]. by destruct (store m p' [32]).
Qed.

Lemma writer_name q : Writer (add_name q) (q ++ [32]).
Proof.
  intros mem p e Hp He. pose proof (zlen_nonneg q). unfold add_name. rewrite copy_name_eq by done. cbn [mbind option_bind].
  rewrite zlen_app. change (zlen [32]) with 1. destruct (decide (zlen q < e - p)) as [Hfit|Hfit].
  - left. replace (take (Z.to_nat (e - p)) q) with q by (symmetry; apply take_ge; unfold zlen in *; lia).
    rewrite (proj2 (Z.eqb_neq (p + zlen q) e)) by lia.
    assert (Hz : zlen (splice (Z.to_nat p) q mem) = zlen mem) by (apply zlen_splice; lia).
    rewrite store_some by (change (zlen [32]) with 1; lia). cbn [mbind option_bind].
    rewrite splice_app by (change (zlen [32]) with 1; lia). split; [do 3 f_equal|]; lia.
  - right. set (t := take _ q). assert (Ht : zlen t = e - p) by (unfold t, zlen in *; rewrite length_take; lia).
    rewrite (proj2 (Z.eqb_eq (p + zlen t) e)) by lia. exists t. split_and!; try done; try lia.
    apply prefix_app_r. exists (drop (Z.to_nat (e - p)) q). symmetry. apply take_drop.
Qed.

(** [f] and [g] behave alike. *)
Lemma writer_ext f g s : (forall mem p e, f mem p e = g mem p e) -> Writer g s -> Writer f s.
Proof. intros E Hg mem p e Hp He. rewrite E. by apply Hg. Qed.

(** A header with a name: the name, a space, the value, the end of the line. *)
Lemma writer_named q v : Writer (lws_add_http_header_by_name (Some q) v (zlen v)) (line_text q 1 v).
Proof.
  apply (writer_ext _ _ _ (by_name_seq q v (zlen v))). change (line_text q 1 v) with (q ++ [32] ++ v ++ [13; 10]).
  rewrite app_assoc. apply writer_seq; [apply writer_name|apply writer_value].
Qed.

Lemma writer_token n q v : set !! Z.to_nat n = Some q -> 0 <= n ->
  Writer (lws_add_http_header_by_token n v (zlen v)) (line_text q 1 v).
Proof.
  intros Hq Hn. pose proof (lookup_lt_Some _ _ _ Hq) as Hl. change (length set) with 83%nat in Hl.
  unfold lws_add_http_header_by_token, lws_token_to_string. rewrite u32_small by lia. change (zlen set) with 83.
  replace (n >=? 83) with false by lia. rewrite Hq. apply writer_named.
Qed.

Lemma writer_end : Writer lws_finalize_http_header [13; 10].
Proof.
  intros mem p e Hp He. unfold lws_finalize_http_header. change (zlen [13; 10]) with 2. destruct (_ <? 3) eqn:E; zbool.
  - right. exists []. rewrite splice_nil. change (zlen (@nil Z)) with 0. split_and!; try lia; [by rewrite Z.add_0_r|apply prefix_nil].
  - left. rewrite store_some by (change (zlen [13]) with 1; lia). cbn [mbind option_bind].
    assert (Hz : zlen (splice (Z.to_nat p) [13] mem) = zlen mem) by (apply zlen_splice; change (zlen [13]) with 1; lia).
    rewrite store_some by (change (zlen [10]) with 1; lia). cbn [mbind option_bind].
    rewrite splice_cons by (change (zlen [10]) with 1; lia). split; [done|lia].
Qed.

(** ** The text of the status and of the headers of the site *)

(** A line: the name with its delimiter, the spaces behind it, the value. *)
Abbreviation part := (bytes * nat * bytes)%type.
Definition part_text (x : part) : bytes := let '(q, k, v) := x in line_text q k v.
Definition parts_text (xs : list part) : bytes := concat (map part_text xs).

Lemma short_lookup k (l : list bytes) i : 0 <= k -> forallb (fun s => zlen s <=? k) l = true -> zlen (default [] (l !! i)) <= k.
Proof.
  intros Hk Hl. destruct (l !! i) as [s|] eqn:E; [|done]. rewrite forallb_forall in Hl.
  apply list_elem_of_lookup_2, list_elem_of_In, Hl in E. cbn. zbool. lia.
Qed.

Lemma description_short code : zlen (description code) <= 31.
Proof. unfold description. case_ifs; try apply short_lookup; done. Qed.

Lemma version_short c : zlen (version_text c) <= 8.
Proof.
  unfold version_text. destruct (Z.to_nat (request_version c)) as [|[|[|n]]]; done.
Qed.

Section Sites.
Context `{Site}.

Record SiteOk : Prop := { so_server : zlen (default [] server_string) < 2 ^ 15 }.

Definition site_parts (_code : Z) : list part :=
  map (fun '(name, value) => (name, 1%nat, value)) vh_headers ++
  match server_string with
  | Some s => if nz (_code .& LWSAHH_FLAG_NO_SERVER_NAME) then [] else [(bstr "server:", 1%nat, s)]
  | None => []
  end ++
  (if nz (vh_options .& LWS_SERVER_OPTION_STS) then [(STS_NAME, 1%nat, STS_VALUE)] else []).

Definition status_parts (c : http_conn) (_code : Z) : list part :=
  let code := _code .& LWSAHH_CODE_MASK in
  (version_text c ++ [32], 0%nat, dec code ++ [32] ++ description code) :: site_parts _code.

Lemma writer_vhost hs : Writer (add_vhost_headers hs) (parts_text (map (fun '(name, value) => (name, 1%nat, value)) hs)).
Proof.
  induction hs as [|[q v] hs IH]; [apply writer_skip|]. cbn [add_vhost_headers]. unfold parts_text. cbn [map concat].
  exact (writer_seq _ _ _ _ (writer_named q v) IH).
Qed.

Lemma code_range code : 0 <= code .& LWSAHH_CODE_MASK < 2 ^ 16.
Proof. change LWSAHH_CODE_MASK with (Z.ones 16). rewrite Z.land_ones by lia. apply Z.mod_pos_bound. lia. Qed.

Lemma status_fits c code : let n := code .& LWSAHH_CODE_MASK in
  sprintf 60 (version_text c ++ [32] ++ dec n ++ [32] ++ description n) = Some (version_text c ++ [32] ++ dec n ++ [32] ++ description n).
Proof.
  cbv zeta. set (n := code .& LWSAHH_CODE_MASK). assert (Hn : 0 <= n < 2 ^ 16) by apply code_range.
  pose proof (version_short c). pose proof (description_short n). pose proof (dec_length 4 n ltac:(lia)).
  unfold sprintf. rewrite !zlen_app. change (zlen [32]) with 1. by rewrite (proj2 (Z.leb_le _ 60)) by lia.
Qed.

Lemma writer_status c code : SiteOk -> Writer (lws_add_http_header_status c code) (parts_text (status_parts c code)).
Proof.
  intros [Hs]. set (n := code .& LWSAHH_CODE_MASK). set (t := version_text c ++ [32] ++ dec n ++ [32] ++ description n).
  assert (E : parts_text (status_parts c code) = (t ++ [13; 10]) ++ parts_text (site_parts code)).
  { unfold parts_text. cbn [status_parts map concat part_text]. unfold line_text, t, n. cbn [replicate]. by rewrite <- !app_assoc. }
  rewrite E. unfold site_parts, parts_text. rewrite !map_app, !concat_app.
  eapply (writer_ext _ (lws_add_http_header_by_name None t (zlen t) ;;; add_vhost_headers vh_headers ;;; _ ;;; _)).
  { intros mem p e. unfold lws_add_http_header_status. cbv zeta. rewrite (status_fits c code). reflexivity. }
  apply writer_seq; [apply writer_value|]. apply writer_seq; [apply writer_vhost|]. apply writer_seq.
  - destruct server_string as [s|]; [|apply writer_skip]. destruct (nz _); [apply writer_skip|]. cbn [map concat]. rewrite app_nil_r.
    pose proof (zlen_nonneg s). cbn in Hs.
    replace (server_string_len s) with (zlen s) by (unfold server_string_len, swrap; rewrite Z.mod_small; lia).
    by apply (writer_token WSI_TOKEN_HTTP_SERVER).
  - destruct (nz _); [|apply writer_skip]. cbn [map concat]. rewrite app_nil_r. apply (writer_named STS_NAME STS_VALUE).
Qed.

End Sites.
(** ** Sending a status *)

Section Sending.
Context `{SocketOk} `{Site}.

Definition response_parts (c : http_conn) (code len : Z) : list part :=
  status_parts c code ++ [(bstr "content-type:", 1%nat, bstr "text/html"); (bstr "content-length:", 1%nat, dec len)].

Definition response_head (c : http_conn) (code len : Z) : bytes := parts_text (response_parts c code len) ++ [13; 10].

Lemma parts_text_app xs ys : parts_text (xs ++ ys) = parts_text xs ++ parts_text ys.
Proof. unfold parts_text. by rewrite map_app, concat_app. Qed.

Lemma writer_response c code len : SiteOk -> Writer
  (lws_add_http_header_status c code ;;;
   lws_add_http_header_by_token WSI_TOKEN_HTTP_CONTENT_TYPE (bstr "text/html") 9 ;;;
   lws_add_http_header_by_token WSI_TOKEN_HTTP_CONTENT_LENGTH (dec len) (zlen (dec len)) ;;;
   lws_finalize_http_header) (response_head c code len).
Proof.
  intros S. unfold response_head, response_parts. rewrite parts_text_app. unfold parts_text at 2. cbn [map concat part_text].
  rewrite app_nil_r, <- !app_assoc. apply writer_seq; [by apply writer_status|].
  apply writer_seq; [by apply (writer_token WSI_TOKEN_HTTP_CONTENT_TYPE _ (bstr "text/html"))|].
  apply writer_seq; [by apply writer_token|apply writer_end].
Qed.

(** A connection that is answered: nothing waits to be sent. *)
Record HttpReady (c : http_conn) : Prop := {
  hr_size : pt_serv_buf_size (h_wsi c) = zlen (serv_buf c);
  hr_max : zlen (serv_buf c) < 2 ^ 31;
  hr_tx : TxInv (h_wsi c);
  hr_free : trunc_len (tx (h_wsi c)) = 0;
  hr_state : state (h_wsi c) <> LWSS_ESTABLISHED;
  hr_flush : state (h_wsi c) <> LWSS_FLUSHING_STORED_SEND_BEFORE_CLOSE
}.

(** The text fits behind the headers and the headers before the text. *)
Record StatusFits (c : http_conn) (code : Z) (body : bytes) : Prop := {
  sf_site : SiteOk;
  sf_code : 0 <= code < 2 ^ 32;
  sf_head : zlen (response_head c code (zlen (html_text code body))) <= 512;
  sf_text : LWS_PRE + 512 + zlen (html_text code body) + 1 <= zlen (serv_buf c)
}.

Lemma html_length code body : 0 <= code -> 35 <= zlen (html_text code body).
Proof.
  intros Hc. unfold html_text. rewrite !zlen_app. pose proof (zlen_nonneg body). pose proof (zlen_nonneg (dec code)).
  change (zlen (bstr "<html><body><h1>")) with 16. change (zlen (bstr "</h1>")) with 5. change (zlen (bstr "</body></html>")) with 14. lia.
Qed.

Lemma len_fits len : 0 <= len < 2 ^ 31 -> sprintf 20 (dec len) = Some (dec len) /\ 0 <= zlen (dec len) <= 10.
Proof.
  intros Hl. pose proof (dec_length 9 len ltac:(lia)) as Hd. split; [|lia]. unfold sprintf. by rewrite (proj2 (Z.leb_le _ 20)) by lia.
Qed.

Lemma splice_self (i : nat) (mem : bytes) : splice i (drop i mem) mem = mem.
Proof.
  unfold splice. rewrite (drop_ge mem (i + _)) by (rewrite length_drop; lia). by rewrite app_nil_r, take_drop.
Qed.

(** What a connection hands to the socket from a place of a buffer. *)
Definition from (mem : bytes) (buf : Z) : bytes := drop (Z.to_nat LWS_PRE) (drop (Z.to_nat (buf - LWS_PRE)) mem).

Lemma write_at_http fuel c mem buf len wp : state (h_wsi c) <> LWSS_ESTABLISHED -> is_http_wp wp = true ->
  write_at fuel c mem buf len wp =
    let '(w, r) := lws_issue_raw (h_wsi c) (PUser (from mem buf)) len in Some (c {{ h_wsi := w }}, r, mem).
Proof.
  intros Hst Hwp. unfold write_at. rewrite write_http by done. fold (from mem buf).
  destruct (lws_issue_raw _ _ _) as [w r]. cbn [mbind option_bind]. by rewrite splice_self.
Qed.

Lemma write_at_eq fuel c mem buf s wp : state (h_wsi c) <> LWSS_ESTABLISHED -> count_act_ext (h_wsi c) = 0%nat ->
  is_http_wp wp = true -> LWS_PRE <= buf -> At mem buf s -> zlen s < 2 ^ 31 ->
  write_at fuel c mem buf (zlen s) wp =
    let '(w, r) := lws_issue_raw (h_wsi c) (PUser s) (zlen s) in Some (c {{ h_wsi := w }}, r, mem).
Proof.
  intros Hst Hx Hwp Hb (Ha1 & Ha2 & Ha3) Hl. pose proof (zlen_nonneg s). rewrite write_at_http by done. unfold from.
  rewrite drop_drop. replace (Z.to_nat (buf - LWS_PRE) + Z.to_nat LWS_PRE)%nat with (Z.to_nat buf) by (unfold LWS_PRE in *; lia).
  rewrite issue_take by (done || lia). replace (Z.to_nat (zlen s)) with (length s) by (unfold zlen; lia). by rewrite Ha3.
Qed.

(** The result of a status that is answered does not depend on what was sent. *)
Lemma status_result fuel c code body c' r : 0 <= code -> count_act_ext (h_wsi c) = 0%nat -> state (h_wsi c) <> LWSS_ESTABLISHED ->
  zlen (serv_buf c) < 2 ^ 31 -> lws_return_http_status fuel c code body = Some (c', r) -> r = 1.
Proof.
  intros Hc Hx Hst Hm E. unfold lws_return_http_status in E. set (text := html_text code _) in E.
  assert (Hlen : 35 <= zlen text) by (by apply html_length).
  destruct (store _ _ _) as [mem|] eqn:Es; [|done]. cbn [mbind option_bind] in E.
  assert (Hmax : zlen text < 2 ^ 31).
  { unfold store in Es. destruct (_ && _) eqn:Eb; [|done]. zbool. rewrite zlen_app in *. change (zlen [0]) with 1 in *. unfold LWS_PRE in *. lia. }
  destruct (len_fits (zlen text)) as [Hsp Hd]; [lia|]. rewrite Hsp in E. cbn [mbind option_bind] in E.
  destruct ((lws_add_http_header_status c code ;;; _) mem _ _) as [[[r1 p] mem1]|]; [|done]. cbn [mbind option_bind] in E.
  destruct (nz r1); [by simplify_eq|].
  rewrite write_at_http in E by done. pose proof (issue_raw_only (h_wsi c) (PUser (from mem1 LWS_PRE)) (p - LWS_PRE) Hx) as O.
  destruct (lws_issue_raw (h_wsi c) _ _) as [w1 m1]. cbn [mbind option_bind fst] in *.
  destruct (negb _); [by simplify_eq|].
  assert (S1 : state w1 = state (h_wsi c)) by apply (only_state _ _ O).
  assert (F : h_wsi (c {{ h_wsi := w1 }}) = w1) by (by destruct c).
  rewrite write_at_http in E by (rewrite ?F; done || congruence). rewrite F in E.
  pose proof (issue_user_result w1 (from mem1 (LWS_PRE + 512)) (zlen text)
    ltac:(rewrite (only_noext _ _ O); done) ltac:(lia)) as (Hr & _).
  destruct (lws_issue_raw w1 _ _) as [w2 m2]. cbn [mbind option_bind snd] in *. simplify_eq.
  rewrite (proj2 (Z.eqb_neq m2 (zlen (dec (zlen text))))) by lia. done.
Qed.

(** What has been sent and what still waits. *)
Definition stream (c : http_conn) : bytes := sent (h_wsi c) ++ pending (h_wsi c).

(** The headers are in the buffer, before the text. *)
Lemma status_memory c code body : HttpReady c -> StatusFits c code body ->
  let text := html_text code body in
  let head := response_head c code (zlen text) in
  exists mem, store (serv_buf c) (LWS_PRE + 512) (text ++ [0]) = Some mem /\
    exists mem1, (lws_add_http_header_status c code ;;;
      lws_add_http_header_by_token WSI_TOKEN_HTTP_CONTENT_TYPE (bstr "text/html") 9 ;;;
      lws_add_http_header_by_token WSI_TOKEN_HTTP_CONTENT_LENGTH (dec (zlen text)) (zlen (dec (zlen text))) ;;;
      lws_finalize_http_header) mem LWS_PRE (LWS_PRE + pt_serv_buf_size (h_wsi c) - LWS_PRE) =
        Some (0, LWS_PRE + zlen head, mem1) /\ At mem1 LWS_PRE head /\ At mem1 (LWS_PRE + 512) text.
Proof.
  intros R [Hsite Hc Hh Ht]. cbv zeta. set (text := html_text code body) in *. set (head := response_head c code (zlen text)) in *.
  pose proof (zlen_nonneg text). pose proof (zlen_nonneg head). pose proof (html_length code body ltac:(lia)) as Hl. fold text in Hl.
  rewrite (hr_size _ R). replace (LWS_PRE + zlen (serv_buf c) - LWS_PRE) with (zlen (serv_buf c)) by lia.
  assert (P : LWS_PRE = 16) by done. eexists. split; [apply store_some; rewrite ?zlen_app; change (zlen [0]) with 1; lia|].
  set (mem := splice _ (text ++ [0]) _). assert (Hm : zlen mem = zlen (serv_buf c))
    by (apply zlen_splice; rewrite ?zlen_app; change (zlen [0]) with 1; lia).
  assert (Hat : At mem (LWS_PRE + 512) text).
  { apply (at_prefix _ _ text [0]), at_splice; rewrite ?zlen_app; change (zlen [0]) with 1; lia. }
  clearbody mem. destruct (writer_response c code (zlen text) Hsite mem LWS_PRE (zlen (serv_buf c))) as [[E _]|(t & _ & _ & _ & Hf)];
    [lia|lia| |fold head in Hf; lia].
  eexists. split; [exact E|]. fold head. split; [apply at_splice; lia|]. apply at_before; [done|lia|lia].
Qed.

(** A status is answered in two writes. *)
Lemma status_writes fuel c code body : HttpReady c -> StatusFits c code (default [] body) ->
  let text := html_text code (default [] body) in
  let head := response_head c code (zlen text) in
  exists mem, lws_return_http_status fuel c code body =
    let '(w1, m) := lws_issue_raw (h_wsi c) (PUser head) (zlen head) in
    if negb (m =? zlen head) then Some (c {{ h_wsi := w1 }} {{ serv_buf := mem }}, 1)
    else let '(w2, m) := lws_issue_raw w1 (PUser text) (zlen text) in
         Some (c {{ h_wsi := w2 }} {{ serv_buf := mem }}, b2z (negb (m =? zlen (dec (zlen text))))).
Proof.
  intros R F. destruct (status_memory c code (default [] body) R F) as (mem & Es & mem1 & E1 & A1 & A2). cbv zeta.
  destruct F as [Hsite Hc Hh Ht]. set (text := html_text code _) in *. set (head := response_head c code (zlen text)) in *.
  pose proof (html_length code (default [] body) ltac:(lia)) as Hl. fold text in Hl. pose proof (hr_max _ R) as Hmax.
  assert (P : LWS_PRE = 16) by done. pose proof (zlen_nonneg head). exists mem1. unfold lws_return_http_status. fold text. rewrite Es. cbn [mbind option_bind].
  destruct (len_fits (zlen text)) as [-> _]; [lia|]. cbn [mbind option_bind]. rewrite E1. cbn [mbind option_bind].
  change (nz 0) with false. cbv iota. replace (LWS_PRE + zlen head - LWS_PRE) with (zlen head) by lia. rewrite s32_small by lia.
  pose proof (ti_noext _ (hr_tx _ R)) as Hx. rewrite (write_at_eq fuel c mem1 LWS_PRE head) by (done || apply R || lia).
  pose proof (issue_raw_only (h_wsi c) (PUser head) (zlen head) Hx) as O.
  destruct (lws_issue_raw (h_wsi c) (PUser head) (zlen head)) as [w1 m]. cbn [mbind option_bind fst] in *. destruct (negb _); [done|].
  assert (Fw : h_wsi (c {{ h_wsi := w1 }}) = w1) by (by destruct c).
  assert (S1 : state w1 = state (h_wsi c)) by apply (only_state _ _ O).
  rewrite (write_at_eq fuel _ mem1 (LWS_PRE + 512) text);
    rewrite ?Fw; try done; try lia; [|rewrite S1; apply R|by rewrite (only_noext _ _ O)].
  destruct (lws_issue_raw w1 _ _) as [w2 m2]. cbn [mbind option_bind]. by destruct c.
Qed.

(** A buffer that is issued while nothing waits is sent or kept. *)
Lemma issue_all w b : Reliable -> TxInv w -> trunc_len (tx w) = 0 -> state w <> LWSS_FLUSHING_STORED_SEND_BEFORE_CLOSE ->
  zlen b < 2 ^ 31 ->
  exists w', lws_issue_raw w (PUser b) (zlen b) = (w', zlen b) /\ TxInv w' /\ state w' = state w /\ spill_size w' = spill_size w /\
    sent w' ++ pending w' = sent w ++ b.
Proof.
  intros R I Ht Hst Hl. pose proof (zlen_nonneg b). pose proof (ti_noext _ I) as Hx.
  destruct (issue_user_result w b (zlen b) Hx ltac:(lia)) as (_ & Hr & _).
  destruct (Hr Ht) as [Hr'|Hf]; [clear Hr; rename Hr' into Hr|by apply reliable_sends in Hf].
  pose proof (issue_raw_only w (PUser b) (zlen b) Hx) as O.
  destruct (lws_issue_raw w (PUser b) (zlen b)) as [w' r] eqn:E. cbn [fst snd] in *. subst r. exists w'.
  destruct (issue_raw_ok w (PUser b) (zlen b) w' (zlen b)) as (I' & S' & _ & Q & _); try done; try lia.
  split_and!; try done; [destruct O as [-> _]; by destruct w|]. rewrite Q. cbn [ptr_data]. unfold zlen. by rewrite Nat2Z.id, firstn_all.
Qed.

(** The answer when the socket takes the headers, or a part of them. *)
Lemma status_stream fuel c code body : HttpReady c -> StatusFits c code (default [] body) -> Reliable ->
  let text := html_text code (default [] body) in
  let head := response_head c code (zlen text) in
  zlen head <= spill_size (h_wsi c) + LWS_PRE + 4 -> 0 <= socket_write (h_wsi c) head <= zlen head ->
  exists c', lws_return_http_status fuel c code body = Some (c', 1) /\
    stream c' = stream c ++ head ++ (if socket_write (h_wsi c) head =? zlen head then text else []).
Proof.
  intros R F Rel. cbv zeta. destruct (status_writes fuel c code body R F) as [mem E]. cbv zeta in E.
  set (text := html_text code _) in *. set (head := response_head c code (zlen text)) in *. intros Hsp Hsock.
  assert (Hone : forall c' r, lws_return_http_status fuel c code body = Some (c', r) -> r = 1).
  { intros c' r. apply status_result; first [apply R | apply (hr_tx _ R) | apply F]. }
  pose proof F as [_ Hc Hh Hfit]. fold text in Hh, Hfit. fold head in Hh. pose proof (hr_max _ R). pose proof (ti_size _ (hr_tx _ R)).
  pose proof (html_length code (default [] body) ltac:(lia)) as Hl. fold text in Hl. assert (P : LWS_PRE = 16) by done.
  assert (Hpos : 0 < zlen head). { unfold head, response_head. rewrite zlen_app. change (zlen [13; 10]) with 2.
    pose proof (zlen_nonneg (parts_text (response_parts c code (zlen text)))). lia. }
  assert (Es : stream c = sent (h_wsi c)) by (unfold stream, pending; rewrite (hr_free _ R); apply app_nil_r).
  destruct (issue_all (h_wsi c) head Rel) as (w1 & E1 & I1 & S1 & _ & Q1); try apply R; [lia|].
  rewrite E1, Z.eqb_refl in E. cbn [negb] in E. destruct (_ =? _) eqn:Et; zbool.
  - assert (T : trunc_len (tx w1) = 0).
    { replace w1 with (lws_issue_raw (h_wsi c) (PUser head) (zlen head)).1 by (by rewrite E1).
      apply issue_taken; first [apply R | apply (hr_tx _ R) | done | lia]. }
    destruct (issue_all w1 text Rel I1) as (w2 & E2 & _ & _ & _ & Q2);
      [done|rewrite S1; apply R|lia|].
    rewrite E2 in E. eexists. split; [rewrite E; do 2 f_equal; by apply (Hone _ _ E)|].
    assert (Z1 : pending w1 = []) by (unfold pending; by rewrite T).
    rewrite Z1, app_nil_r in Q1. rewrite Es, app_assoc, <- Q1, <- Q2. unfold stream. by destruct c.
  - assert (T : trunc_len (tx w1) <> 0).
    { apply (issue_partly (h_wsi c) head w1 (zlen head)); first [apply R | apply (hr_tx _ R) | done | lia]. }
    destruct (issue_user_result w1 text (zlen text) (ti_noext _ I1) ltac:(lia)) as (_ & _ & Hno).
    rewrite (Hno T ltac:(lia)) in E. eexists. split; [rewrite E; do 2 f_equal; by apply (Hone _ _ E)|].
    rewrite app_nil_r, Es, <- Q1. transitivity (sent (emit EAssert w1) ++ pending (emit EAssert w1)); [by destruct c|].
    by rewrite sent_emit, app_nil_r.
Qed.

End Sending.
(** ** The client's side *)

Section Client.
Context {ctx : HttpCtx} {ctx_ok : HttpCtxOk ctx}.

Definition part_of (l : hline) : part := (l_name l, l_spaces l, l_value l).

(** A parser at the start of a response with the lines [xs]: each has a known name that
    is new to the table, and fits; none is an Upgrade. *)
Record Client (w : hdr) (ls : list hline) (xs : list part) : Prop := {
  cl_name : NameState w;
  cl_state : parser_state w = WSI_TOKEN_NAME_PART;
  cl_pos : lextable_pos w = 0;
  cl_ues : ues w = URIES_IDLE;
  cl_limit : is_Some (limit_of WSI_TOKEN_CHALLENGE);
  cl_lines : map part_of ls = xs;
  cl_ok : LinesOk w ls;
  cl_once : NoDup (map l_token ls);
  cl_upgrade : get_index (ah w) WSI_TOKEN_UPGRADE = Some 0;
  cl_no_upgrade : Forall (fun l => l_token l <> WSI_TOKEN_UPGRADE) ls
}.

Lemma set_once : NoDup set.
Proof. by apply (bool_decide_unpack _); vm_compute. Qed.

Lemma name_unique n m q : Name n q -> Name m q -> n = m.
Proof.
  intros [Hn E1]%name_lower [Hm E2]%name_lower. pose proof (NoDup_lookup _ _ _ _ set_once E1 E2). lia.
Qed.

Lemma lines_named ls : forall w l, LinesOk w ls -> l ∈ ls -> Name (l_token l) (l_name l).
Proof.
  induction ls as [|x ls IH]; intros w l Hok Hin; [by apply not_elem_of_nil in Hin|]. destruct Hok as [Hx Hok].
  apply elem_of_cons in Hin as [->|Hin]; [apply Hx|by apply (IH _ _ Hok)].
Qed.

(** The headers of the text [xs] and the empty line are read, and stored. *)
Lemma client_reads w ls xs r : Client w ls xs ->
  exists w', feed w (parts_text xs ++ [13; 10] ++ r) = Some (0, w', r) /\ parser_state w' = WSI_PARSING_COMPLETE /\
    forall n q k v, (q, k, v) ∈ xs -> Name n q -> Stored (ah w') n v.
Proof.
  intros [Hw Hps Hlp Hu Hlim <- Hok Hnd Hup Hno].
  assert (E : parts_text (map part_of ls) = concat (map text_of ls)) by (unfold parts_text; by rewrite map_map). rewrite E.
  destruct (feed_lines ls ([13; 10] ++ r) w Hw Hok) as [-> Hw']. destruct (after_lines_same ls w Hu Hps Hlp) as (Hu' & Hps' & Hlp').
  destruct (feed_plain_end (after_lines w ls) r) as (w' & Hf & Ha & Hc); try done; [by apply lines_missing|].
  exists w'. split_and!; [exact Hf|done|]. intros n q k v Hin Hq. apply list_elem_of_fmap in Hin as (l & El & Hl).
  injection El as -> -> ->. rewrite Ha, (name_unique _ _ _ Hq (lines_named ls w l Hok Hl)). by apply lines_stored.
Qed.

End Client.

(** ** The responses *)

(** The header for the length of a resource has the whole number, the members of the
    connection its low 32 bits. *)
Lemma content_length_header c len mem p e : 0 <= len < 2 ^ 64 -> 0 <= p <= e -> e <= zlen mem ->
  let s := line_text (bstr "content-length:") 1 (dec len) in
  exists r c' p' mem', lws_add_http_header_content_length c len mem p e = Some (r, c', p', mem') /\
    (r = 1 /\ c' = c /\ e <= p + zlen s + 1 \/
     r = 0 /\ p' = p + zlen s /\ mem' = splice (Z.to_nat p) s mem /\ p' <= e /\ digits 0 (dec len) = len /\
     content_length c' = len mod 2 ^ 32 /\ content_remain c' = len mod 2 ^ 32).
Proof.
  intros Hl Hp He. cbv zeta. unfold lws_add_http_header_content_length, sprintf. pose proof (dec_length 19 len ltac:(lia)) as Hd.
  rewrite (proj2 (Z.leb_le _ 24)) by lia. cbn [mbind option_bind].
  destruct (writer_token WSI_TOKEN_HTTP_CONTENT_LENGTH (bstr "content-length:") (dec len) eq_refl ltac:(done) mem p e Hp He)
    as [[-> Hf]|(t & -> & _ & _ & Hf)]; cbn [mbind option_bind].
  - change (nz 0) with false. cbv iota. do 4 eexists. split; [reflexivity|]. right. split_and!; try done; [apply dec_value; lia|..]; by destruct c.
  - change (nz 1) with true. cbv iota. do 4 eexists. split; [reflexivity|]. by left.
Qed.

(** C31: headers stay in the buffer. The functions that write a header, the status with all
    headers of the site, and the end of the headers write their text, in whole, or report an
    error; an error means that the buffer has no more room than for the text and one byte
    (with exactly so much, where the text would fit, the comparison in
    lws_add_http_header_by_name refuses it), what was written is a prefix of it, and in no
    case is a byte outside of [p..end) touched or the array for the status line too small. A
    token without a name is refused. *)
Theorem headers_in_bounds `{Site} c code n q v : SiteOk ->
  Writer (lws_add_http_header_status c code) (parts_text (status_parts c code)) /\
  Writer (lws_add_http_header_by_name (Some q) v (zlen v)) (line_text q 1 v) /\
  Writer lws_finalize_http_header [13; 10] /\
  match lws_token_to_string n with
  | Some name => Writer (lws_add_http_header_by_token n v (zlen v)) (line_text name 1 v)
  | None => forall mem p e, lws_add_http_header_by_token n v (zlen v) mem p e = Some (1, p, mem)
  end.
Proof.
  intros S. split_and!; [by apply writer_status|apply writer_named|apply writer_end|].
  unfold lws_add_http_header_by_token. destruct (lws_token_to_string n); [apply writer_named|done].
Qed.

Section Responses.
Context `{SocketOk} `{Site} {ctx : HttpCtx} {ctx_ok : HttpCtxOk ctx}.

(** C30: a status is understood, and what becomes of its text.  The answer to a
    request on a connection with nothing waiting, whose headers are at most 512 bytes
    and go to the socket in one call, and whose text fits behind them in serv_buf,
    while the network and the memory do not fail, is: the headers and the text when
    the socket takes the headers at once, and the headers alone (what was not taken is
    kept to be sent) when it takes only a part of them.  A parser that is fed with the
    answer, and has room for each header, reads the headers to the end, leaves
    exactly what follows them, and has stored the status under the name of the
    version, the headers of the vhost and a Content-Length that is the length of the
    text, sent or not. *)
Theorem response_understood fuel c code body w ls :
  let text := html_text code (default [] body) in
  let head := response_head c code (zlen text) in
  HttpReady c -> StatusFits c code (default [] body) -> Reliable ->
  zlen head <= spill_size (h_wsi c) + LWS_PRE + 4 -> 0 <= socket_write (h_wsi c) head <= zlen head ->
  Client w ls (response_parts c code (zlen text)) ->
  exists c' answer, lws_return_http_status fuel c code body = Some (c', 1) /\ stream c' = stream c ++ answer /\
    exists w', feed w answer =
        Some (0, w', if socket_write (h_wsi c) head =? zlen head then text else []) /\
      parser_state w' = WSI_PARSING_COMPLETE /\
      (exists v, Stored (ah w') WSI_TOKEN_HTTP_CONTENT_LENGTH v /\ digits 0 v = zlen text) /\
      (forall n, Name n (version_text c ++ [32]) ->
         Stored (ah w') n (dec (code .& LWSAHH_CODE_MASK) ++ [32] ++ description (code .& LWSAHH_CODE_MASK))) /\
      (forall name value n, (name, value) ∈ vh_headers -> Name n name -> Stored (ah w') n value).
Proof.
  intros text head R F Rel Hsp Hsock Cl.
  destruct (status_stream fuel c code body R F Rel) as (c' & E & Es); [done|done|].
  fold text head in Es. eexists c', _. split; [done|]. split; [exact Es|].
  set (rest := if _ =? _ then text else []).
  destruct (client_reads w ls _ rest Cl) as (w' & Hf & Hc & Hst). exists w'.
  split; [unfold head, response_head; by rewrite <- app_assoc|]. split; [done|]. split_and!.
  - exists (dec (zlen text)). split.
    + apply (Hst _ (bstr "content-length:") 1%nat); [unfold response_parts; set_solver|by apply name_lower].
    + apply dec_value. pose proof (sf_text _ _ _ F) as Ht. fold text in Ht. pose proof (hr_max _ R). pose proof (zlen_nonneg text).
      unfold LWS_PRE in *. lia.
  - intros n Hn. apply (Hst n (version_text c ++ [32]) 0%nat); [|done]. unfold response_parts, status_parts. cbn [app]. set_solver.
  - intros name value n Hin Hn. apply (Hst n name 1%nat); [|done]. unfold response_parts, status_parts, site_parts.
    cbn [app]. right. rewrite <- !app_assoc. apply elem_of_app. left. by apply (list_elem_of_fmap_2' _ _ (name, value)).
Qed.

(** What a status does not tell.  Whatever the socket and the buffers do,
    lws_return_http_status gives 1, the value that stands for a failure, also when
    everything was sent: it compares the result of the last write with the number of
    digits of the length.  And when the socket takes only a part of the headers, the
    rest of them is kept, but the text is refused by the writer and never sent, though
    the headers announce its length. *)
Lemma status_answer_gaps fuel c code body : 0 <= code -> count_act_ext (h_wsi c) = 0%nat ->
  state (h_wsi c) <> LWSS_ESTABLISHED -> zlen (serv_buf c) < 2 ^ 31 ->
  let text := html_text code (default [] body) in
  let head := response_head c code (zlen text) in
  (forall c' r, lws_return_http_status fuel c code body = Some (c', r) -> r = 1) /\
  (HttpReady c -> StatusFits c code (default [] body) -> Reliable ->
   zlen head <= spill_size (h_wsi c) + LWS_PRE + 4 -> 0 <= socket_write (h_wsi c) head < zlen head ->
   exists c', lws_return_http_status fuel c code body = Some (c', 1) /\ stream c' = stream c ++ head).
Proof.
  intros Hc Hx Hst Hm. cbv zeta. split; [intros c' r; by apply status_result|]. intros R F Rel Hsp Hsock.
  destruct (status_stream fuel c code body R F Rel) as (c' & E & Es); [done|lia|].
  exists c'. split; [done|]. by rewrite (proj2 (Z.eqb_neq _ _)), app_nil_r in Es by lia.
Qed.

(** ** Redirects *)

Definition redirect_parts (c : http_conn) (code : Z) (loc : bytes) : list part :=
  status_parts c (u32 code) ++ [(bstr "location:", 1%nat, loc); (bstr "content-type:", 1%nat, bstr "text/html");
    (bstr "content-length:", 1%nat, bstr "0")].

Lemma writer_redirect c code loc : SiteOk -> Writer
  (lws_add_http_header_status c (u32 code) ;;;
   lws_add_http_header_by_token WSI_TOKEN_HTTP_LOCATION loc (zlen loc) ;;;
   lws_add_http_header_by_token WSI_TOKEN_HTTP_CONTENT_TYPE (bstr "text/html") 9 ;;;
   lws_add_http_header_by_token WSI_TOKEN_HTTP_CONTENT_LENGTH (bstr "0") 1 ;;;
   lws_finalize_http_header) (parts_text (redirect_parts c code loc) ++ [13; 10]).
Proof.
  intros S. unfold redirect_parts. rewrite parts_text_app. unfold parts_text at 2. cbn [map concat part_text].
  rewrite app_nil_r, <- !app_assoc. apply writer_seq; [by apply writer_status|].
  apply writer_seq; [by apply writer_token|].
  apply writer_seq; [by apply (writer_token WSI_TOKEN_HTTP_CONTENT_TYPE _ (bstr "text/html"))|].
  apply writer_seq; [by apply (writer_token WSI_TOKEN_HTTP_CONTENT_LENGTH _ (bstr "0"))|apply writer_end].
Qed.

(** A redirect is understood.  With room for it in the caller's buffer, a redirect is
    sent or kept to be sent, its length is returned, and a parser that is fed with it
    reads it to the end, leaves nothing and has stored the location; without room
    the result is -1 and nothing is sent. *)
Lemma redirect_understood fuel c code loc mem p e w ls :
  let xs := redirect_parts c code loc in
  let text := parts_text xs ++ [13; 10] in
  HttpReady c -> SiteOk -> Reliable -> Client w ls xs -> LWS_PRE <= p <= e -> e <= zlen mem < 2 ^ 31 ->
  exists c' n p' mem', lws_http_redirect fuel c code loc (zlen loc) mem p e = Some (c', n, p', mem') /\
    (e <= p + zlen text + 1 /\ n = -1 /\ c' = c \/
     n = zlen text /\ stream c' = stream c ++ text /\
     exists w', feed w text = Some (0, w', []) /\ parser_state w' = WSI_PARSING_COMPLETE /\
       Stored (ah w') WSI_TOKEN_HTTP_LOCATION loc).
Proof.
  intros xs text R S Rel Cl Hp Hm. unfold lws_http_redirect. assert (P : LWS_PRE = 16) by done.
  destruct (writer_redirect c code loc S mem p e) as [[-> He]|(t & -> & _ & _ & Hf)]; [lia|lia| |].
  2: { cbn [mbind option_bind]. change (nz 1) with true. cbv iota. do 4 eexists. split; [reflexivity|]. by left. }
  fold xs text in He |- *. cbn [mbind option_bind]. change (nz 0) with false. cbv iota. pose proof (zlen_nonneg text).
  replace (p + zlen text - p) with (zlen text) by lia.
  assert (Hx : count_act_ext (h_wsi c) = 0%nat) by apply (hr_tx _ R).
  rewrite (write_at_eq fuel c _ p text) by (done || apply R || lia || (apply at_splice; lia)).
  destruct (issue_all (h_wsi c) text Rel) as (w1 & E1 & _ & _ & _ & Q1); try apply R; [lia|].
  rewrite E1. cbn [mbind option_bind]. do 4 eexists. split; [reflexivity|]. right. split; [done|]. split.
  - unfold stream, pending. rewrite (hr_free _ R). cbn [Z.to_nat take]. rewrite app_nil_r, <- Q1. by destruct c.
  - destruct (client_reads w ls xs [] Cl) as (w' & Hf & Hc & Hst). rewrite app_nil_r in Hf. exists w'. split_and!; [done..|].
    apply (Hst _ (bstr "location:") 1%nat); [unfold xs, redirect_parts; set_solver|by apply name_lower].
Qed.

End Responses.

(** ** A concrete site *)

#[local] Existing Instances demo_env WsTxProps.demo_socket demo_ctx_ok.

#[local] Instance demo_site : Site := {|
  vh_headers := [(bstr "Cache-Control:", bstr "no-store")]; vh_options := 0; server_string := Some (bstr "lws")
|}.

Definition demo_http : http_conn :=
  mkHttp ((demo_wsi 512) {{ state := LWSS_HTTP; mode := LWSCM_HTTP_SERVING; pt_serv_buf_size := 1024 }}) (replicate 1024 7) 1 0 0.

Definition status_lines : list hline :=
  [mkLine 15 200 (bstr "HTTP/1.1 ") 0 (bstr "404 Not Found"); mkLine 24 200 (bstr "Cache-Control:") 1 (bstr "no-store");
   mkLine 65 200 (bstr "server:") 1 (bstr "lws"); mkLine 28 200 (bstr "content-type:") 1 (bstr "text/html");
   mkLine 27 200 (bstr "content-length:") 1 (bstr "42")].

Definition redirect_lines : list hline :=
  [mkLine 15 200 (bstr "HTTP/1.1 ") 0 (bstr "301 Redirect"); mkLine 24 200 (bstr "Cache-Control:") 1 (bstr "no-store");
   mkLine 65 200 (bstr "server:") 1 (bstr "lws"); mkLine 59 200 (bstr "location:") 1 (bstr "/b");
   mkLine 28 200 (bstr "content-type:") 1 (bstr "text/html"); mkLine 27 200 (bstr "content-length:") 1 (bstr "0")].

Lemma demo_name : NameState (ctx := demo_ctx) demo_w.
Proof.
  destruct (request_start_inv (ctx := demo_ctx) demo_w demo_start) as [Hv|Hn]; [|exact Hn].
  destruct (vs_token _ Hv) as [_ Ht]. vm_compute in Ht. done.
Qed.

Ltac demo_client :=
  constructor; [apply demo_name|done|done|done|by eexists|vm_compute; reflexivity| |
    |done|repeat (apply Forall_cons; split; [discriminate|]); apply Forall_nil; done];
  [cbn [LinesOk l_token l_limit l_name l_value]; repeat (split; [
     constructor; try (vm_compute; reflexivity); try discriminate; try apply bstr_u8;
     [apply name_lower; split; [lia|vm_compute; reflexivity]|repeat (apply Forall_cons; split; [done|]); apply Forall_nil; done]|]); exact I
  |apply (bool_decide_eq_true_1 (NoDup _)); vm_compute; reflexivity].

Lemma demo_status_client : Client (ctx := demo_ctx) demo_w status_lines (response_parts demo_http 404 42).
Proof. unfold status_lines. demo_client. Qed.

Lemma demo_redirect_client : Client (ctx := demo_ctx) demo_w redirect_lines (redirect_parts demo_http 301 (bstr "/b")).
Proof. unfold redirect_lines. demo_client. Qed.

Lemma demo_reliable : Reliable.
Proof. split; [|done]. intros w b. cbn. pose proof (zlen_nonneg b). unfold LWS_SSL_CAPABLE_ERROR. lia. Qed.

Lemma demo_http_ready : HttpReady demo_http.
Proof. constructor; try done; vm_compute; done. Qed.

Lemma demo_fits : StatusFits demo_http 404 (bstr "gone").
Proof. constructor; [by constructor|lia|by vm_compute|by vm_compute]. Qed.

Lemma headers_in_bounds_witness :
  Writer (lws_add_http_header_status demo_http 404)
    (bstr "HTTP/1.1 404 Not Found" ++ crlf ++ bstr "Cache-Control: no-store" ++ crlf ++ bstr "server: lws" ++ crlf).
Proof. exact (proj1 (headers_in_bounds demo_http 404 0 [] [] ltac:(by constructor))). Defined.

Lemma demo_version : Name WSI_TOKEN_HTTP (version_text demo_http ++ [32]).
Proof. apply name_lower. split; [unfold WSI_TOKEN_HTTP; lia|vm_compute; reflexivity]. Qed.

Lemma response_understood_witness : exists c' answer,
  lws_return_http_status 1 demo_http 404 (Some (bstr "gone")) = Some (c', 1) /\ stream c' = answer /\
  exists w', feed (ctx := demo_ctx) demo_w answer = Some (0, w', bstr "<html><body><h1>404</h1>gone</body></html>") /\
    Stored (ctx := demo_ctx) (ah w') WSI_TOKEN_HTTP (bstr "404 Not Found").
Proof.
  destruct (response_understood (ctx := demo_ctx) 1 demo_http 404 (Some (bstr "gone")) demo_w status_lines
    demo_http_ready demo_fits demo_reliable ltac:(by vm_compute) ltac:(by vm_compute) demo_status_client)
    as (c' & answer & E & Es & w' & Hf & _ & _ & Hst & _).
  exists c', answer. split; [exact E|]. split; [exact Es|]. exists w'. split; [exact Hf|].
  exact (Hst _ demo_version).
Defined.

Lemma redirect_understood_witness : exists c' n p' mem',
  lws_http_redirect 1 demo_http 301 (bstr "/b") 2 (replicate 512 0) 16 512 = Some (c', n, p', mem') /\ n = 121 /\
  exists w', feed (ctx := demo_ctx) demo_w (stream c') = Some (0, w', []) /\
    Stored (ctx := demo_ctx) (ah w') WSI_TOKEN_HTTP_LOCATION (bstr "/b").
Proof.
  destruct (redirect_understood (ctx := demo_ctx) 1 demo_http 301 (bstr "/b") (replicate 512 0) 16 512 demo_w redirect_lines
    demo_http_ready ltac:(by constructor) demo_reliable demo_redirect_client ltac:(done) ltac:(by vm_compute))
    as (c' & n & p' & mem' & E & Hr).
  exists c', n, p', mem'. split; [exact E|]. destruct Hr as [(Hr & _)|(-> & Hs & w' & Hf & _ & Hst)]; [vm_compute in Hr; by destruct Hr|].
  split; [vm_compute; reflexivity|]. exists w'. split; [|exact Hst]. rewrite Hs. exact Hf.
Defined.

(** A socket that takes five bytes at a time. *)
Definition slow_env : LwsEnv := {|
  lp64 := true; has_callback := true; protocol_callback w _ _ := (w, 0); ext_callback _ w _ t := (w, t, 0);
  change_pollfd _ _ _ := 0; socket_write _ b := Z.min 5 (zlen b); random4 _ := None; malloc_ok _ _ := true;
  send_pipe_choked _ := false; now_secs _ := 0
|}.

Lemma slow_socket : SocketOk (H := slow_env).
Proof. constructor. intros w b. right. right. cbn. pose proof (zlen_nonneg b). lia. Qed.

Lemma status_answer_gaps_witness : exists c',
  lws_return_http_status (H := slow_env) 1 demo_http 404 (Some (bstr "gone")) = Some (c', 1) /\
  stream c' = bstr "HTTP/1.1 404 Not Found" ++ crlf ++ bstr "Cache-Control: no-store" ++ crlf ++ bstr "server: lws" ++ crlf ++
    bstr "content-type: text/html" ++ crlf ++ bstr "content-length: 42" ++ crlf ++ crlf.
Proof.
  destruct (status_answer_gaps (H := slow_env) (H0 := slow_socket) 1 demo_http 404 (Some (bstr "gone"))) as [_ Hl];
    try done; try (vm_compute; reflexivity).
  apply Hl; [apply demo_http_ready|apply demo_fits| |by vm_compute|by vm_compute].
  split; [|done]. intros w b. cbn. pose proof (zlen_nonneg b). unfold LWS_SSL_CAPABLE_ERROR. lia.
Defined.

(** ** A status that spoils its own buffer *)

Definition long_site (n : nat) : Site := {|
  vh_headers := [(bstr "Cache-Control:", replicate n 120)]; vh_options := 0; server_string := None
|}.

Definition answer_with (n : nat) (body : bytes) : option bytes :=
  '(c, _) ← lws_return_http_status (H0 := long_site n) 1 demo_http 404 (Some body); Some (stream c).

(** The text is written to the buffer first, 512 bytes behind the headers, and without
    a check of its length: headers of more than 512 bytes overwrite its start, and a long
    text leaves the buffer. *)
Lemma status_overruns :
  (drop 512 <$> answer_with 424 []) = Some (bstr "<html><body><h1>404</h1></body></html>") /\
  (drop 513 <$> answer_with 425 []) = Some ([10] ++ bstr "html><body><h1>404</h1></body></html>") /\
  answer_with 0 (replicate 460 120) = None.
Proof. vm_compute. split_and!; reflexivity. Qed.

End HttpOutProps.
