(* ===== verification/PollFds.v ===== *)
(** * The poll table (lib/pollfd.c, lib/lws-plat-win.c)

    The sockets of a service thread are in the array [fds]; a connection knows its
    index, and the slot of one that is removed is filled with the last one.  A
    table of FD_HASHTABLE_MODULUS buckets leads from a socket to its connection.  The
    connections of a protocol are on a list with pointers in both directions, the
    backward one to the place that points to the connection.

    Pointers to connections are keys of [wsis]; the members for the lists are in a map
    of their own, [links].  [None] stands for an access to a freed connection, an index
    out of range, a failed assert and a walk that does not end.  There is one service
    thread; libev, libuv and HTTP/2 are compiled out. *)

From stdpp Require Import gmap.
From S2P Require Import Prelude Ws.

Module PollFds.

(** ** Data *)

Definition FD_HASHTABLE_MODULUS : Z := 32.
Definition LWS_SOCK_INVALID : Z := 2 ^ 64 - 1.
(** The events of Winsock *)
Definition LWS_POLLIN : Z := 9.         (* FD_READ | FD_ACCEPT *)
Definition LWS_POLLOUT : Z := 2.        (* FD_WRITE *)
Definition LWS_POLLHUP : Z := 32.       (* FD_CLOSE *)
Definition FD_CONNECT : Z := 16.

Definition LWS_CALLBACK_ADD_POLL_FD : Z := 32.
Definition LWS_CALLBACK_DEL_POLL_FD : Z := 33.
Definition LWS_CALLBACK_CHANGE_MODE_POLL_FD : Z := 34.
Definition LWS_CALLBACK_LOCK_POLL : Z := 35.
Definition LWS_CALLBACK_UNLOCK_POLL : Z := 36.
Definition LWS_CALLBACK_GET_THREAD_ID : Z := 31.

(** struct lws_pollfd *)
Record pollfd := mkPollfd { pf_fd : Z; pf_events : Z; pf_revents : Z }.

(** struct lws *)
Record pwsi := mkPwsi {
  sockfd : Z;
  position_in_fds_table : Z;
  protocol : option nat;               (* index in the protocols of the vhost *)
  in_shutdown : bool;                  (* state == LWSS_SHUTDOWN *)
  unusable : bool                      (* socket_is_permanently_unusable *)
}.

(** A place that holds a pointer to a connection of a list: the list itself or the next
    pointer of a connection. *)
Inductive place := PHead (k : nat) | PNext (id : nat).

#[export] Instance place_eq_dec : EqDecision place.
Proof. solve_decision. Defined.

Record plink := mkLink { same_vh_protocol_prev : option place; same_vh_protocol_next : option nat }.

(** struct lws_fd_hashtable *)
Record bucket := mkBucket { b_wsi : list (option nat); b_length : Z }.

(** The context, its thread and its vhost. *)
Record poll_ctx := mkPoll {
  fds : list pollfd;
  fds_count : Z;
  pt_events : list Z;                  (* events[]: handles of the system *)
  count_conns : Z;
  fd_hashtable : list bucket;
  service_tid : Z;
  wsis : gmap nat pwsi;
  links : gmap nat plink;
  same_vh_protocol_list : list (option nat)
}.

(** The callback of the first protocol, the extensions' answer to a request for
    writability, WSAEventSelect, and the sizes the context was created with. *)
Class PollEnv := {
  poll_callback : poll_ctx -> nat -> Z -> Z;
  ext_request : poll_ctx -> nat -> Z;
  event_select : poll_ctx -> Z -> Z -> bool;
  fd_limit_per_thread : Z;
  max_fds : Z                          (* getdtablesize() *)
}.

(** ** Pointers *)

Definition upd_wsi (t : poll_ctx) (id : nat) (f : pwsi -> pwsi) : option poll_ctx :=
  w ← wsis t !! id; Some (t {{ wsis ::= <[id := f w]> }}).

Definition upd_link (t : poll_ctx) (id : nat) (f : plink -> plink) : option poll_ctx :=
  l ← links t !! id; Some (t {{ links ::= <[id := f l]> }}).

Definition get_place (t : poll_ctx) (p : place) : option (option nat) :=
  match p with
  | PHead k => same_vh_protocol_list t !! k
  | PNext id => same_vh_protocol_next <$> links t !! id
  end.

Definition set_place (t : poll_ctx) (p : place) (v : option nat) : option poll_ctx :=
  match p with
  | PHead k => _ ← same_vh_protocol_list t !! k; Some (t {{ same_vh_protocol_list ::= <[k := v]> }})
  | PNext id => upd_link t id (fun l => l {{ same_vh_protocol_next := v }})
  end.

(** Access to an array of the context by an [int]. *)
Definition aget {A} (l : list A) (i : Z) : option A := if i <? 0 then None else l !! Z.to_nat i.

Definition aset {A} (l : list A) (i : Z) (x : A) : option (list A) :=
  _ ← aget l i; Some (<[Z.to_nat i := x]> l).

Definition assert (b : bool) : option unit := if b then Some tt else None.

(** ** The hash table *)

Definition LWS_FD_HASH (fd : Z) : Z := Z.lxor (Z.lxor fd (fd .>> 8)) (fd .>> 16) mod FD_HASHTABLE_MODULUS.

(** The index from [n] on at which a bucket has [fd]. *)
Fixpoint find_fd (t : poll_ctx) (b : bucket) (fd : Z) (rounds : nat) (n : Z) : option (option Z) :=
  match rounds with
  | O => Some None
  | S rounds =>
      id ← mjoin (aget (b_wsi b) n);
      w ← wsis t !! id;
      if sockfd w =? fd then Some (Some n) else find_fd t b fd rounds (n + 1)
  end.

Definition wsi_from_fd (t : poll_ctx) (fd : Z) : option (option nat) :=
  b ← aget (fd_hashtable t) (LWS_FD_HASH fd);
  n ← find_fd t b fd (Z.to_nat (b_length b)) 0;
  match n with
  | Some n => id ← mjoin (aget (b_wsi b) n); Some (Some id)
  | None => Some None
  end.

(** [while (n < length) { wsi[n] = wsi[n + 1]; n++; }] *)
Fixpoint shift_down (rounds : nat) (l : list (option nat)) (n : Z) : option (list (option nat)) :=
  match rounds with
  | O => Some l
  | S rounds => x ← aget l (n + 1); l ← aset l n x; shift_down rounds l (n + 1)
  end.

Definition delete_from_fd (t : poll_ctx) (fd : Z) : option (poll_ctx * Z) :=
  let h := LWS_FD_HASH fd in
  b ← aget (fd_hashtable t) h;
  n ← find_fd t b fd (Z.to_nat (b_length b)) 0;
  match n with
  | Some n =>
      l ← shift_down (Z.to_nat (b_length b - n)) (b_wsi b) n;
      tab ← aset (fd_hashtable t) h (mkBucket l (b_length b - 1));
      Some (t {{ fd_hashtable := tab }}, 0)
  | None => Some (t, 1)
  end.

Section Poll.
Context `{PollEnv}.

Definition insert_wsi (t : poll_ctx) (id : nat) : option (poll_ctx * Z) :=
  w ← wsis t !! id;
  let h := LWS_FD_HASH (sockfd w) in
  b ← aget (fd_hashtable t) h;
  if b_length b =? max_fds - 1 then Some (t, 1) else
  l ← aset (b_wsi b) (b_length b) (Some id);
  tab ← aset (fd_hashtable t) h (mkBucket l (b_length b + 1));
  Some (t {{ fd_hashtable := tab }}, 0).

(** ** The platform's part of the array *)

Definition lws_plat_insert_socket_into_fds (t : poll_ctx) : option poll_ctx :=
  pf ← aget (fds t) (fds_count t);
  a ← aset (fds t) (fds_count t) (pf {{ pf_revents := 0 }});
  e0 ← aget (pt_events t) 0;
  e ← aset (pt_events t) (fds_count t + 1) e0;
  Some (t {{ fds := a; fds_count := fds_count t + 1; pt_events := e }}).

Definition lws_plat_delete_socket_from_fds (t : poll_ctx) (m : Z) : option poll_ctx :=
  x ← aget (pt_events t) (fds_count t);
  e ← aset (pt_events t) (m + 1) x;
  Some (t {{ pt_events := e; fds_count := fds_count t - 1 }}).

Definition lws_plat_change_pollfd (t : poll_ctx) (id : nat) (pf : pollfd) : option Z :=
  w ← wsis t !! id;
  let ev := LWS_POLLHUP .| FD_CONNECT in
  let ev := if nz (pf_events pf .& LWS_POLLIN) then ev .| LWS_POLLIN else ev in
  let ev := if nz (pf_events pf .& LWS_POLLOUT) then ev .| LWS_POLLOUT else ev in
  Some (if event_select t (sockfd w) ev then 0 else 1).

(** ** pollfd.c *)

Definition _lws_change_pollfd (t : poll_ctx) (id : nat) (_and _or : Z) : option (poll_ctx * Z) :=
  w ← wsis t !! id;
  let n := position_in_fds_table w in
  if n <? 0 then Some (t, 0) else
  _ ← assert (n <? fds_count t);
  pf ← aget (fds t) n;
  let e := (pf_events pf .& Z.lnot _and) .| _or in
  a ← aset (fds t) n (pf {{ pf_events := e }});
  let prev := pf_events pf in
  let t := t {{ fds := a }} in
  if nz (poll_callback t id LWS_CALLBACK_CHANGE_MODE_POLL_FD) then Some (t, -1) else
  if prev =? e then Some (t, 0) else
  r ← lws_plat_change_pollfd t id (pf {{ pf_events := e }});
  if nz r then Some (t, -1) else
  if nz (service_tid t) && (poll_callback t id LWS_CALLBACK_GET_THREAD_ID =? -1) then Some (t, -1)
  else Some (t, 0).

Definition insert_wsi_socket_into_fds (t : poll_ctx) (id : nat) : option (poll_ctx * Z) :=
  if u32 (fds_count t) >=? fd_limit_per_thread then Some (t, 1) else
  w ← wsis t !! id;
  _ ← assert (negb (sockfd w =? LWS_SOCK_INVALID));
  if nz (poll_callback t id LWS_CALLBACK_LOCK_POLL) then Some (t, -1) else
  let t := t {{ count_conns ::= (fun n => n + 1) }} in
  '(t, _) ← insert_wsi t id;
  let n := fds_count t in
  t ← upd_wsi t id (fun w => w {{ position_in_fds_table := n }});
  pf ← aget (fds t) n;
  a ← aset (fds t) n (pf {{ pf_fd := sockfd w; pf_events := LWS_POLLIN }});
  t ← lws_plat_insert_socket_into_fds (t {{ fds := a }});
  let ret := if nz (poll_callback t id LWS_CALLBACK_ADD_POLL_FD) then -1 else 0 in
  let ret := if nz (poll_callback t id LWS_CALLBACK_UNLOCK_POLL) then -1 else ret in
  Some (t, ret).

(** Off the list of the protocol. *)
Definition leave_protocol (t : poll_ctx) (id : nat) : option poll_ctx :=
  l ← links t !! id;
  t ← match same_vh_protocol_prev l with
      | Some p => x ← get_place t p; _ ← assert (bool_decide (x = Some id)); set_place t p (same_vh_protocol_next l)
      | None => Some t
      end;
  t ← match same_vh_protocol_next l with
      | Some x => upd_link t x (fun n => n {{ same_vh_protocol_prev := same_vh_protocol_prev l }})
      | None => Some t
      end;
  upd_link t id (fun _ => mkLink None None).

Definition remove_wsi_socket_from_fds (t : poll_ctx) (id : nat) : option (poll_ctx * Z) :=
  w ← wsis t !! id;
  if nz (poll_callback t id LWS_CALLBACK_LOCK_POLL) then Some (t, -1) else
  t ← leave_protocol t id;
  let m := position_in_fds_table w in
  last ← aget (fds t) (fds_count t - 1);
  a ← aset (fds t) m last;
  t ← lws_plat_delete_socket_from_fds (t {{ fds := a }}) m;
  pf ← aget (fds t) m;
  let v := s32 (pf_fd pf) in
  end_wsi ← wsi_from_fd t (u64 v);
  e ← end_wsi;                            (* assert(0) when there is none *)
  t ← upd_wsi t e (fun w => w {{ position_in_fds_table := m }});
  '(t, _) ← delete_from_fd t (sockfd w);
  t ← upd_wsi t id (fun w => w {{ position_in_fds_table := -1 }});
  let ret := if negb (sockfd w =? LWS_SOCK_INVALID) && nz (poll_callback t id LWS_CALLBACK_DEL_POLL_FD) then -1 else 0 in
  let ret := if nz (poll_callback t id LWS_CALLBACK_UNLOCK_POLL) then -1 else ret in
  Some (t, ret).

Definition lws_change_pollfd (t : poll_ctx) (id : nat) (_and _or : Z) : option (poll_ctx * Z) :=
  w ← wsis t !! id;
  if bool_decide (protocol w = None) || (position_in_fds_table w <? 0) then Some (t, 1) else
  if nz (poll_callback t id LWS_CALLBACK_LOCK_POLL) then Some (t, -1) else
  '(t, ret) ← _lws_change_pollfd t id _and _or;
  Some (t, if nz (poll_callback t id LWS_CALLBACK_UNLOCK_POLL) then -1 else ret).

Definition lws_callback_on_writable (t : poll_ctx) (id : nat) : option (poll_ctx * Z) :=
  w ← wsis t !! id;
  if in_shutdown w then Some (t, 0) else
  if unusable w then Some (t, 0) else
  if nz (ext_request t id) then Some (t, 1) else
  if position_in_fds_table w <? 0 then Some (t, -1) else
  '(t, ret) ← lws_change_pollfd t id 0 LWS_POLLOUT;
  Some (t, if nz ret then -1 else 1).

(** The walk over the connections of protocol [k], with the asserts. *)
Fixpoint writable_walk (rounds : nat) (t : poll_ctx) (k : nat) (o : option nat) : option poll_ctx :=
  match o with
  | None => Some t
  | Some id =>
      match rounds with
      | O => None
      | S rounds =>
          w ← wsis t !! id;
          _ ← assert (bool_decide (protocol w = Some k));
          l ← links t !! id;
          p ← same_vh_protocol_prev l;
          x ← get_place t p;
          _ ← assert (bool_decide (x = Some id));
          _ ← match same_vh_protocol_next l with
              | Some nx => ln ← links t !! nx; assert (bool_decide (same_vh_protocol_prev ln = Some (PNext id)))
              | None => Some tt
              end;
          '(t, _) ← lws_callback_on_writable t id;
          l ← links t !! id;
          writable_walk rounds t k (same_vh_protocol_next l)
      end
  end.

Definition lws_callback_on_writable_all_protocol_vhost (t : poll_ctx) (k : nat) : option (poll_ctx * Z) :=
  if (length (same_vh_protocol_list t) <=? k)%nat then Some (t, -1) else
  head ← same_vh_protocol_list t !! k;
  t ← writable_walk (size (links t)) t k head;
  Some (t, 0).

(** ** server.c *)

(** lws_get_idlest_tsi for one thread: whether there is room. *)
Definition lws_get_idlest_tsi (t : poll_ctx) : Z :=
  if negb (u32 (fds_count t) =? u32 (fd_limit_per_thread - 1)) && (u32 (fds_count t) <? 2 ^ 32 - 1) then 0 else -1.

(** A new connection, zeroed. *)
Definition lws_create_new_server_wsi (t : poll_ctx) (id : nat) : option poll_ctx :=
  if lws_get_idlest_tsi t <? 0 then None
  else Some (t {{ wsis ::= <[id := mkPwsi LWS_SOCK_INVALID 0 (Some 0%nat) false false]>;
                  links ::= <[id := mkLink None None]> }}).

(** A socket is adopted: [inl] when there is no room for a connection. *)
Definition adopt_socket (t : poll_ctx) (id : nat) (fd : Z) : option (unit + poll_ctx * Z) :=
  match lws_create_new_server_wsi t id with
  | None => Some (inl tt)
  | Some t =>
      t ← upd_wsi t id (fun w => w {{ sockfd := fd }});
      r ← insert_wsi_socket_into_fds t id;
      Some (inr r)
  end.

(** The connection has got its protocol and goes to the front of the list [n]. *)
Definition join_protocol (t : poll_ctx) (id prot n : nat) : option poll_ctx :=
  head ← same_vh_protocol_list t !! n;
  t ← upd_wsi t id (fun w => w {{ protocol := Some prot }});
  t ← upd_link t id (fun _ => mkLink (Some (PHead n)) head);
  t ← set_place t (PHead n) (Some id);
  match head with
  | Some x => upd_link t x (fun l => l {{ same_vh_protocol_prev := Some (PNext id) }})
  | None => Some t
  end.

(** The state of a connection changes; the last steps of freeing it. *)
Definition mark (t : poll_ctx) (id : nat) (sh un : bool) : option poll_ctx :=
  upd_wsi t id (fun w => w {{ in_shutdown := sh; unusable := un }}).

Definition forget (t : poll_ctx) (id : nat) : poll_ctx := t {{ wsis ::= delete id; links ::= delete id }}.

End Poll.
End PollFds.
