(* ===== verification/PollLists.v ===== *)
(** * The lists of the connections of a protocol

    [Chains t gs]: the pointers of the connections are those of the lists [gs], one for
    each protocol of the vhost.  Taking a connection off its list and putting it at the
    front of one give the lists without and with it. *)

From stdpp Require Import gmap.
From S2P Require Import Prelude Ws PollFds.

Module PollLists.
Export PollFds.

(** What a place points to, and the backward pointer of a connection. *)
Definition val (t : poll_ctx) (p : place) : option (option nat) := get_place t p.
Definition prv (t : poll_ctx) (x : nat) : option (option place) := same_vh_protocol_prev <$> links t !! x.

(** The places that point to the members of a list, and the last one. *)
Definition places (k : nat) (g : list nat) : list place := PHead k :: (PNext <$> g).

Record Chains (t : poll_ctx) (gs : list (list nat)) : Prop := {
  ch_len : length (same_vh_protocol_list t) = length gs;
  ch_val : forall k g i p, gs !! k = Some g -> places k g !! i = Some p -> val t p = Some (g !! i);
  ch_prv : forall k g i x, gs !! k = Some g -> g !! i = Some x -> prv t x = Some (places k g !! i);
  ch_one : forall k k' g g' i i' x, gs !! k = Some g -> gs !! k' = Some g' -> g !! i = Some x -> g' !! i' = Some x -> k = k' /\ i = i';
  ch_free : forall x, prv t x = Some None -> val t (PNext x) = Some None;
  ch_in : forall x p, prv t x = Some (Some p) -> exists k g i, gs !! k = Some g /\ g !! i = Some x
}.

(** Only the pointers matter. *)
Lemma chains_ext t t' gs : links t' = links t -> same_vh_protocol_list t' = same_vh_protocol_list t -> Chains t gs -> Chains t' gs.
Proof.
  intros E1 E2 []. constructor; unfold val, prv, get_place in *; rewrite ?E1, ?E2; auto.
Qed.

Lemma places_next k g i x : g !! i = Some x -> places k g !! S i = Some (PNext x).
Proof. intros E. change (places k g !! S i) with ((PNext <$> g) !! i). by rewrite list_lookup_fmap, E. Qed.

Lemma places_inv k g i p : places k g !! i = Some p -> (i = 0%nat /\ p = PHead k) \/ exists j x, i = S j /\ g !! j = Some x /\ p = PNext x.
Proof.
  destruct i as [|i]; [intros [= <-]; by left|]. change (places k g !! S i) with ((PNext <$> g) !! i). rewrite list_lookup_fmap. intros E. right.
  destruct (g !! i) as [x|] eqn:Ex; [|done]. injection E as <-. by exists i, x.
Qed.

Lemma places_delete k g i : (i < length g)%nat -> places k (delete i g) = delete (S i) (places k g).
Proof. intros Hi. unfold places. rewrite list_fmap_delete. done. Qed.

Section Chain.
Context (t : poll_ctx) (gs : list (list nat)) (C : Chains t gs).

(** Different places of the lists are different. *)
Lemma place_once k k' g g' i i' p : gs !! k = Some g -> gs !! k' = Some g' ->
  places k g !! i = Some p -> places k' g' !! i' = Some p -> k = k' /\ i = i'.
Proof.
  intros Hk Hk' Hp Hp'. apply places_inv in Hp as [[-> ->]|(j & x & -> & Hx & ->)];
    apply places_inv in Hp' as [[-> E]|(j' & x' & -> & Hx' & E)]; simplify_eq; [done|].
  destruct (ch_one _ _ C k k' g g' j j' x' Hk Hk' Hx Hx') as [-> ->]. done.
Qed.

Lemma member_link k g i x : gs !! k = Some g -> g !! i = Some x ->
  exists p, places k g !! i = Some p /\ links t !! x = Some (mkLink (Some p) (g !! S i)) /\ val t p = Some (Some x).
Proof.
  intros Hk Hx. assert (Hi : (i < length (places k g))%nat) by (apply lookup_lt_Some in Hx; unfold places; rewrite length_cons, length_fmap; lia).
  apply lookup_lt_is_Some in Hi as [p Hp]. exists p. split; [done|].
  pose proof (ch_prv _ _ C k g i x Hk Hx) as H1. pose proof (ch_val _ _ C k g (S i) (PNext x) Hk (places_next k g i x Hx)) as H2.
  pose proof (ch_val _ _ C k g i p Hk Hp) as H3. rewrite Hx in H3. rewrite Hp in H1. unfold prv, val, get_place in H1, H2.
  destruct (links t !! x) as [[a b]|]; [|done]. cbn in *. split; [congruence|done].
Qed.

End Chain.
(** ** What the updates of pointers change *)

(** Everything but the pointers is the same. *)
Definition same_table (t t' : poll_ctx) : Prop :=
  t' = t {{ links := links t'; same_vh_protocol_list := same_vh_protocol_list t' }} /\
  length (same_vh_protocol_list t') = length (same_vh_protocol_list t) /\ dom (links t') = dom (links t).

#[export] Instance same_table_preorder : PreOrder same_table.
Proof.
  split; [intros []; done|]. intros x y z (E1 & L1 & D1) (E2 & L2 & D2). split; [|split; congruence].
  rewrite E2. rewrite E1 at 1. by destruct x.
Qed.

(** [q] is the place that was written. *)
Record Sets (t t' : poll_ctx) (f : place -> option (option nat)) (h : nat -> option (option place)) : Prop := {
  st_same : same_table t t';
  st_val : forall q, val t' q = f q;
  st_prv : forall x, prv t' x = h x
}.

Lemma upd_link_sets t x u : links t !! x = Some u -> forall (f : plink -> plink),
  exists t', upd_link t x f = Some t' /\
    Sets t t' (fun q => if decide (q = PNext x) then Some (same_vh_protocol_next (f u)) else val t q)
              (fun y => if decide (y = x) then Some (same_vh_protocol_prev (f u)) else prv t y).
Proof.
  intros Hx f. unfold upd_link. rewrite Hx. cbn [mbind option_bind]. eexists. split; [reflexivity|]. split.
  - split; [by destruct t|]. split; [by destruct t|]. destruct t. rcbn_all. apply elem_of_dom_2 in Hx. set_solver.
  - intros [k|y]; cbn [val get_place]; [rewrite decide_False by done; by destruct t|].
    destruct t. rcbn_all. destruct (decide (PNext y = PNext x)) as [[= ->]|Hn]; [by rewrite lookup_insert_eq|].
    rewrite lookup_insert_ne; [done|congruence].
  - intros y. unfold prv. destruct t. rcbn_all. destruct (decide (y = x)) as [->|Hn]; [by rewrite lookup_insert_eq|].
    by rewrite lookup_insert_ne.
Qed.

Lemma set_place_sets t p v o : val t p = Some o ->
  exists t', set_place t p v = Some t' /\ Sets t t' (fun q => if decide (q = p) then Some v else val t q) (prv t).
Proof.
  destruct p as [k|x]; cbn [val get_place set_place].
  - intros E. rewrite E. cbn [mbind option_bind]. eexists. split; [reflexivity|]. apply lookup_lt_Some in E as Hl. split.
    + split; [by destruct t|]. split; [destruct t; rcbn_all; by rewrite length_insert|by destruct t].
    + intros [k'|y]; cbn [val get_place].
      * destruct t. rcbn_all. destruct (decide (PHead k' = PHead k)) as [[= ->]|Hn]; [by rewrite list_lookup_insert_eq|].
        rewrite list_lookup_insert_ne; [done|congruence].
      * rewrite decide_False by done. by destruct t.
    + intros y. by destruct t.
  - destruct (links t !! x) as [u|] eqn:Hx; [|done]. intros _.
    destruct (upd_link_sets t x u Hx (fun l => l {{ same_vh_protocol_next := v }})) as (t' & E & [S1 S2 S3]).
    exists t'. split; [done|]. split; [done| |].
    + intros q. rewrite S2. case_decide; [by destruct u|done].
    + intros y. rewrite S3. case_decide; [subst|done]. unfold prv. rewrite Hx. by destruct u.
Qed.

(** ** Off a list *)

Section Leave.
Context (t t' : poll_ctx) (gs : list (list nat)) (C : Chains t gs).
Context (k : nat) (g : list nat) (i x : nat) (p : place) (Hk : gs !! k = Some g) (Hx : g !! i = Some x) (Hp : places k g !! i = Some p).
Context (Hl : length (same_vh_protocol_list t') = length (same_vh_protocol_list t)).
Context (Hv : forall q, val t' q = if decide (q = PNext x) then Some None else if decide (q = p) then Some (g !! S i) else val t q).
Context (Hr : forall y, prv t' y = if decide (y = x) then Some None else if decide (g !! S i = Some y) then Some (Some p) else prv t y).

Lemma leave_lookup k' g' : <[k := delete i g]> gs !! k' = Some g' ->
  (k' = k /\ g' = delete i g) \/ (k' <> k /\ gs !! k' = Some g').
Proof.
  intros E. destruct (decide (k' = k)) as [->|Hn].
  - rewrite list_lookup_insert_eq in E by (by apply lookup_lt_Some in Hk). left. by simplify_eq.
  - right. by rewrite list_lookup_insert_ne in E by done.
Qed.

(** A member of the new lists, as one of the old ones. *)
Lemma leave_member k' g' j y : <[k := delete i g]> gs !! k' = Some g' -> g' !! j = Some y ->
  exists g0 j0, gs !! k' = Some g0 /\ g0 !! j0 = Some y /\ (k' = k -> j0 = if decide (j < i)%nat then j else S j) /\ (k' <> k -> j0 = j) /\ y <> x.
Proof.
  intros Hg Hy. apply leave_lookup in Hg as [[-> ->]|[Hn Hg]].
  - rewrite list_lookup_delete in Hy. exists g, (if decide (j < i)%nat then j else S j). split_and!; try done.
    intros ->. assert (Ej : (if decide (j < i)%nat then j else S j) = i).
    { eapply (ch_one _ _ C k k g g); [done|done| |exact Hx]. by destruct (decide (j < i)%nat). }
    destruct (decide (j < i)%nat); lia.
  - exists g', j. split_and!; try done. intros ->. by destruct (ch_one _ _ C k' k g' g j i x).
Qed.

Lemma leave_other_place k' g' j q : gs !! k' = Some g' -> places k' g' !! j = Some q -> (k' = k -> j <> i /\ j <> S i) -> val t' q = Some (g' !! j).
Proof.
  intros Hg Hq Hn. rewrite Hv. pose proof (places_next k g i x Hx) as Hp'.
  rewrite decide_False by (intros ->; destruct (place_once t gs C k' k g' g j (S i) (PNext x)); naive_solver).
  rewrite decide_False by (intros ->; destruct (place_once t gs C k' k g' g j i p); naive_solver).
  by apply (ch_val _ _ C k' g').
Qed.

Lemma leave_chains : Chains t' (<[k := delete i g]> gs).
Proof.
  assert (Hi : (i < length g)%nat) by (by apply lookup_lt_Some in Hx). constructor.
  - by rewrite Hl, length_insert, (ch_len _ _ C).
  - intros k' g' j q Hg Hq. apply leave_lookup in Hg as [[-> ->]|[Hn Hg]]; [|by apply (leave_other_place k')].
    rewrite places_delete, list_lookup_delete in Hq by done. rewrite list_lookup_delete. destruct (decide (j < S i)%nat) as [Hj|Hj].
    + destruct (decide (j < i)%nat) as [Hji|Hji]; [apply (leave_other_place k); try done; lia|].
      replace j with i in * by lia. rewrite Hp in Hq. injection Hq as <-. rewrite Hv.
      rewrite decide_False, decide_True; [done..|]. intros ->. pose proof (places_next k g i x Hx) as Hp'.
      destruct (place_once t gs C k k g g i (S i) (PNext x)) as [_ E]; try done. lia.
    + rewrite decide_False by lia. apply (leave_other_place k); try done. lia.
  - intros k' g' j y Hg Hy. destruct (leave_member k' g' j y Hg Hy) as (g0 & j0 & Hg0 & Hy0 & E1 & E2 & Hyx). rewrite Hr.
    rewrite decide_False by done. pose proof (ch_prv _ _ C k' g0 j0 y Hg0 Hy0) as Hpr.
    apply leave_lookup in Hg as [[-> ->]|[Hn Hg]].
    + specialize (E1 eq_refl). rewrite Hk in Hg0. injection Hg0 as <-. rewrite places_delete, list_lookup_delete by done. subst j0.
      destruct (decide (j < i)%nat) as [Hji|Hji].
      * rewrite decide_False by (intros Hs; destruct (ch_one _ _ C k k g g (S i) j y) as [_ ?]; try done; lia). rewrite decide_True by lia. done.
      * destruct (decide (j = i)) as [->|Hne].
        -- by rewrite decide_True, decide_True, Hp by (done || lia).
        -- rewrite decide_False by (intros Hs; destruct (ch_one _ _ C k k g g (S i) (S j) y) as [_ ?]; try done; lia).
           rewrite decide_False by lia. done.
    + specialize (E2 Hn). subst j0. rewrite Hg in Hg0. injection Hg0 as <-.
      rewrite decide_False by (intros Hs; by destruct (ch_one _ _ C k' k g' g j (S i) y)). done.
  - intros k1 k2 g1 g2 j1 j2 y Hg1 Hg2 Hy1 Hy2. destruct (leave_member k1 g1 j1 y Hg1 Hy1) as (a1 & b1 & A1 & B1 & C1 & D1 & _).
    destruct (leave_member k2 g2 j2 y Hg2 Hy2) as (a2 & b2 & A2 & B2 & C2 & D2 & _).
    destruct (ch_one _ _ C k1 k2 a1 a2 b1 b2 y A1 A2 B1 B2) as [-> ->]. split; [done|].
    destruct (decide (k2 = k)) as [->|Hn]; [specialize (C1 eq_refl); specialize (C2 eq_refl); do 2 case_decide; lia|].
    rewrite D1, D2 in * by done. naive_solver.
  - intros y. rewrite Hr, Hv. intros Hy. destruct (decide (y = x)) as [->|Hn]; [by rewrite decide_True|].
    rewrite decide_False by congruence. destruct (decide (g !! S i = Some y)); [done|].
    rewrite decide_False; [by apply (ch_free _ _ C)|]. intros <-. apply places_inv in Hp as [[_ ?]|(j & z & -> & Hz & E)]; [done|].
    injection E as <-. rewrite (ch_prv _ _ C k g j y Hk Hz) in Hy. injection Hy as Hy. apply lookup_ge_None in Hy.
    apply lookup_lt_Some in Hz. unfold places in Hy. rewrite length_cons, length_fmap in Hy. lia.
  - intros y q. rewrite Hr. intros Hy. destruct (decide (y = x)); [done|].
    assert (Hin : exists k0 g0 i0, gs !! k0 = Some g0 /\ g0 !! i0 = Some y).
    { destruct (decide (g !! S i = Some y)); [by exists k, g, (S i)|by apply (ch_in _ _ C y q)]. }
    destruct Hin as (k0 & g0 & i0 & H1 & H2). destruct (decide (k0 = k)) as [->|Hn].
    + rewrite Hk in H1. injection H1 as <-. exists k, (delete i g). rewrite list_lookup_insert_eq by (by apply lookup_lt_Some in Hk).
      assert (i0 <> i) by congruence. destruct (decide (i0 < i)%nat).
      * exists i0. split; [done|]. by rewrite list_lookup_delete_lt by lia.
      * exists (pred i0). split; [done|]. rewrite list_lookup_delete_ge by lia. by replace (S (pred i0)) with i0 by lia.
    + exists k0, g0, i0. by rewrite list_lookup_insert_ne.
Qed.

End Leave.

(** leave_protocol does these updates. *)
Lemma leave_protocol_member t gs k g i x : Chains t gs -> gs !! k = Some g -> g !! i = Some x ->
  exists t', leave_protocol t x = Some t' /\ same_table t t' /\ Chains t' (<[k := delete i g]> gs).
Proof.
  intros C Hk Hx. destruct (member_link t gs C k g i x Hk Hx) as (p & Hp & Hlx & Hvp).
  unfold leave_protocol. rewrite Hlx. cbn [mbind option_bind same_vh_protocol_prev same_vh_protocol_next]. change (get_place t p) with (val t p).
  rewrite Hvp. cbn [mbind option_bind]. rewrite bool_decide_true by done. cbn [assert mbind option_bind].
  destruct (set_place_sets t p (g !! S i) _ Hvp) as (t1 & -> & [S1 V1 R1]). cbn [mbind option_bind].
  assert (Hpx : p <> PNext x).
  { intros ->. destruct (place_once t gs C k k g g i (S i) (PNext x)) as [_ E]; try done; [by apply places_next|lia]. }
  assert (Hlx1 : exists u, links t1 !! x = Some u).
  { apply elem_of_dom. destruct S1 as (_ & _ & ->). by apply elem_of_dom_2 in Hlx. }
  assert (N : exists t2, match g !! S i with Some y => upd_link t1 y (fun n => n {{ same_vh_protocol_prev := Some p }}) | None => Some t1 end = Some t2 /\
    Sets t1 t2 (val t1) (fun y => if decide (g !! S i = Some y) then Some (Some p) else prv t1 y)).
  { destruct (g !! S i) as [y|] eqn:Hy; [|exists t1; split; [done|]; split; [done|done|]; intros z; by rewrite decide_False].
    destruct (member_link t gs C k g (S i) y Hk Hy) as (py & _ & Hly & _).
    assert (is_Some (links t1 !! y)) as [u Hu] by (apply elem_of_dom; destruct S1 as (_ & _ & ->); by apply elem_of_dom_2 in Hly).
    destruct (upd_link_sets t1 y u Hu (fun n => n {{ same_vh_protocol_prev := Some p }})) as (t2 & -> & [S2 V2 R2]).
    exists t2. split; [done|]. split; [done| |].
    - intros q. rewrite V2. case_decide; [subst|done]. unfold val, get_place. rewrite Hu. by destruct u.
    - intros z. rewrite R2. destruct (decide (z = y)) as [->|Hn]; [rewrite decide_True by done; by destruct u|]. by rewrite decide_False by congruence. }
  destruct N as (t2 & -> & [S2 V2 R2]). cbn [mbind option_bind].
  destruct Hlx1 as [u1 Hu1]. assert (is_Some (links t2 !! x)) as [u Hu] by (apply elem_of_dom; destruct S2 as (_ & _ & ->); by apply elem_of_dom_2 in Hu1).
  destruct (upd_link_sets t2 x u Hu (fun _ => mkLink None None)) as (t3 & -> & [S3 V3 R3]). exists t3. split; [done|].
  assert (St : same_table t t3) by (etrans; [exact S1|]; etrans; [exact S2|exact S3]). split; [done|].
  eapply (leave_chains t t3 gs C k g i x p Hk Hx Hp).
  - by destruct St as (_ & ? & _).
  - intros q. rewrite V3. case_decide; [done|]. by rewrite V2, V1.
  - intros y. rewrite R3. case_decide; [done|]. by rewrite R2, R1.
Qed.

(** A connection on no list. *)
Lemma leave_protocol_none t gs x : Chains t gs -> links t !! x = Some (mkLink None None) ->
  exists t', leave_protocol t x = Some t' /\ same_table t t' /\ Chains t' gs.
Proof.
  intros C Hx. unfold leave_protocol. rewrite Hx. cbn [mbind option_bind same_vh_protocol_prev same_vh_protocol_next].
  destruct (upd_link_sets t x _ Hx (fun _ => mkLink None None)) as (t' & -> & [S V R]). exists t'. split; [done|]. split; [done|].
  assert (Hv : forall q, val t' q = val t q).
  { intros q. rewrite V. case_decide; [subst|done]. unfold val, get_place. by rewrite Hx. }
  assert (Hr : forall y, prv t' y = prv t y) by (intros y; rewrite R; case_decide; [subst; unfold prv; by rewrite Hx|done]).
  destruct C. constructor; try (by destruct S as (_ & -> & _)); intros *; rewrite ?Hv, ?Hr; eauto.
Qed.

(** ** Onto a list *)

Section Join.
Context (t t' : poll_ctx) (gs : list (list nat)) (C : Chains t gs) (n : nat) (g : list nat) (x : nat) (Hn : gs !! n = Some g).
Context (Hx : prv t x = Some None) (Hl : length (same_vh_protocol_list t') = length (same_vh_protocol_list t)).
Context (Hv : forall q, val t' q = if decide (q = PHead n) then Some (Some x) else if decide (q = PNext x) then Some (g !! 0%nat) else val t q).
Context (Hr : forall y, prv t' y = if decide (y = x) then Some (Some (PHead n)) else if decide (g !! 0%nat = Some y) then Some (Some (PNext x)) else prv t y).

Lemma join_fresh k' g' j y : gs !! k' = Some g' -> g' !! j = Some y -> y <> x.
Proof.
  intros Hg Hy ->. rewrite (ch_prv _ _ C k' g' j x Hg Hy) in Hx. injection Hx as E. apply lookup_ge_None in E.
  apply lookup_lt_Some in Hy. unfold places in E. rewrite length_cons, length_fmap in E. lia.
Qed.

Lemma join_lookup k' g' : <[n := x :: g]> gs !! k' = Some g' -> (k' = n /\ g' = x :: g) \/ (k' <> n /\ gs !! k' = Some g').
Proof.
  intros E. destruct (decide (k' = n)) as [->|Hne].
  - rewrite list_lookup_insert_eq in E by (by apply lookup_lt_Some in Hn). left. by simplify_eq.
  - right. by rewrite list_lookup_insert_ne in E by done.
Qed.

Lemma join_next k' g' j q : gs !! k' = Some g' -> places k' g' !! S j = Some q -> val t' q = Some (g' !! S j).
Proof.
  intros Hg Hq. rewrite Hv. apply places_inv in Hq as Hq'. destruct Hq' as [[? _]|(j' & z & [= <-] & Hz & ->)]; [done|].
  rewrite !decide_False; [by apply (ch_val _ _ C k' g')|pose proof (join_fresh k' g' j z Hg Hz); congruence|done].
Qed.

Lemma join_chains : Chains t' (<[n := x :: g]> gs).
Proof.
  constructor.
  - by rewrite Hl, length_insert, (ch_len _ _ C).
  - intros k' g' j q Hg Hq. apply join_lookup in Hg as [[-> ->]|[Hne Hg]].
    + destruct j as [|[|j]].
      * injection Hq as <-. by rewrite Hv, decide_True by done.
      * injection Hq as <-. by rewrite Hv, decide_False, decide_True by done.
      * change ((x :: g) !! S (S j)) with (g !! S j). by apply (join_next n).
    + destruct j as [|j]; [|by apply (join_next k')]. injection Hq as <-. rewrite Hv, !decide_False by congruence. by apply (ch_val _ _ C k').
  - intros k' g' j y Hg Hy. rewrite Hr. apply join_lookup in Hg as [[-> ->]|[Hne Hg]].
    + destruct j as [|j]; [injection Hy as <-; by rewrite decide_True|]. change (g !! j = Some y) in Hy.
      rewrite decide_False by (by eapply join_fresh). destruct j as [|j]; [by rewrite decide_True|].
      rewrite decide_False by (intros E; by destruct (ch_one _ _ C n n g g 0 (S j) y)). by rewrite (ch_prv _ _ C n g (S j) y).
    + rewrite decide_False by (by eapply join_fresh).
      rewrite decide_False by (intros E; by destruct (ch_one _ _ C k' n g' g j 0 y)). by apply (ch_prv _ _ C).
  - intros k1 k2 g1 g2 j1 j2 y Hg1 Hg2 Hy1 Hy2.
    apply join_lookup in Hg1 as [[-> ->]|[Hn1 Hg1]]; apply join_lookup in Hg2 as [[-> ->]|[Hn2 Hg2]].
    + destruct j1 as [|j1], j2 as [|j2]; [done|..].
      * injection Hy1 as <-. by destruct (join_fresh n g j2 x).
      * injection Hy2 as <-. by destruct (join_fresh n g j1 x).
      * destruct (ch_one _ _ C n n g g j1 j2 y); try done. split; [done|lia].
    + destruct j1 as [|j1]; [injection Hy1 as <-; by destruct (join_fresh k2 g2 j2 x)|]. by destruct (ch_one _ _ C n k2 g g2 j1 j2 y).
    + destruct j2 as [|j2]; [injection Hy2 as <-; by destruct (join_fresh k1 g1 j1 x)|]. by destruct (ch_one _ _ C k1 n g1 g j1 j2 y).
    + by apply (ch_one _ _ C k1 k2 g1 g2 j1 j2 y).
  - intros y. rewrite Hr, Hv. intros Hy. destruct (decide (y = x)); [done|]. destruct (decide (g !! 0%nat = Some y)); [done|].
    rewrite !decide_False by congruence. by apply (ch_free _ _ C).
  - intros y q. rewrite Hr. intros Hy. assert (Hlt : (n < length gs)%nat) by (by apply lookup_lt_Some in Hn). destruct (decide (y = x)) as [->|Hne].
    + exists n, (x :: g), 0%nat. by rewrite list_lookup_insert_eq.
    + assert (Hin : exists k0 g0 i0, gs !! k0 = Some g0 /\ g0 !! i0 = Some y).
      { destruct (decide (g !! 0%nat = Some y)); [by exists n, g, 0%nat|by apply (ch_in _ _ C y q)]. }
      destruct Hin as (k0 & g0 & i0 & H1 & H2). destruct (decide (k0 = n)) as [->|Hn0].
      * rewrite Hn in H1. injection H1 as <-. exists n, (x :: g), (S i0). by rewrite list_lookup_insert_eq.
      * exists k0, g0, i0. by rewrite list_lookup_insert_ne.
Qed.

End Join.

Lemma join_protocol_ok t gs n g x w prot : Chains t gs -> gs !! n = Some g -> wsis t !! x = Some w -> links t !! x = Some (mkLink None None) ->
  let t1 := t {{ wsis ::= <[x := w {{ protocol := Some prot }}]> }} in
  exists t', join_protocol t x prot n = Some t' /\ same_table t1 t' /\ Chains t' (<[n := x :: g]> gs).
Proof.
  intros C Hn Hw Hx t1. unfold join_protocol. pose proof (ch_val _ _ C n g 0 (PHead n) Hn eq_refl) as Hh.
  unfold val, get_place in Hh. rewrite Hh. cbn [mbind option_bind]. unfold upd_wsi. rewrite Hw. cbn [mbind option_bind]. fold t1.
  assert (C1 : Chains t1 gs) by (apply (chains_ext t); [by destruct t..|done]). assert (Hx1 : links t1 !! x = Some (mkLink None None)) by (by destruct t).
  assert (Hf : forall y, g !! 0%nat = Some y -> y <> x).
  { intros y Hy ->. destruct (member_link t gs C n g 0 x Hn Hy) as (? & _ & E & _). congruence. }
  clearbody t1. destruct (upd_link_sets t1 x _ Hx1 (fun _ => mkLink (Some (PHead n)) (g !! 0%nat))) as (t2 & -> & [S2 V2 R2]). cbn [mbind option_bind].
  cbn [same_vh_protocol_prev same_vh_protocol_next] in V2, R2.
  destruct (set_place_sets t2 (PHead n) (Some x) (g !! 0%nat)) as (t3 & -> & [S3 V3 R3]).
  { rewrite V2, decide_False by done. by apply (ch_val _ _ C1 n g 0). }
  cbn [mbind option_bind].
  assert (N : exists t4, match g !! 0%nat with Some y => upd_link t3 y (fun l => l {{ same_vh_protocol_prev := Some (PNext x) }}) | None => Some t3 end = Some t4 /\
    Sets t3 t4 (val t3) (fun y => if decide (g !! 0%nat = Some y) then Some (Some (PNext x)) else prv t3 y)).
  { destruct (g !! 0%nat) as [y|] eqn:Hy; [|exists t3; split; [done|]; split; [done|done|]; intros z; by rewrite decide_False].
    destruct (member_link t1 gs C1 n g 0 y Hn Hy) as (py & _ & Hly & _).
    assert (is_Some (links t3 !! y)) as [u Hu].
    { apply elem_of_dom. destruct S3 as (_ & _ & ->), S2 as (_ & _ & ->). by apply elem_of_dom_2 in Hly. }
    destruct (upd_link_sets t3 y u Hu (fun l => l {{ same_vh_protocol_prev := Some (PNext x) }})) as (t4 & -> & [S4 V4 R4]).
    exists t4. split; [done|]. split; [done| |].
    - intros q. rewrite V4. case_decide; [subst|done]. unfold val, get_place. rewrite Hu. by destruct u.
    - intros z. rewrite R4. destruct (decide (z = y)) as [->|Hne]; [rewrite decide_True by done; by destruct u|]. by rewrite decide_False by congruence. }
  destruct N as (t4 & -> & [S4 V4 R4]). exists t4. split; [done|].
  assert (St : same_table t1 t4) by (etrans; [exact S2|]; etrans; [exact S3|exact S4]). split; [done|].
  apply (join_chains t1 t4 gs C1 n g x Hn).
  - unfold prv. by rewrite Hx1.
  - by destruct St as (_ & ? & _).
  - intros q. rewrite V4, V3. case_decide; [done|]. by rewrite V2.
  - intros y. rewrite R4, R3, R2. destruct (decide (y = x)) as [->|]; [|done]. rewrite decide_False; [done|]. intros E. by destruct (Hf x E).
Qed.

(** A member points back to a place. *)
Lemma member_prv t gs k g i x : Chains t gs -> gs !! k = Some g -> g !! i = Some x -> exists p, prv t x = Some (Some p).
Proof. intros C Hk Hx. destruct (member_link t gs C k g i x Hk Hx) as (p & _ & El & _). exists p. unfold prv. by rewrite El. Qed.

(** A connection on no list comes or goes. *)
Lemma chains_new t t' gs x : Chains t gs -> links t !! x = None -> links t' = <[x := mkLink None None]> (links t) ->
  same_vh_protocol_list t' = same_vh_protocol_list t -> Chains t' gs.
Proof.
  intros C Hx El Eh. assert (Hm : forall k g i y, gs !! k = Some g -> g !! i = Some y -> y <> x).
  { intros k g i y Hk Hy ->. destruct (member_link t gs C k g i x Hk Hy) as (? & _ & E & _). congruence. }
  assert (Hv : forall q, q <> PNext x -> val t' q = val t q).
  { intros [k|y] Hq; unfold val, get_place; [by rewrite Eh|]. rewrite El, lookup_insert_ne by congruence. done. }
  assert (Hr : forall y, y <> x -> prv t' y = prv t y) by (intros y Hy; unfold prv; by rewrite El, lookup_insert_ne).
  constructor.
  - by rewrite Eh, (ch_len _ _ C).
  - intros k g i p Hk Hp. rewrite Hv; [by apply (ch_val _ _ C k)|]. intros ->. apply places_inv in Hp as [[_ ?]|(j & y & _ & Hy & [= <-])]; [done|]. by eapply Hm.
  - intros k g i y Hk Hy. rewrite Hr by (by eapply Hm). by apply (ch_prv _ _ C).
  - apply C.
  - intros y. destruct (decide (y = x)) as [->|Hne]; [intros _; unfold val, get_place; by rewrite El, lookup_insert_eq|].
    rewrite Hr, Hv by congruence. apply (ch_free _ _ C).
  - intros y p. destruct (decide (y = x)) as [->|Hne]; [unfold prv; by rewrite El, lookup_insert_eq|]. rewrite Hr by done. apply (ch_in _ _ C).
Qed.

Lemma chains_forget t t' gs x : Chains t gs -> (forall p, prv t x <> Some (Some p)) -> links t' = delete x (links t) ->
  same_vh_protocol_list t' = same_vh_protocol_list t -> Chains t' gs.
Proof.
  intros C Hx El Eh. assert (Hm : forall k g i y, gs !! k = Some g -> g !! i = Some y -> y <> x).
  { intros k g i y Hk Hy ->. destruct (member_prv t gs k g i x C Hk Hy) as [p Hp]. by apply (Hx p). }
  assert (Hv : forall q, q <> PNext x -> val t' q = val t q).
  { intros [k|y] Hq; unfold val, get_place; [by rewrite Eh|]. rewrite El, lookup_delete_ne by congruence. done. }
  assert (Hr : forall y, y <> x -> prv t' y = prv t y) by (intros y Hy; unfold prv; by rewrite El, lookup_delete_ne).
  constructor.
  - by rewrite Eh, (ch_len _ _ C).
  - intros k g i p Hk Hp. rewrite Hv; [by apply (ch_val _ _ C k)|]. intros ->. apply places_inv in Hp as [[_ ?]|(j & y & _ & Hy & [= <-])]; [done|]. by eapply Hm.
  - intros k g i y Hk Hy. rewrite Hr by (by eapply Hm). by apply (ch_prv _ _ C).
  - apply C.
  - intros y. destruct (decide (y = x)) as [->|Hne]; [unfold prv; by rewrite El, lookup_delete_eq|]. rewrite Hr, Hv by congruence. apply (ch_free _ _ C).
  - intros y p. destruct (decide (y = x)) as [->|Hne]; [unfold prv; by rewrite El, lookup_delete_eq|]. rewrite Hr by done. apply (ch_in _ _ C).
Qed.

End PollLists.
