(* ===== verification/PollTable.v ===== *)
(** * The array of sockets and its hash table

    [Hash]: the buckets lead from the sockets of a set of connections to these.  [Tab]: the
    array has the connections of a list in its order, each with its events and
    its index.  The operations keep both. *)

From stdpp Require Import gmap.
From S2P Require Import Prelude Ws PollFds PollLists.

Module PollTable.
Export PollLists.

(** ** Arrays *)

#[local] Arguments aget : simpl never.
#[local] Arguments aset : simpl never.
#[local] Arguments LWS_FD_HASH : simpl never.
#[local] Arguments nz : simpl never.

Lemma aget_nat {A} (l : list A) i : aget l (Z.of_nat i) = l !! i.
Proof. unfold aget. rewrite (proj2 (Z.ltb_ge _ _)) by lia. by rewrite Nat2Z.id. Qed.

Lemma aset_nat {A} (l : list A) i x : (i < length l)%nat -> aset l (Z.of_nat i) x = Some (<[i := x]> l).
Proof. intros Hi. unfold aset. rewrite aget_nat. apply lookup_lt_is_Some in Hi as [y ->]. cbn. by rewrite Nat2Z.id. Qed.

(** ** The hash table *)

Definition sk (t : poll_ctx) (id : nat) : option Z := sockfd <$> wsis t !! id.

Record Bucket (cap : Z) (s : nat -> option Z) (D : gset nat) (h : nat) (b : bucket) (l : list nat) : Prop := {
  bk_length : b_length b = Z.of_nat (length l);
  bk_cap : Z.of_nat (length (b_wsi b)) = cap;
  bk_wsi : take (length l) (b_wsi b) = Some <$> l;
  bk_nodup : NoDup l;
  bk_in : forall id, id ∈ l <-> id ∈ D /\ exists fd, s id = Some fd /\ LWS_FD_HASH fd = Z.of_nat h
}.

Record Hash (cap : Z) (tab : list bucket) (s : nat -> option Z) (D : gset nat) : Prop := {
  hs_len : length tab = 32%nat;
  hs_bucket : forall h b, tab !! h = Some b -> exists l, Bucket cap s D h b l;
  hs_live : forall id, id ∈ D -> exists fd, s id = Some fd /\ 0 <= fd < 2 ^ 31;
  hs_inj : forall id id' fd, id ∈ D -> id' ∈ D -> s id = Some fd -> s id' = Some fd -> id = id'
}.

Lemma hash_ext cap tab s s' D : (forall x, x ∈ D -> s' x = s x) -> Hash cap tab s D -> Hash cap tab s' D.
Proof.
  intros E [S1 S2 S3 S4]. constructor; [done| | |].
  - intros h b Hb. destruct (S2 h b Hb) as (l & [B1 B2 B3 B4 B5]). exists l. constructor; try done. intros x. rewrite B5.
    split; intros (Hx & f & Hf & Hh); (split; [done|]); exists f; [by rewrite E|by rewrite <- E].
  - intros x Hx. rewrite E by done. by apply S3.
  - intros x y f Hx Hy. rewrite !E by done. by apply S4.
Qed.

Lemma hash_range fd : 0 <= LWS_FD_HASH fd < 32.
Proof. unfold LWS_FD_HASH, FD_HASHTABLE_MODULUS. apply Z.mod_pos_bound. lia. Qed.

Lemma aset_hash {A} (l : list A) fd x : length l = 32%nat -> aset l (LWS_FD_HASH fd) x = Some (<[Z.to_nat (LWS_FD_HASH fd) := x]> l).
Proof. intros Hl. pose proof (hash_range fd). rewrite <- (Z2Nat.id (LWS_FD_HASH fd)) at 1 by lia. apply aset_nat. lia. Qed.

Lemma bucket_at cap s D h b l n : Bucket cap s D h b l -> (n < length l)%nat -> b_wsi b !! n = Some <$> l !! n.
Proof. intros B Hn. rewrite <- (lookup_take_lt _ (length l)) by done. rewrite (bk_wsi _ _ _ _ _ _ B). apply list_lookup_fmap. Qed.

Section Find.
Context (t : poll_ctx) (cap : Z) (D : gset nat) (h : nat) (b : bucket) (l : list nat) (B : Bucket cap (sk t) D h b l).

Lemma find_fd_ok fd : forall rest n, drop n l = rest -> (n <= length l)%nat ->
  (exists i id, rest !! i = Some id /\ sk t id = Some fd /\ find_fd t b fd (length rest) (Z.of_nat n) = Some (Some (Z.of_nat (n + i)))) \/
  (find_fd t b fd (length rest) (Z.of_nat n) = Some None /\ forall id, id ∈ rest -> sk t id <> Some fd).
Proof.
  induction rest as [|id rest IH]; intros n Hd Hn; [right; split; [done|]; intros id Hid; by apply not_elem_of_nil in Hid|].
  assert (Hid : l !! n = Some id) by (rewrite <- (Nat.add_0_r n), <- lookup_drop, Hd; done).
  apply lookup_lt_Some in Hid as Hlt. cbn [length find_fd]. rewrite aget_nat, (bucket_at _ _ _ _ _ _ _ B), Hid by done. cbn [fmap option_fmap option_map mjoin option_join mbind option_bind].
  assert (Hl : exists w, wsis t !! id = Some w).
  { assert (Hin : id ∈ l) by (by apply list_elem_of_lookup_2 in Hid). apply (bk_in _ _ _ _ _ _ B) in Hin as (_ & fd' & Hs & _).
    unfold sk in Hs. destruct (wsis t !! id); [by eexists|done]. }
  destruct Hl as [w Hw]. rewrite Hw. cbn [mbind option_bind]. destruct (sockfd w =? fd) eqn:E.
  - apply Z.eqb_eq in E. left. exists 0%nat, id. split; [done|]. unfold sk. rewrite Hw. split; [cbn; congruence|]. by rewrite Nat.add_0_r.
  - apply Z.eqb_neq in E. assert (Hd' : drop (S n) l = rest) by (rewrite <- Nat.add_1_r, <- drop_drop, Hd; done).
    replace (Z.of_nat n + 1) with (Z.of_nat (S n)) by lia. destruct (IH (S n) Hd' ltac:(lia)) as [(i & id' & Hi & Hs & Hf)|[Hf Hno]].
    + left. exists (S i), id'. split; [done|]. split; [done|]. rewrite Hf. do 2 f_equal. lia.
    + right. split; [done|]. intros id' [->|Hin]%elem_of_cons; [unfold sk; rewrite Hw; cbn; congruence|by apply Hno].
Qed.

End Find.

Section Hash.
Context (t : poll_ctx) (cap : Z) (D : gset nat) (Hs : Hash cap (fd_hashtable t) (sk t) D).

Lemma hash_bucket fd : exists b l, fd_hashtable t !! Z.to_nat (LWS_FD_HASH fd) = Some b /\
  aget (fd_hashtable t) (LWS_FD_HASH fd) = Some b /\ Bucket cap (sk t) D (Z.to_nat (LWS_FD_HASH fd)) b l.
Proof.
  pose proof (hash_range fd) as Hr. assert (Hl : (Z.to_nat (LWS_FD_HASH fd) < length (fd_hashtable t))%nat) by (rewrite (hs_len _ _ _ _ Hs); lia).
  apply lookup_lt_is_Some in Hl as [b Hb]. destruct (hs_bucket _ _ _ _ Hs _ _ Hb) as [l Bl]. exists b, l. split; [done|]. split; [|done].
  unfold aget. by rewrite (proj2 (Z.ltb_ge _ _)) by lia.
Qed.

(** The index of a connection in its bucket. *)
Lemma find_fd_member id fd : id ∈ D -> sk t id = Some fd -> exists b l n,
  fd_hashtable t !! Z.to_nat (LWS_FD_HASH fd) = Some b /\ aget (fd_hashtable t) (LWS_FD_HASH fd) = Some b /\
  Bucket cap (sk t) D (Z.to_nat (LWS_FD_HASH fd)) b l /\ l !! n = Some id /\
  find_fd t b fd (Z.to_nat (b_length b)) 0 = Some (Some (Z.of_nat n)).
Proof.
  intros Hid Hfd. destruct (hash_bucket fd) as (b & l & E1 & E2 & Bl). pose proof (hash_range fd) as Hr.
  assert (Hin : id ∈ l) by (apply (bk_in _ _ _ _ _ _ Bl); split; [done|]; exists fd; split; [done|lia]).
  destruct (find_fd_ok t cap D _ b l Bl fd l 0 eq_refl ltac:(lia)) as [(i & id' & Hi & Hs' & Hf)|[_ Hno]].
  - exists b, l, i. rewrite (bk_length _ _ _ _ _ _ Bl), Nat2Z.id. split_and!; try done. assert (id' = id) as <-; [|done].
    apply (hs_inj _ _ _ _ Hs id' id fd); [|done..]. apply list_elem_of_lookup_2 in Hi. by apply (bk_in _ _ _ _ _ _ Bl) in Hi as [? _].
  - by destruct (Hno id Hin).
Qed.

Lemma wsi_from_fd_in id fd : id ∈ D -> sk t id = Some fd -> wsi_from_fd t fd = Some (Some id).
Proof.
  intros Hid Hfd. destruct (find_fd_member id fd Hid Hfd) as (b & l & n & _ & E & Bl & Hn & Hf). unfold wsi_from_fd. rewrite E. cbn [mbind option_bind].
  rewrite Hf. cbn [mbind option_bind]. apply lookup_lt_Some in Hn as Hlt. by rewrite aget_nat, (bucket_at _ _ _ _ _ _ _ Bl), Hn by done.
Qed.

Lemma wsi_from_fd_out fd : (forall id, id ∈ D -> sk t id <> Some fd) -> wsi_from_fd t fd = Some None.
Proof.
  intros Hno. destruct (hash_bucket fd) as (b & l & _ & E & Bl). unfold wsi_from_fd. rewrite E. cbn [mbind option_bind].
  rewrite (bk_length _ _ _ _ _ _ Bl), Nat2Z.id. destruct (find_fd_ok t cap D _ b l Bl fd l 0 eq_refl ltac:(lia)) as [(i & id & Hi & Hs' & _)|[Hf _]].
  - destruct (Hno id); [|done]. apply list_elem_of_lookup_2 in Hi. by apply (bk_in _ _ _ _ _ _ Bl) in Hi as [? _].
  - change (Z.of_nat 0) with 0 in Hf. by rewrite Hf.
Qed.

(** A bucket whose list has changed, in its table. *)
Lemma hash_update fd b' l' D' s' : let h := Z.to_nat (LWS_FD_HASH fd) in
  Bucket cap s' D' h b' l' ->
  (forall h', h' <> h -> forall id, (id ∈ D' /\ exists f, s' id = Some f /\ LWS_FD_HASH f = Z.of_nat h') <-> (id ∈ D /\ exists f, sk t id = Some f /\ LWS_FD_HASH f = Z.of_nat h')) ->
  (forall id, id ∈ D' -> exists f, s' id = Some f /\ 0 <= f < 2 ^ 31) ->
  (forall id id' f, id ∈ D' -> id' ∈ D' -> s' id = Some f -> s' id' = Some f -> id = id') ->
  Hash cap (<[h := b']> (fd_hashtable t)) s' D'.
Proof.
  intros h Bl Ho Hl Hi. pose proof (hash_range fd) as Hr. constructor; try done.
  - rewrite length_insert. apply Hs.
  - intros h' c Hc. destruct (decide (h' = h)) as [->|Hn].
    + rewrite list_lookup_insert_eq in Hc by (rewrite (hs_len _ _ _ _ Hs); lia). injection Hc as <-. by exists l'.
    + rewrite list_lookup_insert_ne in Hc by done. destruct (hs_bucket _ _ _ _ Hs _ _ Hc) as (l & [C1 C2 C3 C4 C5]).
      exists l. constructor; try done. intros id. by rewrite C5, Ho.
Qed.

End Hash.

Lemma shift_down_ok : forall r l n, (n + r < length l)%nat ->
  shift_down r l (Z.of_nat n) = Some (take n l ++ take r (drop (S n) l) ++ drop (n + r) l).
Proof.
  induction r as [|r IH]; intros l n Hr; cbn [shift_down].
  - rewrite take_0, Nat.add_0_r. cbn [app]. by rewrite take_drop.
  - replace (Z.of_nat n + 1) with (Z.of_nat (S n)) by lia. rewrite aget_nat.
    assert (is_Some (l !! S n)) as [x Hx] by (apply lookup_lt_is_Some; lia). rewrite Hx. cbn [mbind option_bind].
    rewrite aset_nat by lia. cbn [mbind option_bind]. rewrite IH by (rewrite length_insert; lia). f_equal.
    rewrite (drop_insert_lt l), (drop_insert_lt l) by lia. rewrite (take_S_r _ _ x) by (apply list_lookup_insert_eq; lia).
    rewrite take_insert_ge by lia. rewrite <- app_assoc. f_equal. rewrite (drop_S l x (S n)) by done. cbn [take app]. do 2 f_equal. f_equal. lia.
Qed.

Lemma take_delete_fmap (l : list nat) (L : list (option nat)) n : take (length l) L = Some <$> l -> (n < length l)%nat -> (length l < length L)%nat ->
  take (length l - 1) (take n L ++ take (length l - n) (drop (S n) L) ++ drop (n + (length l - n)) L) = Some <$> delete n l.
Proof.
  intros E Hn HL. rewrite list_fmap_delete, <- E, delete_take_drop.
  replace (n + (length l - n))%nat with (length l) by lia. rewrite take_app_ge by (rewrite length_take; lia). rewrite length_take, Nat.min_l by lia.
  rewrite take_app_le by (rewrite length_take, length_drop; lia). rewrite take_take, take_take, Nat.min_l by lia. f_equal.
  - f_equal. lia.
  - rewrite skipn_firstn_comm. f_equal. lia.
Qed.

Lemma bucket_delete cap s D h b l n id : Bucket cap s D h b l -> l !! n = Some id -> Z.of_nat (length l) < cap ->
  exists L, shift_down (Z.to_nat (b_length b - Z.of_nat n)) (b_wsi b) (Z.of_nat n) = Some L /\
    Bucket cap s (D ∖ {[id]}) h (mkBucket L (b_length b - 1)) (delete n l).
Proof.
  intros [B1 B2 B3 B4 B5] Hn Hc. apply lookup_lt_Some in Hn as Hlt. rewrite B1. replace (Z.to_nat _) with (length l - n)%nat by lia.
  rewrite shift_down_ok by lia. eexists. split; [reflexivity|].
  assert (Hlen : length (delete n l) = (length l - 1)%nat) by (rewrite length_delete by (by eexists); lia). constructor; cbn [b_length b_wsi].
  - rewrite Hlen. lia.
  - rewrite !length_app, !length_take, !length_drop. lia.
  - rewrite Hlen. apply take_delete_fmap; [done|done|lia].
  - eapply sublist_NoDup; [exact B4|apply sublist_delete].
  - intros x. rewrite elem_of_difference, not_elem_of_singleton. assert (Ex : x ∈ delete n l <-> x ∈ l /\ x <> id); [|rewrite Ex, B5; naive_solver].
    pose proof (delete_Permutation l n id Hn) as Hp. rewrite Hp in B4. apply NoDup_cons in B4 as [N1 _].
    assert (Hl : x ∈ l <-> x ∈ id :: delete n l) by (by rewrite <- Hp). rewrite Hl, elem_of_cons. naive_solver.
Qed.

Lemma delete_from_fd_ok t cap D id fd : Hash cap (fd_hashtable t) (sk t) D -> Z.of_nat (size D) < cap -> id ∈ D -> sk t id = Some fd ->
  exists tab, delete_from_fd t fd = Some (t {{ fd_hashtable := tab }}, 0) /\ Hash cap tab (sk t) (D ∖ {[id]}).
Proof.
  intros Hs Hc Hid Hfd. destruct (find_fd_member t cap D Hs id fd Hid Hfd) as (b & l & n & E1 & E2 & Bl & Hn & Hf).
  assert (Hsz : (length l <= size D)%nat).
  { rewrite <- (size_list_to_set (C := gset nat) l) by apply Bl. apply subseteq_size. intros x Hx%elem_of_list_to_set. by apply (bk_in _ _ _ _ _ _ Bl) in Hx as [? _]. }
  destruct (bucket_delete cap (sk t) D _ b l n id Bl Hn ltac:(lia)) as (L & EL & BL).
  unfold delete_from_fd. rewrite E2. cbn [mbind option_bind]. rewrite Hf. cbn [mbind option_bind]. rewrite EL. cbn [mbind option_bind].
  pose proof (hash_range fd) as Hr. rewrite aset_hash by apply Hs. cbn [mbind option_bind]. eexists. split; [reflexivity|].
  apply (hash_update t cap D Hs fd _ _ _ _ BL).
  - intros h' Hne x. rewrite elem_of_difference, not_elem_of_singleton. split; [naive_solver|]. intros (Hx & f & Hf' & Hh). split; [split; [done|]|by exists f].
    intros ->. apply Hne. assert (f = fd) as -> by congruence. lia.
  - intros x Hx. apply (hs_live _ _ _ _ Hs). set_solver.
  - intros x y f Hx Hy. apply (hs_inj _ _ _ _ Hs); set_solver.
Qed.

(** A new connection. *)
Lemma insert_wsi_ok `{PollEnv} t D id w s0 :
  Hash max_fds (fd_hashtable t) s0 D -> Z.of_nat (size D) < max_fds - 1 -> id ∉ D -> wsis t !! id = Some w -> 0 <= sockfd w < 2 ^ 31 ->
  (forall x, x ∈ D -> sk t x = s0 x) -> (forall x, x ∈ D -> s0 x <> Some (sockfd w)) ->
  exists tab, insert_wsi t id = Some (t {{ fd_hashtable := tab }}, 0) /\ Hash max_fds tab (sk t) (D ∪ {[id]}).
Proof.
  intros Hs Hc Hid Hw Hfd Hsk Hno. set (fd := sockfd w) in *. pose proof (hash_range fd) as Hr.
  assert (Hid' : sk t id = Some fd) by (unfold sk; by rewrite Hw).
  assert (Hs' : Hash max_fds (fd_hashtable t) (sk t) D).
  { by apply (hash_ext _ _ s0). }
  destruct (hash_bucket t max_fds D Hs' fd) as (b & l & E1 & E2 & [B1 B2 B3 B4 B5]).
  assert (Hsz : (length l <= size D)%nat).
  { rewrite <- (size_list_to_set (C := gset nat) l) by done. apply subseteq_size. intros x Hx%elem_of_list_to_set. by apply B5 in Hx as [? _]. }
  unfold insert_wsi. rewrite Hw. cbn [mbind option_bind]. fold fd. rewrite E2. cbn [mbind option_bind].
  rewrite B1, (proj2 (Z.eqb_neq _ _)) by lia. rewrite aset_nat by lia. cbn [mbind option_bind].
  rewrite aset_hash by apply Hs. cbn [mbind option_bind]. eexists. split; [reflexivity|].
  apply (hash_update t max_fds D Hs' fd _ (l ++ [id])).
  - constructor; cbn [b_length b_wsi].
    + rewrite length_app. cbn [length]. lia.
    + by rewrite length_insert.
    + rewrite length_app. cbn [length]. rewrite Nat.add_1_r. rewrite (take_S_r _ _ (Some id)) by (apply list_lookup_insert_eq; lia).
      rewrite take_insert_ge, B3 by lia. by rewrite fmap_app.
    + apply NoDup_app. split; [done|]. split; [|apply NoDup_singleton]. intros x Hx%B5. set_solver.
    + intros x. rewrite elem_of_app, list_elem_of_singleton, elem_of_union, elem_of_singleton, B5. split; [|naive_solver].
      intros [?| ->]; [naive_solver|]. split; [by right|]. exists fd. split; [done|lia].
  - intros h' Hne x. rewrite elem_of_union, elem_of_singleton. split; [|naive_solver]. intros ([Hx| ->] & f & Hf & Hh); [by eauto|].
    destruct Hne. assert (f = fd) as -> by congruence. lia.
  - intros x [Hx| ->%elem_of_singleton]%elem_of_union; [by apply (hs_live _ _ _ _ Hs')|by exists fd].
  - intros x y f [Hx| ->%elem_of_singleton]%elem_of_union [Hy| ->%elem_of_singleton]%elem_of_union; [by apply (hs_inj _ _ _ _ Hs')| | |done].
    + intros Ex Ey. destruct (Hno x Hx). rewrite <- Hsk by done. congruence.
    + intros Ex Ey. destruct (Hno y Hy). rewrite <- Hsk by done. congruence.
Qed.

(** ** The array *)

(** What the table relies on: the lock of the poll table is granted
    (LWS_CALLBACK_LOCK_POLL may be ignored, that is answered with 0, by a user of the
    library's own poll loop; [callback_lws] does so), no extension answers for
    writability, and the sizes are as the context is created with. *)
Class PollOk `{PollEnv} : Prop := {
  lock_granted : forall t id, poll_callback t id LWS_CALLBACK_LOCK_POLL = 0;
  quiet_request : forall t id, ext_request t id = 0;
  limit_ok : 2 <= fd_limit_per_thread <= max_fds;
  max_fds_ok : max_fds < 2 ^ 31
}.

(** In the table [t] the callback reports a failure for the connection, or the
    system refuses the events of a socket. *)
Definition complains `{PollEnv} (t : poll_ctx) (id : nat) : Prop :=
  (exists r, poll_callback t id r <> 0) \/ (exists fd e, event_select t fd e = false).

(** The result is [r], or -1 after a complaint. *)
Definition said `{PollEnv} (t : poll_ctx) (id : nat) (r r' : Z) : Prop := r' = r \/ r' = -1 /\ complains t id.

Lemma said_same `{PollEnv} t id r : said t id r r.
Proof. by left. Qed.

Lemma said_callback `{PollEnv} t id x r r' : said t id r r' -> said t id r (if nz (poll_callback t id x) then -1 else r').
Proof.
  intros Hs. destruct (nz (poll_callback t id x)) eqn:E; [|done]. right. split; [done|]. left. exists x. intros Ex. by rewrite Ex in E.
Qed.

Definition ids (order : list (nat * Z)) : gset nat := list_to_set order.*1.

Section Tab.
Context `{PollOk}.

(** The connections in the order of the array, with their events. *)
Record Tab (t : poll_ctx) (order : list (nat * Z)) : Prop := {
  tb_count : fds_count t = Z.of_nat (length order);
  tb_room : Z.of_nat (length order) <= fd_limit_per_thread - 1;
  tb_fds : Z.of_nat (length (fds t)) = fd_limit_per_thread;
  tb_ev : Z.of_nat (length (pt_events t)) = fd_limit_per_thread + 1;
  tb_at : forall i id e, order !! i = Some (id, e) -> exists w pf, wsis t !! id = Some w /\ position_in_fds_table w = Z.of_nat i /\
            fds t !! i = Some pf /\ pf_fd pf = sockfd w /\ pf_events pf = e;
  tb_out : forall id w, wsis t !! id = Some w -> id ∉ ids order -> position_in_fds_table w = -1;
  tb_hash : Hash max_fds (fd_hashtable t) (sk t) (ids order)
}.

Lemma ids_in order id : id ∈ ids order <-> exists i e, order !! i = Some (id, e).
Proof.
  unfold ids. rewrite elem_of_list_to_set, list_elem_of_fmap. split.
  - intros ([x e] & -> & Hin). apply list_elem_of_lookup in Hin as [i Hi]. by exists i, e.
  - intros (i & e & Hi). exists (id, e). split; [done|]. by apply list_elem_of_lookup_2 in Hi.
Qed.

Lemma tab_once t order i j id e e' : Tab t order -> order !! i = Some (id, e) -> order !! j = Some (id, e') -> i = j.
Proof.
  intros T Hi Hj. destruct (tb_at _ _ T i id e Hi) as (w & pf & E1 & E2 & _). destruct (tb_at _ _ T j id e' Hj) as (w' & pf' & E1' & E2' & _).
  rewrite E1 in E1'. simplify_eq. lia.
Qed.

Lemma tab_nodup t order : Tab t order -> NoDup order.*1.
Proof.
  intros T. apply NoDup_alt. intros i j x Hi Hj. rewrite list_lookup_fmap in Hi, Hj.
  destruct (order !! i) as [[a e]|] eqn:Ei; [|done]. destruct (order !! j) as [[a' e']|] eqn:Ej; [|done]. cbn in *. simplify_eq. by eapply tab_once.
Qed.

Lemma tab_size t order : Tab t order -> size (ids order) = length order.
Proof. intros T. unfold ids. rewrite size_list_to_set by (by eapply tab_nodup). apply length_fmap. Qed.

(** Only these members matter. *)
Lemma tab_ext t t' order : fds t' = fds t -> fds_count t' = fds_count t -> pt_events t' = pt_events t -> fd_hashtable t' = fd_hashtable t ->
  wsis t' = wsis t -> Tab t order -> Tab t' order.
Proof.
  intros E1 E2 E3 E4 E5 []. constructor; rewrite ?E1, ?E2, ?E3, ?E4, ?E5; try done. unfold sk in *. by rewrite E5.
Qed.

(** Neither the protocol nor the state of a connection matters. *)
Lemma tab_wsi t order id w w' : Tab t order -> wsis t !! id = Some w -> sockfd w' = sockfd w ->
  position_in_fds_table w' = position_in_fds_table w -> Tab (t {{ wsis ::= <[id := w']> }}) order.
Proof.
  intros [T1 T2 T3 T4 T5 T6 T7] Hw E1 E2. constructor; try (by destruct t).
  - intros i x e Hi. destruct (T5 i x e Hi) as (u & pf & A & B & C & D & E). destruct t. rcbn_all. destruct (decide (x = id)) as [->|Hn].
    + exists w', pf. rewrite lookup_insert_eq. simplify_eq. split_and!; congruence.
    + exists u, pf. by rewrite lookup_insert_ne.
  - intros x u Hx Hn. destruct t. rcbn_all. destruct (decide (x = id)) as [->|Hne].
    + rewrite lookup_insert_eq in Hx. simplify_eq. rewrite E2. by apply (T6 id).
    + rewrite lookup_insert_ne in Hx by done. by apply (T6 x).
  - assert (Es : forall x, sk (t {{ wsis ::= <[id := w']> }}) x = sk t x).
    { intros x. unfold sk. destruct t. rcbn_all. destruct (decide (x = id)) as [->|Hne]; [rewrite lookup_insert_eq, Hw; cbn; congruence|by rewrite lookup_insert_ne]. }
    replace (fd_hashtable _) with (fd_hashtable t) by (by destruct t). by apply (hash_ext _ _ (sk t)).
Qed.

Lemma ids_app order id e : ids (order ++ [(id, e)]) = ids order ∪ {[id]}.
Proof. unfold ids. rewrite fmap_app, list_to_set_app_L. cbn. set_solver. Qed.

Lemma insert_ok t t0 order id w0 : Tab t order -> Z.of_nat (length order) < fd_limit_per_thread - 1 ->
  wsis t !! id = None -> 0 <= sockfd w0 < 2 ^ 31 -> (forall x, x ∈ ids order -> sk t x <> Some (sockfd w0)) ->
  t0 = t {{ wsis := <[id := w0]> (wsis t); links := links t0 }} ->
  exists t' r, insert_wsi_socket_into_fds t0 id = Some (t', r) /\ said t' id 0 r /\ Tab t' (order ++ [(id, LWS_POLLIN)]) /\
    wsis t' = <[id := w0 {{ position_in_fds_table := Z.of_nat (length order) }}]> (wsis t) /\
    links t' = links t0 /\ same_vh_protocol_list t' = same_vh_protocol_list t /\ service_tid t' = service_tid t.
Proof.
  intros T Hr Hid Hfd Hno E0. pose proof limit_ok as Hl. pose proof max_fds_ok as Hm.
  assert (Hnin : id ∉ ids order).
  { intros (i & e & Hi)%ids_in. destruct (tb_at _ _ T i id e Hi) as (w & _ & E & _). congruence. }
  destruct t as [f c ev cc tab tid ws lk hd], t0 as [f0 c0 ev0 cc0 tab0 tid0 ws0 lk0 hd0]. rcbn_all. injection E0 as -> -> -> -> -> -> -> ->.
  unfold insert_wsi_socket_into_fds. rcbn. pose proof (tb_count _ _ T) as Hc. rcbn_all. subst c. unfold u32, wrap. rewrite Z.mod_small by lia.
  replace (Z.of_nat (length order) >=? fd_limit_per_thread) with false by (symmetry; rewrite Z.geb_leb; lia).
  rewrite lookup_insert_eq. cbn [mbind option_bind]. rewrite (proj2 (Z.eqb_neq _ _)) by (unfold LWS_SOCK_INVALID; lia). cbn [negb assert mbind option_bind].
  rewrite lock_granted. change (nz 0) with false. cbv iota.
  destruct (insert_wsi_ok (mkPoll f (Z.of_nat (length order)) ev (cc + 1) tab tid (<[id := w0]> ws) lk0 hd) (ids order) id w0
    (sk (mkPoll f (Z.of_nat (length order)) ev cc tab tid ws lk hd))) as (tab' & -> & Hh); try done.
  { apply T. }
  { rewrite (tab_size _ _ T). lia. }
  { cbn. by rewrite lookup_insert_eq. }
  { intros x Hx. unfold sk. cbn. rewrite lookup_insert_ne by congruence. done. }
  rcbn. unfold upd_wsi. rcbn. rewrite lookup_insert_eq. rcbn. set (n := length order) in *.
  pose proof (tb_fds _ _ T) as Lf. pose proof (tb_ev _ _ T) as Le. cbn in Lf, Le.
  assert (is_Some (f !! n)) as [pf Hpf] by (apply lookup_lt_is_Some; lia). assert (is_Some (ev !! 0%nat)) as [e0 He0] by (apply lookup_lt_is_Some; lia).
  rewrite aget_nat, Hpf. rcbn. rewrite aset_nat by lia. rcbn. unfold lws_plat_insert_socket_into_fds. rcbn.
  rewrite aget_nat, list_lookup_insert_eq by lia. rcbn. rewrite aset_nat by (rewrite length_insert; lia). rcbn.
  change (aget ev 0) with (aget ev (Z.of_nat 0)). rewrite aget_nat, He0. rcbn. replace (Z.of_nat n + 1) with (Z.of_nat (S n)) by lia.
  rewrite aset_nat by lia. rcbn. eexists _, _. split; [reflexivity|]. rcbn.
  split; [apply said_callback, said_callback, said_same|].
  rewrite list_insert_insert_eq, insert_insert_eq. split; [|split_and!; try done; by destruct w0].
  constructor; rcbn.
  - rewrite length_app. cbn [length]. lia.
  - rewrite length_app. cbn [length]. lia.
  - rewrite length_insert. lia.
  - rewrite length_insert. lia.
  - intros i x e Hi. apply lookup_app_Some in Hi as [Hi|[Hge Hi]].
    + destruct (tb_at _ _ T i x e Hi) as (w & pf' & A & B). rcbn_all. apply lookup_lt_Some in Hi as Hlt. exists w, pf'.
      rewrite lookup_insert_ne by congruence. rewrite list_lookup_insert_ne by (unfold n; lia). done.
    + apply list_lookup_singleton_Some in Hi as [Hi [= <- <-]]. assert (i = n) as -> by (unfold n in *; lia).
      eexists _, _. rewrite lookup_insert_eq, list_lookup_insert_eq by lia. split_and!; try reflexivity; by destruct w0, pf.
  - intros x u Hx Hn. rewrite ids_app, elem_of_union, elem_of_singleton in Hn. rewrite lookup_insert_ne in Hx by naive_solver.
    apply (tb_out _ _ T x u); rcbn; [done|naive_solver].
  - rewrite ids_app. rcbn_all.
    assert (Es : forall x, sk (mkPoll f (Z.of_nat n) ev (cc + 1) tab tid (<[id := w0]> ws) lk0 hd) x =
      sockfd <$> <[id := w0 {{ position_in_fds_table := Z.of_nat n }}]> ws !! x).
    { intros x. unfold sk. cbn. destruct (decide (x = id)) as [->|Hne]; [rewrite !lookup_insert_eq; by destruct w0|by rewrite !lookup_insert_ne]. }
    eapply hash_ext; [|exact Hh]. intros x _. unfold sk at 1. cbn. by rewrite <- Es.
Qed.

(** *** Events *)

Lemma ids_insert order i id e e' : order !! i = Some (id, e) -> ids (<[i := (id, e')]> order) = ids order.
Proof. intros Hi. unfold ids. rewrite list_fmap_insert. cbn. rewrite list_insert_id; [done|]. by rewrite list_lookup_fmap, Hi. Qed.

Definition changed (e _and _or : Z) : Z := (e .& Z.lnot _and) .| _or.

Lemma change_ok t order i id e _and _or : Tab t order -> order !! i = Some (id, e) ->
  exists a r, _lws_change_pollfd t id _and _or = Some (t {{ fds := a }}, r) /\ said (t {{ fds := a }}) id 0 r /\
    Tab (t {{ fds := a }}) (<[i := (id, changed e _and _or)]> order).
Proof.
  intros T Hi. destruct (tb_at _ _ T i id e Hi) as (w & pf & Hw & Hp & Hf & Hfd & He). apply lookup_lt_Some in Hi as Hlt.
  pose proof (tb_count _ _ T) as Hc. pose proof (tb_fds _ _ T) as Lf. pose proof (tb_room _ _ T) as Hr.
  unfold _lws_change_pollfd. rewrite Hw. cbn [mbind option_bind]. rewrite Hp, (proj2 (Z.ltb_ge _ _)) by lia.
  replace (Z.of_nat i <? fds_count t) with true by (symmetry; apply Z.ltb_lt; lia). cbn [assert mbind option_bind].
  rewrite aget_nat, Hf. cbn [mbind option_bind]. rewrite aset_nat by lia. cbn [mbind option_bind]. rewrite He. fold (changed e _and _or).
  set (t1 := t {{ fds := _ }}).
  assert (Hr1 : exists r, (if nz (poll_callback t1 id LWS_CALLBACK_CHANGE_MODE_POLL_FD) then Some (t1, -1) else
    if e =? changed e _and _or then Some (t1, 0) else
    r ← lws_plat_change_pollfd t1 id (pf {{ pf_events := changed e _and _or }});
    if nz r then Some (t1, -1) else
    if nz (service_tid t1) && (poll_callback t1 id LWS_CALLBACK_GET_THREAD_ID =? -1) then Some (t1, -1)
    else Some (t1, 0)) = Some (t1, r) /\ said t1 id 0 r).
  { destruct (nz (poll_callback t1 id LWS_CALLBACK_CHANGE_MODE_POLL_FD)) eqn:E1.
    { exists (-1). split; [done|]. right. split; [done|]. left. exists LWS_CALLBACK_CHANGE_MODE_POLL_FD. intros Ex. by rewrite Ex in E1. }
    case_match; [exists 0; split; [done|apply said_same]|]. unfold lws_plat_change_pollfd.
    replace (wsis t1) with (wsis t) by (by destruct t). rewrite Hw. cbn [mbind option_bind].
    match goal with |- context [event_select t1 ?fd ?ev] => destruct (event_select t1 fd ev) eqn:E2 end.
    2: { exists (-1). split; [done|]. right. split; [done|]. right. by eexists _, _. }
    change (nz 0) with false. cbv iota. destruct (_ && _) eqn:E3; [|exists 0; split; [done|apply said_same]].
    exists (-1). split; [done|]. right. split; [done|]. left. exists LWS_CALLBACK_GET_THREAD_ID. zbool. lia. }
  destruct Hr1 as (r & Hr1 & Hs). eexists _, r. split; [exact Hr1|]. split; [exact Hs|]. clear Hr1 Hs.
  destruct T as [T1 T2 T3 T4 T5 T6 T7]. unfold t1. constructor; rewrite ?length_insert; try (by destruct t).
    + destruct t. rcbn_all. by rewrite length_insert.
    + intros j x e' Hj. apply list_lookup_insert_Some in Hj as [(-> & [= <- <-] & _)|(Hne & Hj)].
      * exists w, (pf {{ pf_events := changed e _and _or }}). destruct t. rcbn_all. rewrite list_lookup_insert_eq by lia. split_and!; try done; by destruct pf.
      * destruct (T5 j x e' Hj) as (w' & pf' & A). exists w', pf'. destruct t. rcbn_all. by rewrite list_lookup_insert_ne.
    + intros x u. rewrite (ids_insert order i id e) by done. destruct t. rcbn_all. apply T6.
    + rewrite (ids_insert order i id e) by done. by destruct t.
Qed.

Lemma lws_change_ok t order i id e w _and _or : Tab t order -> order !! i = Some (id, e) -> wsis t !! id = Some w -> protocol w <> None ->
  exists a r, lws_change_pollfd t id _and _or = Some (t {{ fds := a }}, r) /\ said (t {{ fds := a }}) id 0 r /\
    Tab (t {{ fds := a }}) (<[i := (id, changed e _and _or)]> order).
Proof.
  intros T Hi Hw Hp. destruct (tb_at _ _ T i id e Hi) as (w' & pf & Hw' & Hpos & _). simplify_eq.
  destruct (change_ok t order i id e _and _or T Hi) as (a & r & E & Hs & T').
  exists a, (if nz (poll_callback (t {{ fds := a }}) id LWS_CALLBACK_UNLOCK_POLL) then -1 else r).
  split; [|split; [by apply said_callback|done]].
  unfold lws_change_pollfd. rewrite Hw. cbn [mbind option_bind]. rewrite bool_decide_false by done. rewrite Hpos, (proj2 (Z.ltb_ge _ _)) by lia. cbn [orb].
  rewrite lock_granted. change (nz 0) with false. cbv iota. rewrite E. done.
Qed.

(** Asking to be told when the socket is writable. *)
Lemma on_writable_ok t order i id e w : Tab t order -> order !! i = Some (id, e) -> wsis t !! id = Some w -> protocol w <> None ->
  exists a r, lws_callback_on_writable t id = Some (t {{ fds := a }}, r) /\
    said (t {{ fds := a }}) id (if in_shutdown w || unusable w then 0 else 1) r /\
    Tab (t {{ fds := a }}) (if in_shutdown w || unusable w then order else <[i := (id, changed e 0 LWS_POLLOUT)]> order).
Proof.
  intros T Hi Hw Hp. destruct (tb_at _ _ T i id e Hi) as (w' & pf & Hw' & Hpos & _). simplify_eq.
  assert (Eid : t = t {{ fds := fds t }}) by (by destruct t). unfold lws_callback_on_writable. rewrite Hw. cbn [mbind option_bind].
  destruct (in_shutdown w); [exists (fds t), 0; rewrite <- Eid; split_and!; try done; apply said_same|].
  destruct (unusable w); [exists (fds t), 0; rewrite <- Eid; split_and!; try done; apply said_same|]. cbn [orb].
  rewrite quiet_request. change (nz 0) with false. cbv iota. rewrite Hpos, (proj2 (Z.ltb_ge _ _)) by lia.
  destruct (lws_change_ok t order i id e w 0 LWS_POLLOUT T Hi Hw Hp) as (a & r & -> & Hs & T').
  exists a, (if nz r then -1 else 1). split; [reflexivity|]. split; [|done].
  destruct Hs as [->|[-> Hc]]; [apply said_same|by right].
Qed.

(** *** Removal *)

(** The last one takes the place of the one that is removed. *)
Definition swap_remove (i : nat) (l : list (nat * Z)) : list (nat * Z) :=
  match l !! pred (length l) with Some x => take (pred (length l)) (<[i := x]> l) | None => [] end.

Lemma swap_length i l : (i < length l)%nat -> length (swap_remove i l) = pred (length l).
Proof.
  intros Hi. unfold swap_remove. assert (is_Some (l !! pred (length l))) as [x ->] by (apply lookup_lt_is_Some; lia).
  rewrite length_take, length_insert. lia.
Qed.

Lemma swap_lookup i l j : (i < length l)%nat -> (j < pred (length l))%nat ->
  swap_remove i l !! j = if decide (j = i) then l !! pred (length l) else l !! j.
Proof.
  intros Hi Hj. unfold swap_remove. assert (is_Some (l !! pred (length l))) as [x Hx] by (apply lookup_lt_is_Some; lia).
  rewrite Hx, lookup_take_lt by done. case_decide; [subst; by rewrite list_lookup_insert_eq by lia|by rewrite list_lookup_insert_ne].
Qed.

Lemma swap_elem t order i id e x e' : Tab t order -> order !! i = Some (id, e) ->
  (exists j, swap_remove i order !! j = Some (x, e')) <-> (exists j, order !! j = Some (x, e')) /\ x <> id.
Proof.
  intros T Hi. apply lookup_lt_Some in Hi as Hlt. split.
  - intros [j Hj]. apply lookup_lt_Some in Hj as Hj'. rewrite swap_length in Hj' by done. rewrite swap_lookup in Hj by done.
    case_decide as Ej; (split; [by eexists|]); intros ->.
    + pose proof (tab_once _ _ _ _ _ _ _ T Hi Hj). lia.
    + by pose proof (tab_once _ _ _ _ _ _ _ T Hi Hj).
  - intros ((j & Hj) & Hne). apply lookup_lt_Some in Hj as Hj'. assert (j <> i) by congruence.
    destruct (decide (j = pred (length order))) as [->|Hl].
    + exists i. rewrite swap_lookup by lia. by rewrite decide_True.
    + exists j. rewrite swap_lookup by lia. by rewrite decide_False.
Qed.

Lemma swap_ids t order i id e : Tab t order -> order !! i = Some (id, e) -> ids (swap_remove i order) = ids order ∖ {[id]}.
Proof.
  intros T Hi. apply set_eq. intros x. rewrite elem_of_difference, not_elem_of_singleton, !ids_in. split.
  - intros (j & e' & Hj). destruct (proj1 (swap_elem t order i id e x e' T Hi) (ex_intro _ j Hj)) as ([j' Hj'] & Hne). by eauto.
  - intros ((j & e' & Hj) & Hne). destruct (proj2 (swap_elem t order i id e x e' T Hi) (conj (ex_intro _ j Hj) Hne)) as [j' Hj']. by eauto.
Qed.

(** A connection without its index. *)
Definition strip (w : pwsi) : pwsi := w {{ position_in_fds_table := 0 }}.

Lemma remove_ok t t1 order i id e : Tab t order -> order !! i = Some (id, e) -> leave_protocol t id = Some t1 -> same_table t t1 ->
  exists t' r, remove_wsi_socket_from_fds t id = Some (t', r) /\ said t' id 0 r /\ Tab t' (swap_remove i order) /\
    (forall x, strip <$> wsis t' !! x = strip <$> wsis t !! x) /\ links t' = links t1 /\
    same_vh_protocol_list t' = same_vh_protocol_list t1 /\ service_tid t' = service_tid t.
Proof.
  intros T Hi Hlv St. destruct (tb_at _ _ T i id e Hi) as (w & pf & Hw & Hp & Hf & Hfd & He). apply lookup_lt_Some in Hi as Hlt.
  assert (T1 : Tab t1 order) by (destruct St as (-> & _); apply (tab_ext t); by destruct t).
  assert (Hw1 : wsis t1 = wsis t) by (destruct St as (-> & _); by destruct t). assert (Ht1 : service_tid t1 = service_tid t) by (destruct St as (-> & _); by destruct t).
  unfold remove_wsi_socket_from_fds. rewrite Hw. cbn [mbind option_bind]. rewrite lock_granted. change (nz 0) with false. cbv iota. rewrite Hlv. cbn [mbind option_bind].
  clear Hlv St T pf Hf Hfd He. rewrite <- Hw1 in Hw |- *. rewrite <- Ht1. clear Hw1 Ht1 t. rename t1 into t, T1 into T. rewrite Hp.
  set (m := pred (length order)) in *. assert (is_Some (order !! m)) as [[z ze] Hz] by (apply lookup_lt_is_Some; unfold m; lia).
  destruct (tb_at _ _ T m z ze Hz) as (wz & pfz & Hwz & Hpz & Hfz & Hfdz & Hez).
  pose proof (tb_count _ _ T) as Hc. pose proof (tb_fds _ _ T) as Lf. pose proof (tb_ev _ _ T) as Le. pose proof (tb_room _ _ T) as Hr.
  pose proof limit_ok. pose proof max_fds_ok. pose proof (tb_hash _ _ T) as Hh. pose proof (tab_size _ _ T) as Hsz.
  assert (Hidin : id ∈ ids order) by (apply ids_in; by eexists _, _). assert (Hzin : z ∈ ids order) by (apply ids_in; by eexists _, _).
  pose proof (swap_ids _ _ _ _ _ T Hi) as Hids. pose proof (tb_out _ _ T) as Tout. pose proof (tb_at _ _ T) as Tat.
  destruct t as [f c ev cc tab tid ws lk hd]. rcbn_all. replace (c - 1) with (Z.of_nat m) by (unfold m; lia).
  rewrite aget_nat, Hfz. rcbn. rewrite aset_nat by lia. rcbn. unfold lws_plat_delete_socket_from_fds. rcbn.
  rewrite Hc, aget_nat. assert (is_Some (ev !! length order)) as [ee Hee] by (apply lookup_lt_is_Some; lia). rewrite Hee. rcbn.
  replace (Z.of_nat i + 1) with (Z.of_nat (S i)) by lia. rewrite aset_nat by lia. rcbn. rewrite aget_nat, list_lookup_insert_eq by lia. rcbn.
  destruct (hs_live _ _ _ _ Hh z Hzin) as (fz & Esz & Hfzr). unfold sk in Esz. cbn in Esz. rewrite Hwz in Esz. injection Esz as <-.
  rewrite Hfdz, s32_small by done. unfold u64, wrap. rewrite Z.mod_small by lia.
  rewrite (wsi_from_fd_in (mkPoll (<[i := pfz]> f) (Z.of_nat (length order) - 1) (<[S i := ee]> ev) cc tab tid ws lk hd) max_fds (ids order) Hh z (sockfd wz) Hzin)
    by (unfold sk; cbn; by rewrite Hwz).
  rcbn. unfold upd_wsi. rcbn. rewrite Hwz. rcbn. set (wz' := mkPwsi _ _ _ _ _). set (ws1 := <[z := wz']> ws).
  assert (Hsk : forall x, sockfd <$> ws1 !! x = sockfd <$> ws !! x).
  { intros x. unfold ws1. destruct (decide (x = z)) as [->|Hne]; [by rewrite lookup_insert_eq, Hwz|by rewrite lookup_insert_ne]. }
  set (t2 := mkPoll _ _ _ _ _ _ _ _ _).
  destruct (delete_from_fd_ok t2 max_fds (ids order) id (sockfd w)) as (tab' & -> & Hh').
  { apply (hash_ext _ _ (sk (mkPoll f c ev cc tab tid ws lk hd))); [|exact Hh]. intros x _. apply Hsk. }
  { rewrite Hsz. lia. }
  { done. }
  { unfold sk. cbn. rewrite Hsk, Hw. done. }
  unfold t2. rcbn.
  assert (Hw' : exists w1, ws1 !! id = Some w1 /\ strip w1 = strip w).
  { unfold ws1. destruct (decide (id = z)) as [->|Hne]; [|exists w; by rewrite lookup_insert_ne].
    exists wz'. rewrite lookup_insert_eq. split; [done|]. rewrite Hw in Hwz. injection Hwz as <-. by destruct w. }
  destruct Hw' as (w1 & Hw1 & Est). rewrite Hw1. rcbn.
  eexists _, _. split; [reflexivity|]. rcbn. split.
  { apply said_callback. destruct (negb _); cbn [andb]; [apply said_callback, said_same|apply said_same]. }
  set (w1' := mkPwsi _ (-1) _ _ _).
  assert (Hst : forall x, strip <$> <[id := w1']> ws1 !! x = strip <$> ws !! x).
  { intros x. destruct (decide (x = id)) as [->|Hne].
    - rewrite lookup_insert_eq, Hw. apply (f_equal Some). rewrite <- Est. by destruct w1.
    - rewrite lookup_insert_ne by done. unfold ws1. destruct (decide (x = z)) as [->|Hnz]; [rewrite lookup_insert_eq, Hwz; by destruct wz|by rewrite lookup_insert_ne]. }
  assert (Hother : forall x, x <> id -> x <> z -> <[id := w1']> ws1 !! x = ws !! x).
  { intros x N1 N2. unfold ws1. by rewrite !lookup_insert_ne. }
  split; [|split_and!; try done]. constructor; rcbn.
  - rewrite swap_length by done. unfold m in *. lia.
  - rewrite swap_length by done. lia.
  - rewrite length_insert. lia.
  - rewrite length_insert. lia.
  - intros j x e' Hj. apply lookup_lt_Some in Hj as Hj'. rewrite swap_length in Hj' by done. rewrite swap_lookup in Hj by done. fold m in Hj, Hj'.
    destruct (decide (j = i)) as [->|Hji].
    + rewrite Hz in Hj. injection Hj as <- <-. assert (z <> id).
      { intros ->. pose proof (tab_once _ _ _ _ _ _ _ T Hi Hz). lia. }
      exists wz', pfz. unfold ws1. rewrite lookup_insert_ne, lookup_insert_eq by done. by rewrite list_lookup_insert_eq by lia.
    + destruct (Tat j x e' Hj) as (u & pu & A & B). exists u, pu. rewrite Hother; [by rewrite list_lookup_insert_ne| |].
      * intros ->. by pose proof (tab_once _ _ _ _ _ _ _ T Hi Hj).
      * intros ->. pose proof (tab_once _ _ _ _ _ _ _ T Hz Hj). lia.
  - intros x u Hx Hn. rewrite Hids in Hn. destruct (decide (x = id)) as [->|Hne]; [rewrite lookup_insert_eq in Hx; by injection Hx as <-|].
    rewrite Hother in Hx by (done || (intros ->; set_solver)). apply (Tout x u Hx). set_solver.
  - rewrite Hids. eapply hash_ext; [|exact Hh']. intros x _. unfold sk. cbn. rewrite Hsk.
    specialize (Hst x). destruct (<[id := w1']> ws1 !! x), (ws !! x); cbn in *; try done. destruct p, p0. cbn in *. congruence.
Qed.

(** A connection that is not in the array goes. *)
Lemma tab_forget t order id : Tab t order -> id ∉ ids order -> Tab (forget t id) order.
Proof.
  intros [T1 T2 T3 T4 T5 T6 T7] Hid. unfold forget. constructor; try (by destruct t).
  - intros i x e Hi. destruct (T5 i x e Hi) as (w & pf & A). exists w, pf. assert (x <> id) by (intros ->; apply Hid, ids_in; by eauto).
    destruct t. rcbn_all. by rewrite lookup_delete_ne.
  - intros x w Hx Hn. destruct t. rcbn_all. apply lookup_delete_Some in Hx as [_ Hx]. by apply (T6 x).
  - replace (fd_hashtable _) with (fd_hashtable t) by (by destruct t). apply (hash_ext _ _ (sk t)); [|done]. intros x Hx. unfold sk. destruct t. rcbn_all.
    rewrite lookup_delete_ne; [done|]. by intros ->.
Qed.

End Tab.
End PollTable.
