(* ===== verification/PollProps.v ===== *)
(** * The poll table as a finite map

    Over every sequence of adoptions, joins of a protocol, changes of events, requests for
    writability, removals and frees, the array with its indices, the hash table and the
    linked lists behave as a map from connections to sockets and events together with
    a list of connections for each protocol. *)

From stdpp Require Import gmap.
From S2P Require Import Prelude Ws PollFds PollLists PollTable.

Module PollProps.
Export PollTable.

(** ** The specification *)












Section Spec.
Context `{PollEnv}.




(** The context with [n] protocols after lws_plat_init. *)
Definition new_poll (n : nat) : poll_ctx := {|
  fds := replicate (Z.to_nat fd_limit_per_thread) (mkPollfd 0 0 0); fds_count := 0;
  pt_events := replicate (Z.to_nat (fd_limit_per_thread + 1)) 0; count_conns := 0;
  fd_hashtable := replicate 32 (mkBucket (replicate (Z.to_nat max_fds) None) 0);
  service_tid := 0; wsis := ∅; links := ∅; same_vh_protocol_list := replicate n None
|}.

End Spec.

(** ** The relation *)


Section Refine.
Context `{PollOk}.










(** *** The parts of a state that change together *)




(** *** One operation *)




















(** *** All connections of a protocol *)












End Refine.
(** ** Concrete tables *)

(** Room for three connections. *)
#[local] Instance demo_poll : PollEnv := {
  poll_callback _ _ _ := 0; ext_request _ _ := 0; event_select _ _ _ := true; fd_limit_per_thread := 4; max_fds := 4
}.





(** A callback that does not allow the lock for the second connection. *)
#[local] Instance locked_poll : PollEnv := {
  poll_callback _ id r := if (id =? 2)%nat && (r =? LWS_CALLBACK_LOCK_POLL) then 1 else 0;
  ext_request _ _ := 0; event_select _ _ _ := true; fd_limit_per_thread := 4; max_fds := 4
}.

(** The sockets in the array. *)
Definition sockets (t : poll_ctx) : list Z := map pf_fd (take (Z.to_nat (fds_count t)) (fds t)).

(** What goes wrong outside of what the specification allows.  A connection that could not be
    inserted has, zeroed as it is, the index of the first one: its removal, by a context
    whose callbacks allow it, takes the first socket (the listener) out of the
    array instead.  A connection whose protocol is the default one, but not the
    first, is put on the list of the first: the next request for all connections of that
    protocol fails an assert. *)
Lemma poll_gaps :
  (exists t1 t2 t3, @adopt_socket locked_poll (new_poll 1) 1 260 = Some (inr (t1, 0)) /\
     @adopt_socket locked_poll t1 2 264 = Some (inr (t2, -1)) /\ sockets t2 = [260] /\
     (w ← wsis t2 !! 2%nat; Some (position_in_fds_table w)) = Some 0 /\
     @remove_wsi_socket_from_fds demo_poll t2 2 = Some (t3, 0) /\ sockets t3 = []) /\
  (exists t1 t2, @adopt_socket demo_poll (new_poll 2) 1 260 = Some (inr (t1, 0)) /\
     join_protocol t1 1 1 0 = Some t2 /\ @lws_callback_on_writable_all_protocol_vhost demo_poll t2 0 = None).
Proof.
  split.
  - eexists _, _, _. do 2 (split; [vm_compute; reflexivity|]). split; [reflexivity|]. split; [reflexivity|]. split; [vm_compute; reflexivity|reflexivity].
  - eexists _, _. split; [vm_compute; reflexivity|]. split; [vm_compute; reflexivity|]. by vm_compute.
Qed.

End PollProps.
