(* ===== verification/Pending.v ===== *)
(** * Service without network activity (lib/service.c)

    Bytes may wait in the library while the socket has nothing: an extension holds output
    back, or a header table has bytes that the parser has not used.  The service loop asks
    lws_service_adjust_timeout whether to wait at all and lws_service_flag_pending to
    mark the connections concerned as readable.

    The list of connections with extensions to drain and the pool of header tables are
    arguments; [completed] is wsi->hdr_parsing_completed.  Buffered TLS data is compiled
    out. *)

From stdpp Require Import gmap.
From S2P Require Import Prelude Ws PollFds.

Module Pending.
Export PollFds.

(** struct allocated_headers *)
Record ah_entry := mkAhEntry {
  ah_unread : bool;                  (* rxpos != rxlen *)
  ah_wsi : option nat
}.

Fixpoint any_unread (pool : list ah_entry) (timeout_ms : Z) : option Z :=
  match pool with
  | [] => Some timeout_ms
  | a :: pool =>
      if ah_unread a then (_ ← ah_wsi a; Some 0)     (* assert(0) without a connection *)
      else any_unread pool timeout_ms
  end.

Definition lws_service_adjust_timeout (rx_draining_ext_list : list nat) (pool : list ah_entry) (timeout_ms : Z) : option Z :=
  match rx_draining_ext_list with
  | _ :: _ => Some 0
  | [] => any_unread pool timeout_ms
  end.

(** fds[position].revents |= fds[position].events & LWS_POLLIN, and the test after it. *)
Definition force_pollin (t : poll_ctx) (id : nat) : option (poll_ctx * bool) :=
  w ← wsis t !! id;
  let n := position_in_fds_table w in
  pf ← aget (fds t) n;
  let pf := pf {{ pf_revents ::= (fun r => r .| (pf_events pf .& LWS_POLLIN)) }} in
  a ← aset (fds t) n pf;
  Some (t {{ fds := a }}, nz (pf_revents pf .& LWS_POLLIN)).

(** The extensions: the first connection that takes input is enough. *)
Fixpoint flag_draining (t : poll_ctx) (l : list nat) : option (poll_ctx * bool) :=
  match l with
  | [] => Some (t, false)
  | id :: l => '(t, f) ← force_pollin t id; if (f : bool) then Some (t, true) else flag_draining t l
  end.

(** The header tables. *)
Fixpoint flag_tables (t : poll_ctx) (pool : list ah_entry) (completed : nat -> bool) (forced : bool) : option (poll_ctx * bool) :=
  match pool with
  | [] => Some (t, forced)
  | a :: pool =>
      if ah_unread a then
        id ← ah_wsi a;
        if completed id then flag_tables t pool completed forced
        else '(t, f) ← force_pollin t id; flag_tables t pool completed (forced || f)
      else flag_tables t pool completed forced
  end.

Definition lws_service_flag_pending (t : poll_ctx) (rx_draining_ext_list : list nat) (pool : list ah_entry) (completed : nat -> bool)
  : option (poll_ctx * Z) :=
  '(t, f) ← flag_draining t rx_draining_ext_list;
  '(t, f) ← flag_tables t pool completed f;
  Some (t, if (f : bool) then 1 else 0).

(** ** What is marked *)

(** Only readability is added. *)
Definition Marked (t t' : poll_ctx) : Prop :=
  wsis t' = wsis t /\ forall n pf, aget (fds t) n = Some pf -> exists pf', aget (fds t') n = Some pf' /\
    pf_fd pf' = pf_fd pf /\ pf_events pf' = pf_events pf /\ (nz (pf_revents pf .& LWS_POLLIN) = true -> nz (pf_revents pf' .& LWS_POLLIN) = true).

#[local] Instance marked_preorder : PreOrder Marked.
Proof.
  split.
  - intros t. split; [done|]. intros n pf E. by exists pf.
  - intros t u v [E1 H1] [E2 H2]. split; [congruence|]. intros n pf E. destruct (H1 n pf E) as (pf1 & P1 & A1 & B1 & C1).
    destruct (H2 n pf1 P1) as (pf2 & P2 & A2 & B2 & C2). exists pf2. split_and!; try congruence. auto.
Qed.

Lemma nz_land_lor a b m : nz ((a .| b) .& m) = nz (a .& m) || nz (b .& m).
Proof.
  rewrite Z.land_lor_distr_l. unfold nz. destruct (Z.eqb_spec (a .& m) 0) as [E|E]; [by rewrite E, Z.lor_0_l|].
  cbn. rewrite (proj2 (Z.eqb_neq _ 0)); [done|]. rewrite Z.lor_eq_0_iff. tauto.
Qed.

(** One connection is marked, if it wants input. *)
Lemma force_marked t id t' f w pf : force_pollin t id = Some (t', f) -> wsis t !! id = Some w ->
  aget (fds t) (position_in_fds_table w) = Some pf -> nz (pf_events pf .& LWS_POLLIN) = true ->
  f = true /\ exists pf', aget (fds t') (position_in_fds_table w) = Some pf' /\ nz (pf_revents pf' .& LWS_POLLIN) = true.
Proof.
  unfold force_pollin. intros E Hw Hp He. rewrite Hw in E. cbn [mbind option_bind] in E. rewrite Hp in E. cbn [mbind option_bind] in E.
  unfold aset in E. rewrite Hp in E. cbn [mbind option_bind] in E. simplify_eq.
  assert (Hr : nz (pf_revents (pf {{ pf_revents ::= (fun r => r .| (pf_events pf .& LWS_POLLIN)) }}) .& LWS_POLLIN) = true).
  { destruct pf. cbn in *. by rewrite nz_land_lor, <- Z.land_assoc, Z.land_diag, He, orb_true_r. }
  split; [done|]. eexists. split; [|exact Hr]. unfold aget in *. destruct (_ <? 0); [done|]. destruct t. cbn in *.
  apply list_lookup_insert_eq. by eapply lookup_lt_Some.
Qed.

Lemma force_only t id t' f : force_pollin t id = Some (t', f) -> Marked t t'.
Proof.
  unfold force_pollin. destruct (wsis t !! id) as [w|]; [|done]. cbn [mbind option_bind]. set (n := position_in_fds_table w).
  destruct (aget (fds t) n) as [pf|] eqn:Hp; [|done]. cbn [mbind option_bind]. unfold aset. rewrite Hp. cbn [mbind option_bind].
  intros [= <- _]. split; [by destruct t|]. intros m q Hq. unfold aget in *. destruct (m <? 0) eqn:Em; [done|]. destruct (n <? 0) eqn:En; [done|].
  destruct t. rcbn_all. destruct (decide (m = n)) as [->|Hne].
  - rewrite Hp in Hq. injection Hq as <-. eexists. split; [apply list_lookup_insert_eq; by eapply lookup_lt_Some|].
    destruct pf. cbn. split_and!; try done. intros Hr. unfold Basics.compose. by rewrite nz_land_lor, Hr.
  - exists q. rewrite list_lookup_insert_ne by lia. done.
Qed.

Lemma tables_only completed pool : forall t f t' f', flag_tables t pool completed f = Some (t', f') -> Marked t t'.
Proof.
  induction pool as [|a pool IH]; intros t f t' f'; cbn [flag_tables]; [intros [= <- _]; reflexivity|].
  destruct (ah_unread a); [|apply IH]. destruct (ah_wsi a) as [id|]; [|done]. cbn [mbind option_bind]. destruct (completed id); [apply IH|].
  destruct (force_pollin t id) as [[u g]|] eqn:E; [|done]. cbn [mbind option_bind]. intros Hu. etrans; [by eapply force_only|by eapply IH].
Qed.

Lemma tables_forced completed pool : forall t t' f', flag_tables t pool completed true = Some (t', f') -> f' = true.
Proof.
  induction pool as [|a pool IH]; intros t t' f'; cbn [flag_tables]; [by intros [= _ <-]|].
  destruct (ah_unread a); [|apply IH]. destruct (ah_wsi a) as [id|]; [|done]. cbn [mbind option_bind]. destruct (completed id); [apply IH|].
  destruct (force_pollin t id) as [[u g]|] eqn:E; [|done]. apply IH.
Qed.

(** A connection that has bytes of a request left, and is not flow controlled, is served:
    the loop does not wait, and the connection is marked as readable. *)
Lemma request_served completed pool : forall t f t' f' id w pf, flag_tables t pool completed f = Some (t', f') ->
  mkAhEntry true (Some id) ∈ pool -> completed id = false -> wsis t !! id = Some w ->
  aget (fds t) (position_in_fds_table w) = Some pf -> nz (pf_events pf .& LWS_POLLIN) = true ->
  f' = true /\ exists pf', aget (fds t') (position_in_fds_table w) = Some pf' /\ nz (pf_revents pf' .& LWS_POLLIN) = true.
Proof.
  induction pool as [|a pool IH]; intros t f t' f' id w pf E Hin Hc Hw Hp He; [by apply not_elem_of_nil in Hin|]. cbn [flag_tables] in E.
  apply elem_of_cons in Hin as [<-|Hin].
  - cbn [ah_unread ah_wsi mbind option_bind] in E. rewrite Hc in E. destruct (force_pollin t id) as [[u g]|] eqn:Ef; [|done]. cbn [mbind option_bind] in E.
    destruct (force_marked _ _ _ _ _ _ Ef Hw Hp He) as (-> & pf1 & P1 & R1). rewrite orb_true_r in E. split; [by eapply tables_forced|].
    destruct (tables_only _ _ _ _ _ _ E) as [_ M]. destruct (M _ _ P1) as (pf2 & P2 & _ & _ & C2). exists pf2. auto.
  - destruct (ah_unread a); [|by eapply IH]. destruct (ah_wsi a) as [x|]; [|done]. cbn [mbind option_bind] in E. destruct (completed x); [by eapply IH|].
    destruct (force_pollin t x) as [[u g]|] eqn:Ef; [|done]. cbn [mbind option_bind] in E. destruct (force_only _ _ _ _ Ef) as [Ew M].
    destruct (M _ _ Hp) as (pf1 & P1 & _ & B1 & _). eapply IH; [exact E|done|done|by rewrite Ew|exact P1|by rewrite B1].
Qed.

(** The frames that came with the upgrade request do not get this service: the headers are
    completed then.  The loop is told not to wait, and nothing is marked, over and over,
    until something arrives at the socket. *)
Lemma upgraded_frame_waits completed pool : Forall (fun a => ah_unread a = true -> exists id, ah_wsi a = Some id /\ completed id = true) pool ->
  existsb ah_unread pool = true -> forall t timeout_ms,
  lws_service_adjust_timeout [] pool timeout_ms = Some 0 /\ lws_service_flag_pending t [] pool completed = Some (t, 0).
Proof.
  intros Hp Hu t ms. cbn [lws_service_adjust_timeout]. split.
  - induction Hp as [|a pool Ha Hp IH]; [done|]. cbn in *. destruct (ah_unread a); [by destruct Ha as (id & -> & _)|by apply IH].
  - unfold lws_service_flag_pending. cbn [flag_draining mbind option_bind]. clear Hu ms.
    assert (E : flag_tables t pool completed false = Some (t, false)); [|by rewrite E].
    induction Hp as [|a pool Ha Hp IH]; [done|]. cbn [flag_tables]. destruct (ah_unread a); [|done]. destruct Ha as (id & -> & Hc); [done|].
    cbn [mbind option_bind]. by rewrite Hc.
Qed.

End Pending.
