(* ===== verification/Subprotocol.v ===== *)
(** * The choice of a protocol (lib/server.c)

    The upgrade request may list the protocols the client wants, separated by commas;
    lws_handshake_server takes the first one that the vhost has.  The list is a text of
    which [p] is what is left; the name is copied into an array of 64 bytes that is not
    initialised ([name] at the start is whatever the stack had). *)

From S2P Require Import Prelude.

Module Subprotocol.

Definition NAME_SIZE : nat := 64.

(** The loop over the characters of a name.  A leading space is not skipped: it only
    counts [n] up, until the array is full. *)
Fixpoint copy_protocol_name (rounds : nat) (name : bytes) (n : nat) (found : bool) (p : bytes) : bytes * nat * bytes :=
  match rounds with
  | O => (name, n, p)
  | S rounds =>
      if (n <? NAME_SIZE - 1)%nat then
        match p with
        | [] => (name, n, p)
        | c :: r =>
            if c =? 44 then (name, n, p)
            else if negb found && (c =? 32) then copy_protocol_name rounds name (S n) found p
            else copy_protocol_name rounds (<[n := c]> name) (S n) true r
        end
      else (name, n, p)
  end.

(** The characters before the NUL; [None] without one. *)
Fixpoint c_string (l : bytes) : option bytes :=
  match l with
  | [] => None
  | c :: r => if c =? 0 then Some [] else s ← c_string r; Some (c :: s)
  end.

(** The index of the protocol with this name; the list ends at the first without a
    callback. *)
Fixpoint try_protocols (name : bytes) (protocols : list (option bytes)) (n : nat) : option nat :=
  match protocols with
  | [] => None
  | x :: r => if bool_decide (x = Some name) then Some n else try_protocols name r (S n)
  end.

(** [while ( *p && !hit)] *)
Fixpoint select_loop (rounds : nat) (protocols : list (option bytes)) (name p : bytes) : option (option nat) :=
  match p with
  | [] => Some None
  | _ =>
      match rounds with
      | O => None
      | S rounds =>
          let '(name, n, p) := copy_protocol_name NAME_SIZE name 0 false p in
          let name := <[n := 0]> name in
          let p := drop 1 p in
          s ← c_string name;
          match try_protocols s protocols 0 with
          | Some n => Some (Some n)
          | None => select_loop rounds protocols name p
          end
      end
  end.

(** The list the connection joins and its protocol; [None]: the handshake fails.
    [header]: whether the request has a list. *)
Definition choose_protocol (protocols : list (option bytes)) (default_protocol_index : nat) (header : bool) (junk list : bytes) : option (option (nat * nat)) :=
  hit ← select_loop (length list) protocols junk list;
  Some (match hit with
        | Some n => Some (n, n)
        | None => if header then None else Some (0%nat, default_protocol_index)
        end).

(** ** What is chosen *)

(** A name with a number of spaces before it. *)
Definition offer : Type := nat * bytes.

Definition well_formed (o : offer) : Prop :=
  (0 < length o.2 < NAME_SIZE)%nat /\ Forall (fun c => c <> 0 /\ c <> 44) o.2 /\ head o.2 <> Some 32.

Definition offer_text (o : offer) : bytes := replicate o.1 32 ++ o.2.

Fixpoint list_text (os : list offer) : bytes :=
  match os with
  | [] => []
  | [o] => offer_text o
  | o :: os => offer_text o ++ 44 :: list_text os
  end.

Fixpoint first_supported (protocols : list (option bytes)) (os : list offer) : option nat :=
  match os with
  | [] => None
  | o :: os => match try_protocols o.2 protocols 0 with Some n => Some n | None => first_supported protocols os end
  end.

(** [name] holds the C string [s], and its last byte is free for the NUL. *)
Definition Holds (name s : bytes) : Prop :=
  length name = NAME_SIZE /\ (length s < NAME_SIZE)%nat /\ Forall (fun c => c <> 0) s /\ take (length s) name = s /\ name !! length s = Some 0.

Lemma c_string_nul l s r : Forall (fun c => c <> 0) s -> l = s ++ 0 :: r -> c_string l = Some s.
Proof.
  intros Hs ->. induction Hs as [|c s Hc Hs IH]; [done|]. cbn. by rewrite (proj2 (Z.eqb_neq c 0)), IH by done.
Qed.

Lemma holds_string name s : Holds name s -> c_string name = Some s.
Proof.
  intros (H1 & H2 & H3 & H4 & H5). apply (c_string_nul name s (drop (S (length s)) name) H3). rewrite <- H4 at 1. by rewrite take_drop_middle.
Qed.

(** The characters of a name. *)
Lemma copy_chars : forall s r name n rounds p, (n + length s < NAME_SIZE)%nat -> (length s < rounds)%nat -> Forall (fun c => c <> 0 /\ c <> 44) s ->
  length name = NAME_SIZE -> (r = [] \/ exists r', r = 44 :: r') -> p = s ++ r ->
  copy_protocol_name rounds name n true p = (take n name ++ s ++ drop (n + length s) name, (n + length s)%nat, r).
Proof.
  induction s as [|c s IH]; intros r name n rounds p Hn Hr Hs Hl Hend ->; (destruct rounds as [|rounds]; [cbn in Hr; lia|]); cbn [copy_protocol_name app length].
  - rewrite Nat.add_0_r. cbn [app]. rewrite take_drop. case_match; [|done]. destruct Hend as [->|[r' ->]]; [done|]. done.
  - cbn [length] in *. forall_inv. match goal with Hc : c <> 0 /\ c <> 44 |- _ => destruct Hc as [_ Hc] end.
    rewrite (proj2 (Nat.ltb_lt _ _)) by lia. rewrite (proj2 (Z.eqb_neq c 44)) by done. cbn [negb andb].
    rewrite (IH r (<[n := c]> name) (S n) rounds (s ++ r)); try done; try lia; [|by rewrite length_insert].
    rewrite (take_S_r _ _ c) by (apply list_lookup_insert_eq; lia). rewrite take_insert_ge, drop_insert_lt by lia.
    rewrite <- !app_assoc. cbn [app]. do 2 f_equal; [|lia]. do 4 f_equal. lia.
Qed.

Lemma copy_spaces : forall k rounds name n r, (n + k = NAME_SIZE - 1)%nat -> (k < rounds)%nat -> copy_protocol_name rounds name n false (32 :: r) = (name, (NAME_SIZE - 1)%nat, 32 :: r).
Proof.
  induction k as [|k IH]; intros rounds name n r Hn Hr; (destruct rounds as [|rounds]; [lia|]); cbn [copy_protocol_name].
  - rewrite (proj2 (Nat.ltb_ge _ _)) by lia. do 2 f_equal. lia.
  - rewrite (proj2 (Nat.ltb_lt _ _)) by lia. change (32 =? 44) with false. change (negb false && (32 =? 32)) with true. cbv iota. apply IH; lia.
Qed.

Lemma copy_first rounds name n c r : (n < NAME_SIZE - 1)%nat -> c <> 44 -> c <> 32 ->
  copy_protocol_name (S rounds) name n false (c :: r) = copy_protocol_name rounds (<[n := c]> name) (S n) true r.
Proof.
  intros Hn H1 H2. cbn [copy_protocol_name]. by rewrite (proj2 (Nat.ltb_lt _ _)), (proj2 (Z.eqb_neq c 44)), (proj2 (Z.eqb_neq c 32)), andb_false_r by done.
Qed.

(** A whole name. *)
Lemma copy_offer s r name : well_formed (0%nat, s) -> length name = NAME_SIZE -> (r = [] \/ exists r', r = 44 :: r') ->
  exists name', copy_protocol_name NAME_SIZE name 0 false (s ++ r) = (name', length s, r) /\ Holds (<[length s := 0]> name') s.
Proof.
  intros (Hl & Hs & Hh) Hn Hend. cbn [fst snd] in *. destruct s as [|c s]; [cbn in Hl; lia|].
  pose proof Hs as Hs'. apply Forall_cons in Hs' as [[_ Hc1] Hs']. assert (Hc2 : c <> 32) by (cbn in Hh; congruence).
  exists (take 1 (<[0%nat := c]> name) ++ s ++ drop (1 + length s) (<[0%nat := c]> name)). split.
  - change (copy_protocol_name NAME_SIZE) with (copy_protocol_name (S 63)). change ((c :: s) ++ r) with (c :: (s ++ r)). rewrite copy_first by (done || (unfold NAME_SIZE; lia)).
    rewrite (copy_chars s r (<[0%nat := c]> name) 1 63 (s ++ r)); try done.
    + cbn in Hl. lia.
    + cbn in Hl. unfold NAME_SIZE in *. lia.
    + by rewrite length_insert.
  - destruct name as [|x name]; [done|]. change (take 1 (<[0%nat := c]> (x :: name))) with [c].
    change (drop (1 + length s) (<[0%nat := c]> (x :: name))) with (drop (length s) name). cbn [length] in *.
    destruct (drop (length s) name) as [|y d] eqn:Ed; [apply (f_equal length) in Ed; rewrite length_drop in Ed; cbn in Ed; lia|].
    assert (Elen : length (y :: d) = (length name - length s)%nat) by (rewrite <- Ed; apply length_drop).
    change ([c] ++ s ++ y :: d) with ((c :: s) ++ y :: d). change (S (length s)) with (length (c :: s)). rewrite insert_app_r_alt, Nat.sub_diag by lia.
    cbn [insert list_insert]. split_and!.
    + rewrite length_app. cbn [length] in *. lia.
    + cbn [length]. lia.
    + eapply Forall_impl; [exact Hs|]. by intros z [].
    + apply take_app_length.
    + by rewrite lookup_app_r, Nat.sub_diag by lia.
Qed.

Section Choice.
Context (protocols : list (option bytes)).

(** A leading space: the name that was tried before is tried again. *)
Lemma select_space rounds name s r : Holds name s -> try_protocols s protocols 0 = None ->
  exists name', Holds name' s /\ select_loop (S rounds) protocols name (32 :: r) = select_loop rounds protocols name' r.
Proof.
  intros Hn Hs. cbn [select_loop]. rewrite (copy_spaces 63) by (unfold NAME_SIZE; lia). cbn [drop]. change (NAME_SIZE - 1)%nat with 63%nat.
  assert (Hn' : Holds (<[63%nat := 0]> name) s).
  { destruct Hn as (H1 & H2 & H3 & H4 & H5). split_and!; try done; [by rewrite length_insert| |].
    - rewrite take_insert_ge; [done|]. unfold NAME_SIZE in *. lia.
    - destruct (decide (length s = 63%nat)) as [->|Hne]; [apply list_lookup_insert_eq; rewrite H1; unfold NAME_SIZE; lia|by rewrite list_lookup_insert_ne]. }
  exists (<[63%nat := 0]> name). split; [done|]. rewrite (holds_string _ _ Hn'). cbn [mbind option_bind]. by rewrite Hs.
Qed.

Lemma select_spaces k : forall rounds name s r, Holds name s -> try_protocols s protocols 0 = None ->
  exists name', Holds name' s /\ select_loop (k + rounds) protocols name (replicate k 32 ++ r) = select_loop rounds protocols name' r.
Proof.
  induction k as [|k IH]; intros rounds name s r Hn Hs; [by exists name|]. cbn [replicate app Nat.add].
  destruct (select_space (k + rounds) name s (replicate k 32 ++ r) Hn Hs) as (name1 & Hn1 & ->). by apply (IH rounds name1 s r).
Qed.

Lemma list_text_cons o os : list_text (o :: os) = offer_text o ++ match os with [] => [] | _ => 44 :: list_text os end.
Proof. destruct os; [cbn; by rewrite app_nil_r|done]. Qed.

Lemma rest_length os : (length (list_text os) <= length (match os with [] => [] | _ => 44%Z :: list_text os end))%nat.
Proof. destruct os as [|o os]; [done|]. change (length (44 :: ?x)) with (S (length x)). lia. Qed.

(** One name and what follows it. *)
Lemma select_name rounds name s os : well_formed (0%nat, s) -> length name = NAME_SIZE ->
  select_loop (S rounds) protocols name (s ++ match os with [] => [] | _ => 44 :: list_text os end) =
  match try_protocols s protocols 0 with
  | Some n => Some (Some n)
  | None => select_loop rounds protocols
      (<[length s := 0]> (copy_protocol_name NAME_SIZE name 0 false (s ++ match os with [] => [] | _ => 44 :: list_text os end)).1.1) (list_text os)
  end.
Proof.
  intros Hw Hn. set (r := match os with [] => [] | _ => 44 :: list_text os end).
  destruct (copy_offer s r name Hw Hn) as (name' & E & Hh); [destruct os; [by left|right; by eexists]|]. rewrite E. cbn [fst].
  assert (Hne : s ++ r <> []) by (destruct s; [destruct Hw as [Hl _]; cbn in Hl; lia|done]).
  destruct (s ++ r) as [|c q] eqn:Eq; [done|]. cbn [select_loop]. rewrite E. rewrite (holds_string _ _ Hh). cbn [mbind option_bind].
  destruct (try_protocols s protocols 0); [done|]. f_equal. unfold r. by destruct os.
Qed.

Lemma select_ok : forall os rounds name s, Forall well_formed os -> Holds name s -> try_protocols s protocols 0 = None -> (length (list_text os) <= rounds)%nat ->
  select_loop rounds protocols name (list_text os) = Some (first_supported protocols os).
Proof.
  induction os as [|[k nm] os IH]; intros rounds name s Hw Hn Hs Hr; [by destruct rounds|]. apply Forall_cons in Hw as [Ho Hw].
  rewrite list_text_cons in *. unfold offer_text in *. cbn [fst snd first_supported] in *. rewrite <- app_assoc in *. rewrite length_app, length_replicate in Hr.
  assert (Hw0 : well_formed (0%nat, nm)) by exact Ho. set (r := match os with [] => [] | _ => 44 :: list_text os end) in *.
  replace rounds with (k + (rounds - k))%nat by lia. destruct (select_spaces k (rounds - k) name s (nm ++ r) Hn Hs) as (name1 & Hn1 & ->).
  destruct (rounds - k)%nat as [|m] eqn:Em; [destruct Hw0 as [Hl _]; cbn in Hl; rewrite length_app in Hr; lia|].
  unfold r. rewrite (select_name m name1 nm os Hw0) by apply Hn1. fold r. destruct (try_protocols nm protocols 0) eqn:Et; [done|].
  destruct (copy_offer nm r name1 Hw0) as (name2 & E & Hh); [apply Hn1|unfold r; destruct os; [by left|right; by eexists]|].
  rewrite E. cbn [fst]. apply (IH m _ nm Hw Hh Et). rewrite length_app in Hr. destruct Hw0 as [Hl _]. cbn in Hl. pose proof (rest_length os) as Hrl. fold r in Hrl. lia.
Qed.

(** C38: the first protocol of the client's list that the vhost has is chosen.  The list is
    names separated by commas, with any number of spaces before all but the first; the
    connection joins the list of that protocol; if none is supported, the handshake
    fails. *)
Theorem protocol_chosen dflt junk nm os : length junk = NAME_SIZE -> well_formed (0%nat, nm) -> Forall well_formed os ->
  choose_protocol protocols dflt true junk (list_text ((0%nat, nm) :: os)) =
  Some ((fun n => (n, n)) <$> first_supported protocols ((0%nat, nm) :: os)).
Proof.
  intros Hj Hw Hos. unfold choose_protocol. rewrite list_text_cons. unfold offer_text. cbn [fst snd replicate app].
  set (r := match os with [] => [] | _ => 44 :: list_text os end). assert (Hl : length (nm ++ r) = S (length (nm ++ r) - 1)).
  { destruct Hw as [Hl _]. cbn in Hl. rewrite length_app. lia. }
  rewrite Hl. unfold r. rewrite (select_name _ junk nm os Hw Hj). fold r. cbn [first_supported snd].
  destruct (try_protocols nm protocols 0) eqn:Et; [done|].
  destruct (copy_offer nm r junk Hw Hj) as (name2 & E & Hh); [unfold r; destruct os; [by left|right; by eexists]|]. rewrite E. cbn [fst].
  rewrite (select_ok os _ _ nm Hos Hh Et); [by destruct (first_supported protocols os)|].
  rewrite length_app. destruct Hw as [Hw _]. cbn in Hw. pose proof (rest_length os) as Hrl. fold r in Hrl. lia.
Qed.

End Choice.

Definition demo_protocols : list (option bytes) := [None; Some (bstr "chat"); Some (bstr "uc")].

Lemma protocol_chosen_witness :
  choose_protocol demo_protocols 0 true (replicate 64 7) (bstr "echo,  uc, chat") = Some (Some (2, 2)%nat).
Proof. apply (protocol_chosen demo_protocols 0 (replicate 64 7) (bstr "echo") [(2%nat, bstr "uc"); (1%nat, bstr "chat")]); [done|..]; repeat constructor; cbn; (lia || done). Defined.

(** A list that begins with a space: the bytes that the stack had are taken for a name.
    Without a list the connection gets the default protocol but joins the first list. *)
Lemma protocol_gaps :
  choose_protocol demo_protocols 0 true (bstr "chat" ++ replicate 60 0) (bstr " uc") = Some (Some (1, 1)%nat) /\
  choose_protocol demo_protocols 0 true (replicate 64 7) (bstr " uc") = Some (Some (2, 2)%nat) /\
  choose_protocol demo_protocols 2 false (replicate 64 7) [] = Some (Some (0, 2)%nat).
Proof. by vm_compute. Qed.

End Subprotocol.
