(* ===== verification/Escape.v ===== *)
(** * Escaping and cutting up text (lib/libwebsockets.c)

    [lws_urlencode], [lws_urldecode], [lws_sql_purify], [lws_json_purify] and
    [lws_parse_uri].  The encoders read a C string (its characters, without the NUL)
    and fill a buffer of the caller; the decoder reads and writes one memory, so that
    it can be used in place.  [len] is the size the caller gives, an int.  [None]
    stands for an access outside of the buffer; the loops that walk a memory take its
    size as fuel. *)

From S2P Require Import Prelude HttpHdr Region.

Module Escape.
Import Hdr Region.

Definition hex (n : Z) : Z := znth (bstr "0123456789ABCDEF") n.

(** ** URL encoding *)

Definition is_alnum (c : Z) : bool :=
  ((c >=? 48) && (c <=? 57)) || ((c >=? 65) && (c <=? 90)) || ((c >=? 97) && (c <=? 122)).

Fixpoint urlencode_loop (string : bytes) (len : Z) : bytes :=
  match string with
  | [] => []
  | c :: p =>
      if negb (len >? 3) then []
      else if c =? 32 then 43 :: urlencode_loop p (len - 1)
      else if is_alnum (s8 c) then c :: urlencode_loop p (len - 1)
      else 37 :: hex ((s8 c .>> 4) .& 15) :: hex (s8 c .& 15) :: urlencode_loop p (len - 3)
  end.

Definition lws_urlencode (escaped string : bytes) (len : Z) : option bytes :=
  store escaped 0 (urlencode_loop string len ++ [0]).

(** ** URL decoding *)

(** [string] and [escaped] are offsets in [mem]. *)
Fixpoint urldecode_loop (fuel : nat) (mem : bytes) (string escaped len state sum : Z) : option (Z * bytes) :=
  match fuel with
  | O => None
  | S fuel =>
      c ← mem !! Z.to_nat escaped;
      if (c =? 0) || (len =? 0) then mem ← store mem string [0]; Some (0, mem)
      else if state =? 0 then
        if c =? 37 then urldecode_loop fuel mem string (escaped + 1) len 1 sum
        else if c =? 43 then
          mem ← store mem string [32];
          urldecode_loop fuel mem (string + 1) (escaped + 1) (len - 1) 0 sum
        else
          mem ← store mem string [c];
          urldecode_loop fuel mem (string + 1) (escaped + 1) (len - 1) 0 sum
      else
        let n := char_to_hex (s8 c) in
        if n <? 0 then Some (-1, mem)
        else if state =? 1 then urldecode_loop fuel mem string (escaped + 1) len 2 (s8 (n .<< 4))
        else
          mem ← store mem string [u8 (sum .| n)];
          urldecode_loop fuel mem (string + 1) (escaped + 1) (len - 1) 0 sum
  end.

Definition lws_urldecode (mem : bytes) (string escaped len : Z) : option (Z * bytes) :=
  urldecode_loop (S (length mem)) mem string escaped len 0 0.

(** ** SQL and JSON *)

Fixpoint sql_purify_loop (string : bytes) (len : Z) : bytes :=
  match string with
  | [] => []
  | c :: p =>
      if negb (len >? 2) then []
      else if c =? 39 then 39 :: 39 :: sql_purify_loop p (len - 2)
      else c :: sql_purify_loop p (len - 1)
  end.

Definition lws_sql_purify (escaped string : bytes) (len : Z) : option bytes :=
  store escaped 0 (sql_purify_loop string len ++ [0]).

(** The comparison with 0x20 is one of signed characters. *)
Definition json_plain (c : Z) : bool := negb ((c =? 34) || (c =? 92) || (s8 c <? 32)).

Fixpoint json_purify_loop (string : bytes) (len : Z) : bytes :=
  match string with
  | [] => []
  | c :: p =>
      if negb (len >? 6) then []
      else if json_plain c then c :: json_purify_loop p (len - 1)
      else [92; 117; 48; 48; hex ((s8 c .>> 4) .& 15); hex (s8 c .& 15)] ++ json_purify_loop p (len - 6)
  end.

(** [string] may be null. *)
Definition lws_json_purify (escaped : bytes) (string : option bytes) (len : Z) : option bytes :=
  match string with
  | None => store escaped 0 [0]
  | Some string => store escaped 0 (json_purify_loop string len ++ [0])
  end.

(** ** URIs *)

(** The first "://" or the end. *)
Fixpoint find_scheme (fuel : nat) (mem : bytes) (p : Z) : option Z :=
  match fuel with
  | O => None
  | S fuel =>
      c ← mem !! Z.to_nat p;
      if c =? 0 then Some p
      else if negb (c =? 58) then find_scheme fuel mem (p + 1)
      else
        c1 ← mem !! Z.to_nat (p + 1);
        if negb (c1 =? 47) then find_scheme fuel mem (p + 1)
        else
          c2 ← mem !! Z.to_nat (p + 2);
          if negb (c2 =? 47) then find_scheme fuel mem (p + 1) else Some p
  end.

Definition text_at (mem : bytes) (p : Z) : option bytes := cstr (drop (Z.to_nat p) mem).

(** The parts: offsets in the memory, which has been cut up with NULs; a path of
    [None] is the static string of one slash. *)
Record parts := mkParts { prot : Z; ads : Z; port : Z; path : option Z }.

Definition default_port (prot : bytes) (port : Z) : Z :=
  if beqb prot (bstr "http" ++ [0]) || beqb prot (bstr "ws" ++ [0]) then 80
  else if beqb prot (bstr "https" ++ [0]) || beqb prot (bstr "wss" ++ [0]) then 443
  else port.

(** The part up to the address: [p] is behind the scheme. *)
Definition cut_scheme (mem : bytes) : option (bytes * Z * Z) :=
  q ← find_scheme (length mem) mem 0;
  c ← mem !! Z.to_nat q;
  if c =? 0 then Some (mem, q, 0)
  else mem ← store mem q [0]; Some (mem, 0, q + 3).

(** The end of the address, which may be in brackets. *)
Definition cut_address (mem : bytes) (p : Z) : option (bytes * Z * Z) :=
  c ← mem !! Z.to_nat p;
  if c =? 91 then
    q ← skip_to (length mem) (fun c => c =? 93) mem p;
    c ← mem !! Z.to_nat q;
    if c =? 0 then Some (mem, p + 1, q)
    else mem ← store mem q [0]; Some (mem, p + 1, q + 1)
  else
    q ← skip_to (length mem) (fun c => (c =? 58) || (c =? 47)) mem p;
    Some (mem, p, q).

Definition cut_port (mem : bytes) (p port : Z) : option (bytes * Z * Z) :=
  c ← mem !! Z.to_nat p;
  if c =? 58 then
    mem ← store mem p [0];
    s ← text_at mem (p + 1);
    q ← skip_to (length mem) (fun c => c =? 47) mem (p + 1);
    Some (mem, atoi s, q)
  else Some (mem, port, p).

Definition cut_path (mem : bytes) (p : Z) : option (bytes * option Z) :=
  c ← mem !! Z.to_nat p;
  if c =? 0 then Some (mem, None)
  else
    mem ← store mem p [0];
    c ← mem !! Z.to_nat (p + 1);
    Some (mem, if c =? 0 then None else Some (p + 1)).

(** The string is at the start of [mem]; [port] is the caller's value, which an
    unknown scheme leaves alone. *)
Definition lws_parse_uri (mem : bytes) (port : Z) : option (bytes * parts) :=
  '(mem, prot, p) ← cut_scheme mem;
  s ← text_at mem prot;
  let port := default_port s port in
  '(mem, ads, p) ← cut_address mem p;
  '(mem, port, p) ← cut_port mem p port;
  '(mem, path) ← cut_path mem p;
  Some (mem, mkParts prot ads port path).

End Escape.
