(* ===== verification/UriParts.v ===== *)
(** * Cutting up a URI

    [lws_parse_uri] finds the scheme, the address (with or without brackets), the port
    and the path of a URI and ends each with a NUL. *)

From S2P Require Import Prelude HttpHdr Region Escape.

Module UriParts.
Import Hdr Region Escape.

(** ** Memory as a sequence of pieces *)

Lemma lookup_mid (l1 : bytes) c l2 : (l1 ++ c :: l2) !! Z.to_nat (zlen l1) = Some c.
Proof. unfold zlen. rewrite Nat2Z.id, lookup_app_r by lia. by rewrite Nat.sub_diag. Qed.

Lemma store_mid (l1 : bytes) c x l2 : store (l1 ++ c :: l2) (zlen l1) [x] = Some (l1 ++ x :: l2).
Proof.
  rewrite store_some; [|apply zlen_nonneg|change (zlen [x]) with 1; rewrite zlen_app, zlen_cons; pose proof (zlen_nonneg l2); lia].
  f_equal. unfold splice, zlen. rewrite Nat2Z.id, take_app_length. f_equal. cbn [length app]. f_equal.
  rewrite Nat.add_1_r, drop_app_ge by lia. by replace (S (length l1) - length l1)%nat with 1%nat by lia.
Qed.

Lemma text_mid (l1 s r : bytes) : (0 ∉ s) -> text_at (l1 ++ s ++ 0 :: r) (zlen l1) = Some (s ++ [0]).
Proof. intros Hn. unfold text_at, zlen. rewrite Nat2Z.id, drop_app_length. by apply cstr_text. Qed.

Lemma skip_mid stop (l1 l2 : bytes) c l3 : Forall (fun x => x <> 0 /\ stop x = false) l2 -> c = 0 \/ stop c = true ->
  forall fuel, (length l2 < fuel)%nat -> skip_to fuel stop (l1 ++ l2 ++ c :: l3) (zlen l1) = Some (zlen l1 + zlen l2).
Proof.
  revert l1. induction l2 as [|x l2 IH]; intros l1 Hf Hc fuel Hl; (destruct fuel as [|fuel]; [cbn in Hl; lia|]); cbn [skip_to app].
  - rewrite lookup_mid. cbn [mbind option_bind]. replace ((c =? 0) || stop c) with true; [unfold zlen; cbn; f_equal; lia|].
    destruct Hc as [->| ->]; [done|by rewrite orb_true_r].
  - apply Forall_cons in Hf as [[Hx Hs] Hf]. rewrite lookup_mid. cbn [mbind option_bind].
    rewrite (proj2 (Z.eqb_neq x 0)), Hs by done. cbn [orb].
    specialize (IH (l1 ++ [x]) Hf Hc fuel). rewrite <- app_assoc in IH. cbn [app] in IH.
    replace (zlen l1 + 1) with (zlen (l1 ++ [x])) by (rewrite zlen_app; done). rewrite IH by (cbn in Hl; lia).
    f_equal. rewrite zlen_app. change (zlen [x]) with 1. rewrite zlen_cons. lia.
Qed.

Lemma scheme_mid (l1 l2 l3 : bytes) : Forall (fun x => x <> 0 /\ x <> 58) l2 ->
  forall fuel, (length l2 < fuel)%nat -> find_scheme fuel (l1 ++ l2 ++ 58 :: 47 :: 47 :: l3) (zlen l1) = Some (zlen l1 + zlen l2).
Proof.
  revert l1. induction l2 as [|x l2 IH]; intros l1 Hf fuel Hl; (destruct fuel as [|fuel]; [cbn in Hl; lia|]); cbn [find_scheme app].
  - rewrite lookup_mid. cbn [mbind option_bind Z.eqb Pos.eqb negb].
    pose proof (lookup_mid (l1 ++ [58]) 47 (47 :: l3)) as E1. pose proof (lookup_mid (l1 ++ [58; 47]) 47 l3) as E2.
    rewrite <- app_assoc, zlen_app in E1, E2. cbn [app] in E1, E2. change (zlen [58]) with 1 in E1. change (zlen [58; 47]) with 2 in E2.
    rewrite E1. cbn [mbind option_bind Z.eqb Pos.eqb negb]. rewrite E2. cbn. f_equal. unfold zlen. cbn. lia.
  - apply Forall_cons in Hf as [[Hx Hs] Hf]. rewrite lookup_mid. cbn [mbind option_bind].
    rewrite (proj2 (Z.eqb_neq x 0)), (proj2 (Z.eqb_neq x 58)) by done. cbn [negb].
    specialize (IH (l1 ++ [x]) Hf fuel). rewrite <- app_assoc in IH. cbn [app] in IH.
    replace (zlen l1 + 1) with (zlen (l1 ++ [x])) by (rewrite zlen_app; done). rewrite IH by (cbn in Hl; lia).
    f_equal. rewrite zlen_app. change (zlen [x]) with 1. rewrite zlen_cons. lia.
Qed.

(** ** URIs *)

Record uri := mkUri {
  u_prot : bytes;
  u_host : bytes;
  u_v6 : bool;                (* the address is in brackets *)
  u_port : option bytes;      (* digits *)
  u_path : option bytes       (* behind the slash *)
}.

Definition host_text (u : uri) : bytes := if u_v6 u then 91 :: u_host u ++ [93] else u_host u.
Definition port_text (u : uri) : bytes := match u_port u with Some d => 58 :: d | None => [] end.
Definition path_text (u : uri) : bytes := match u_path u with Some p => 47 :: p | None => [] end.

Definition uri_text (u : uri) : bytes := u_prot u ++ bstr "://" ++ host_text u ++ port_text u ++ path_text u.

Record UriOk (u : uri) : Prop := {
  uo_prot : Forall (fun x => x <> 0 /\ x <> 58) (u_prot u);
  uo_host : Forall (fun x => x <> 0 /\ if u_v6 u then x <> 93 else x <> 58 /\ x <> 47) (u_host u);
  uo_head : u_v6 u = false -> head (u_host u) <> Some 91;
  uo_port d : u_port u = Some d -> d <> [] /\ Forall (fun x => 48 <= x <= 57) d;
  uo_path p : u_path u = Some p -> 0 ∉ p
}.

(** The port: the one given, or that of the scheme. *)
Definition uri_port (u : uri) (old : Z) : Z :=
  match u_port u with
  | Some d => Z.min (digits 0 d) (2 ^ 31 - 1)
  | None => default_port (u_prot u ++ [0]) old
  end.

Lemma no_nul (P : Z -> Prop) l : Forall (fun x => x <> 0 /\ P x) l -> 0 ∉ l.
Proof. intros Hf Hin. rewrite Forall_forall in Hf. by destruct (Hf 0 Hin). Qed.

(** What follows the address: nothing, a port or a path. *)
Definition Tail (t : bytes) : Prop := exists c l, t = c :: l /\ (c = 0 \/ c = 58 \/ c = 47).

Lemma tail_ok u r : Tail (port_text u ++ path_text u ++ 0 :: r).
Proof. unfold port_text, path_text, Tail. destruct (u_port u), (u_path u); cbn; eexists _, _; (split; [done|]); auto. Qed.

(** ** The steps *)

Lemma cut_scheme_ok u t : UriOk u -> cut_scheme (u_prot u ++ bstr "://" ++ t) = Some (u_prot u ++ [0; 47; 47] ++ t, 0, zlen (u_prot u ++ [0; 47; 47])).
Proof.
  intros U. unfold cut_scheme. change (bstr "://" ++ t) with (58 :: 47 :: 47 :: t).
  pose proof (scheme_mid [] (u_prot u) t (uo_prot _ U)) as E. cbn [app] in E. change (zlen []) with 0 in E.
  rewrite E by (rewrite length_app; cbn; lia). cbn [mbind option_bind]. rewrite Z.add_0_l, lookup_mid.
  cbn [mbind option_bind Z.eqb Pos.eqb]. rewrite store_mid. cbn [mbind option_bind app]. do 2 f_equal.
  rewrite zlen_app. done.
Qed.

(** The address is cut: [pre] is everything up to its end, and the address lies at
    [ads], ended by a NUL as soon as one follows [pre]. *)
Lemma cut_address_ok u l t : UriOk u -> Tail t -> exists pre ads,
  cut_address (l ++ host_text u ++ t) (zlen l) = Some (pre ++ t, ads, zlen pre) /\
  (exists m, pre = l ++ m) /\ forall z, text_at (pre ++ 0 :: z) ads = Some (u_host u ++ [0]).
Proof.
  intros U (c & t' & -> & Hc). pose proof (uo_host _ U) as Hh. unfold cut_address, host_text. destruct (u_v6 u) eqn:Ev.
  - cbn [app]. rewrite lookup_mid. cbn [mbind option_bind Z.eqb Pos.eqb]. rewrite <- app_assoc. cbn [app].
    pose proof (skip_mid (fun c => c =? 93) l (91 :: u_host u) 93 (c :: t')) as E. cbn [app] in E.
    rewrite E; [|constructor; [done|]; eapply Forall_impl; [exact Hh|]; cbn; intros x [? ?]; split; [done|by apply Z.eqb_neq]|by right|].
    2:{ rewrite !length_app. cbn [length]. rewrite length_app. cbn [length]. lia. }
    cbn [mbind option_bind]. assert (Em : l ++ 91 :: u_host u ++ 93 :: c :: t' = (l ++ 91 :: u_host u) ++ 93 :: c :: t')
      by (by rewrite <- app_assoc). rewrite Em, <- zlen_app, lookup_mid. cbn [mbind option_bind Z.eqb Pos.eqb].
    rewrite store_mid. cbn [mbind option_bind]. exists ((l ++ 91 :: u_host u) ++ [0]), (zlen l + 1). split_and!.
    + do 2 f_equal; [by rewrite <- !app_assoc|]. rewrite (zlen_app (l ++ 91 :: u_host u)). done.
    + exists ((91 :: u_host u) ++ [0]). by rewrite <- app_assoc.
    + intros z. replace (((l ++ 91 :: u_host u) ++ [0]) ++ 0 :: z) with ((l ++ [91]) ++ u_host u ++ 0 :: 0 :: z)
        by (by rewrite <- !app_assoc). replace (zlen l + 1) with (zlen (l ++ [91])) by (rewrite zlen_app; done).
      apply text_mid. exact (no_nul _ _ Hh).
  - assert (Hne : exists x y, u_host u ++ c :: t' = x :: y /\ (x =? 91) = false).
    { pose proof (uo_head _ U Ev) as Hhd. destruct (u_host u) as [|x h]; cbn.
      - exists c, t'. split; [done|]. apply Z.eqb_neq. lia.
      - exists x, (h ++ c :: t'). split; [done|]. apply Z.eqb_neq. intros ->. by apply Hhd. }
    destruct Hne as (x & y & Exy & Hx). rewrite Exy, lookup_mid. cbn [mbind option_bind]. rewrite Hx, <- Exy.
    rewrite (skip_mid (fun c => (c =? 58) || (c =? 47)) l (u_host u) c t').
    + cbn [mbind option_bind]. exists (l ++ u_host u), (zlen l). split_and!; [by rewrite <- app_assoc, zlen_app|by exists (u_host u)|].
      intros z. rewrite <- app_assoc. apply text_mid. exact (no_nul _ _ Hh).
    + eapply Forall_impl; [exact Hh|]. cbn. intros a (? & ? & ?). split; [done|]. apply orb_false_intro; by apply Z.eqb_neq.
    + destruct Hc as [->|[->| ->]]; auto.
    + rewrite !length_app. cbn. lia.
Qed.

Lemma digits_app d t : Forall (fun x => 48 <= x <= 57) d -> (forall c l, t = c :: l -> ~ 48 <= c <= 57) ->
  forall acc, digits acc (d ++ t) = digits acc d.
Proof.
  intros Hd Ht. induction Hd as [|x d Hx _ IH]; intros acc; cbn.
  - destruct t as [|c l]; [done|]. cbn. specialize (Ht c l eq_refl). by replace ((c >=? 48) && (c <=? 57)) with false by lia.
  - replace ((x >=? 48) && (x <=? 57)) with true by lia. apply IH.
Qed.

Lemma digits_pos d : Forall (fun x => 48 <= x <= 57) d -> forall acc, 0 <= acc -> 0 <= digits acc d.
Proof. induction 1 as [|x d Hx _ IH]; intros acc Ha; cbn; [done|]. replace ((x >=? 48) && (x <=? 57)) with true by lia. apply IH. lia. Qed.

Lemma atoi_digits d t : d <> [] -> Forall (fun x => 48 <= x <= 57) d -> (forall c l, t = c :: l -> ~ 48 <= c <= 57) ->
  atoi (d ++ t) = Z.min (digits 0 d) (2 ^ 31 - 1).
Proof.
  intros Hne Hd Ht. pose proof (digits_app d t Hd Ht 0) as E. pose proof (digits_pos d Hd 0 ltac:(lia)). unfold atoi.
  destruct d as [|x d]; [done|]. apply Forall_cons in Hd as [Hx Hd]. cbn [app skip_space] in *. unfold isspace.
  replace ((x =? 32) || ((x >=? 9) && (x <=? 13))) with false by lia.
  assert (Hm : match x :: d ++ t with 45 :: r => - digits 0 r | 43 :: r => digits 0 r | _ => digits 0 (x :: d ++ t) end = digits 0 (x :: d ++ t)).
  { assert (Hcases : x = 48 \/ x = 49 \/ x = 50 \/ x = 51 \/ x = 52 \/ x = 53 \/ x = 54 \/ x = 55 \/ x = 56 \/ x = 57) by lia.
    repeat destruct Hcases as [->|Hcases]; subst; done. }
  rewrite Hm, E. lia.
Qed.

Lemma cut_port_ok u l r old : UriOk u -> exists m,
  cut_port (l ++ port_text u ++ path_text u ++ 0 :: r) (zlen l) old =
    Some (l ++ m ++ path_text u ++ 0 :: r, match u_port u with Some d => Z.min (digits 0 d) (2 ^ 31 - 1) | None => old end, zlen (l ++ m)) /\
  (m = [] \/ exists d, m = 0 :: d).
Proof.
  intros U. unfold cut_port, port_text. destruct (u_port u) as [d|] eqn:Ed.
  - destruct (uo_port _ U d Ed) as [Hne Hd]. cbn [app]. rewrite lookup_mid. cbn [mbind option_bind Z.eqb Pos.eqb].
    rewrite store_mid. cbn [mbind option_bind]. exists (0 :: d).
    assert (Hp : 0 ∉ d ++ path_text u).
    { rewrite elem_of_app. intros [Hin|Hin]; [rewrite Forall_forall in Hd; specialize (Hd 0 Hin); lia|].
      unfold path_text in Hin. destruct (u_path u) as [p|] eqn:Ep; [|by apply not_elem_of_nil in Hin].
      apply elem_of_cons in Hin as [?|Hin]; [done|]. by apply (uo_path _ U p Ep). }
    replace (l ++ 0 :: d ++ path_text u ++ 0 :: r) with ((l ++ [0]) ++ (d ++ path_text u) ++ 0 :: r) by (by rewrite <- !app_assoc).
    replace (zlen l + 1) with (zlen (l ++ [0])) by (rewrite zlen_app; done). rewrite text_mid by done. cbn [mbind option_bind].
    assert (Hstop : exists c y, path_text u ++ 0 :: r = c :: y /\ (c = 0 \/ (c =? 47) = true))
      by (unfold path_text; destruct (u_path u); cbn; eexists _, _; (split; [done|auto])).
    destruct Hstop as (c & y & Ey & Hc). rewrite <- (app_assoc d), Ey.
    rewrite (skip_mid (fun c => c =? 47) (l ++ [0]) d c y); [|eapply Forall_impl; [exact Hd|]; cbn; intros x ?; split; [lia|apply Z.eqb_neq; lia]|done|].
    2:{ rewrite !length_app. cbn. lia. }
    cbn [mbind option_bind]. split; [|right; by exists d]. rewrite <- (app_assoc d), (atoi_digits d) by (done || (unfold path_text; intros c0 l0; destruct (u_path u); cbn; intros [= <- _]; lia)).
    rewrite <- Ey, <- !app_assoc. cbn [app]. do 2 f_equal. rewrite !zlen_app. change (zlen [0]) with 1. rewrite zlen_cons. lia.
  - exists []. cbn [app]. unfold path_text. split; [|by left]. rewrite app_nil_r.
    destruct (u_path u) as [p|]; cbn [app]; rewrite lookup_mid; done.
Qed.

Lemma cut_path_ok u l r : UriOk u -> exists m,
  cut_path (l ++ path_text u ++ 0 :: r) (zlen l) =
    Some (l ++ m ++ 0 :: r, match u_path u with Some (_ :: _) => Some (zlen l + 1) | _ => None end) /\
  (m = [] \/ exists d, m = 0 :: d) /\
  (forall x p, u_path u = Some (x :: p) -> text_at (l ++ m ++ 0 :: r) (zlen l + 1) = Some ((x :: p) ++ [0])).
Proof.
  intros U. unfold cut_path, path_text. destruct (u_path u) as [p|] eqn:Ep.
  - pose proof (uo_path _ U p Ep) as Hp. cbn [app]. rewrite lookup_mid. cbn [mbind option_bind Z.eqb Pos.eqb]. rewrite store_mid.
    cbn [mbind option_bind]. exists (0 :: p).
    replace (l ++ 0 :: p ++ 0 :: r) with ((l ++ [0]) ++ p ++ 0 :: r) by (by rewrite <- app_assoc).
    replace (zlen l + 1) with (zlen (l ++ [0])) by (rewrite zlen_app; done).
    split; [|split; [right; by exists p|]].
    + destruct p as [|x p]; cbn [app]; rewrite lookup_mid; cbn [mbind option_bind].
      * by rewrite <- app_assoc.
      * rewrite (proj2 (Z.eqb_neq x 0)) by (intros ->; apply Hp; by left). by rewrite <- app_assoc.
    + intros x p' [= ->]. replace (l ++ (0 :: x :: p') ++ 0 :: r) with ((l ++ [0]) ++ (x :: p') ++ 0 :: r) by (by rewrite <- app_assoc). by apply text_mid.
  - exists []. cbn [app]. rewrite lookup_mid. cbn. split; [done|]. split; [by left|done].
Qed.

(** C33: a URI is cut into its parts.  For every scheme, address (with or without
    brackets), port and path, lws_parse_uri ends without touching memory outside of
    the string; the offsets it gives are those of C strings with exactly the scheme,
    the address without its brackets and the path (without its slash; an empty or
    missing path is the static slash), and the port is the number given, or 80 for
    http and ws, 443 for https and wss, and otherwise left alone. *)
Theorem parse_uri_parts u r old : UriOk u ->
  exists mem ps, lws_parse_uri (uri_text u ++ 0 :: r) old = Some (mem, ps) /\
    text_at mem (prot ps) = Some (u_prot u ++ [0]) /\ text_at mem (ads ps) = Some (u_host u ++ [0]) /\
    port ps = uri_port u old /\
    match u_path u with
    | Some (x :: p) => exists q, path ps = Some q /\ text_at mem q = Some ((x :: p) ++ [0])
    | _ => path ps = None
    end.
Proof.
  intros U. unfold lws_parse_uri, uri_text. pose proof (no_nul _ _ (uo_prot _ U)) as Hpn.
  replace ((u_prot u ++ bstr "://" ++ host_text u ++ port_text u ++ path_text u) ++ 0 :: r)
    with (u_prot u ++ bstr "://" ++ host_text u ++ port_text u ++ path_text u ++ 0 :: r) by (by rewrite <- !app_assoc).
  rewrite cut_scheme_ok by done. cbn [mbind option_bind].
  rewrite (text_mid [] (u_prot u) (47 :: 47 :: host_text u ++ port_text u ++ path_text u ++ 0 :: r) Hpn : text_at (u_prot u ++ [0; 47; 47] ++ _) 0 = _).
  cbn [mbind option_bind]. rewrite (app_assoc (u_prot u)).
  destruct (cut_address_ok u (u_prot u ++ [0; 47; 47]) _ U (tail_ok u r)) as (pre & a & -> & (m0 & ->) & Hads). cbn [mbind option_bind].
  set (pre := (u_prot u ++ [0; 47; 47]) ++ m0) in *.
  destruct (cut_port_ok u pre r (default_port (u_prot u ++ [0]) old) U) as (m1 & -> & Hm1). cbn [mbind option_bind]. rewrite (app_assoc pre).
  destruct (cut_path_ok u (pre ++ m1) r U) as (m2 & -> & Hm2 & Hpath). cbn [mbind option_bind].
  eexists _, _. split; [done|]. cbn [prot ads port path]. split_and!.
  - unfold pre. rewrite <- !app_assoc. cbn [app]. by apply (text_mid [] (u_prot u)).
  - assert (Hz : exists z, (pre ++ m1) ++ m2 ++ 0 :: r = pre ++ 0 :: z).
    { rewrite <- app_assoc. destruct Hm1 as [-> |[d ->]]; [|by eexists]. destruct Hm2 as [-> |[d ->]]; by eexists. }
    destruct Hz as [z ->]. apply Hads.
  - unfold uri_port. by destruct (u_port u).
  - destruct (u_path u) as [[|x p]|]; [done| |done]. eexists. split; [done|]. by apply Hpath.
Qed.

Definition demo_uri : uri := mkUri (bstr "wss") (bstr "::1") true (Some (bstr "8443")) (Some (bstr "a/b")).

Lemma parse_uri_parts_witness : exists mem ps,
  lws_parse_uri (bstr "wss://[::1]:8443/a/b" ++ [0]) 0 = Some (mem, ps) /\ text_at mem (ads ps) = Some (bstr "::1" ++ [0]) /\ port ps = 8443.
Proof.
  destruct (parse_uri_parts demo_uri [] 0) as (mem & ps & E & _ & Ha & Hp & _).
  - constructor; cbn; try discriminate; try (by repeat constructor).
    + intros d [= <-]. split; [done|by repeat constructor].
    + intros p [= <-]. apply (bool_decide_eq_true_1 (0 ∉ bstr "a/b")). reflexivity.
  - exists mem, ps. split; [exact E|]. split; [exact Ha|exact Hp].
Defined.

End UriParts.
