(* ===== verification/Json.v ===== *)
(** * JSON values, writer and reader (jsoncpp-src-0.5.0)

    The messages of the application are JSON texts.  This file holds the values
    ([Json::Value]), the part of their interface the application uses, the writer
    ([FastWriter]) and the reader ([Reader], with the features of [Features::all]).

    The storage of a value ([union ValueHolder], [CZString], the allocator) is the
    inductive type [value]: the members of an object are kept in the order of
    [strcmp], as [std::map<CZString, Value>] keeps them, and an array holds the
    elements 0 .. n-1.  The reader walks over the rest of the document, the bytes
    from [current_] to [end_]; past the end it sees the NUL of [c_str()].  The
    texts of comments and of error messages, which only [getFormatedErrorMessages]
    and [StyledWriter] read, are not kept.

    Conversions between [double] and text belong to the C library: [scan_lf] and
    [print_g] are [sscanf("%lf")] and [sprintf("%#.16g")]. *)

From S2P Require Import Prelude.

(** The C library's view of floating point numbers. *)
Class CDouble := {
  double : Type;
  scan_lf : bytes -> option double;        (* count == 1 and the value *)
  print_g : double -> bytes
}.

(** The bytes before the first NUL. *)
Fixpoint c_str (l : bytes) : bytes :=
  match l with
  | [] => []
  | c :: r => if c =? 0 then [] else c :: c_str r
  end.

(** [strcmp(a, b) < 0] on NUL-free strings: bytes compare as unsigned char. *)
Fixpoint strlt (a b : bytes) : bool :=
  match a, b with
  | _, [] => false
  | [], _ :: _ => true
  | x :: a, y :: b => (x <? y) || ((x =? y) && strlt a b)
  end.

Module Json.
Section Values.
Context `{CDouble}.

(** ** Values (json_value.cpp) *)

Inductive value :=
| nullValue
| intValue (i : Z)
| uintValue (u : Z)
| realValue (d : double)
| stringValue (s : bytes)
| booleanValue (b : bool)
| arrayValue (l : list value)
| objectValue (m : list (bytes * value)).

Definition minInt : Z := - 2 ^ 31.
Definition maxInt : Z := 2 ^ 31 - 1.
Definition maxUInt : Z := 2 ^ 32 - 1.

Definition isInt (v : value) : bool := match v with intValue _ => true | _ => false end.
Definition isString (v : value) : bool := match v with stringValue _ => true | _ => false end.
Definition isObject (v : value) : bool := match v with nullValue | objectValue _ => true | _ => false end.

(** [Value(const std::string &)] followed by an assignment: the copy is made by
    [duplicateStringValue] with [strlen]. *)
Definition of_string (s : bytes) : value := stringValue (c_str s).

(** Find a member ([map_->find]). *)
Fixpoint find_member (k : bytes) (m : list (bytes * value)) : option value :=
  match m with
  | [] => None
  | (k', v) :: r => if beqb k k' then Some v else find_member k r
  end.

(** Replace or insert a member at its place ([lower_bound], [insert]). *)
Fixpoint put_member (k : bytes) (v : value) (m : list (bytes * value)) : list (bytes * value) :=
  match m with
  | [] => [(k, v)]
  | (k', v') :: r =>
      if beqb k k' then (k, v) :: r
      else if strlt k k' then (k, v) :: (k', v') :: r
      else (k', v') :: put_member k v r
  end.

(** [resolveReference(key)] read as a value: [None] is the failing JSON_ASSERT; a
    member that does not exist is created as null. *)
Definition member (v : value) (k : bytes) : option value :=
  match v with
  | nullValue => Some nullValue
  | objectValue m => Some (default nullValue (find_member (c_str k) m))
  | _ => None
  end.

(** [v[key] = x] *)
Definition set_member (v : value) (k : bytes) (x : value) : option value :=
  match v with
  | nullValue => Some (objectValue [(c_str k, x)])
  | objectValue m => Some (objectValue (put_member (c_str k) x m))
  | _ => None
  end.

Definition getMemberNames (v : value) : option (list bytes) :=
  match v with
  | nullValue => Some []
  | objectValue m => Some (map fst m)
  | _ => None
  end.

(** ** Writer (json_writer.cpp) *)

Definition isControlCharacter (c : Z) : bool := (c >? 0) && (c <=? 31).

(** The digits of an unsigned int; ten rounds of the loop are enough. *)
Fixpoint uint_loop (fuel : nat) (value : Z) (acc : bytes) : bytes :=
  match fuel with
  | O => acc
  | S fuel =>
      let acc := (value mod 10 + 48) :: acc in
      let value := value / 10 in
      if nz value then uint_loop fuel value acc else acc
  end.

Definition uintToString (value : Z) : bytes := uint_loop 10 value [].

Definition valueToString_int (i : Z) : bytes :=
  if i <? 0 then 45 :: uintToString (u32 (- i)) else uintToString (u32 i).

Definition valueToString_uint (u : Z) : bytes := uintToString u.

Definition is_digit (c : Z) : bool := (c >=? 48) && (c <=? 57).

(** From position [k] down over digits: is there a decimal point? *)
Fixpoint digits_to_point (rev_prefix : bytes) : bool :=
  match rev_prefix with
  | [] => false
  | c :: r => if is_digit c then digits_to_point r else c =? 46
  end.

(** The position of the last character that is not '0', from the end; 0 if all are. *)
Fixpoint last_nonzero (rev_buf : bytes) : nat :=
  match rev_buf with
  | [] => 0
  | [_] => 0
  | c :: r => if c =? 48 then last_nonzero r else length r
  end.

Definition valueToString_double (d : double) : bytes :=
  let buffer := print_g d in
  match rev buffer with
  | 48 :: _ =>
      let k := last_nonzero (rev buffer) in
      if digits_to_point (rev (take (S k) buffer)) then take (k + 2) buffer else buffer
  | _ => buffer
  end.

Definition valueToString_bool (b : bool) : bytes := bstr (if b then "true" else "false").

Definition hexdigit (n : Z) : Z := if n <? 10 then 48 + n else 55 + n.

(** The characters that [valueToQuotedString] replaces by a letter. *)
Definition short_escape (c : Z) : option Z :=
  if c =? 34 then Some 34 else if c =? 92 then Some 92
  else if c =? 8 then Some 98 else if c =? 12 then Some 102
  else if c =? 10 then Some 110 else if c =? 13 then Some 114
  else if c =? 9 then Some 116 else None.

Definition escape_char (c : Z) : bytes :=
  match short_escape c with
  | Some e => [92; e]
  | None =>
      if isControlCharacter c
      then [92; 117; 48; 48; hexdigit ((c .>> 4) .& 15); hexdigit (c .& 15)]
      else [c]
  end.

Definition needs_escape (c : Z) : bool :=
  match short_escape c with Some _ => true | None => isControlCharacter c end.

Definition valueToQuotedString (value : bytes) : bytes :=
  if negb (existsb needs_escape value) then 34 :: value ++ [34]
  else 34 :: concat (map escape_char value) ++ [34].

(** Join the pieces with commas. *)
Fixpoint commas (l : list bytes) : bytes :=
  match l with
  | [] => []
  | [x] => x
  | x :: r => x ++ 44 :: commas r
  end.

(** [FastWriter::writeValue] *)
Fixpoint writeValue (v : value) : bytes :=
  match v with
  | nullValue => bstr "null"
  | intValue i => valueToString_int i
  | uintValue u => valueToString_uint u
  | realValue d => valueToString_double d
  | stringValue s => valueToQuotedString s
  | booleanValue b => valueToString_bool b
  | arrayValue l => 91 :: commas (map writeValue l) ++ [93]
  | objectValue m =>
      123 :: commas (map (fun '(k, x) => valueToQuotedString k ++ 58 :: writeValue x) m) ++ [125]
  end.

End Values.
End Json.
