(* ===== verification/JsonReader.v ===== *)
(** * The JSON reader (jsoncpp-src-0.5.0/src/lib_json/json_reader.cpp)

    The tokenizer and the recursive descent of [Json::Reader] with the features of
    [Features::all] (comments allowed, any root).  A position is the rest of the
    document; a token carries its text.  [currentValue()] is the argument of the
    reading functions: what the slot held before, because a failing read leaves it
    as it is or partly filled.

    The outcome of the descent is a value and the new position; [Fault] stands for
    the write outside of [decodeDouble]'s buffer, [NoFuel] for recursion that the
    fuel does not cover.  [parse] takes two units of fuel per byte of the document. *)

From S2P Require Import Prelude Json.

Module Reader.
Export Json.

(** enum TokenType *)
Inductive TokenType :=
| tokenEndOfStream | tokenObjectBegin | tokenObjectEnd | tokenArrayBegin | tokenArrayEnd
| tokenString | tokenNumber | tokenTrue | tokenFalse | tokenNull
| tokenArraySeparator | tokenMemberSeparator | tokenComment | tokenError.

#[global] Instance TokenType_eq_dec : EqDecision TokenType.
Proof. solve_decision. Defined.

Record Token := mkToken { type_ : TokenType; text_ : bytes }.

(** ** Characters *)

Definition getNextChar (cur : bytes) : Z * bytes :=
  match cur with [] => (0, []) | c :: r => (c, r) end.

Definition is_space (c : Z) : bool := (c =? 32) || (c =? 9) || (c =? 13) || (c =? 10).

Fixpoint skipSpaces (cur : bytes) : bytes :=
  match cur with
  | c :: r => if is_space c then skipSpaces r else cur
  | [] => []
  end.

(** [match(pattern)]: the position moves only when the whole pattern is there. *)
Definition match_pattern (pattern cur : bytes) : bool * bytes :=
  if beqb (take (length pattern) cur) pattern then (true, drop (length pattern) cur) else (false, cur).

(** [c == '*' && *current_ == '/'] ends the loop; the slash is read after it. *)
Fixpoint c_comment_loop (cur : bytes) : bytes :=
  match cur with
  | [] => []
  | c :: r => if (c =? 42) && (deref r =? 47) then r else c_comment_loop r
  end.

Definition readCStyleComment (cur : bytes) : bool * bytes :=
  let '(c, r) := getNextChar (c_comment_loop cur) in (c =? 47, r).

Fixpoint readCppStyleComment (cur : bytes) : bytes :=
  match cur with
  | [] => []
  | c :: r => if (c =? 13) || (c =? 10) then r else readCppStyleComment r
  end.

Definition readComment (cur : bytes) : bool * bytes :=
  let '(c, r) := getNextChar cur in
  if c =? 42 then readCStyleComment r
  else if c =? 47 then (true, readCppStyleComment r)
  else (false, r).

Definition num_char (c : Z) : bool :=
  is_digit c || (c =? 46) || (c =? 101) || (c =? 69) || (c =? 43) || (c =? 45).

Fixpoint readNumber (cur : bytes) : bytes :=
  match cur with
  | c :: r => if num_char c then readNumber r else cur
  | [] => []
  end.

(** The result tells whether the closing quote was found; an escaped character is
    read without looking at it.  [c] is the last character read. *)
Fixpoint readString_loop (c : Z) (cur : bytes) : bool * bytes :=
  match cur with
  | [] => (c =? 34, [])
  | c :: r =>
      if c =? 92 then
        match r with
        | [] => (false, [])
        | _ :: r => readString_loop c r
        end
      else if c =? 34 then (true, r)
      else readString_loop c r
  end.

Definition readString (cur : bytes) : bool * bytes := readString_loop 0 cur.

(** ** Tokens *)

(** The type for the first character, whether the token is well formed, and the
    position behind it. *)
Definition scan_token (c : Z) (cur : bytes) : TokenType * bool * bytes :=
  if c =? 123 then (tokenObjectBegin, true, cur)
  else if c =? 125 then (tokenObjectEnd, true, cur)
  else if c =? 91 then (tokenArrayBegin, true, cur)
  else if c =? 93 then (tokenArrayEnd, true, cur)
  else if c =? 34 then let '(ok, cur) := readString cur in (tokenString, ok, cur)
  else if c =? 47 then let '(ok, cur) := readComment cur in (tokenComment, ok, cur)
  else if is_digit c || (c =? 45) then (tokenNumber, true, readNumber cur)
  else if c =? 116 then let '(ok, cur) := match_pattern (bstr "rue") cur in (tokenTrue, ok, cur)
  else if c =? 102 then let '(ok, cur) := match_pattern (bstr "alse") cur in (tokenFalse, ok, cur)
  else if c =? 110 then let '(ok, cur) := match_pattern (bstr "ull") cur in (tokenNull, ok, cur)
  else if c =? 44 then (tokenArraySeparator, true, cur)
  else if c =? 58 then (tokenMemberSeparator, true, cur)
  else if c =? 0 then (tokenEndOfStream, true, cur)
  else (tokenError, false, cur).

Definition readToken (cur : bytes) : Token * bytes :=
  let start := skipSpaces cur in
  let '(c, r) := getNextChar start in
  let '(t, ok, r') := scan_token c r in
  (mkToken (if ok then t else tokenError) (take (length start - length r') start), r').

(** [do readToken while comment]; every comment has a character of the document. *)
Fixpoint skip_comments (fuel : nat) (t : Token) (cur : bytes) : Token * bytes :=
  match fuel with
  | O => (t, cur)
  | S fuel =>
      if bool_decide (type_ t = tokenComment)
      then let '(t, cur) := readToken cur in skip_comments fuel t cur
      else (t, cur)
  end.

Definition skipCommentTokens (cur : bytes) : Token * bytes :=
  let '(t, cur) := readToken cur in skip_comments (S (length cur)) t cur.

(** Read tokens up to [until] or the end of the document. *)
Fixpoint recover_loop (fuel : nat) (until : TokenType) (cur : bytes) : bytes :=
  match fuel with
  | O => cur
  | S fuel =>
      let '(t, cur) := readToken cur in
      if bool_decide (type_ t = until) || bool_decide (type_ t = tokenEndOfStream) then cur
      else recover_loop fuel until cur
  end.

Definition recoverFromError (until : TokenType) (cur : bytes) : bytes :=
  recover_loop (S (length cur)) until cur.

(** ** Strings *)

Definition hexval (c : Z) : option Z :=
  if is_digit c then Some (c - 48)
  else if (c >=? 97) && (c <=? 102) then Some (c - 97 + 10)
  else if (c >=? 65) && (c <=? 70) then Some (c - 65 + 10)
  else None.

(** Four hexadecimal digits, out of the characters before the closing quote. *)
Definition decodeUnicodeEscapeSequence (cur : bytes) : option (Z * bytes) :=
  match cur with
  | a :: b :: c :: d :: r =>
      a ← hexval a; b ← hexval b; c ← hexval c; d ← hexval d;
      Some (((a * 16 + b) * 16 + c) * 16 + d, r)
  | _ => None
  end.

Definition decodeUnicodeCodePoint (cur : bytes) : option (Z * bytes) :=
  '(u, cur) ← decodeUnicodeEscapeSequence cur;
  if (u >=? 55296) && (u <=? 56319) then
    if (length cur <? 6)%nat then None else
    match cur with
    | 92 :: 117 :: cur =>
        '(s, cur) ← decodeUnicodeEscapeSequence cur;
        Some (65536 + ((u .& 1023) .<< 10) + (s .& 1023), cur)
    | _ => None
    end
  else Some (u, cur).

Definition codePointToUTF8 (cp : Z) : bytes :=
  if cp <=? 127 then [cp]
  else if cp <=? 2047 then [192 .| (31 .& (cp .>> 6)); 128 .| (63 .& cp)]
  else if cp <=? 65535 then [224 .| (15 .& (cp .>> 12)); 128 .| (63 .& (cp .>> 6)); 128 .| (63 .& cp)]
  else if cp <=? 1114111 then
    [240 .| (7 .& (cp .>> 18)); 128 .| (63 .& (cp .>> 12)); 128 .| (63 .& (cp .>> 6)); 128 .| (63 .& cp)]
  else [].

Definition unescape (c : Z) : option Z :=
  if c =? 34 then Some 34 else if c =? 47 then Some 47 else if c =? 92 then Some 92
  else if c =? 98 then Some 8 else if c =? 102 then Some 12 else if c =? 110 then Some 10
  else if c =? 114 then Some 13 else if c =? 116 then Some 9 else None.

(** The loop over the characters between the quotes; every round reads one. *)
Fixpoint decode_loop (fuel : nat) (cur decoded : bytes) : option bytes :=
  match fuel with
  | O => Some decoded
  | S fuel =>
      match cur with
      | [] => Some decoded
      | c :: cur =>
          if c =? 34 then Some decoded
          else if c =? 92 then
            match cur with
            | [] => None
            | e :: cur =>
                if e =? 117 then
                  '(u, cur) ← decodeUnicodeCodePoint cur;
                  decode_loop fuel cur (decoded ++ codePointToUTF8 u)
                else
                  match unescape e with
                  | Some x => decode_loop fuel cur (decoded ++ [x])
                  | None => None
                  end
            end
          else decode_loop fuel cur (decoded ++ [c])
      end
  end.

(** The text of the token without its first and last character. *)
Definition decodeString (t : Token) : option bytes :=
  let inner := take (length (text_ t) - 2) (drop 1 (text_ t)) in
  decode_loop (S (length inner)) inner [].

Section Parse.
Context `{CDouble}.

(** ** Numbers *)

Inductive numres := NumFault | NumBad | NumOk (v : value).

(** [Char buffer[32]]: a text of exactly 32 characters puts its NUL behind the
    buffer. *)
Definition decodeDouble (text : bytes) : numres :=
  if (length text =? 32)%nat then NumFault
  else match scan_lf text with Some d => NumOk (realValue d) | None => NumBad end.

Definition double_char (c : Z) : bool := (c =? 46) || (c =? 101) || (c =? 69) || (c =? 43).

Fixpoint int_loop (threshold value : Z) (cur : bytes) : option (Z + unit) :=
  match cur with
  | [] => Some (inl value)
  | c :: r =>
      if negb (is_digit c) then None
      else if value >=? threshold then Some (inr tt)
      else int_loop threshold (u32 (value * 10 + (c - 48))) r
  end.

Definition decodeNumber (text : bytes) : numres :=
  if existsb double_char text || existsb (Z.eqb 45) (drop 1 text) then decodeDouble text else
  let neg := deref text =? 45 in
  let threshold := (if neg then - minInt else maxUInt) / 10 in
  match int_loop threshold 0 (if neg then drop 1 text else text) with
  | None => NumBad
  | Some (inr _) => decodeDouble text
  | Some (inl value) =>
      NumOk (if neg then intValue (- value)
             else if value <=? maxInt then intValue value else uintValue value)
  end.

(** ** The descent *)

Inductive outcome :=
| Fault
| NoFuel
| Read (ok : bool) (v : value) (cur : bytes).

(** One round of [Reader::readObject], with the members read so far and the last name. *)
Definition next_member (readValue : value -> bytes -> outcome) (readObject : list (bytes * value) -> bytes -> bytes -> outcome)
    (m : list (bytes * value)) (name cur : bytes) : outcome :=
  let fail cur := Read false (objectValue m) (recoverFromError tokenObjectEnd cur) in
  let '(t, cur) := skipCommentTokens cur in
  if bool_decide (type_ t = tokenObjectEnd) && beqb name [] then Read true (objectValue m) cur
  else if negb (bool_decide (type_ t = tokenString)) then fail cur
  else
    match decodeString t with
    | None => fail cur
    | Some name =>
        let '(colon, cur) := readToken cur in
        if negb (bool_decide (type_ colon = tokenMemberSeparator)) then fail cur
        else
          match readValue (default nullValue (find_member (c_str name) m)) cur with
          | Read ok v cur =>
              let m := put_member (c_str name) v m in
              let fail cur := Read false (objectValue m) (recoverFromError tokenObjectEnd cur) in
              if negb ok then fail cur
              else
                let '(comma, cur) := readToken cur in
                if negb (bool_decide (type_ comma = tokenObjectEnd)) &&
                   negb (bool_decide (type_ comma = tokenArraySeparator)) &&
                   negb (bool_decide (type_ comma = tokenComment))
                then fail cur
                else
                  let '(comma, cur) := skip_comments (S (length cur)) comma cur in
                  if bool_decide (type_ comma = tokenObjectEnd) then Read true (objectValue m) cur
                  else readObject m name cur
          | o => o
          end
    end.

(** One round of [Reader::readArray], with the elements read so far. *)
Definition next_element (readValue : value -> bytes -> outcome) (readArray : list value -> bytes -> outcome)
    (l : list value) (cur : bytes) : outcome :=
  match readValue nullValue cur with
  | Read ok v cur =>
      let l := l ++ [v] in
      if negb ok then Read false (arrayValue l) (recoverFromError tokenArrayEnd cur)
      else
        let '(t, cur) := skipCommentTokens cur in
        (* badTokenType asks for two types at once and is always false *)
        if bool_decide (type_ t = tokenArrayEnd) then Read true (arrayValue l) cur
        else readArray l cur
  | o => o
  end.

(** [readValue] for the slot holding [old], [readObject] from the next member on
    with the members read so far and the last name, [readArray] from the next
    element on with the elements read so far. *)
Fixpoint readValue (fuel : nat) (old : value) (cur : bytes) : outcome :=
  match fuel with
  | O => NoFuel
  | S fuel =>
      let '(t, cur) := skipCommentTokens cur in
      match type_ t with
      | tokenObjectBegin => readObject fuel [] [] cur
      | tokenArrayBegin =>
          let cur := skipSpaces cur in
          if deref cur =? 93 then Read true (arrayValue []) (readToken cur).2
          else readArray fuel [] cur
      | tokenNumber =>
          match decodeNumber (text_ t) with
          | NumFault => Fault
          | NumBad => Read false old cur
          | NumOk v => Read true v cur
          end
      | tokenString =>
          match decodeString t with
          | None => Read false old cur
          | Some s => Read true (of_string s) cur
          end
      | tokenTrue => Read true (booleanValue true) cur
      | tokenFalse => Read true (booleanValue false) cur
      | tokenNull => Read true nullValue cur
      | _ => Read false old cur
      end
  end
with readObject (fuel : nat) (m : list (bytes * value)) (name cur : bytes) : outcome :=
  match fuel with
  | O => NoFuel
  | S fuel => next_member (readValue fuel) (readObject fuel) m name cur
  end
with readArray (fuel : nat) (l : list value) (cur : bytes) : outcome :=
  match fuel with
  | O => NoFuel
  | S fuel => next_element (readValue fuel) (readArray fuel) l cur
  end.

(** [Reader::parse(document, root)]: the token behind the root is read and ignored. *)
Definition parse (doc : bytes) : outcome := readValue (2 * length doc + 2) nullValue doc.

End Parse.
End Reader.
