(* ===== verification/JsonFacts.v ===== *)
(** * Facts about the JSON reader

    Every position the reader moves to is a suffix of the one it came from, strictly
    shorter after a token; so its loops and its recursion end within their fuel.
    The only way to a memory error is a number of 32 characters. *)

From S2P Require Import Prelude Json JsonReader.

Module ReaderFacts.
Export Reader.

(** ** Positions *)

Lemma suffix_length {A} (l k : list A) : l `suffix_of` k -> (length l <= length k)%nat.
Proof. intros [x ->]. rewrite length_app. lia. Qed.

Lemma suffix_cons_l {A} (x : A) l k : l `suffix_of` k -> l `suffix_of` (x :: k).
Proof. intros [y ->]. by exists (x :: y). Qed.

Create HintDb json.
#[local] Hint Resolve suffix_cons_l suffix_nil : json.
#[local] Hint Extern 1 (?l `suffix_of` ?l) => reflexivity : json.

Lemma skipSpaces_suffix cur : skipSpaces cur `suffix_of` cur.
Proof. induction cur as [|c r IH]; cbn; [done|]. case_match; auto with json. Qed.

Lemma match_suffix p cur : (match_pattern p cur).2 `suffix_of` cur.
Proof. unfold match_pattern. case_match; cbn; [|done]. exists (take (length p) cur). by rewrite take_drop. Qed.

Lemma comment_loop_suffix cur : c_comment_loop cur `suffix_of` cur.
Proof. induction cur as [|c r IH]; cbn; [done|]. case_match; auto with json. Qed.

Lemma getNextChar_suffix cur : (getNextChar cur).2 `suffix_of` cur.
Proof. destruct cur; cbn; auto with json. Qed.

Lemma cpp_comment_suffix cur : readCppStyleComment cur `suffix_of` cur.
Proof. induction cur as [|c r IH]; cbn; [done|]. case_match; auto with json. Qed.

Lemma readComment_suffix cur : (readComment cur).2 `suffix_of` cur.
Proof.
  unfold readComment, readCStyleComment. pose proof (getNextChar_suffix cur) as Hn.
  destruct (getNextChar cur) as [c r]. cbn [snd] in Hn. destruct (c =? 42); [|destruct (c =? 47)]; cbn [snd].
  - pose proof (getNextChar_suffix (c_comment_loop r)) as Hc. destruct (getNextChar (c_comment_loop r)) as [c' r'].
    cbn [snd] in *. etrans; [exact Hc|]. etrans; [apply comment_loop_suffix|done].
  - etrans; [apply cpp_comment_suffix|done].
  - done.
Qed.

Lemma readNumber_suffix cur : readNumber cur `suffix_of` cur.
Proof. induction cur as [|c r IH]; cbn; [done|]. case_match; auto with json. Qed.

Lemma list_len_ind {A} (P : list A -> Prop) :
  (forall l, (forall k, (length k < length l)%nat -> P k) -> P l) -> forall l, P l.
Proof.
  intros Hs. assert (Hn : forall n l, (length l < n)%nat -> P l).
  { induction n as [|n IH]; intros l Hl; [lia|]. apply Hs. intros k Hk. apply IH. lia. }
  intros l. apply (Hn (S (length l))). lia.
Qed.

Lemma readString_suffix cur : forall c, (readString_loop c cur).2 `suffix_of` cur.
Proof.
  induction cur as [cur IH] using list_len_ind. intros c0. destruct cur as [|c r]; cbn; [done|].
  case_match; [destruct r as [|x r]|case_match]; cbn; auto with json.
  do 2 apply suffix_cons_l. apply IH. cbn. lia.
Qed.

Lemma scan_token_suffix c cur : (scan_token c cur).2 `suffix_of` cur.
Proof.
  unfold scan_token, readString.
  pose proof (readString_suffix cur 0) as H1. pose proof (readComment_suffix cur) as H2.
  pose proof (match_suffix (bstr "rue") cur) as H3. pose proof (match_suffix (bstr "alse") cur) as H4.
  pose proof (match_suffix (bstr "ull") cur) as H5. pose proof (readNumber_suffix cur).
  destruct (readString_loop 0 cur), (readComment cur), (match_pattern (bstr "rue") cur),
    (match_pattern (bstr "alse") cur), (match_pattern (bstr "ull") cur). cbn [snd] in *.
  by repeat (match goal with |- context [if ?b then _ else _] => destruct b end; [done|]).
Qed.

(** A token moves the position to a suffix; unless it is the end of the stream, a
    character was read; the text of the token is what was passed. *)
Lemma readToken_spec cur t cur' : readToken cur = (t, cur') -> cur' `suffix_of` cur /\
  (type_ t <> tokenEndOfStream -> (length cur' < length cur)%nat) /\
  (exists pre, cur = pre ++ text_ t ++ cur').
Proof.
  unfold readToken. pose proof (skipSpaces_suffix cur) as Hs. set (start := skipSpaces cur) in *. clearbody start.
  pose proof (getNextChar_suffix start) as Hg. destruct (getNextChar start) as [c r] eqn:Eg. cbn [snd] in Hg.
  pose proof (scan_token_suffix c r) as Ht. destruct (scan_token c r) as [[ty ok] r'] eqn:Et. cbn [snd] in Ht.
  intros E. injection E as <- <-. cbn [type_ text_].
  assert (Hsr : r' `suffix_of` start) by (by etrans). split; [by etrans|]. split.
  - intros Hne. pose proof (suffix_length _ _ Hs). pose proof (suffix_length _ _ Ht).
    destruct start as [|x start]; cbn in Eg; injection Eg as <- <-; [|cbn [length] in *; lia].
    cbn in Et. by injection Et as <- <- <-.
  - destruct Hs as [p1 ->], Hsr as [p2 ->]. exists p1. f_equal. rewrite length_app.
    replace (length p2 + length r' - length r')%nat with (length p2) by lia. by rewrite take_app_length.
Qed.

(** ** The loops over tokens *)

(** A result of reading comments: not a comment, and at a suffix. *)
Lemma skip_comments_spec fuel : forall t cur t' cur', (length cur < fuel)%nat ->
  skip_comments fuel t cur = (t', cur') -> type_ t' <> tokenComment /\ cur' `suffix_of` cur /\
  (t' = t /\ cur' = cur \/ (type_ t' <> tokenEndOfStream -> (length cur' < length cur)%nat) /\
     exists pre, cur = pre ++ text_ t' ++ cur').
Proof.
  induction fuel as [|fuel IH]; intros t cur t' cur' Hf E; [lia|]. cbn in E.
  destruct (decide (type_ t = tokenComment)) as [Hc|Hc];
    [rewrite bool_decide_true in E by done|rewrite bool_decide_false in E by done; injection E as <- <-; auto].
  destruct (readToken cur) as [t1 cur1] eqn:E1. destruct (readToken_spec _ _ _ E1) as (S1 & L1 & [pre P1]).
  destruct (decide (type_ t1 = tokenEndOfStream)) as [He|He].
  - assert (E2 : skip_comments fuel t1 cur1 = (t1, cur1)).
    { destruct fuel; cbn; [done|]. rewrite bool_decide_false; [done|]. congruence. }
    rewrite E2 in E. injection E as <- <-. split; [by rewrite He|]. split; [done|]. right. split; [done|by exists pre].
  - specialize (L1 He). destruct (IH t1 cur1 t' cur' ltac:(lia) E) as (N & S2 & D).
    split; [done|]. split; [by etrans|]. right. destruct D as [[-> ->]|[L2 [p P2]]]; [by eauto|].
    split; [intros Hn; specialize (L2 Hn); lia|]. exists (pre ++ text_ t1 ++ p). by rewrite P1, P2, <- !app_assoc.
Qed.

Lemma skipCommentTokens_spec cur t cur' : skipCommentTokens cur = (t, cur') ->
  type_ t <> tokenComment /\ cur' `suffix_of` cur /\
  (type_ t <> tokenEndOfStream -> (length cur' < length cur)%nat) /\ (exists pre, cur = pre ++ text_ t ++ cur').
Proof.
  unfold skipCommentTokens. destruct (readToken cur) as [t1 cur1] eqn:E1.
  destruct (readToken_spec _ _ _ E1) as (S1 & L1 & [pre P1]). intros E.
  destruct (skip_comments_spec _ _ _ _ _ (Nat.lt_succ_diag_r _) E) as (N & S2 & D).
  split; [done|]. split; [by etrans|]. destruct D as [[-> ->]|[L2 [p P2]]]; [by eauto|].
  split; [intros Hn; specialize (L2 Hn); pose proof (suffix_length _ _ S1); lia|].
  exists (pre ++ text_ t1 ++ p). by rewrite P1, P2, <- !app_assoc.
Qed.

Lemma recover_suffix fuel until : forall cur, recover_loop fuel until cur `suffix_of` cur.
Proof.
  induction fuel as [|fuel IH]; intros cur; cbn; [done|].
  destruct (readToken cur) as [t cur1] eqn:E. destruct (readToken_spec _ _ _ E) as (S1 & _).
  case_match; [done|]. etrans; [apply IH|done].
Qed.

(** More fuel does not change a recovery. *)
Lemma recover_more until fuel : forall cur more, (length cur < fuel)%nat ->
  recover_loop (fuel + more) until cur = recover_loop fuel until cur.
Proof.
  induction fuel as [|fuel IH]; intros cur more Hf; [lia|]. cbn.
  destruct (readToken cur) as [t cur1] eqn:E. destruct (readToken_spec _ _ _ E) as (_ & L & _).
  destruct (bool_decide (type_ t = until)); [done|]. destruct (decide (type_ t = tokenEndOfStream)) as [He|He].
  - by rewrite bool_decide_true.
  - rewrite bool_decide_false by done. cbn. apply IH. specialize (L He). lia.
Qed.

(** ** Numbers *)

(** No 32 characters in a row could be (a part of) a number. *)
Definition NoLongNumber (doc : bytes) : Prop :=
  forall pre t post, doc = pre ++ t ++ post -> length t = 32%nat -> forallb num_char t = false.

Lemma long_number_suffix doc cur : cur `suffix_of` doc -> NoLongNumber doc -> NoLongNumber cur.
Proof. intros [p ->] Hn pre t post ->. apply (Hn (p ++ pre) t post). by rewrite <- app_assoc. Qed.

Lemma readNumber_text cur : exists t, cur = t ++ readNumber cur /\ forallb num_char t = true.
Proof.
  induction cur as [|c r [t [E F]]]; cbn; [by exists []|].
  destruct (num_char c) eqn:Ec; [|by exists []]. exists (c :: t). cbn. by rewrite <- E, Ec.
Qed.

Lemma readToken_number cur t cur' : readToken cur = (t, cur') -> type_ t = tokenNumber ->
  forallb num_char (text_ t) = true.
Proof.
  unfold readToken. set (start := skipSpaces cur). clearbody start.
  destruct start as [|c r]; cbn [getNextChar]; [by intros E; injection E as <- <-|].
  destruct (scan_token c r) as [[ty ok] r'] eqn:Et. intros E. injection E as <- <-. cbn [type_ text_].
  destruct ok; [intros ->|done]. revert Et. unfold scan_token.
  repeat match goal with |- context [if c =? ?k then _ else _] => destruct (c =? k); [
      try (destruct (readString r) as [? ?]); try (destruct (readComment r) as [? ?]);
      try (destruct (match_pattern _ r) as [? ?]); done|] end.
  destruct (is_digit c || (c =? 45)) eqn:Ed.
  - intros E. injection E as <-. destruct (readNumber_text r) as (t & Et & Ft). set (r1 := readNumber r) in *.
    clearbody r1. subst r.
    change (c :: t ++ r1) with ((c :: t) ++ r1). rewrite length_app.
    replace (_ - length r1)%nat with (length (c :: t)) by (cbn; lia).
    rewrite take_app_length. cbn. rewrite Ft, andb_true_r. unfold num_char.
    apply orb_true_iff in Ed as [->| ->]; [done|]. by rewrite !orb_true_r.
  - repeat match goal with |- context [if c =? ?k then _ else _] => destruct (c =? k); [
      try (destruct (match_pattern _ r) as [? ?]); done|] end. done.
Qed.

(** The token behind the comments was read somewhere. *)
Lemma skip_comments_read fuel : forall t cur t' cur', skip_comments fuel t cur = (t', cur') ->
  t' = t \/ exists c c', readToken c = (t', c').
Proof.
  induction fuel as [|fuel IH]; intros t cur t' cur' E; cbn in E; [injection E as <- <-; by left|].
  case_match; [|injection E as <- <-; by left]. destruct (readToken cur) as [t1 cur1] eqn:E1.
  destruct (IH _ _ _ _ E) as [->|?]; eauto.
Qed.

Lemma skipCommentTokens_read cur t cur' : skipCommentTokens cur = (t, cur') -> exists c c', readToken c = (t, c').
Proof.
  unfold skipCommentTokens. destruct (readToken cur) as [t1 c1] eqn:E1. intros E.
  destruct (skip_comments_read _ _ _ _ _ E) as [->|?]; eauto.
Qed.

Section Descent.
Context `{CDouble}.

Lemma decodeNumber_fault text : decodeNumber text = NumFault -> length text = 32%nat.
Proof.
  assert (Hd : decodeDouble text = NumFault -> length text = 32%nat).
  { unfold decodeDouble. destruct (length text =? 32)%nat eqn:E; [by apply Nat.eqb_eq in E|]. by case_match. }
  unfold decodeNumber. destruct (existsb double_char text || _); [done|].
  destruct (int_loop _ _ _) as [[?|?]|]; [by destruct (deref text =? 45)|done..].
Qed.

(** ** The recursion ends and moves forward *)

Definition forward (cur : bytes) (o : outcome) : Prop :=
  match o with
  | NoFuel => False
  | Fault => ~ NoLongNumber cur
  | Read ok _ cur' => cur' `suffix_of` cur /\ (ok = true -> (length cur' < length cur)%nat)
  end.

Lemma forward_suffix cur cur' o : cur' `suffix_of` cur -> forward cur' o -> forward cur o.
Proof.
  intros Hs. destruct o as [| |ok v c]; cbn; [|done|].
  - intros Hn Hc. apply Hn. by apply (long_number_suffix cur).
  - intros [S1 L1]. split; [by etrans|]. intros Hok. specialize (L1 Hok). pose proof (suffix_length _ _ Hs). lia.
Qed.

Lemma recovered cur cur' v until : cur' `suffix_of` cur ->
  forward cur (Read false v (recoverFromError until cur')).
Proof. intros Hs. split; [|done]. etrans; [apply recover_suffix|done]. Qed.

(** What each function needs: two units per byte, and one more for the loops. *)
Definition Enough (fuel : nat) : Prop :=
  (forall old cur, (2 * length cur + 1 <= fuel)%nat -> forward cur (readValue fuel old cur)) /\
  (forall m name cur, (2 * length cur + 2 <= fuel)%nat -> forward cur (readObject fuel m name cur)) /\
  (forall l cur, (2 * length cur + 2 <= fuel)%nat -> forward cur (readArray fuel l cur)).

Lemma readValue_enough fuel old cur : Enough fuel -> (2 * length cur + 1 <= S fuel)%nat ->
  forward cur (readValue (S fuel) old cur).
Proof.
  intros (_ & HO & HA) Hf. cbn [readValue]. destruct (skipCommentTokens cur) as [t cur1] eqn:E.
  destruct (skipCommentTokens_spec _ _ _ E) as (Nc & S1 & L1 & [pre P1]).
  assert (Hr : forall ok v, (ok = true -> type_ t <> tokenEndOfStream) -> forward cur (Read ok v cur1))
    by (intros ok v Hok; split; [done|auto]).
  destruct (type_ t) eqn:Et; try (apply Hr; congruence); specialize (L1 ltac:(congruence)).
  - apply (forward_suffix _ cur1); [done|]. apply HO. lia.
  - pose proof (skipSpaces_suffix cur1) as S2. pose proof (suffix_length _ _ S2).
    assert (S3 : skipSpaces cur1 `suffix_of` cur) by (by etrans).
    destruct (deref (skipSpaces cur1) =? 93).
    + destruct (readToken (skipSpaces cur1)) as [t2 cur2] eqn:E2. destruct (readToken_spec _ _ _ E2) as (S4 & _).
      cbn. pose proof (suffix_length _ _ S4). split; [by etrans|lia].
    + apply (forward_suffix _ _ _ S3). apply HA. lia.
  - case_match; apply Hr; congruence.
  - destruct (decodeNumber (text_ t)) eqn:En; [|apply Hr; congruence..].
    cbn. intros Hn. apply decodeNumber_fault in En.
    destruct (skipCommentTokens_read _ _ _ E) as (c & c' & Er). pose proof (readToken_number _ _ _ Er Et) as Hnum.
    by rewrite (Hn pre _ cur1 P1 En) in Hnum.
Qed.

Lemma readArray_enough fuel l cur : Enough fuel -> (2 * length cur + 2 <= S fuel)%nat ->
  forward cur (readArray (S fuel) l cur).
Proof.
  intros (HV & _ & HA) Hf. cbn [readArray]; unfold next_element. pose proof (HV nullValue cur ltac:(lia)) as Hv.
  destruct (readValue fuel nullValue cur) as [| |ok v cur1]; [done..|]. destruct Hv as [S1 L1].
  destruct ok; cbn [negb]; [|by apply recovered].
  specialize (L1 eq_refl). destruct (skipCommentTokens cur1) as [t cur2] eqn:E.
  destruct (skipCommentTokens_spec _ _ _ E) as (_ & S2 & _). pose proof (suffix_length _ _ S2).
  assert (S3 : cur2 `suffix_of` cur) by (by etrans).
  case_match; [split; [done|lia]|]. apply (forward_suffix _ _ _ S3). apply HA. lia.
Qed.

Lemma readObject_enough fuel m name cur : Enough fuel -> (2 * length cur + 2 <= S fuel)%nat ->
  forward cur (readObject (S fuel) m name cur).
Proof.
  intros (HV & HO & _) Hf. cbn [readObject]; unfold next_member. destruct (skipCommentTokens cur) as [t cur1] eqn:E1.
  destruct (skipCommentTokens_spec _ _ _ E1) as (_ & S1 & L1 & _).
  destruct (bool_decide (type_ t = tokenObjectEnd) && beqb name []) eqn:Ee.
  { apply andb_prop in Ee as [Ee%bool_decide_eq_true _]. split; [done|]. intros _. apply L1. congruence. }
  destruct (decide (type_ t = tokenString)) as [Ht|Ht];
    [rewrite bool_decide_true by done|rewrite bool_decide_false by done; by apply recovered].
  specialize (L1 ltac:(congruence)). cbn [negb]. destruct (decodeString t) as [nm|]; [|by apply recovered].
  destruct (readToken cur1) as [colon cur2] eqn:E2. destruct (readToken_spec _ _ _ E2) as (S2 & _).
  assert (S02 : cur2 `suffix_of` cur) by (by etrans). pose proof (suffix_length _ _ S2).
  destruct (bool_decide (type_ colon = _)); [|by apply recovered]. cbn [negb].
  set (old := default nullValue _). pose proof (HV old cur2 ltac:(lia)) as Hv.
  destruct (readValue fuel old cur2) as [| |ok v cur3].
  { by apply (forward_suffix _ _ _ S02). }
  { done. }
  destruct Hv as [S3 L3]. assert (S03 : cur3 `suffix_of` cur) by (by etrans).
  destruct ok; cbn [negb]; [|by apply recovered]. specialize (L3 eq_refl).
  destruct (readToken cur3) as [comma cur4] eqn:E4. destruct (readToken_spec _ _ _ E4) as (S4 & _).
  assert (S04 : cur4 `suffix_of` cur) by (by etrans). case_match; [by apply recovered|].
  destruct (skip_comments _ comma cur4) as [comma' cur5] eqn:E5.
  destruct (skip_comments_spec _ _ _ _ _ (Nat.lt_succ_diag_r _) E5) as (_ & S5 & _).
  assert (S05 : cur5 `suffix_of` cur) by (by etrans).
  pose proof (suffix_length _ _ S4). pose proof (suffix_length _ _ S5).
  case_match; [split; [done|lia]|]. apply (forward_suffix _ _ _ S05). apply HO. lia.
Qed.

Lemma enough fuel : Enough fuel.
Proof.
  induction fuel as [|fuel IH]; [split_and!; intros; lia|]. split_and!; intros.
  - by apply readValue_enough.
  - by apply readObject_enough.
  - by apply readArray_enough.
Qed.

Lemma parse_forward doc : forward doc (parse doc).
Proof. apply (enough (2 * length doc + 2)). lia. Qed.

(** Once the fuel is enough for a result, more of it gives the same result. *)
Definition Stable (fuel : nat) : Prop := forall k,
  (forall old cur, readValue fuel old cur <> NoFuel -> readValue (fuel + k) old cur = readValue fuel old cur) /\
  (forall m name cur, readObject fuel m name cur <> NoFuel ->
     readObject (fuel + k) m name cur = readObject fuel m name cur) /\
  (forall l cur, readArray fuel l cur <> NoFuel -> readArray (fuel + k) l cur = readArray fuel l cur).

Lemma stable fuel : Stable fuel.
Proof.
  induction fuel as [|fuel IH]; intros k; [done|]. destruct (IH k) as (HV & HO & HA). split_and!.
  - intros old cur. cbn [readValue Nat.add]. destruct (skipCommentTokens cur) as [t cur1].
    destruct (type_ t); auto. destruct (deref _ =? 93); auto.
  - intros m name cur. cbn [readObject Nat.add]; unfold next_member. destruct (skipCommentTokens cur) as [t cur1].
    do 2 (case_match; [done|]). destruct (decodeString t) as [nm|]; [|done].
    destruct (readToken cur1) as [colon cur2]. case_match; [done|].
    set (old := default _ _). intros Hn. specialize (HV old cur2).
    destruct (readValue fuel old cur2) as [| |ok v cur3]; [by rewrite HV|done|]. rewrite HV by done.
    destruct ok; [|done]. destruct (readToken cur3) as [comma cur4]. cbn [negb] in *. case_match; [done|].
    destruct (skip_comments _ comma cur4) as [comma' cur5]. case_match; [done|]. by apply HO.
  - intros l cur. cbn [readArray Nat.add]; unfold next_element. intros Hn. specialize (HV nullValue cur).
    destruct (readValue fuel nullValue cur) as [| |ok v cur1]; [by rewrite HV|done|]. rewrite HV by done.
    destruct ok; [|done]. destruct (skipCommentTokens cur1) as [t cur2]. cbn [negb] in *.
    case_match; [done|]. by apply HA.
Qed.

End Descent.

End ReaderFacts.
