(* ===== verification/JsonProps.v ===== *)
(** * Properties of the JSON reader and writer

    The reader ends on every document and stays inside its buffers unless a number
    has exactly 32 characters; what the writer produced it reads back. *)

From stdpp Require Import sorting.
From S2P Require Import Prelude Json JsonReader JsonFacts.

Module JsonProps.
Export ReaderFacts.

(** ** Quoted strings *)

Definition escaped (s : bytes) : bytes := concat (map escape_char s).

(** The short cut for strings without special characters changes nothing. *)
Lemma quoted_escaped s : valueToQuotedString s = 34 :: escaped s ++ [34].
Proof.
  unfold valueToQuotedString. destruct (existsb needs_escape s) eqn:E; [done|]. cbn [negb]. do 2 f_equal.
  induction s as [|c s IH]; [done|]. cbn [existsb] in E. apply orb_false_elim in E as [Ec E].
  cbn [escaped map concat]. fold (escaped s). rewrite <- (IH E). unfold needs_escape in Ec. unfold escape_char.
  destruct (short_escape c); [done|]. by rewrite Ec.
Qed.

(** A string that a [char *] can hold. *)
Definition Text (s : bytes) : Prop := Forall (fun c => 0 < c < 256) s.

(** The shape of an escaped character: a letter after a backslash, a \u sequence,
    or the character itself. *)
Definition escape_shape (c : Z) : bool :=
  (c =? 0) ||
  match escape_char c with
  | [x] => (x =? c) && negb (c =? 34) && negb (c =? 92)
  | [b; e] => (b =? 92) && negb (e =? 117) && bool_decide (unescape e = Some c)
  | [b; u; z1; z2; h; l] =>
      (b =? 92) && (u =? 117) && (z1 =? 48) && (z2 =? 48) && (c <=? 127) &&
      negb (h =? 34) && negb (h =? 92) && negb (l =? 34) && negb (l =? 92) &&
      bool_decide ((h' ← hexval h; l' ← hexval l; Some (h' * 16 + l')) = Some c)
  | _ => false
  end.

Lemma escape_shape_ok c : is_u8 c -> escape_shape c = true.
Proof. apply forall_u8. vm_compute. reflexivity. Qed.

Ltac decided Hd := match goal with Hb : bool_decide _ = true |- _ => apply bool_decide_eq_true in Hb; rename Hb into Hd end.

(** One escaped character, for the scanner ... *)
Lemma readString_escape c r c0 : 0 < c < 256 ->
  exists c1, readString_loop c0 (escape_char c ++ r) = readString_loop c1 r.
Proof.
  intros Hc. assert (Hs := escape_shape_ok c ltac:(unfold is_u8; lia)). unfold escape_shape in Hs.
  rewrite (proj2 (Z.eqb_neq c 0)) in Hs by lia. cbn [orb] in Hs.
  destruct (escape_char c) as [|x [|e [|z1 [|z2 [|h [|l [|? ?]]]]]]]; try done.
  - zbool. subst. exists c. cbn. by rewrite (proj2 (Z.eqb_neq c 92)), (proj2 (Z.eqb_neq c 34)) by done.
  - zbool. subst. by exists 92.
  - zbool. subst. exists l. cbn. by rewrite !(proj2 (Z.eqb_neq _ _)) by done.
Qed.

Lemma readString_escaped s r : Text s -> forall c0, readString_loop c0 (escaped s ++ 34 :: r) = (true, r).
Proof.
  induction 1 as [|c s Hc _ IH]; intros c0; [done|]. cbn [escaped map concat]. fold (escaped s).
  rewrite <- app_assoc. destruct (readString_escape c (escaped s ++ 34 :: r) c0 Hc) as [c1 ->]. apply IH.
Qed.

(** ... and for the decoder. *)
Lemma decode_u00 fuel h l c r acc : (h' ← hexval h; l' ← hexval l; Some (h' * 16 + l')) = Some c -> 0 <= c < 256 ->
  decode_loop (S fuel) (92 :: 117 :: 48 :: 48 :: h :: l :: r) acc = decode_loop fuel r (acc ++ codePointToUTF8 c).
Proof.
  intros Hd Hc. destruct (hexval h) as [h'|] eqn:Eh; [|done]. cbn in Hd. destruct (hexval l) as [l'|] eqn:El; [|done].
  injection Hd as Hd.
  assert (Eu : decodeUnicodeEscapeSequence (48 :: 48 :: h :: l :: r) = Some (c, r)).
  { unfold decodeUnicodeEscapeSequence. rewrite Eh, El. change (hexval 48) with (Some 0).
    cbn [mbind option_bind]. f_equal. f_equal. lia. }
  cbn [app decode_loop Z.eqb Pos.eqb]. unfold decodeUnicodeCodePoint. rewrite Eu. cbn [mbind option_bind].
  by replace ((c >=? 55296) && (c <=? 56319)) with false by lia.
Qed.

Lemma decode_escape fuel c r acc : 0 < c < 256 ->
  decode_loop (S fuel) (escape_char c ++ r) acc = decode_loop fuel r (acc ++ [c]).
Proof.
  intros Hc. assert (Hs := escape_shape_ok c ltac:(unfold is_u8; lia)). unfold escape_shape in Hs.
  rewrite (proj2 (Z.eqb_neq c 0)) in Hs by lia. cbn [orb] in Hs.
  destruct (escape_char c) as [|x [|e [|z1 [|z2 [|h [|l [|? ?]]]]]]]; try done.
  - zbool. subst. cbn. by rewrite (proj2 (Z.eqb_neq c 34)), (proj2 (Z.eqb_neq c 92)) by done.
  - zbool. subst. decided Hd. cbn. by rewrite (proj2 (Z.eqb_neq e 117)), Hd by done.
  - zbool. subst. decided Hd.
    cbn [app]. rewrite (decode_u00 fuel h l c r acc) by (done || lia). unfold codePointToUTF8. by rewrite (proj2 (Z.leb_le c 127)) by done.
Qed.

Lemma decode_escaped s : Text s -> forall fuel acc, (length s < fuel)%nat ->
  decode_loop fuel (escaped s) acc = Some (acc ++ s).
Proof.
  induction 1 as [|c s Hc _ IH]; intros fuel acc Hf; destruct fuel as [|fuel]; try (cbn in Hf; lia).
  - by rewrite app_nil_r.
  - cbn [escaped map concat]. fold (escaped s). rewrite decode_escape, IH by (done || cbn in Hf; lia).
    by rewrite <- app_assoc.
Qed.

Lemma length_escaped s : (length s <= length (escaped s))%nat.
Proof.
  induction s as [|c s IH]; [done|]. cbn [escaped map concat]. fold (escaped s). rewrite length_app. cbn [length].
  unfold escape_char. repeat case_match; cbn [length]; lia.
Qed.

(** ** Tokens of the writer *)

Lemma readToken_text c body r ty : is_space c = false -> scan_token c (body ++ r) = (ty, true, r) ->
  readToken (c :: body ++ r) = (mkToken ty (c :: body), r).
Proof.
  intros Hs Ht. unfold readToken. cbn [skipSpaces]. rewrite Hs. cbn [getNextChar]. rewrite Ht. do 2 f_equal.
  change (c :: body ++ r) with ((c :: body) ++ r). rewrite length_app.
  replace (_ - length r)%nat with (length (c :: body)) by lia. apply take_app_length.
Qed.

Lemma skipCommentTokens_text c body r ty : is_space c = false -> ty <> tokenComment ->
  scan_token c (body ++ r) = (ty, true, r) -> skipCommentTokens (c :: body ++ r) = (mkToken ty (c :: body), r).
Proof.
  intros Hs Hc Ht. unfold skipCommentTokens. rewrite (readToken_text c body r ty Hs Ht). cbn [skip_comments type_].
  by rewrite bool_decide_false.
Qed.

(** Reading a quoted string. *)
Lemma readToken_quoted s r : Text s ->
  readToken (valueToQuotedString s ++ r) = (mkToken tokenString (valueToQuotedString s), r) /\
  decodeString (mkToken tokenString (valueToQuotedString s)) = Some s.
Proof.
  intros Hs. rewrite quoted_escaped. split.
  - apply (readToken_text 34 (escaped s ++ [34]) r); [done|]. unfold scan_token, readString. cbn [Z.eqb Pos.eqb].
    rewrite <- app_assoc. cbn [app]. by rewrite readString_escaped.
  - unfold decodeString. cbn [text_]. cbn [drop length]. rewrite length_app. cbn [length].
    replace (_ - 2)%nat with (length (escaped s)) by lia. change (drop 0 ?x) with x. rewrite take_app_length.
    rewrite decode_escaped; [done..|]. pose proof (length_escaped s). lia.
Qed.

(** ** Numbers *)

Lemma uint_loop_digits fuel : forall n acc, 0 <= n -> forallb is_digit acc = true ->
  forallb is_digit (uint_loop fuel n acc) = true.
Proof.
  induction fuel as [|fuel IH]; intros n acc Hn Ha; [done|]. cbn [uint_loop].
  assert (Hd : forallb is_digit ((n mod 10 + 48) :: acc) = true).
  { cbn. rewrite Ha, andb_true_r. unfold is_digit. pose proof (Z.mod_pos_bound n 10). lia. }
  destruct (nz (n / 10)); [|done]. apply IH; [|done]. apply Z.div_pos; lia.
Qed.

Lemma uint_loop_ne fuel n acc : uint_loop (S fuel) n acc <> [].
Proof.
  revert n acc. induction fuel as [|fuel IH]; intros n acc; cbn [uint_loop]; [by destruct (nz _)|].
  destruct (nz (n / 10)); [apply IH|done].
Qed.

(** Reading the digits of [n]. *)
Lemma int_loop_digits threshold fuel : forall n acc, 0 <= n < 10 ^ Z.of_nat fuel -> n < 2 ^ 32 ->
  n / 10 < threshold -> 0 < threshold ->
  int_loop threshold 0 (uint_loop fuel n acc) = int_loop threshold n acc.
Proof.
  induction fuel as [|fuel IH]; intros n acc Hn H32 Ht Hp.
  { assert (n = 0) as -> by (cbn in Hn; lia). done. }
  assert (Hd : 0 <= n mod 10 < 10) by (apply Z.mod_pos_bound; lia). pose proof (Z.div_mod n 10 ltac:(lia)) as Hdm.
  assert (Hs : forall v, v = n / 10 -> int_loop threshold v ((n mod 10 + 48) :: acc) = int_loop threshold n acc).
  { intros v ->. cbn [int_loop]. replace (is_digit (n mod 10 + 48)) with true by (unfold is_digit; lia).
    cbn [negb]. replace (n / 10 >=? threshold) with false by lia. f_equal.
    replace (n / 10 * 10 + (n mod 10 + 48 - 48)) with n by lia. apply u32_small. lia. }
  cbn [uint_loop]. destruct (nz (n / 10)) eqn:Ez; zbool.
  - assert (n / 10 < 10 ^ Z.of_nat fuel).
    { apply Z.div_lt_upper_bound; [lia|]. rewrite Nat2Z.inj_succ, Z.pow_succ_r in Hn by lia. lia. }
    rewrite IH; [by apply Hs|lia..].
  - apply Hs. lia.
Qed.

Lemma digit_num c : is_digit c = true -> num_char c = true /\ double_char c = false /\ (45 =? c) = false.
Proof. unfold is_digit, num_char, double_char, is_digit. intros Hc. zbool. lia. Qed.

Lemma digits_scan l r : forallb is_digit l = true -> match r with c :: _ => num_char c = false | [] => True end ->
  readNumber (l ++ r) = r /\ existsb double_char l = false /\ existsb (Z.eqb 45) l = false.
Proof.
  intros Hl Hr. induction l as [|c l IH]; cbn [app].
  - split; [|done]. destruct r as [|c r]; [done|]. cbn. by rewrite Hr.
  - cbn in Hl. apply andb_prop in Hl as [Hc Hl]. destruct (IH Hl) as (I1 & I2 & I3).
    destruct (digit_num c Hc) as (D1 & D2 & D3). cbn [readNumber existsb]. by rewrite D1, D2, D3.
Qed.

Section Values.
Context `{CDouble}.

(** Unsigned digits, as they are or behind a minus sign. *)
Lemma decode_digits n : 0 <= n < maxUInt - 5 ->
  decodeNumber (uintToString n) = NumOk (if n <=? maxInt then intValue n else uintValue n).
Proof.
  intros Hn. unfold maxUInt in *. unfold decodeNumber.
  pose proof (uint_loop_digits 10 n [] ltac:(lia) eq_refl) as Hd. fold (uintToString n) in Hd.
  destruct (digits_scan _ [] Hd I) as (_ & S2 & S3).
  destruct (uintToString n) as [|c l] eqn:El; [by apply uint_loop_ne in El|].
  assert (Hc : (c =? 45) = false).
  { cbn in Hd. apply andb_prop in Hd as [Hc _]. destruct (digit_num c Hc) as (_ & _ & D). lia. }
  cbn [existsb] in S3. apply orb_false_elim in S3 as [_ S3]. rewrite S2. cbn [drop orb deref].
  change (drop 0 l) with l. rewrite S3, Hc. unfold maxUInt.
  rewrite <- El. unfold uintToString. rewrite int_loop_digits; [done|split; [lia|]|lia| |lia].
  - apply Z.lt_trans with (2 ^ 32); [lia|done].
  - apply Z.div_lt_upper_bound; [lia|]. cbn. lia.
Qed.

Lemma decode_negative n : 0 < n < 2 ^ 31 - 8 -> decodeNumber (45 :: uintToString n) = NumOk (intValue (- n)).
Proof.
  intros Hn. unfold decodeNumber.
  pose proof (uint_loop_digits 10 n [] ltac:(lia) eq_refl) as Hd. fold (uintToString n) in Hd.
  destruct (digits_scan _ [] Hd I) as (_ & S2 & S3). cbn [existsb drop]. rewrite S2.
  change (drop 0 ?l) with l. rewrite S3. cbn [orb deref Z.eqb Pos.eqb]. unfold minInt.
  unfold uintToString. rewrite int_loop_digits; [done|split; [lia|]|lia| |].
  - apply Z.lt_trans with (2 ^ 32); [lia|done].
  - apply Z.div_lt_upper_bound; [lia|]. cbn. lia.
  - done.
Qed.

(** ** Values *)

(** Induction over the nested lists. *)
Lemma value_nested_ind (P : value -> Prop) :
  P nullValue -> (forall i, P (intValue i)) -> (forall u, P (uintValue u)) -> (forall d, P (realValue d)) ->
  (forall s, P (stringValue s)) -> (forall b, P (booleanValue b)) ->
  (forall l, Forall P l -> P (arrayValue l)) ->
  (forall m, Forall (fun kv => P kv.2) m -> P (objectValue m)) -> forall v, P v.
Proof.
  intros Hn Hi Hu Hr Hs Hb Ha Ho. fix go 1. intros [|i|u|d|s|b|l|m];
    [exact Hn|exact (Hi i)|exact (Hu u)|exact (Hr d)|exact (Hs s)|exact (Hb b)| |].
  - apply Ha. induction l as [|x l IH]; constructor; [apply go|exact IH].
  - apply Ho. induction m as [|[k x] m IH]; constructor; [apply go|exact IH].
Qed.

(** What the writer can write and the reader read back: integers that are not in
    the last decade of their type (a uintValue above the ints), NUL-free strings
    and names, members in the order of the map. *)
Inductive Readable : value -> Prop :=
| readable_null : Readable nullValue
| readable_int i : - (2 ^ 31 - 8) < i <= maxInt -> Readable (intValue i)
| readable_uint u : maxInt < u < maxUInt - 5 -> Readable (uintValue u)
| readable_string s : Text s -> Readable (stringValue s)
| readable_bool b : Readable (booleanValue b)
| readable_array l : Forall Readable l -> Readable (arrayValue l)
| readable_object m : Forall (fun kv => Text kv.1 /\ Readable kv.2) m ->
    StronglySorted (fun a b => strlt a.1 b.1 = true) m -> Readable (objectValue m).

(** What may follow a value. *)
Definition ends (r : bytes) : Prop :=
  match r with [] => True | c :: _ => num_char c = false end.

(** The value is read back, whatever the slot held. *)
Definition ReadsBack (v : value) : Prop := forall fuel old r, ends r ->
  (2 * length (writeValue v) + 1 <= fuel)%nat -> readValue fuel old (writeValue v ++ r) = Read true v r.

Lemma reads_number text v : text <> [] -> (is_digit (deref text) || (deref text =? 45)) = true ->
  forallb num_char (drop 1 text) = true -> decodeNumber text = NumOk v ->
  forall fuel old r, ends r -> readValue (S fuel) old (text ++ r) = Read true v r.
Proof.
  intros Hne Hd Hr En fuel old r He. destruct text as [|c text]; [done|]. cbn [deref drop] in *.
  change (drop 0 text) with text in Hr. cbn [readValue app].
  assert (Hnum : readNumber (text ++ r) = r).
  { clear -Hr He. induction text as [|x text IH]; cbn [app].
    - destruct r as [|y r]; [done|]. cbn. by rewrite He.
    - cbn in Hr. apply andb_prop in Hr as [Hx Hr]. cbn. rewrite Hx. by apply IH. }
  assert (Hc : 45 <= c <= 57 /\ c <> 46 /\ c <> 47) by (revert Hd; unfold is_digit; intros Hd; lia).
  rewrite (skipCommentTokens_text c text r tokenNumber).
  - cbn [type_ text_]. by rewrite En.
  - unfold is_space. lia.
  - done.
  - unfold scan_token. rewrite !(proj2 (Z.eqb_neq c _)) by lia. by rewrite Hd, Hnum.
Qed.

Lemma digits_num l : forallb is_digit l = true -> forallb num_char l = true.
Proof.
  intros Hl. apply forallb_forall. intros x Hx. apply digit_num. by apply (proj1 (forallb_forall _ _) Hl).
Qed.

Lemma readsback_uint n : 0 <= n < maxUInt - 5 ->
  forall fuel old r, ends r -> readValue (S fuel) old (uintToString n ++ r) =
    Read true (if n <=? maxInt then intValue n else uintValue n) r.
Proof.
  intros Hn. pose proof (uint_loop_digits 10 n [] ltac:(lia) eq_refl) as Hd. fold (uintToString n) in Hd.
  apply reads_number.
  - apply uint_loop_ne.
  - destruct (uintToString n) as [|c l] eqn:E; [by apply uint_loop_ne in E|]. cbn in *.
    apply andb_prop in Hd as [-> _]. done.
  - apply digits_num. destruct (uintToString n); [done|]. cbn in *. by apply andb_prop in Hd as [_ ?].
  - by apply decode_digits.
Qed.

Lemma readsback_int i : - (2 ^ 31 - 8) < i <= maxInt -> ReadsBack (intValue i).
Proof.
  intros Hi fuel old r He Hf. destruct fuel as [|fuel]; [lia|]. cbn [writeValue]. unfold valueToString_int, maxInt in *.
  destruct (i <? 0) eqn:E; zbool.
  - rewrite u32_small by lia. replace i with (- - i) at 2 by lia. apply reads_number; [done..| |apply decode_negative; lia|done].
    cbn [drop]. apply digits_num. apply uint_loop_digits; [lia|done].
  - rewrite u32_small by lia. rewrite readsback_uint by (done || unfold maxUInt; lia).
    by rewrite (proj2 (Z.leb_le i maxInt)) by (unfold maxInt; lia).
Qed.

(** The three words. *)
Lemma readsback_null : ReadsBack nullValue.
Proof.
  intros fuel old r He Hf. destruct fuel as [|fuel]; [lia|]. cbn [readValue].
  change (writeValue nullValue ++ r) with (110 :: bstr "ull" ++ r).
  by rewrite (skipCommentTokens_text 110 (bstr "ull") r tokenNull).
Qed.

Lemma readsback_bool b : ReadsBack (booleanValue b).
Proof.
  intros fuel old r He Hf. destruct fuel as [|fuel]; [lia|]. cbn [readValue]. destruct b.
  - change (writeValue (booleanValue true) ++ r) with (116 :: bstr "rue" ++ r).
    by rewrite (skipCommentTokens_text 116 (bstr "rue") r tokenTrue).
  - change (writeValue (booleanValue false) ++ r) with (102 :: bstr "alse" ++ r).
    by rewrite (skipCommentTokens_text 102 (bstr "alse") r tokenFalse).
Qed.

Lemma text_c_str s : Text s -> c_str s = s.
Proof. induction 1 as [|c s Hc _ IH]; cbn; [done|]. by rewrite (proj2 (Z.eqb_neq c 0)), IH by lia. Qed.

Lemma skip_quoted s r : Text s ->
  skipCommentTokens (valueToQuotedString s ++ r) = (mkToken tokenString (valueToQuotedString s), r).
Proof. intros Hs. unfold skipCommentTokens. by rewrite (proj1 (readToken_quoted s r Hs)). Qed.

Lemma readsback_string s : Text s -> ReadsBack (stringValue s).
Proof.
  intros Hs fuel old r He Hf. destruct fuel as [|fuel]; [lia|]. cbn [readValue writeValue].
  rewrite skip_quoted by done. cbn [type_]. rewrite (proj2 (readToken_quoted s r Hs)).
  unfold of_string. by rewrite text_c_str.
Qed.

(** ** Arrays *)

Lemma readsback_elements vs : Forall ReadsBack vs -> vs <> [] -> forall fuel l r,
  (2 * length (commas (map writeValue vs)) + 2 <= fuel)%nat ->
  readArray fuel l (commas (map writeValue vs) ++ 93 :: r) = Read true (arrayValue (l ++ vs)) r.
Proof.
  induction 1 as [|v vs Hv Hvs IH]; [done|]. intros _ fuel l r Hf. destruct fuel as [|fuel]; [lia|].
  cbn [readArray]; unfold next_element. destruct vs as [|v2 vs].
  - cbn [map commas] in *. rewrite Hv by (done || lia). cbn [negb].
    change (93 :: r) with (93 :: [] ++ r). by rewrite (skipCommentTokens_text 93 [] r tokenArrayEnd).
  - change (commas (map writeValue (v :: v2 :: vs))) with (writeValue v ++ 44 :: commas (map writeValue (v2 :: vs))) in *.
    rewrite length_app in Hf. cbn [length] in Hf. rewrite <- app_assoc. cbn [app].
    rewrite Hv by (done || lia). cbn [negb].
    set (q := commas (map writeValue (v2 :: vs)) ++ 93 :: r). change (44 :: q) with (44 :: [] ++ q).
    rewrite (skipCommentTokens_text 44 [] q tokenArraySeparator) by done. cbn [type_].
    rewrite bool_decide_false by done. unfold q. rewrite IH by (done || lia). by rewrite <- app_assoc.
Qed.

(** No value starts with a blank or a closing bracket. *)
Lemma write_head v : Readable v -> exists c t, writeValue v = c :: t /\ is_space c = false /\ (c =? 93) = false.
Proof.
  intros Hv. assert (Hd : forall n, 0 <= n -> exists c t, uintToString n = c :: t /\ is_space c = false /\ (c =? 93) = false).
  { intros n Hn. pose proof (uint_loop_digits 10 n [] Hn eq_refl) as Hd. fold (uintToString n) in Hd.
    destruct (uintToString n) as [|c t] eqn:E; [by apply uint_loop_ne in E|]. exists c, t. split; [done|].
    cbn in Hd. apply andb_prop in Hd as [Hc _]. unfold is_digit in Hc. unfold is_space. lia. }
  destruct Hv; cbn [writeValue]; try (by eexists _, _).
  - unfold valueToString_int. unfold maxInt in *. destruct (i <? 0) eqn:E; [by eexists _, _|]. apply Hd, (wrap_range 32). lia.
  - apply Hd. unfold maxInt in *. lia.
  - rewrite quoted_escaped. by eexists _, _.
  - destruct b; by eexists _, _.
Qed.

Lemma readsback_array l : Forall Readable l -> Forall ReadsBack l -> ReadsBack (arrayValue l).
Proof.
  intros Hl Hr fuel old r He Hf. destruct fuel as [|fuel]; [lia|]. cbn [writeValue] in *. cbn [readValue].
  rewrite <- app_comm_cons, <- app_assoc. cbn [app]. set (q := commas (map writeValue l) ++ 93 :: r).
  change (91 :: q) with (91 :: [] ++ q). rewrite (skipCommentTokens_text 91 [] q tokenArrayBegin) by done. cbn [type_].
  destruct l as [|v l].
  - unfold q. cbn [map commas app]. change (skipSpaces (93 :: r)) with (93 :: r). cbn [deref Z.eqb Pos.eqb].
    change (93 :: r) with (93 :: [] ++ r). by rewrite (readToken_text 93 [] r tokenArrayEnd).
  - assert (Hq : exists c t, q = c :: t /\ is_space c = false /\ (c =? 93) = false).
    { inversion Hl as [|? ? Hv]; subst. destruct (write_head v Hv) as (c & t & E & H1 & H2). unfold q.
      destruct l; cbn [map commas]; rewrite E; by eexists _, _. }
    destruct Hq as (c & t & Eq & H1 & H2). assert (Es : skipSpaces q = q) by (rewrite Eq; cbn; by rewrite H1).
    rewrite Es. replace (deref q =? 93) with false by (by rewrite Eq). unfold q.
    rewrite readsback_elements; [done..|]. cbn [length] in Hf. rewrite length_app in Hf. cbn [length] in Hf. lia.
Qed.

(** ** Objects *)

Lemma strlt_irrefl a : strlt a a = false.
Proof. induction a as [|x a IH]; cbn; [done|]. by rewrite Z.ltb_irrefl, Z.eqb_refl, IH. Qed.

Lemma strlt_asym a : forall b, strlt a b = true -> strlt b a = false.
Proof.
  induction a as [|x a IH]; intros [|y b]; cbn; try done. intros E. apply orb_true_iff in E as [E|E]; zbool.
  - by rewrite (proj2 (Z.ltb_ge y x)), (proj2 (Z.eqb_neq y x)) by lia.
  - subst. rewrite Z.ltb_irrefl, Z.eqb_refl. cbn. by apply IH.
Qed.

(** A name behind all the others goes to the end. *)
Lemma put_member_last k v m : Forall (fun kv => strlt kv.1 k = true) m -> put_member k v m = m ++ [(k, v)].
Proof.
  induction 1 as [|[k' v'] m Hk _ IH]; cbn; [done|]. cbn in Hk. unfold beqb.
  rewrite bool_decide_false by (intros ->; by rewrite strlt_irrefl in Hk).
  by rewrite (strlt_asym _ _ Hk), IH.
Qed.

Definition member_text (kv : bytes * value) : bytes := valueToQuotedString kv.1 ++ 58 :: writeValue kv.2.

Lemma write_object m : writeValue (objectValue m) = 123 :: commas (map member_text m) ++ [125].
Proof. cbn [writeValue]. do 3 f_equal. apply map_ext. by intros [k x]. Qed.

(** One member, up to what follows its value. *)
Lemma readsback_member k v fuel m name r : Text k -> ReadsBack v -> ends r ->
  (2 * length (writeValue v) + 1 <= fuel)%nat -> Forall (fun kv => strlt kv.1 k = true) m ->
  readObject (S fuel) m name (member_text (k, v) ++ r) =
    (let m := m ++ [(k, v)] in
     let fail cur := Read false (objectValue m) (recoverFromError tokenObjectEnd cur) in
     let '(comma, cur) := readToken r in
     if negb (bool_decide (type_ comma = tokenObjectEnd)) &&
        negb (bool_decide (type_ comma = tokenArraySeparator)) &&
        negb (bool_decide (type_ comma = tokenComment))
     then fail cur
     else
       let '(comma, cur) := skip_comments (S (length cur)) comma cur in
       if bool_decide (type_ comma = tokenObjectEnd) then Read true (objectValue m) cur
       else readObject fuel m k cur).
Proof.
  intros Hk Hv He Hf Hm. unfold member_text. cbn [fst snd readObject]; unfold next_member. rewrite <- app_assoc.
  rewrite skip_quoted by done. cbn [type_]. rewrite (bool_decide_false (tokenString = tokenObjectEnd)) by done.
  cbn [andb]. rewrite (bool_decide_true (tokenString = tokenString)) by done. cbn [negb].
  rewrite (proj2 (readToken_quoted k r Hk)). cbn [app]. set (q := writeValue v ++ r).
  change (58 :: q) with (58 :: [] ++ q). rewrite (readToken_text 58 [] q tokenMemberSeparator) by done. cbn [type_].
  rewrite (bool_decide_true (tokenMemberSeparator = _)) by done. cbn [negb]. unfold q.
  rewrite Hv by done. cbn [negb]. by rewrite text_c_str, put_member_last.
Qed.

Lemma readsback_members ms : Forall (fun kv => Text kv.1) ms -> Forall (fun kv => ReadsBack kv.2) ms -> ms <> [] ->
  forall fuel m name r, StronglySorted (fun a b => strlt a.1 b.1 = true) (m ++ ms) ->
  (2 * length (commas (map member_text ms)) + 2 <= fuel)%nat ->
  readObject fuel m name (commas (map member_text ms) ++ 125 :: r) = Read true (objectValue (m ++ ms)) r.
Proof.
  induction ms as [|[k v] ms IH]; [done|]. intros Ht Hr _ fuel m name r Hs Hf. destruct fuel as [|fuel]; [lia|].
  apply Forall_cons in Ht as [Hk Ht], Hr as [Hv Hr]. cbn [fst snd] in *.
  assert (Hm : Forall (fun kv => strlt kv.1 k = true) m).
  { apply Forall_forall. intros x Hx. apply (StronglySorted_app_1_elem_of _ _ _ x (k, v) Hs Hx), list_elem_of_here. }
  assert (Hl : (2 * length (writeValue v) + 1 <= fuel)%nat).
  { assert (length (writeValue v) + 1 <= length (commas (map member_text ((k, v) :: ms))))%nat; [|lia].
    destruct ms; cbn [map commas]; unfold member_text; cbn [fst snd]; rewrite ?length_app; cbn [length]; lia. }
  destruct ms as [|kv2 ms].
  - cbn [map commas]. rewrite (readsback_member k v fuel m name (125 :: r)) by done. cbv zeta.
    change (125 :: r) with (125 :: [] ++ r). by rewrite (readToken_text 125 [] r tokenObjectEnd).
  - change (commas (map member_text ((k, v) :: kv2 :: ms))) with
      (member_text (k, v) ++ 44 :: commas (map member_text (kv2 :: ms))) in *.
    rewrite length_app in Hf. cbn [length] in Hf. rewrite <- app_assoc. cbn [app].
    rewrite readsback_member by done. cbv zeta.
    set (q := commas (map member_text (kv2 :: ms)) ++ 125 :: r). change (44 :: q) with (44 :: [] ++ q).
    rewrite (readToken_text 44 [] q tokenArraySeparator) by done. cbn [type_ skip_comments].
    rewrite (bool_decide_false (tokenArraySeparator = tokenComment)),
      (bool_decide_false (tokenArraySeparator = tokenObjectEnd)), (bool_decide_true (tokenArraySeparator = _)) by done.
    cbn [negb andb type_]. rewrite bool_decide_false by done. unfold q.
    assert (Hq : (1 <= length (member_text (k, v)))%nat) by (unfold member_text; rewrite length_app; cbn [length]; lia).
    rewrite IH; try done; try lia; [by rewrite <- app_assoc|]. by rewrite <- app_assoc.
Qed.

Lemma readsback_object m : Forall (fun kv => Text kv.1) m -> Forall (fun kv => ReadsBack kv.2) m ->
  StronglySorted (fun a b => strlt a.1 b.1 = true) m -> ReadsBack (objectValue m).
Proof.
  intros Ht Hr Hs fuel old r He Hf. rewrite write_object in *. destruct fuel as [|fuel]; [lia|]. cbn [readValue].
  rewrite <- app_comm_cons, <- app_assoc. cbn [app]. set (q := commas (map member_text m) ++ 125 :: r).
  change (123 :: q) with (123 :: [] ++ q). rewrite (skipCommentTokens_text 123 [] q tokenObjectBegin) by done.
  cbn [type_]. cbn [length] in Hf. rewrite length_app in Hf. cbn [length] in Hf. destruct m as [|kv m].
  - unfold q. cbn [map commas app]. destruct fuel as [|fuel]; [cbn in Hf; lia|]. cbn [readObject]; unfold next_member.
    change (125 :: r) with (125 :: [] ++ r). by rewrite (skipCommentTokens_text 125 [] r tokenObjectEnd).
  - unfold q. by rewrite readsback_members by (done || lia).
Qed.

Lemma readable_reads_back v : Readable v -> ReadsBack v.
Proof.
  induction v as [|i|u|d|s|b|l IH|m IH] using value_nested_ind; intros Hv; inversion Hv; subst.
  - apply readsback_null.
  - by apply readsback_int.
  - intros fuel old r He Hf. destruct fuel as [|fuel]; [lia|]. cbn [writeValue]. unfold valueToString_uint, maxInt in *.
    rewrite readsback_uint by (done || lia). by rewrite (proj2 (Z.leb_gt u maxInt)) by (unfold maxInt; lia).
  - by apply readsback_string.
  - apply readsback_bool.
  - apply readsback_array; [done|]. rewrite !Forall_forall in *. auto.
  - apply readsback_object; [..|done]; rewrite !Forall_forall in *; naive_solver.
Qed.

(** C16: Round trip: parsing what FastWriter::write produced gives the value back, for every
    value made of nulls, booleans, strings without NUL, arrays, objects with sorted names,
    signed integers above -(2^31 - 8), and unsigned integers above the range of the signed
    ones and below 2^32 - 6. Real values are left out, and unsigned ones that fit a signed
    integer, which are read back as such. *)
Theorem json_roundtrip v : Readable v -> parse (writeValue v) = Read true v [].
Proof.
  intros Hv. unfold parse. rewrite <- (app_nil_r (writeValue v)) at 2.
  apply readable_reads_back; [done..|lia].
Qed.

(** C36: The reader ends on every document, well-formed or not: the recursion has a
    result within two calls per byte and more fuel gives the same one, the loop over
    comments ends at another token and error recovery within one token per byte.
    The reader never writes outside of its buffer for numbers if the document does
    not have 32 characters in a row that could belong to a number. *)
Theorem json_reader_total doc :
  parse doc <> NoFuel /\
  (forall k, readValue (2 * length doc + 2 + k) nullValue doc = parse doc) /\
  type_ (skipCommentTokens doc).1 <> tokenComment /\
  (forall until more, recover_loop (S (length doc) + more) until doc = recoverFromError until doc) /\
  (NoLongNumber doc -> parse doc <> Fault).
Proof.
  pose proof (parse_forward doc) as HV.
  split_and!.
  - by destruct (parse doc).
  - intros k. apply stable. fold (parse doc). by destruct (parse doc).
  - destruct (skipCommentTokens doc) as [t cur] eqn:E. by destruct (skipCommentTokens_spec _ _ _ E).
  - intros until more. apply recover_more. lia.
  - intros Hn. by destruct (parse doc).
Qed.

(** What the reader does beyond the JSON grammar, and where it fails: a real number
    of 32 characters is written past the end of the buffer; any token separates the
    elements of an array; text behind the root is ignored; an integer of the last
    decade of its type comes back as a real number. *)
Lemma json_reader_gaps :
  parse (bstr "1.000000000000000000000000000000") = Fault /\
  parse (bstr "[1:2}3]") = parse (bstr "[1,2,3]") /\
  parse (bstr "{}]garbage") = Read true (objectValue []) (bstr "]garbage") /\
  (forall d, scan_lf (bstr "-2147483640") = Some d ->
     parse (writeValue (intValue (-2147483640))) = Read true (realValue d) []) /\
  (forall d, scan_lf (bstr "4294967290") = Some d ->
     parse (writeValue (uintValue 4294967290)) = Read true (realValue d) []).
Proof.
  split_and!; [vm_compute; reflexivity..| |]; intros d Hd; vm_compute in Hd |- *; by rewrite Hd.
Qed.

End Values.

(** ** Witnesses *)

(** A build without floating point. *)
#[local] Instance demo_double : CDouble := { double := unit; scan_lf _ := Some tt; print_g _ := bstr "0.0" }.

Definition demo_value : value :=
  objectValue [(bstr "cmd", stringValue (bstr "makeCall")); (bstr "n", arrayValue [intValue (-7); nullValue; uintValue 2147483648]);
               (bstr "q", stringValue [34; 9; 1; 200])].

Lemma demo_value_readable : Readable demo_value.
Proof.
  unfold demo_value. repeat (first [apply Forall_nil|apply Forall_cons; split; cbn [fst snd]|constructor]);
    try (unfold maxInt, maxUInt; lia).
Qed.

Lemma json_roundtrip_witness : parse (writeValue demo_value) = Read true demo_value [].
Proof. apply json_roundtrip, demo_value_readable. Defined.

Lemma json_reader_total_witness : NoLongNumber (bstr "[1,2") /\ parse (bstr "[1,2") <> Fault.
Proof.
  assert (Hn : NoLongNumber (bstr "[1,2")).
  { intros pre t post E Ht. apply (f_equal length) in E. rewrite !length_app, Ht in E. cbn in E. lia. }
  split; [exact Hn|]. by apply (json_reader_total (bstr "[1,2")).
Defined.

End JsonProps.
