(* ===== verification/EscapeProps.v ===== *)
(** * Properties of the string helpers

    The encoders stay inside the caller's buffer and never cut an escape in two; what
    they produce is read back by the matching reader: the URL decoder, an SQL string
    literal, the JSON reader.  A URI is cut into its parts. *)

From S2P Require Import Prelude HttpHdr HttpHdrProps Region Escape Json JsonReader JsonFacts JsonProps.

Module EscapeProps.
Import Hdr Region Escape JsonProps.

(** ** What one character becomes *)

Definition url_char (c : Z) : bytes :=
  if c =? 32 then [43] else if is_alnum (s8 c) then [c] else [37; hex ((s8 c .>> 4) .& 15); hex (s8 c .& 15)].

Definition sql_char (c : Z) : bytes := if c =? 39 then [39; 39] else [c].

Definition json_char (c : Z) : bytes :=
  if json_plain c then [c] else [92; 117; 48; 48; hex ((s8 c .>> 4) .& 15); hex (s8 c .& 15)].

(** Every character of [s] by [f], while more than [m] bytes are left. *)
Fixpoint limited (f : Z -> bytes) (m : Z) (s : bytes) (len : Z) : bytes :=
  match s with
  | [] => []
  | c :: s => if negb (len >? m) then [] else f c ++ limited f m s (len - zlen (f c))
  end.

Definition expand (f : Z -> bytes) (s : bytes) : bytes := concat (map f s).

Lemma urlencode_limited s : forall len, urlencode_loop s len = limited url_char 3 s len.
Proof.
  induction s as [|c s IH]; intros len; [done|]. cbn [urlencode_loop limited]. unfold url_char.
  destruct (negb (len >? 3)); [done|]. destruct (c =? 32); [by rewrite IH|]. destruct (is_alnum (s8 c)); by rewrite IH.
Qed.

Lemma sql_limited s : forall len, sql_purify_loop s len = limited sql_char 2 s len.
Proof.
  induction s as [|c s IH]; intros len; [done|]. cbn [sql_purify_loop limited]. unfold sql_char.
  destruct (negb (len >? 2)); [done|]. destruct (c =? 39); by rewrite IH.
Qed.

Lemma json_limited s : forall len, json_purify_loop s len = limited json_char 6 s len.
Proof.
  induction s as [|c s IH]; intros len; [done|]. cbn [json_purify_loop limited]. unfold json_char.
  destruct (negb (len >? 6)); [done|]. destruct (json_plain c); by rewrite IH.
Qed.

(** The output is that of a prefix, whole characters only, and leaves room for the
    NUL; with [m] bytes to spare nothing is cut off. *)
Lemma limited_prefix f m s : (forall c, 1 <= zlen (f c) <= m) -> forall len, 1 <= len ->
  exists k, limited f m s len = expand f (take k s) /\ zlen (limited f m s len) < len /\
    (zlen (expand f s) + m <= len -> take k s = s).
Proof.
  intros Hf. induction s as [|c s IH]; intros len Hl; [exists 0%nat; split; [done|]; split; [unfold zlen; cbn; lia|done]|].
  cbn [limited]. destruct (len >? m) eqn:E; zbool; cbn [negb].
  - pose proof (Hf c). destruct (IH (len - zlen (f c))) as (k & E1 & E2 & E3); [lia|]. exists (S k).
    unfold expand in *. cbn [take map concat]. rewrite E1 at 1. split; [done|]. rewrite !zlen_app. split; [lia|]. intros Hroom. f_equal. apply E3. lia.
  - exists 0%nat. split; [done|]. split; [unfold zlen; cbn; lia|]. intros Hroom. unfold expand in Hroom. cbn [map concat] in Hroom.
    rewrite zlen_app in Hroom. pose proof (Hf c). pose proof (zlen_nonneg (concat (map f s))). lia.
Qed.

Lemma url_char_len c : 1 <= zlen (url_char c) <= 3.
Proof. unfold url_char. destruct (c =? 32); [done|]. by destruct (is_alnum (s8 c)). Qed.

Lemma sql_char_len c : 1 <= zlen (sql_char c) <= 2.
Proof. unfold sql_char. by destruct (c =? 39). Qed.

Lemma json_char_len c : 1 <= zlen (json_char c) <= 6.
Proof. unfold json_char. by destruct (json_plain c). Qed.

(** The text an encoder leaves in the buffer, with its NUL. *)
Definition Encodes (f : Z -> bytes) (m : Z) (dst s : bytes) (len : Z) (r : option bytes) : Prop :=
  exists k, r = Some (splice 0 (expand f (take k s) ++ [0]) dst) /\ zlen (expand f (take k s)) < len /\
    (zlen (expand f s) + m <= len -> take k s = s).

Lemma limited_encodes f m dst s len : (forall c, 1 <= zlen (f c) <= m) -> 1 <= len <= zlen dst ->
  Encodes f m dst s len (store dst 0 (limited f m s len ++ [0])).
Proof.
  intros Hf Hl. destruct (limited_prefix f m s Hf len) as (k & E1 & E2 & E3); [lia|]. exists k.
  rewrite E1 in *. split; [|done]. apply (store_some dst 0); [lia|]. rewrite zlen_app. change (zlen [0]) with 1. lia.
Qed.

(** The encoders stay inside the buffer of the caller.  With a size of at least 1
    that is not more than the buffer's, each stores the encoding of a prefix of the
    text, never a part of an escape sequence, and a NUL within the size; the prefix is
    the whole text when the encoding leaves the longest sequence to spare. *)
Lemma encoders_in_bounds dst s len : 1 <= len <= zlen dst ->
  Encodes url_char 3 dst s len (lws_urlencode dst s len) /\
  Encodes sql_char 2 dst s len (lws_sql_purify dst s len) /\
  Encodes json_char 6 dst s len (lws_json_purify dst (Some s) len).
Proof.
  intros Hl. unfold lws_urlencode, lws_sql_purify, lws_json_purify.
  rewrite urlencode_limited, sql_limited, json_limited.
  split_and!; apply limited_encodes; try done; [apply url_char_len|apply sql_char_len|apply json_char_len].
Qed.

Lemma encoders_in_bounds_witness :
  Encodes url_char 3 (replicate 8 7) (bstr "a b&c") 8 (lws_urlencode (replicate 8 7) (bstr "a b&c") 8) /\
  lws_urlencode (replicate 8 7) (bstr "a b&c") 8 = Some (bstr "a+b%26" ++ [0; 7]).
Proof. split; [apply (encoders_in_bounds (replicate 8 7) (bstr "a b&c") 8); split; vm_compute; discriminate|vm_compute; reflexivity]. Defined.

(** ** URL encoding and decoding *)

(** The shape of an encoded character. *)
Definition url_shape (c : Z) : bool :=
  (c =? 0) ||
  match url_char c with
  | [x] => ((x =? 43) && (c =? 32)) || ((x =? c) && negb (x =? 37) && negb (x =? 43))
  | [p; h; l] =>
      (p =? 37) && negb (h =? 0) && negb (l =? 0) && (0 <=? char_to_hex (s8 h)) && (0 <=? char_to_hex (s8 l)) &&
      (u8 (s8 (char_to_hex (s8 h) .<< 4) .| char_to_hex (s8 l)) =? c)
  | _ => false
  end.

Lemma url_shape_ok c : is_u8 c -> url_shape c = true.
Proof. apply forall_u8. vm_compute. reflexivity. Qed.

Lemma store_one mem w c : 0 <= w < zlen mem -> store mem w [c] = Some (splice (Z.to_nat w) [c] mem).
Proof. intros Hw. apply store_some; [lia|]. change (zlen [c]) with 1. lia. Qed.

(** One encoded character at [e] is stored at [w]. *)
Lemma urldecode_char c t mem w e len sum fuel : 0 < c < 256 -> At mem e (url_char c ++ t) -> 0 <= w < zlen mem -> 0 < len ->
  exists sum', urldecode_loop (length (url_char c) + fuel) mem w e len 0 sum =
    urldecode_loop fuel (splice (Z.to_nat w) [c] mem) (w + 1) (e + zlen (url_char c)) (len - 1) 0 sum'.
Proof.
  intros Hc Ha Hw Hl. assert (Hs := url_shape_ok c ltac:(unfold is_u8; lia)). unfold url_shape in Hs.
  rewrite (proj2 (Z.eqb_neq c 0)) in Hs by lia. cbn [orb] in Hs.
  destruct (url_char c) as [|x [|h [|l [|? ?]]]]; try done; cbn [length Nat.add app] in *.
  - destruct (at_cons _ _ _ _ Ha) as [E1 _]. exists sum. change (zlen [x]) with 1. cbn [urldecode_loop]. rewrite E1. cbn [mbind option_bind].
    rewrite (proj2 (Z.eqb_neq len 0)) by lia. rewrite orb_false_r. apply orb_true_iff in Hs as [Hs|Hs]; zbool; subst.
    + cbn [Z.eqb Pos.eqb]. by rewrite store_one.
    + rewrite (proj2 (Z.eqb_neq c 0)), (proj2 (Z.eqb_neq c 37)), (proj2 (Z.eqb_neq c 43)) by (done || lia). cbn [Z.eqb]. by rewrite store_one.
  - destruct (at_cons _ _ _ _ Ha) as [E1 Ha1]. destruct (at_cons _ _ _ _ Ha1) as [E2 Ha2]. destruct (at_cons _ _ _ _ Ha2) as [E3 _].
    zbool. subst x. eexists. change (zlen [37; h; l]) with 3. replace (e + 3) with (e + 1 + 1 + 1) by lia.
    cbn [urldecode_loop]. rewrite E1. cbn [mbind option_bind]. rewrite (proj2 (Z.eqb_neq len 0)) by lia. cbn [Z.eqb Pos.eqb orb].
    rewrite E2. cbn [mbind option_bind]. rewrite (proj2 (Z.eqb_neq h 0)), (proj2 (Z.ltb_ge _ 0)) by done. cbn [orb].
    rewrite E3. cbn [mbind option_bind]. rewrite (proj2 (Z.eqb_neq l 0)), (proj2 (Z.ltb_ge _ 0)) by done. cbn [orb].
    rewrite store_one by done. cbn [mbind option_bind]. do 2 f_equal. by f_equal.
Qed.

Lemma urldecode_ok s : Text s -> forall fuel mem w e len sum, At mem e (expand url_char s ++ [0]) ->
  0 <= w -> w + zlen s + 1 <= zlen mem -> zlen s <= len -> w <= e \/ e + zlen (expand url_char s ++ [0]) <= w ->
  (length (expand url_char s) < fuel)%nat ->
  urldecode_loop fuel mem w e len 0 sum = Some (0, splice (Z.to_nat w) (s ++ [0]) mem).
Proof.
  induction 1 as [|c s Hc _ IH]; intros fuel mem w e len sum Ha Hw Hroom Hlen Hap Hf.
  - destruct fuel as [|fuel]; [cbn in Hf; lia|]. cbn in Ha. destruct (at_cons _ _ _ _ Ha) as [E _]. cbn [urldecode_loop]. rewrite E.
    cbn [mbind option_bind Z.eqb orb]. unfold zlen in Hroom. cbn in Hroom. rewrite store_one by (unfold zlen; lia). done.
  - unfold expand in Ha, Hap, Hf. cbn [map concat] in Ha, Hap, Hf. fold (expand url_char s) in Ha, Hap, Hf.
    rewrite <- app_assoc in Ha, Hap. rewrite zlen_cons in Hroom, Hlen. rewrite zlen_app in Hap. rewrite length_app in Hf.
    pose proof (zlen_nonneg s). pose proof (url_char_len c). pose proof (zlen_nonneg (expand url_char s ++ [0])).
    replace fuel with (length (url_char c) + (fuel - length (url_char c)))%nat by lia.
    destruct (urldecode_char c (expand url_char s ++ [0]) mem w e len sum (fuel - length (url_char c)) Hc Ha) as [sum' ->]; [lia|lia|].
    assert (Ha' : At mem (e + zlen (url_char c)) (expand url_char s ++ [0])) by (by apply at_suffix).
    rewrite IH; [|apply at_apart; [done|lia|change (zlen [c]) with 1; lia|change (zlen [c]) with 1; lia]|lia| |lia|lia|lia].
    + rewrite (splice_cons w c (s ++ [0])); [done|lia|]. rewrite zlen_app. change (zlen [0]) with 1. lia.
    + rewrite zlen_splice; [lia|lia|change (zlen [c]) with 1; lia].
Qed.

Lemma lws_urldecode_ok s mem w e n : Text s -> At mem e (expand url_char s ++ [0]) -> 0 <= w -> w + zlen s + 1 <= zlen mem ->
  zlen s <= n -> w <= e \/ e + zlen (expand url_char s ++ [0]) <= w ->
  lws_urldecode mem w e n = Some (0, splice (Z.to_nat w) (s ++ [0]) mem).
Proof.
  intros Hs Ha Hw Hroom Hn Hap. apply urldecode_ok; try done. destruct Ha as (H1 & H2 & _). rewrite zlen_app in H2.
  change (zlen [0]) with 1 in H2. unfold zlen in *. lia.
Qed.

(** C34: decoding gives back what was encoded.  With room for the encoding,
    lws_urlencode stores a text that lws_urldecode turns into the original one,
    wherever the text lies and in place too (or into any buffer that does not begin
    inside of the rest of the text), with the NUL behind it and nothing else changed. *)
Theorem url_roundtrip dst s len : Text s -> zlen (expand url_char s) + 3 <= len <= zlen dst ->
  exists t, lws_urlencode dst s len = Some (splice 0 (t ++ [0]) dst) /\
    forall mem w e n, At mem e (t ++ [0]) -> 0 <= w -> w + zlen s + 1 <= zlen mem -> zlen s <= n ->
      w <= e \/ e + zlen (t ++ [0]) <= w ->
      lws_urldecode mem w e n = Some (0, splice (Z.to_nat w) (s ++ [0]) mem).
Proof.
  intros Hs Hl. pose proof (zlen_nonneg (expand url_char s)). unfold lws_urlencode. rewrite urlencode_limited.
  destruct (limited_encodes url_char 3 dst s len url_char_len) as (k & E & _ & Ek); [lia|]. exists (expand url_char (take k s)).
  split; [done|]. rewrite Ek by lia. intros mem w e n. by apply lws_urldecode_ok.
Qed.

Lemma url_roundtrip_witness :
  lws_urlencode (replicate 16 7) (bstr "a b&c") 16 = Some (bstr "a+b%26c" ++ [0] ++ replicate 8 7) /\
  lws_urldecode (bstr "a+b%26c" ++ [0] ++ replicate 8 7) 0 0 16 = Some (0, bstr "a b&c" ++ [0; 99; 0] ++ replicate 8 7).
Proof.
  destruct (url_roundtrip (replicate 16 7) (bstr "a b&c") 16) as (t & E & Hd);
    [by repeat constructor|split; vm_compute; discriminate|].
  assert (E0 : lws_urlencode (replicate 16 7) (bstr "a b&c") 16 = Some (bstr "a+b%26c" ++ [0] ++ replicate 8 7)) by (vm_compute; reflexivity).
  split; [exact E0|]. assert (Et : splice 0 (t ++ [0]) (replicate 16 7) = bstr "a+b%26c" ++ [0] ++ replicate 8 7) by congruence.
  rewrite (Hd (bstr "a+b%26c" ++ [0] ++ replicate 8 7) 0 0 16);
    [vm_compute; reflexivity| |lia|vm_compute; discriminate|vm_compute; discriminate|by left].
  rewrite <- Et. pose proof (length_splice 0 (t ++ [0]) (replicate 16 7)). apply (at_splice 0); [lia|].
  assert (Hlen : length (splice 0 (t ++ [0]) (replicate 16 7)) = 16%nat) by (by rewrite Et).
  unfold splice in Hlen. rewrite !length_app, length_drop, length_replicate in Hlen. unfold zlen. rewrite length_app, length_replicate. cbn in *. lia.
Defined.

(** Lws_urldecode writes one byte more than the size it is given.  A text that
    fills the output buffer of [n] bytes is followed by a NUL in the byte behind it,
    although [len] is documented as the length of the buffer. *)
Lemma urldecode_overruns s mem w e : Text s -> At mem e (expand url_char s ++ [0]) -> 0 <= w -> w + zlen s + 1 <= zlen mem ->
  w <= e \/ e + zlen (expand url_char s ++ [0]) <= w ->
  exists mem', lws_urldecode mem w e (zlen s) = Some (0, mem') /\ mem' !! Z.to_nat (w + zlen s) = Some 0.
Proof.
  intros Hs Ha Hw Hroom Hap. rewrite (lws_urldecode_ok s mem w e (zlen s)) by (done || lia). eexists. split; [done|].
  assert (Hat : At (splice (Z.to_nat w) (s ++ [0]) mem) w (s ++ [0])) by (apply at_splice; [done|]; rewrite zlen_app; change (zlen [0]) with 1; lia).
  apply at_suffix in Hat. by destruct (at_cons _ _ _ _ Hat).
Qed.

Lemma urldecode_overruns_witness :
  exists mem', lws_urldecode (bstr "abc" ++ [0] ++ replicate 4 7) 4 0 3 = Some (0, mem') /\ mem' !! 7%nat = Some 0.
Proof.
  apply (urldecode_overruns (bstr "abc") (bstr "abc" ++ [0] ++ replicate 4 7) 4 0);
    [by repeat constructor|split; [lia|]; split; [vm_compute; discriminate|reflexivity]|lia|vm_compute; discriminate|right; vm_compute; discriminate].
Defined.

(** ** SQL literals *)

(** Reading a literal, behind its opening quote: a doubled quote stands for one, a
    single one ends the literal.  The value and the rest. *)
Fixpoint sql_literal (t : bytes) : option (bytes * bytes) :=
  match t with
  | [] => None
  | c :: r =>
      if c =? 39 then
        match r with
        | d :: r' => if d =? 39 then '(v, rest) ← sql_literal r'; Some (39 :: v, rest) else Some ([], r)
        | [] => Some ([], [])
        end
      else '(v, rest) ← sql_literal r; Some (c :: v, rest)
  end.

Lemma sql_literal_ok s rest : head rest <> Some 39 -> sql_literal (expand sql_char s ++ 39 :: rest) = Some (s, rest).
Proof.
  intros Hr. induction s as [|c s IH].
  - cbn. destruct rest as [|d rest]; [done|]. rewrite (proj2 (Z.eqb_neq d 39)); [done|]. by intros ->.
  - unfold expand. cbn [map concat]. fold (expand sql_char s). unfold sql_char at 1. destruct (c =? 39) eqn:E; zbool.
    + subst. cbn. by rewrite IH.
    + cbn. rewrite (proj2 (Z.eqb_neq c 39)) by done. by rewrite IH.
Qed.

(** ** JSON strings *)

Definition json_shape (c : Z) : bool :=
  (c =? 0) ||
  match json_char c with
  | [x] => (x =? c) && negb (c =? 34) && negb (c =? 92) && (c <=? 127)
  | [b; u; z1; z2; h; l] =>
      (b =? 92) && (u =? 117) && (z1 =? 48) && (z2 =? 48) &&
      negb (h =? 34) && negb (h =? 92) && negb (l =? 34) && negb (l =? 92) &&
      bool_decide ((h' ← hexval h; l' ← hexval l; Some (h' * 16 + l')) = Some c)
  | _ => false
  end.

Lemma json_shape_ok c : is_u8 c -> json_shape c = true.
Proof. apply forall_u8. vm_compute. reflexivity. Qed.

Lemma readString_json c r c0 : 0 < c < 256 -> exists c1, readString_loop c0 (json_char c ++ r) = readString_loop c1 r.
Proof.
  intros Hc. assert (Hs := json_shape_ok c ltac:(unfold is_u8; lia)). unfold json_shape in Hs.
  rewrite (proj2 (Z.eqb_neq c 0)) in Hs by lia. cbn [orb] in Hs.
  destruct (json_char c) as [|x [|e [|z1 [|z2 [|h [|l [|? ?]]]]]]]; try done.
  - zbool. subst. exists c. cbn. by rewrite (proj2 (Z.eqb_neq c 92)), (proj2 (Z.eqb_neq c 34)) by done.
  - zbool. subst. exists l. cbn. by rewrite !(proj2 (Z.eqb_neq _ _)) by done.
Qed.

Lemma decode_json fuel c r acc : 0 < c < 256 ->
  decode_loop (S fuel) (json_char c ++ r) acc = decode_loop fuel r (acc ++ codePointToUTF8 c).
Proof.
  intros Hc. assert (Hs := json_shape_ok c ltac:(unfold is_u8; lia)). unfold json_shape in Hs.
  rewrite (proj2 (Z.eqb_neq c 0)) in Hs by lia. cbn [orb] in Hs.
  destruct (json_char c) as [|x [|e [|z1 [|z2 [|h [|l [|? ?]]]]]]]; try done.
  - zbool. subst. cbn. rewrite (proj2 (Z.eqb_neq c 34)), (proj2 (Z.eqb_neq c 92)) by done.
    unfold codePointToUTF8. by rewrite (proj2 (Z.leb_le c 127)) by done.
  - zbool. subst. decided Hd.
    cbn [app]. by apply decode_u00; [|lia].
Qed.

Definition latin1 (s : bytes) : bytes := concat (map codePointToUTF8 s).

Lemma readString_json_text s r : Text s -> forall c0, readString_loop c0 (expand json_char s ++ 34 :: r) = (true, r).
Proof.
  induction 1 as [|c s Hc _ IH]; intros c0; [done|]. unfold expand. cbn [map concat]. fold (expand json_char s).
  rewrite <- app_assoc. destruct (readString_json c (expand json_char s ++ 34 :: r) c0 Hc) as [c1 ->]. apply IH.
Qed.

Lemma decode_json_text s : Text s -> forall fuel acc, (length s < fuel)%nat ->
  decode_loop fuel (expand json_char s) acc = Some (acc ++ latin1 s).
Proof.
  induction 1 as [|c s Hc _ IH]; intros fuel acc Hf; destruct fuel as [|fuel]; try (cbn in Hf; lia).
  - cbn. by rewrite app_nil_r.
  - unfold expand, latin1. cbn [map concat]. fold (expand json_char s) (latin1 s).
    rewrite decode_json, IH by (done || cbn in Hf; lia). by rewrite <- app_assoc.
Qed.

Lemma length_json_text s : (length s <= length (expand json_char s))%nat.
Proof.
  induction s as [|c s IH]; [done|]. unfold expand. cbn [map concat]. fold (expand json_char s). rewrite length_app. cbn [length].
  pose proof (json_char_len c). unfold zlen in *. lia.
Qed.

Lemma json_token_ok s r : Text s -> let t := 34 :: expand json_char s ++ [34] in
  readToken (t ++ r) = (mkToken tokenString t, r) /\ decodeString (mkToken tokenString t) = Some (latin1 s).
Proof.
  intros Hs. cbv zeta. split.
  - apply (readToken_text 34 (expand json_char s ++ [34]) r); [done|]. unfold scan_token, readString. cbn [Z.eqb Pos.eqb].
    rewrite <- app_assoc. cbn [app]. by rewrite readString_json_text.
  - unfold decodeString. cbn [text_]. cbn [drop length]. rewrite length_app. cbn [length].
    replace (_ - 2)%nat with (length (expand json_char s)) by lia. change (drop 0 ?x) with x. rewrite take_app_length.
    rewrite decode_json_text; [done..|]. pose proof (length_json_text s). lia.
Qed.

Lemma text_take k s : Text s -> Text (take k s).
Proof. apply Forall_take. Qed.

(** C35: text that was made safe stays inside its quotes.  Whatever the text and
    however much of it fits, the output of lws_sql_purify between single quotes is one
    SQL literal with the value of a prefix of the text, and that of lws_json_purify
    between double quotes is one string token of the JSON reader; the string is the
    prefix with every character read as one of Latin-1, so it is the text itself when
    that is ASCII, and not when it is UTF-8 with other characters. *)
Theorem purified_text_stays_inside dst s len : Text s -> 1 <= len <= zlen dst ->
  (exists k t, lws_sql_purify dst s len = Some (splice 0 (t ++ [0]) dst) /\
     forall rest, head rest <> Some 39 -> sql_literal (t ++ 39 :: rest) = Some (take k s, rest)) /\
  (exists k t, lws_json_purify dst (Some s) len = Some (splice 0 (t ++ [0]) dst) /\
     (forall rest, readToken (34 :: t ++ 34 :: rest) = (mkToken tokenString (34 :: t ++ [34]), rest)) /\
     decodeString (mkToken tokenString (34 :: t ++ [34])) = Some (latin1 (take k s))).
Proof.
  intros Hs Hl. unfold lws_sql_purify, lws_json_purify. rewrite sql_limited, json_limited. split.
  - destruct (limited_encodes sql_char 2 dst s len sql_char_len Hl) as (k & E & _). exists k, (expand sql_char (take k s)).
    split; [done|]. intros rest. apply sql_literal_ok.
  - destruct (limited_encodes json_char 6 dst s len json_char_len Hl) as (k & E & _). exists k, (expand json_char (take k s)).
    split; [done|]. split; [|by apply (json_token_ok (take k s) []), text_take]. intros rest.
    destruct (json_token_ok (take k s) rest (text_take k s Hs)) as [Et _]. cbn [app] in Et. rewrite <- app_assoc in Et. exact Et.
Qed.

Lemma purified_text_stays_inside_witness :
  let s := bstr "it's" in
  (exists k t, lws_sql_purify (replicate 6 7) s 6 = Some (splice 0 (t ++ [0]) (replicate 6 7)) /\
     forall rest, head rest <> Some 39 -> sql_literal (t ++ 39 :: rest) = Some (take k s, rest)) /\
  lws_sql_purify (replicate 6 7) s 6 = Some (bstr "it''" ++ [0; 7]) /\
  lws_json_purify (replicate 20 7) (Some [195; 169; 34]) 20 = Some (bstr "\u00C3\u00A9\u0022" ++ [0; 7]).
Proof.
  cbv zeta. split; [|split; vm_compute; reflexivity].
  apply (purified_text_stays_inside (replicate 6 7) (bstr "it's") 6); [by repeat constructor|split; vm_compute; discriminate].
Defined.

End EscapeProps.
