(* ===== verification/Session.v ===== *)
(** * The application's connections (UCClient/websocket.cpp, websocket.h)

    libwebsockets reports what happens on a connection by calling [callback_lws]; the
    function finds the [WebSocketClient] object of the connection in [WSClientSet],
    calls its virtual methods and, when the connection is writable, hands the oldest
    message of its queue [m_sendBuf] to [lws_write].

    The state [app] has the objects that are alive ([heap], by address), the
    connections that libwebsockets keeps ([conns], by address), the globals of
    websocket.cpp, UCClientWebSocket.cpp and WinSDKBase.cpp, and a log of the calls
    into other modules.  An operation gives [None] when the C++ code would use an
    object or a connection that is not alive, or step outside of a buffer.

    The virtual methods are the class [Client]; [base_client] is WebSocketClient
    itself, UCClientWSclient is in the file of the commands.  [new_address] is
    operator new, [fuel] bounds the loop over extensions inside [lws_write]. *)

From stdpp Require Import gmap.
From S2P Require Import Prelude Ws WsRx WsTx.

Definition LWS_CALLBACK_ESTABLISHED : Z := 0.
Definition LWS_CALLBACK_CLIENT_CONNECTION_ERROR : Z := 1.
Definition LWS_CALLBACK_CLIENT_ESTABLISHED : Z := 3.
Definition LWS_CALLBACK_CLOSED : Z := 4.
Definition LWS_CALLBACK_CLOSED_HTTP : Z := 5.
Definition LWS_CALLBACK_WSI_CREATE : Z := 29.
Definition LWS_CALLBACK_WSI_DESTROY : Z := 30.
Definition LWS_CALLBACK_CLOSED_CLIENT_HTTP : Z := 45.

Module Session.

(** ** State *)

Inductive Status := CONNECTING | OPEN | CLOSING | CLOSED.

#[global] Instance Status_eq_dec : EqDecision Status.
Proof. solve_decision. Defined.

(** class WebSocketClient.  A buffer of [m_sendBuf] has LWS_PRE bytes in front of
    the message. *)
Record client := mkClient {
  wsi : Z;
  m_state : Status;
  m_sendBuf : list bytes
}.

(** Arguments of a call into another module. *)
Inductive arg := AInt (i : Z) | AStr (s : bytes) | ANull.

(** Calls that leave the modelled code: functions of the telephony SDK,
    [lws_cancel_service], the registry. *)
Inductive call :=
| CallSdk (function : string) (args : list arg)
| CallCancelService
| CallSetRegKey (name : bytes) (value : arg).

Record app := mkApp {
  heap : gmap Z client;            (* live WebSocketClient objects *)
  WSClientSet : gmap Z Z;          (* websocket.cpp: connection -> object *)
  g_WSClientSet : list Z;          (* UCClientWebSocket.cpp: open objects *)
  g_Instance : Z;                  (* WinSDKBase.cpp: receiver of the events *)
  g_pjsipReferce : Z;              (* WinSDKBase.cpp: uses of the SDK *)
  version : bytes;                 (* WinSDKBase.cpp: getVersion's static result *)
  conns : gmap Z lws;              (* connections of libwebsockets *)
  calls : list call
}.

(** operator new: an address that is not in use. *)
Class Allocator := {
  new_address : gmap Z client -> Z;
  new_address_ok : forall h, new_address h <> 0 /\ h !! new_address h = None
}.

Definition log_call (c : call) (a : app) : app := a {{ calls ::= (fun l => l ++ [c]) }}.

(** [lws_callback_on_writable(wsi)] and [lws_cancel_service] *)
Definition on_writable (a : app) (w : Z) : option app :=
  l ← conns a !! w;
  Some (a {{ conns ::= insert w (lws_callback_on_writable l) }}).

Definition set_client (a : app) (p : Z) (c : client) : app := a {{ heap ::= insert p c }}.

(** ** WebSocketClient *)

(** The constructor that takes a connection, at the address [p]: the context is read from
    the connection; [std::map::insert] keeps an entry that is there already. *)
Definition WebSocketClient_new (a : app) (p w : Z) : option app :=
  _ ← conns a !! w;
  let a := set_client a p (mkClient w CONNECTING []) in
  Some (match WSClientSet a !! w with
        | Some _ => a
        | None => a {{ WSClientSet ::= insert w p }}
        end).

Definition Close (a : app) (p : Z) : option app :=
  c ← heap a !! p;
  match WSClientSet a !! wsi c with
  | Some _ =>
      if nz (wsi c) && bool_decide (m_state c = OPEN) then
        a ← on_writable (set_client a p (c {{ m_state := CLOSING }})) (wsi c);
        Some (log_call CallCancelService a)
      else Some a
  | None => Some a
  end.

(** [~WebSocketClient()], the memory is free afterwards *)
Definition WebSocketClient_delete (a : app) (p : Z) : option app :=
  c ← heap a !! p;
  a ← match WSClientSet a !! wsi c with Some _ => Close a p | None => Some a end;
  Some (a {{ WSClientSet ::= delete (wsi c); heap ::= delete p }}).

Definition Send (a : app) (p : Z) (buf : bytes) : option app :=
  c ← heap a !! p;
  let a := set_client a p (c {{ m_sendBuf ::= (fun q => q ++ [replicate (Z.to_nat LWS_PRE) 0 ++ buf]) }}) in
  match WSClientSet a !! wsi c with
  | Some _ =>
      if nz (wsi c) && bool_decide (m_state c = OPEN) then
        a ← on_writable a (wsi c); Some (log_call CallCancelService a)
      else Some a
  | None => Some a
  end.

Definition GetStatus (a : app) (p : Z) : option Status := c ← heap a !! p; Some (m_state c).

(** ** The virtual methods *)

Class Client := {
  OnAccept : app -> Z -> option app;                 (* WebSocketServer::OnAccept *)
  is_WebSocketClient : bool;                         (* typeid( *wsclient) *)
  OnOpen : app -> Z -> option app;
  OnSend : app -> Z -> option app;
  OnClose : app -> Z -> bytes -> option app;
  OnError : app -> Z -> bytes -> option app;
  OnMessage : app -> Z -> bytes -> option app
}.

(** A method that only writes to the log file. *)
Definition log_only (a : app) (p : Z) : option app := _ ← heap a !! p; Some a.

(** The methods of WebSocketClient and WebSocketServer themselves. *)
Definition base_client `{Allocator} : Client := {|
  OnAccept a w := WebSocketClient_new a (new_address (heap a)) w;
  is_WebSocketClient := true;
  OnOpen := log_only;
  OnSend := log_only;
  OnClose a p _ := log_only a p;
  OnError a p _ := log_only a p;
  OnMessage a p _ := log_only a p
|}.

(** ** callback_lws *)

Section Callback.
Context `{LwsEnv} `{Client} (fuel : nat).

Definition set_state (a : app) (p : Z) (s : Status) : option app :=
  c ← heap a !! p; Some (set_client a p (c {{ m_state := s }})).

(** LWS_CALLBACK_ESTABLISHED and LWS_CALLBACK_CLIENT_ESTABLISHED *)
Definition established (a : app) (w : Z) (wsclient : option Z) : option app :=
  match wsclient with
  | Some p => a ← set_state a p OPEN; a ← OnOpen a p; on_writable a w
  | None => Some a
  end.

(** [std::string errorCode; if (in) errorCode.assign(in, len)] *)
Definition assign_in (inp : option bytes) : bytes := default [] inp.

Definition erase (w : Z) (a : app) : app := a {{ WSClientSet ::= delete w }}.

(** LWS_CALLBACK_CLIENT_CONNECTION_ERROR *)
Definition connection_error (a : app) (w : Z) (wsclient : option Z) (inp : option bytes) : option app :=
  let a := erase w a in
  match wsclient with
  | Some p =>
      a ← set_state a p CLOSED; a ← OnError a p (assign_in inp); OnClose a p (assign_in inp)
  | None => Some a
  end.

(** [lwsclose:] *)
Definition closed (a : app) (w : Z) (wsclient : option Z) (inp : option bytes) : option app :=
  let a := erase w a in
  match wsclient with
  | Some p =>
      c ← heap a !! p;
      if bool_decide (m_state c = CLOSED) then Some a
      else a ← set_state a p CLOSED; OnClose a p (assign_in inp)
  | None => Some a
  end.

Definition received (a : app) (wsclient : option Z) (inp : option bytes) : option app :=
  match wsclient with Some p => OnMessage a p (assign_in inp) | None => Some a end.

(** Hand the first buffer to [lws_write], which may change its contents; the result
    tells whether it was accepted. *)
Definition write_first (a : app) (w : Z) (b : bytes) : option (app * bytes * bool) :=
  let bufLen := s32 (zlen b - LWS_PRE) in
  if bufLen >? 0 then
    l ← conns a !! w;
    '(l, n, b) ← lws_write fuel l b bufLen LWS_WRITE_TEXT;
    let a := a {{ conns ::= insert w l }} in
    if n >? 0 then
      if LWS_PRE + n >? zlen b then None          (* erase beyond the end *)
      else Some (a, take (Z.to_nat LWS_PRE) b ++ drop (Z.to_nat (LWS_PRE + n)) b, true)
    else Some (a, b, false)
  else Some (a, b, true).

(** [ws_write:] *)
Definition ws_write (a : app) (w : Z) (wsclient : option Z) : option (app * Z) :=
  match wsclient with
  | None => Some (a, -1)
  | Some p =>
      c ← heap a !! p;
      if bool_decide (m_state c = CLOSING) then Some (a, -1) else
      a ← OnSend a p;
      c ← heap a !! p;
      match m_sendBuf c with
      | [] => Some (a, 0)
      | b :: q =>
          '(a, b, ok) ← write_first a w b;
          if negb ok then Some (set_client a p (c {{ m_sendBuf := b :: q }}), -1) else
          (* size() - LWS_PRE is unsigned: <= 0 means == 0 *)
          let q := if zlen b - LWS_PRE =? 0 then q else b :: q in
          let a := set_client a p (c {{ m_sendBuf := q }}) in
          match q with
          | [] => Some (a, 0)
          | _ :: _ => a ← on_writable a w; Some (a, 0)
          end
      end
  end.

Definition callback_lws (a : app) (w reason user : Z) (inp : option bytes) : option (app * Z) :=
  _ ← conns a !! w;                                (* lws_get_context(wsi) *)
  let wsclient := WSClientSet a !! w in
  let ret o : option (app * Z) := a ← o; Some (a, 0) in
  if (reason =? LWS_CALLBACK_ESTABLISHED) || (reason =? LWS_CALLBACK_CLIENT_ESTABLISHED)
  then ret (established a w wsclient)
  else if reason =? LWS_CALLBACK_CLIENT_CONNECTION_ERROR then ret (connection_error a w wsclient inp)
  else if (reason =? LWS_CALLBACK_CLOSED) || (reason =? LWS_CALLBACK_CLOSED_CLIENT_HTTP)
          || (reason =? LWS_CALLBACK_CLOSED_HTTP) then ret (closed a w wsclient inp)
  else if (reason =? LWS_CALLBACK_RECEIVE) || (reason =? LWS_CALLBACK_CLIENT_RECEIVE)
  then ret (received a wsclient inp)
  else if (reason =? LWS_CALLBACK_CLIENT_WRITEABLE) || (reason =? LWS_CALLBACK_SERVER_WRITEABLE)
  then ws_write a w wsclient
  else if reason =? LWS_CALLBACK_WSI_CREATE then
    if user =? 0 then ret (OnAccept a w) else Some (a, 0)
  else if reason =? LWS_CALLBACK_WSI_DESTROY then
    match wsclient with
    | Some p =>
        _ ← heap a !! p;                           (* typeid( *wsclient) *)
        if is_WebSocketClient then ret (WebSocketClient_delete a p) else Some (a, 0)
    | None => Some (a, 0)
    end
  else Some (a, 0).

End Callback.

End Session.
