(* ===== verification/Commands.v ===== *)
(** * Commands and events of the application (UCClientWebSocket.cpp, WinSDKBase.cpp)

    A web page sends commands as JSON texts; [OnMessage] runs them on the telephony
    SDK and sends the result back.  The SDK reports calls through the static
    functions of CWinSDKBase, which turn them into JSON texts for every open
    connection.

    The SDK is a binary library: the class [Sdk] gives the results of its functions,
    depending on all calls made before; every call is appended to [calls].  [uninit]
    is what an uninitialised local variable holds.  [None] stands for a failing
    JSON_ASSERT of the JSON library, a null pointer used as a string, or an access to
    an object that is not alive. *)

From stdpp Require Import gmap.
From S2P Require Import Prelude Ws WsRx WsTx Json JsonReader Session.

Module Commands.
Export Session Reader.

(** Results of the SDK's functions, given the calls before. *)
Class Sdk := {
  sdk_int : list call -> string -> list arg -> Z;
  sdk_str : list call -> string -> option bytes;
  sdk_devices : list call -> string -> list (bytes * Z * bytes);   (* guid, index, name *)
  uninit : Z
}.

Section App.
Context `{CDouble} `{Sdk}.

(** ** Calls of the SDK *)

Definition sdk (f : string) (args : list arg) (a : app) : app * Z :=
  (log_call (CallSdk f args) a, s32 (sdk_int (calls a) f args)).

Definition getCurrentCall (a : app) : app * option bytes :=
  (log_call (CallSdk "getCurrentCall" []) a, sdk_str (calls a) "getCurrentCall").

(** CWinSDKBase: the wrappers with arguments of their own. *)
Definition connectToCCPServer (addr : bytes) (port : Z) (voipId voipPwd : bytes) (a : app) : app * Z :=
  let '(a, _) := sdk "connectToCCPServer" [AStr addr; AInt port; AStr voipId; AStr voipPwd] a in (a, 0).

Definition setTraceFlag (enable : bool) (logFileName : bytes) (level : Z) (a : app) : app :=
  (sdk "setTraceFlag" [AInt (b2z enable); AStr logFileName; AInt level; ANull; ANull; AInt (-1); AInt (-1);
                       AInt 0; AInt (-1)] a).1.

(** [getMicroPhoneInfo] and [getSpeakerInfo]: an array of descriptions. *)
Definition device_info (d : bytes * Z * bytes) : value :=
  let '(guid, index, name) := d in
  objectValue [(bstr "guid", of_string guid); (bstr "index", intValue index); (bstr "name", of_string name)].

Definition devices (f : string) (a : app) : app * value :=
  (log_call (CallSdk f []) a, arrayValue (map device_info (sdk_devices (calls a) f))).

(** [static std::string result] keeps the first answer that is not empty. *)
Definition getVersion (a : app) : option (app * bytes) :=
  if negb (beqb (version a) []) then Some (a, version a)
  else
    v ← sdk_str (calls a) "getVersion";
    Some (log_call (CallSdk "getVersion" []) a {{ version := c_str v }}, c_str v).

Definition codec_H264 : Z := 4.
Definition codec_VP8 : Z := 7.
Definition codec_H264_HIGH : Z := 12.

(** The reference count is an atomic unsigned long of 32 bits. *)
Definition initialize (a : app) : app * Z :=
  let n := g_pjsipReferce a in
  let a := a {{ g_pjsipReferce := u32 (n + 1) }} in
  if n =? 0 then
    let '(a, ret) := sdk "servicecoreInitialize" [] a in
    let a := (sdk "setCodecEnabled" [AInt codec_VP8; AInt 0] a).1 in
    let a := (sdk "setCodecEnabled" [AInt codec_H264; AInt 0] a).1 in
    let a := (sdk "setCodecEnabled" [AInt codec_H264_HIGH; AInt 0] a).1 in
    (a, ret)
  else (a, 0).

Definition unInitialize (a : app) : app * Z :=
  let n := g_pjsipReferce a in
  let a := a {{ g_pjsipReferce := u32 (n - 1) }} in
  if n =? 1 then sdk "unInitialize" [] a else (a, 0).

(** ** Parameters of a command *)

(** [jsonEvent["param"][name]] *)
Definition pmember (ev : value) (name : string) : option value :=
  p ← member ev (bstr "param"); member p (bstr name).

Definition str_param (ev : value) (name : string) : option bytes :=
  v ← pmember ev name; Some (match v with stringValue s => s | _ => [] end).

Definition ptr_param (ev : value) (name : string) : option arg :=
  v ← pmember ev name; Some (match v with stringValue s => AStr s | _ => ANull end).

(** An int parameter kept in a uint32_t. *)
Definition uint_param (ev : value) (name : string) (d : Z) : option Z :=
  v ← pmember ev name; Some (match v with intValue i => u32 i | _ => d end).

(** [cmdresult["param"][name] = v] *)
Definition set_param (res : value) (name : string) (v : value) : option value :=
  p ← member res (bstr "param"); p ← set_member p (bstr name) v; set_member res (bstr "param") p.

Definition set_return (res : value) (n : Z) : option value := set_param res "return" (intValue n).

(** ** The commands *)

Definition command := app -> value -> value -> option (app * value).

(** An SDK function of a call id, whose result and call id are sent back. *)
Definition call_command (f : string) (extra : list arg) : command := fun a ev res =>
  callid ← str_param ev "callid";
  let '(a, n) := sdk f (AStr callid :: extra) a in
  res ← set_return res n; res ← set_param res "callid" (of_string callid); Some (a, res).

Definition return_zero : command := fun a ev res => res ← set_return res 0; Some (a, res).

Definition cmd_connectToCCPServer : command := fun a ev res =>
  serverAddr ← str_param ev "serverAddr";
  port ← uint_param ev "serverPort" 0;
  voipId ← str_param ev "voipId";
  voipPwd ← str_param ev "voipPwd";
  let '(a, n) := connectToCCPServer serverAddr (s32 port) voipId voipPwd a in
  res ← set_return res n; Some (a, res).

Definition cmd_disConnectToCCP : command := fun a ev res =>
  let '(a, n) := sdk "disConnectToCCP" [ANull] a in res ← set_return res n; Some (a, res).

Definition cmd_getCurrentCall : command := fun a ev res =>
  let '(a, c) := getCurrentCall a in
  match c with
  | None => res ← set_param res "callid" (of_string []); Some (a, res)
  | Some _ =>
      let '(a, c) := getCurrentCall a in
      s ← c; res ← set_param res "callid" (of_string s); Some (a, res)
  end.

Definition cmd_setTraceFlag : command := fun a ev res =>
  _ ← pmember ev "enable";           (* enable = ....isInt(), which is true when it is read *)
  fileName ← str_param ev "logFileName";
  logLevel ← uint_param ev "logLevel" 23;
  let a := setTraceFlag true fileName (s32 logLevel) a in
  res ← set_return res 0; Some (a, res).

Definition cmd_makeCall : command := fun a ev res =>
  _ ← str_param ev "caller";
  called ← str_param ev "called";
  let '(a, ret) := sdk "makeCall" [AInt 0; AStr called] a in
  res ← set_return res ret;
  let '(a, c) := getCurrentCall a in
  match c with
  | None => Some (a, res)
  | Some _ => let '(a, c) := getCurrentCall a in s ← c; res ← set_param res "callid" (of_string s); Some (a, res)
  end.

Definition cmd_releaseCall : command := fun a ev res =>
  callid ← ptr_param ev "callid";
  reason ← uint_param ev "reason" 0;
  let '(a, n) := sdk "releaseCall" [callid; AInt (s32 reason)] a in
  res ← set_return res n;
  match callid with
  | AStr s => res ← set_param res "callid" (of_string s); Some (a, res)
  | _ => Some (a, res)
  end.

(** One call per character; the last result is the one that is sent. *)
Fixpoint dtmf_loop (callid dtmf : bytes) (a : app) (res : value) : option (app * value) :=
  match dtmf with
  | [] => Some (a, res)
  | c :: r =>
      let '(a, n) := sdk "sendDTMF" [AStr callid; AInt (s8 c)] a in
      res ← set_return res n; dtmf_loop callid r a res
  end.

Definition cmd_sendDTMF : command := fun a ev res =>
  callid ← str_param ev "callid";
  dtmf ← str_param ev "dtmf";
  '(a, res) ← dtmf_loop callid dtmf a res;
  res ← set_param res "callid" (of_string callid);
  res ← set_param res "dtmf" (of_string dtmf); Some (a, res).

Definition cmd_setMute : command := fun a ev res =>
  on ← uint_param ev "on" 0;
  let '(a, n) := sdk "setMute" [AInt (b2z (nz on))] a in
  res ← set_return res n; Some (a, res).

Definition cmd_transferCall : command := fun a ev res =>
  callid ← str_param ev "callid";
  dest ← str_param ev "dest";
  type ← uint_param ev "type" 0;
  let '(a, n) := sdk "transferCall" [AStr callid; AStr dest; AInt (s32 type)] a in
  res ← set_return res n; res ← set_param res "callid" (of_string callid); Some (a, res).

Definition cmd_consultTransferCall : command := fun a ev res =>
  callid ← str_param ev "callid";
  dest ← str_param ev "dest";
  consultCallid ← str_param ev "consultCallid";
  let '(a, n) := sdk "consultTransferCall" [AStr callid; AStr consultCallid; AStr dest] a in
  res ← set_return res n; res ← set_param res "callid" (of_string callid); Some (a, res).

Definition cmd_transferMeeting : command := fun a ev res =>
  type ← uint_param ev "type" 0;
  callid ← str_param ev "callid";
  consultedUser ← str_param ev "consultedUser";
  consultCallid ← str_param ev "consultCallid";
  let '(a, n) := sdk "transferMeeting" [AInt (s32 type); AStr callid; AStr consultCallid; AStr consultedUser] a in
  res ← set_return res n; res ← set_param res "callid" (of_string callid); Some (a, res).

Definition cmd_setUserData : command := fun a ev res =>
  type ← uint_param ev "type" 0;
  data ← str_param ev "data";
  let '(a, n) := sdk "setUserData" [AInt (s32 type); AStr data] a in
  res ← set_return res n; Some (a, res).

(** An SDK function of one int parameter. *)
Definition int_command (f name : string) : command := fun a ev res =>
  x ← uint_param ev name 0;
  let '(a, n) := sdk f [AInt (s32 x)] a in
  res ← set_return res n; Some (a, res).

Definition cmd_setSrtpEnabled : command := fun a ev res =>
  type ← uint_param ev "TransportType" 0;
  cryptoType ← uint_param ev "cryptoType" 0;
  Some ((sdk "setSrtpEnabled" [AInt (s32 type); AInt (s32 cryptoType)] a).1, res).

Definition cmd_setCodecEnabled : command := fun a ev res =>
  type ← uint_param ev "type" 0;
  enable ← uint_param ev "enable" 0;
  let '(a, n) := sdk "setCodecEnabled" [AInt (s32 type); AInt (b2z (nz enable))] a in
  res ← set_return res n;
  res ← set_param res "type" (uintValue type);
  res ← set_param res "enable" (uintValue enable); Some (a, res).

Definition cmd_getCodecEnabled : command := fun a ev res =>
  type ← uint_param ev "type" 0;
  let '(a, n) := sdk "getCodecEnabled" [AInt (s32 type)] a in
  res ← set_param res "return" (booleanValue (nz n));
  res ← set_param res "type" (uintValue type); Some (a, res).

Definition device_command (f : string) : command := fun a ev res =>
  let '(a, l) := devices f a in res ← set_param res "return" l; Some (a, res).

Definition cmd_setAudioRecordStatus : command := fun a ev res =>
  _ ← str_param ev "path"; _ ← pmember ev "enable"; return_zero a ev res.

(** [SetRegKey] of an int parameter; [d] when the page did not give one. *)
Definition reg_command (key name : string) (d : Z) : command := fun a ev res =>
  x ← uint_param ev name d; Some (log_call (CallSetRegKey (bstr key) (AInt x)) a, res).

Definition no_operation : command := fun a ev res => Some (a, res).

Definition cmd_enableGlobalAudioInDevice : command := fun a ev res => _ ← pmember ev "enable"; Some (a, res).

Definition cmd_getVersion : command := fun a ev res =>
  '(a, v) ← getVersion a; res ← set_param res "return" (of_string v); Some (a, res).

(** The members of [param], in the order of the map. *)
Fixpoint reg_loop (m : list (bytes * value)) (a : app) : app :=
  match m with
  | [] => a
  | (k, v) :: r =>
      reg_loop r match v with
                 | intValue i => log_call (CallSetRegKey k (AInt (u32 i))) a
                 | stringValue s => log_call (CallSetRegKey k (AStr s)) a
                 | _ => a
                 end
  end.

Definition cmd_setRegConfig : command := fun a ev res =>
  res ← set_return res 0;
  p ← member ev (bstr "param");
  _ ← getMemberNames p;
  Some (reg_loop (match p with objectValue m => m | _ => [] end) a, res).

(** ** The dispatch *)

(** The chain of comparisons of [OnMessage], in its order. *)
Definition commands : list (string * command) := [
  ("initialize", return_zero);
  ("unInitialize ", return_zero);
  ("connectToCCPServer", cmd_connectToCCPServer);
  ("disConnectToCCP", cmd_disConnectToCCP);
  ("getCurrentCall", cmd_getCurrentCall);
  ("setTraceFlag", cmd_setTraceFlag);
  ("makeCall", cmd_makeCall);
  ("acceptCall", call_command "acceptCall" [AInt 0]);
  ("pauseCall", call_command "pauseCall" []);
  ("resumeCall", call_command "resumeCall" []);
  ("releaseCall", cmd_releaseCall);
  ("sendDTMF", cmd_sendDTMF);
  ("setMute", cmd_setMute);
  ("transferCall", cmd_transferCall);
  ("consultTransferCall", cmd_consultTransferCall);
  ("transferMeeting", cmd_transferMeeting);
  ("setUserData", cmd_setUserData);
  ("setSipTransportType", int_command "setSipTransportType" "transType");
  ("setSrtpEnabled", cmd_setSrtpEnabled);
  ("setCodecEnabled", cmd_setCodecEnabled);
  ("getCodecEnabled", cmd_getCodecEnabled);
  ("getMicroPhoneInfo", device_command "getMicroPhoneInfo");
  ("selectMicroPhone", int_command "selectMicroPhone" "index");
  ("getSpeakerInfo", device_command "getSpeakerInfo");
  ("selectSpeaker", int_command "selectSpeaker" "index");
  ("setAudioRecordStatus", cmd_setAudioRecordStatus);
  ("getAudioRecordDeviceList", no_operation);
  ("getAudioPlayoutDeviceList", no_operation);
  ("selectAudioRecordDevice", reg_command "MicroPhone" "index" uninit);
  ("selectAudioPlayoutDevice", reg_command "Speaker" "index" uninit);
  ("setAudioPlayoutVolume", reg_command "SpeakerVolume" "volume" 0);
  ("startMicrophoneTest", no_operation);
  ("stopMicrophoneTest", no_operation);
  ("startPlayoutTest", no_operation);
  ("stopPlayoutTest", no_operation);
  ("enableGlobalAudioInDevice", cmd_enableGlobalAudioInDevice);
  ("getVersion", cmd_getVersion);
  ("version", cmd_getVersion);
  ("setRegConfig", cmd_setRegConfig)
].

Fixpoint lookup_command (cmd : bytes) (l : list (string * command)) : command :=
  match l with
  | [] => no_operation
  | (name, f) :: r => if beqb cmd (bstr name) then f else lookup_command cmd r
  end.

(** [cmdresult] before the command runs *)
Definition cmdresult (cmd : bytes) : value :=
  objectValue [(bstr "cmdresult", of_string cmd); (bstr "type", stringValue (bstr "cmdresult"))].

Definition OnMessage_uc (a : app) (p : Z) (message : bytes) : option app :=
  _ ← heap a !! p;
  match parse message with
  | Fault | NoFuel => None
  | Read false _ _ => Some a
  | Read true ev _ =>
      if negb (isObject ev) then Some a else
      t ← member ev (bstr "type");
      if negb (match t with stringValue s => beqb s (bstr "cmd") | _ => false end) then Some a else
      c ← member ev (bstr "cmd");
      let cmd := match c with stringValue s => s | _ => [] end in
      '(a, res) ← lookup_command cmd commands a ev (cmdresult cmd);
      Send a p (writeValue res)
  end.

(** ** UCClientWSclient *)

(** The constructors run WebSocketClient's, then CWinSDKBase's. *)
Definition UCClientWSclient_new (a : app) (p w : Z) : option app :=
  a ← WebSocketClient_new a p w;
  '(a, _) ← getVersion a;
  Some (a {{ g_Instance := p }}).

(** [delete this]: own body, CWinSDKBase, WebSocketClient *)
Definition UCClientWSclient_delete (a : app) (p : Z) : option app :=
  _ ← heap a !! p;
  let a := a {{ g_WSClientSet ::= filter (fun q => q <> p) }} in
  WebSocketClient_delete (a {{ g_Instance := 0 }}) p.

Definition uc_client `{Allocator} : Client := {|
  OnAccept a w := UCClientWSclient_new a (new_address (heap a)) w;
  is_WebSocketClient := false;
  OnOpen a p := _ ← heap a !! p; Some (a {{ g_WSClientSet ::= (fun l => l ++ [p]) }});
  OnSend := log_only;
  OnClose a p _ := UCClientWSclient_delete a p;
  OnError a p _ := log_only a p;
  OnMessage := OnMessage_uc
|}.

(** ** Events of the SDK *)

(** A report of the SDK: the function of [CCallbackInterface] and its arguments.  A
    const char* is the bytes of its string: it is taken not to be null (the functions
    of UCClientWebSocket.cpp give it to Json::Value, which does not look). *)
Inductive sdk_event :=
| onLogInfo (loginfo : bytes)
| onConnect (tcpMsgIdOut reason : Z) (jsonString : bytes) (autoReconnect : Z)
| onLogOut (tcpMsgIdOut reason : Z)
| onWillCloseTcp
| onIncomingCallReceived (callType confType : Z) (callid caller : bytes)
| onCallProceeding (callid : bytes)
| onCallAlerting (callid : bytes)
| onCallAnswered (callid : bytes)
| onCallReleased (callid : bytes) (reason state CallEvent : Z)
| onDtmfReceived (callid : bytes) (dtmf : Z)
| onCallPaused (callid : bytes) (type reason : Z)
| onCallResumed (callid : bytes) (type reason : Z)
| onSwitchCallMediaTypeRequest (callid : bytes) (video reason : Z)
| onSwitchCallMediaTypeResponse (callid : bytes) (video reason : Z)
| onRemoteVideoRatio (id : bytes) (width height type : Z) (member ip : bytes) (port : Z)
| onAudioData (callid inData : bytes) (send : bool)
| onVideoData (callid inData : bytes) (send : bool)
| onAudioCaptureData (callid data : bytes) (samples sampleRate numChannels : Z)
| onVideoCaptureData (callid data : bytes) (width height y_stride uv_stride : Z)
| onMediaDestinationChanged (callid : bytes) (mediaType : Z) (ip : bytes) (port type : Z)
| onNoCamera (callid : bytes)
| onNoMicRecording (callid : bytes) (reason : Z)
| onCallTransfered (callid destionation : bytes) (reason : Z)
| onMeetingTransfered (callid : bytes) (reason : Z)
| onAudioEnergyFeedback (averageEnergy : Z)
| onSipConnect (reason : Z)
| onSipLogOut (reason : Z).

(** The members of [param] that each function sets, in its order. *)

Definition out_onLogInfo (loginfo : bytes) : list (string * value) :=
  [("loginfo", of_string loginfo)].

Definition out_onConnect (tcpMsgIdOut reason : Z) (jsonString : bytes) (autoReconnect : Z) : list (string * value) :=
  [("tcpMsgIdOut", uintValue tcpMsgIdOut); ("reason", intValue reason); ("jsonString", of_string jsonString);
    ("autoReconnect", intValue autoReconnect)].

Definition out_onLogOut (tcpMsgIdOut reason : Z) : list (string * value) :=
  [("tcpMsgIdOut", uintValue tcpMsgIdOut); ("reason", intValue reason)].

Definition out_onWillCloseTcp : list (string * value) :=
  [].

Definition out_onIncomingCallReceived (callType confType : Z) (callid caller : bytes) : list (string * value) :=
  [("caller", of_string caller); ("callid", of_string callid); ("callType", intValue callType);
    ("confType", intValue confType)].

Definition out_onCallProceeding (callid : bytes) : list (string * value) :=
  [("callid", of_string callid)].

Definition out_onCallAlerting (callid : bytes) : list (string * value) :=
  [("callid", of_string callid)].

Definition out_onCallAnswered (callid : bytes) : list (string * value) :=
  [("callid", of_string callid)].

Definition out_onCallReleased (callid : bytes) (reason state CallEvent : Z) : list (string * value) :=
  [("callid", of_string callid); ("reason", intValue reason); ("state", intValue state);
    ("CallEvent", intValue CallEvent)].

Definition out_onDtmfReceived (callid : bytes) (dtmf : Z) : list (string * value) :=
  [("callid", of_string callid); ("dtmf", of_string [dtmf])].

Definition out_onCallPaused (callid : bytes) (type reason : Z) : list (string * value) :=
  [("callid", of_string callid); ("type", intValue type); ("reason", intValue reason)].

Definition out_onCallResumed (callid : bytes) (type reason : Z) : list (string * value) :=
  [("callid", of_string callid); ("type", intValue type); ("reason", intValue reason)].

Definition out_onSwitchCallMediaTypeRequest (callid : bytes) (video reason : Z) : list (string * value) :=
  [("callid", of_string callid); ("video", intValue video); ("reason", intValue reason)].

Definition out_onSwitchCallMediaTypeResponse (callid : bytes) (video reason : Z) : list (string * value) :=
  [("callid", of_string callid); ("video", intValue video); ("reason", intValue reason)].

Definition out_onRemoteVideoRatio (id : bytes) (width height type : Z) (member ip : bytes) (port : Z) : list (string * value) :=
  [("callid", of_string id); ("width", intValue width); ("height", intValue height); ("type", intValue type);
    ("member", of_string member); ("ip", of_string ip); ("port", intValue port)].

Definition out_onAudioData (callid inData : bytes) (send : bool) : list (string * value) :=
  [("callid", of_string callid); ("inData", of_string inData); ("send", booleanValue send)].

Definition out_onVideoData (callid inData : bytes) (send : bool) : list (string * value) :=
  [("callid", of_string callid); ("inData", of_string inData); ("send", booleanValue send)].

Definition out_onAudioCaptureData (callid data : bytes) (samples sampleRate numChannels : Z) : list (string * value) :=
  [("callid", of_string callid); ("data", of_string data); ("samples", intValue samples);
    ("sampleRate", intValue sampleRate); ("numChannels", intValue numChannels)].

Definition out_onVideoCaptureData (callid data : bytes) (width height y_stride uv_stride : Z) : list (string * value) :=
  [("callid", of_string callid); ("data", of_string data); ("width", intValue width); ("height", intValue height);
    ("y_stride", intValue y_stride); ("uv_stride", intValue uv_stride)].

Definition out_onMediaDestinationChanged (callid : bytes) (mediaType : Z) (ip : bytes) (port type : Z) : list (string * value) :=
  [("callid", of_string callid); ("mediaType", intValue mediaType); ("ip", of_string ip); ("port", intValue port);
    ("type", intValue type)].

Definition out_onNoCamera (callid : bytes) : list (string * value) :=
  [("callid", of_string callid)].

Definition out_onNoMicRecording (callid : bytes) (reason : Z) : list (string * value) :=
  [("callid", of_string callid); ("reason", intValue reason)].

Definition out_onCallTransfered (callid destionation : bytes) (reason : Z) : list (string * value) :=
  [("callid", of_string callid); ("destionation", of_string destionation); ("reason", intValue reason)].

Definition out_onMeetingTransfered (callid : bytes) (reason : Z) : list (string * value) :=
  [("callid", of_string callid); ("reason", intValue reason)].

Definition out_onAudioEnergyFeedback (averageEnergy : Z) : list (string * value) :=
  [("averageEnergy", intValue averageEnergy)].

Definition out_onSipConnect (reason : Z) : list (string * value) :=
  [("reason", intValue reason)].

Definition out_onSipLogOut (reason : Z) : list (string * value) :=
  [("reason", intValue reason)].

(** The [event] member and the members of [param] *)
Definition event_params (e : sdk_event) : string * list (string * value) :=
  match e with
  | onLogInfo s => ("onLogInfo", out_onLogInfo s)
  | onConnect t r j n => ("onConnect", out_onConnect t r j n)
  | onLogOut t r => ("onLogOut", out_onLogOut t r)
  | onWillCloseTcp => ("onWillCloseTcp", out_onWillCloseTcp)
  | onIncomingCallReceived t c i s => ("onIncomingCallReceived", out_onIncomingCallReceived t c i s)
  | onCallProceeding i => ("onCallProceeding", out_onCallProceeding i)
  | onCallAlerting i => ("onCallAlerting", out_onCallAlerting i)
  | onCallAnswered i => ("onCallAnswered", out_onCallAnswered i)
  | onCallReleased i r s c => ("onCallReleased", out_onCallReleased i r s c)
  | onDtmfReceived i d => ("onDtmfReceived", out_onDtmfReceived i d)
  | onCallPaused i t r => ("onCallPaused", out_onCallPaused i t r)
  | onCallResumed i t r => ("onCallResumed", out_onCallResumed i t r)
  | onSwitchCallMediaTypeRequest i v r => ("onSwitchCallMediaTypeRequest", out_onSwitchCallMediaTypeRequest i v r)
  | onSwitchCallMediaTypeResponse i v r => ("onSwitchCallMediaTypeResponse", out_onSwitchCallMediaTypeResponse i v r)
  | onRemoteVideoRatio i w h t m ip p => ("onRemoteVideoRatio", out_onRemoteVideoRatio i w h t m ip p)
  | onAudioData i d s => ("onAudioData", out_onAudioData i d s)
  | onVideoData i d s => ("onVideoData", out_onVideoData i d s)
  | onAudioCaptureData i d s r n => ("onAudioCaptureData", out_onAudioCaptureData i d s r n)
  | onVideoCaptureData i d w h y u => ("onVideoCaptureData", out_onVideoCaptureData i d w h y u)
  | onMediaDestinationChanged i m ip p t => ("onMediaDestinationChanged", out_onMediaDestinationChanged i m ip p t)
  | onNoCamera i => ("onNoCamera", out_onNoCamera i)
  | onNoMicRecording i r => ("onNoMicRecording", out_onNoMicRecording i r)
  | onCallTransfered i d r => ("onCallTransfered", out_onCallTransfered i d r)
  | onMeetingTransfered i r => ("onMeetingTransfered", out_onMeetingTransfered i r)
  | onAudioEnergyFeedback n => ("onAudioEnergyFeedback", out_onAudioEnergyFeedback n)
  | onSipConnect r => ("onSipConnect", out_onSipConnect r)
  | onSipLogOut r => ("onSipLogOut", out_onSipLogOut r)
  end.

(** [out], built member by member *)
Definition event_json (e : sdk_event) : value :=
  let '(name, params) := event_params e in
  let head := [(bstr "event", stringValue (bstr name))] in
  let param := foldl (fun m '(k, v) => put_member (bstr k) v m) [] params in
  objectValue (put_member (bstr "type") (stringValue (bstr "event"))
    (match params with [] => head | _ => put_member (bstr "param") (objectValue param) head end)).

(** The loop over the open connections. *)
Fixpoint send_all (l : list Z) (text : bytes) (a : app) : option app :=
  match l with
  | [] => Some a
  | p :: r => a ← Send a p text; send_all r text a
  end.

(** UCClientWSclient's virtual function for the event *)
Definition on_event (a : app) (e : sdk_event) : option app :=
  send_all (g_WSClientSet a) (writeValue (event_json e)) a.

(** The static functions of CWinSDKBase, with a bound on their recursion: the one
    for onSwitchCallMediaTypeRequest calls itself. *)
Inductive reported := Crash | StackOverflow | Reported (a : app).

Fixpoint report (fuel : nat) (a : app) (e : sdk_event) : reported :=
  match fuel with
  | O => StackOverflow
  | S fuel =>
      match e with
      | onLogInfo _ => Reported a
      | _ =>
          let a := match e with
                   | onIncomingCallReceived _ _ callid _ => (sdk "alertingCall" [AStr callid] a).1
                   | _ => a
                   end in
          if g_Instance a =? 0 then Reported a else
          match heap a !! g_Instance a with
          | None => Crash
          | Some _ =>
              match e with
              | onSwitchCallMediaTypeRequest _ _ _ => report fuel a e
              | _ => match on_event a e with Some a => Reported a | None => Crash end
              end
          end
      end
  end.

End App.
End Commands.
