(* ===== verification/SessionFacts.v ===== *)
(** * Facts the sessions need about the writer

    What a successful write and a flush leave as they were, so that a connection can
    be written to again and again. *)

From S2P Require Import Prelude Ws WsRx WsRxFacts WsTx WsTxFacts WsTxProps.

(** The members that tell whether a frame can be started. *)
Definition same_flags (w v : lws) : Prop :=
  inside_frame (tx v) = inside_frame (tx w) /\ tx_draining_ext (tx v) = tx_draining_ext (tx w) /\
  stashed_write_pending (tx v) = stashed_write_pending (tx w).

#[local] Instance same_flags_preorder : PreOrder same_flags.
Proof. split; unfold same_flags; [done|]. intros x y z ? ?. intuition congruence. Qed.

(** A connection in between: it can be written to as soon as nothing is waiting. *)
Record Writes (w : lws) : Prop := {
  wr_inv : TxInv w;
  wr_state : state w = LWSS_ESTABLISHED;
  wr_mode : mode w = LWSCM_WS_SERVING;
  wr_rev : ietf_spec_revision w = 13;
  wr_frame : inside_frame (tx w) = false;
  wr_drain : tx_draining_ext (tx w) = false;
  wr_stash : stashed_write_pending (tx w) = false
}.

Section Facts.
Context `{SocketOk} `{!RandomOk}.

Lemma writes_can w : Writes w -> trunc_len (tx w) = 0 -> CanWrite w.
Proof. intros [] Ht. constructor; auto. Qed.

Lemma set_tx_flags f w : (forall t, inside_frame (f t) = inside_frame t /\ tx_draining_ext (f t) = tx_draining_ext t /\
  stashed_write_pending (f t) = stashed_write_pending t) -> same_flags w (set_tx f w).
Proof. intros Hf. unfold same_flags, set_tx. destruct w. apply Hf. Qed.

Lemma emit_flags e w : same_flags w (emit e w).
Proof. by destruct w. Qed.

Lemma buffer_rest_flags w rest : same_flags w (buffer_rest w rest).1.
Proof. unfold buffer_rest. repeat case_match; apply set_tx_flags; by intros []. Qed.

Lemma handle_truncated_flags w data n len : same_flags w (handle_truncated_send w data n len).1.
Proof.
  unfold handle_truncated_send, lws_callback_on_writable. destruct (nz (trunc_len (tx w))).
  - set (v := set_tx _ w). assert (Hv : same_flags w v) by (apply set_tx_flags; by intros []).
    repeat case_match; cbn [fst]; try done; (etrans; [exact Hv|apply emit_flags]).
  - case_match; [done|]. pose proof (buffer_rest_flags w (drop (Z.to_nat n) (take (Z.to_nat len) data))) as Hb.
    destruct (buffer_rest w _) as [v ok]. cbn [fst] in Hb. destruct ok; [|done].
    cbn [fst]. etrans; [exact Hb|apply emit_flags].
Qed.

Lemma issue_raw_flags w p len : count_act_ext w = 0%nat -> same_flags w (lws_issue_raw w p len).1.
Proof.
  intros Hx. unfold lws_issue_raw. do 2 (case_match; [reflexivity|]). case_match; [apply emit_flags|]. rewrite ext_none by done.
  cbn [Z.ltb Z.compare tok]. change (nz 0) with false. cbn iota.
  match goal with |- context [socket_write w ?d] => generalize (socket_write w d) end.
  intros r. destruct (r =? LWS_SSL_CAPABLE_ERROR); [by destruct w|].
  generalize (if r =? LWS_SSL_CAPABLE_MORE_SERVICE then 0 else u32 r). intros n.
  etrans; [|apply handle_truncated_flags]. destruct (n =? 0); [reflexivity|apply emit_flags].
Qed.

(** Issuing keeps the connection writable. *)
Lemma writes_issue w p len w' r : Writes w -> len < 2 ^ 31 -> ptr_ok w p len ->
  lws_issue_raw w p len = (w', r) -> r <> -1 ->
  Writes w' /\ 0 <= r <= len /\ sent w' ++ pending w' = sent w ++ take (Z.to_nat len) (ptr_data w p).
Proof.
  intros [I Hst Hm Hrev Hf Hd Hs] Hl Hp E Hr.
  pose proof (issue_raw_flags w p len (ti_noext _ I)) as (F1 & F2 & F3).
  pose proof (issue_raw_only w p len (ti_noext _ I)) as Ho. rewrite E in *. cbn [fst] in *.
  destruct (issue_raw_ok w p len w' r) as (Q1 & Q2 & Q3 & Q4 & _); try done; [by rewrite Hst|].
  split; [|done]. constructor; try congruence.
  - rewrite <- Hm. destruct Ho as [-> _]. by destruct w.
  - rewrite <- Hrev. destruct Ho as [-> _]. by destruct w.
Qed.

(** A writable event that finds something waiting sends more of it. *)
Lemma writes_flush fuel w pollfd w' r : Writes w -> trunc_len (tx w) <> 0 ->
  lws_handle_POLLOUT_event fuel w pollfd = Some (w', r) -> r <> -1 ->
  Writes w' /\ sent w' ++ pending w' = sent w ++ pending w.
Proof.
  intros W Ht E Hr. rewrite (pollout_flush _ _ _ Ht) in E.
  destruct (lws_issue_raw w PTrunc (trunc_len (tx w))) as [w1 n] eqn:Ei. injection E as <- <-.
  destruct (n <? 0) eqn:En; [done|]. zbool. pose proof (ti_len _ (wr_inv _ W)).
  destruct (writes_issue w PTrunc (trunc_len (tx w)) w1 n) as (Q1 & _ & Q2); try done; lia.
Qed.

(** After a text was handed over, the frame is complete. *)
Lemma send_text_flags fuel w mem pre len orig w' r : TxInv w -> state w = LWSS_ESTABLISHED ->
  trunc_len (tx w) = 0 -> 0 <= len -> 0 < pre <= 16 -> len + pre < 2 ^ 31 -> len + 16 <= zlen mem ->
  send_raw (S fuel) w mem pre len orig LWS_WRITE_TEXT = Some (w', r) -> r <> -1 ->
  inside_frame (tx w') = false /\ tx_draining_ext (tx w') = tx_draining_ext (tx w) /\
  stashed_write_pending (tx w') = stashed_write_pending (tx w).
Proof.
  intros I Hst Ht Hl Hp Hlp Hmem. unfold send_raw. change (is_raw_wp LWS_WRITE_TEXT) with false. cbn iota.
  set (buf := drop (Z.to_nat (LWS_PRE - pre)) mem).
  assert (Hb : len + pre <= zlen buf) by (unfold buf, zlen, LWS_PRE in *; rewrite length_drop; lia).
  unfold lws_issue_raw_ext_access. cbn [issue_raw_ext_loop]. rewrite (ext_none _ _ _ (ti_noext _ I)).
  cbn [Z.ltb Z.compare token_len tok]. change (nz 0) with false. cbn [negb].
  unfold nz. rewrite (proj2 (Z.eqb_neq (len + pre) 0)) by lia. cbn [negb].
  pose proof (issue_raw_flags w (PUser buf) (len + pre) (ti_noext _ I)) as Hfl.
  destruct (lws_issue_raw w (PUser buf) (len + pre)) as [w1 n] eqn:Ei. cbn [fst] in Hfl.
  destruct (n <? 0) eqn:En; zbool; intros E Hr.
  { cbn [Z.leb Z.compare] in E. by injection E as <- <-. }
  destruct (issue_raw_ok w (PUser buf) (len + pre) w1 n) as (_ & _ & _ & _ & Q); try done; [by rewrite Hst|cbn; lia|lia|].
  subst n. assert (Ec : (if clean_buffer (tx w1) then len + pre else len + pre) = len + pre) by (by destruct (clean_buffer (tx w1))).
  rewrite Ec, (proj2 (Z.leb_gt _ 0)), Z.eqb_refl in E by lia. injection E as <- <-.
  destruct Hfl as (_ & F2 & F3). rewrite <- F2, <- F3. by destruct w1, tx.
Qed.

(** A text message of a server: one frame, all of it accepted, the buffer keeps its
    size. *)
Lemma writes_text fuel w mem len w' r mem' : Writes w -> trunc_len (tx w) = 0 -> 0 <= len < 2 ^ 31 - 16 ->
  len + 16 <= zlen mem -> lws_write (S fuel) w mem len LWS_WRITE_TEXT = Some (w', r, mem') ->
  zlen mem' = zlen mem /\ (r <> -1 -> Writes w' /\ r = len /\ sent w' ++ pending w' =
    sent w ++ rfc_frame 129 None (take (Z.to_nat len) (drop (Z.to_nat LWS_PRE) mem))).
Proof.
  intros W Ht Hl Hmem E. pose proof (writes_can w W Ht) as C. pose proof W as [I Hst Hm Hrev Hf Hd Hs].
  pose proof (lws_write_only fuel w mem len LWS_WRITE_TEXT LWSWSOPC_TEXT_FRAME w' r mem' C eq_refl (or_introl Hst) E) as Ho.
  assert (Hfl : zlen mem' = zlen mem /\ (r <> -1 -> inside_frame (tx w') = false /\
     tx_draining_ext (tx w') = tx_draining_ext (tx w) /\ stashed_write_pending (tx w') = stashed_write_pending (tx w))).
  { destruct (lws_write_frame (S fuel) w mem len LWS_WRITE_TEXT C eq_refl (or_introl Hst))
      as (v & Ev & (S1 & M1 & V1 & F1 & P1) & _ & D1).
    rewrite Ev in E. clear Ev. unfold write_frame in E. rewrite V1, Hrev in E. cbn [Z.eqb Pos.eqb] in E.
    change (wp_opcode LWS_WRITE_TEXT) with (Some LWSWSOPC_TEXT_FRAME) in E. cbv beta iota zeta in E.
    unfold do_masking in E. rewrite M1, Hm, bool_decide_false in E by done. cbn [negb] in E.
    set (hdr := frame_header _ len 0) in E.
    assert (Hh : 0 < zlen hdr <= 10).
    { unfold hdr, frame_header, zlen. repeat case_match; cbn; lia. }
    assert (Hsp : zlen (splice (Z.to_nat (LWS_PRE - (zlen hdr + 0))) hdr mem) = zlen mem)
      by (unfold zlen in *; f_equal; apply length_splice; unfold LWS_PRE in *; lia).
    destruct (send_raw _ v _ _ _ _ _) as [[v1 r1]|] eqn:Es; [|done]. injection E as <- <- <-. split; [done|].
    pose proof S1 as (_ & _ & _ & T4 & _ & _ & _ & T8). intros Hr.
    apply send_text_flags in Es as (Q1 & Q2 & Q3); try done; try congruence; try lia;
      [by rewrite Q1, Q2, Q3, D1, P1|by apply (same_trunc_inv w)]. }
  destruct Hfl as [Hz Hfl]. split; [done|]. intros Hr. destruct (Hfl Hr) as (G1 & G2 & G3).
  destruct (lws_write_ok fuel w mem len LWS_WRITE_TEXT LWSWSOPC_TEXT_FRAME w' r mem')
    as (key & K & Q1 & Q2 & Q3 & _ & Q5); try done; [by left|].
  unfold key_of in K. rewrite Hm, bool_decide_false in K by done. subst key. split; [|by rewrite Q3].
  constructor; try congruence.
  - rewrite <- Hm. destruct Ho as [-> _]. by destruct w.
  - rewrite <- Hrev. destruct Ho as [-> _]. by destruct w.
Qed.

End Facts.
