(* ===== verification/SessionProps.v ===== *)
(** * The messages of a session

    On top of the writer, the queue of a [WebSocketClient] is a reliable channel: the
    messages given to [Send] reach the wire in order, each as one text frame. *)

From stdpp Require Import gmap relations.
From S2P Require Import Prelude Ws WsRx WsRxFacts WsRxProps WsTx WsTxFacts WsTxProps Session SessionFacts.

Module SessionProps.
Export Session.

(** What the virtual method called before a write has to do. *)
Class QuietSend `{Client} : Prop := {
  quiet_send : forall a p, is_Some (heap a !! p) -> OnSend a p = Some a
}.

(** The frame of a message; an empty one is dropped. *)
Definition frame (m : bytes) : bytes := match m with [] => [] | _ => rfc_frame 129 None m end.

Definition frames (l : list bytes) : bytes := concat (map frame l).

(** The message in a buffer. *)
Definition content (b : bytes) : bytes := drop (Z.to_nat LWS_PRE) b.

(** A buffer that [Send] made of a message below 2 GiB. *)
Definition buffer_ok (b : bytes) : Prop := LWS_PRE <= zlen b < 2 ^ 31.

Section Session.
Context `{SocketOk} `{!RandomOk} `{QuietSend} (fuel : nat) (p w : Z).

(** The session of object [p] on connection [w], with the messages still queued. *)
Record SessInv (a : app) (l : lws) (c : client) : Prop := {
  si_conn : conns a !! w = Some l;
  si_object : heap a !! p = Some c;
  si_set : WSClientSet a !! w = Some p;
  si_wsi : wsi c = w;
  si_open : m_state c = OPEN;
  si_writes : Writes l;
  si_queue : Forall buffer_ok (m_sendBuf c)
}.

Definition stream (l : lws) (c : client) : bytes :=
  sent l ++ pending l ++ frames (map content (m_sendBuf c)).

Lemma frames_app k l : frames (k ++ l) = frames k ++ frames l.
Proof. unfold frames. by rewrite map_app, concat_app. Qed.

Lemma on_writable_eq a l : conns a !! w = Some l ->
  on_writable a w = Some (a {{ conns ::= insert w (lws_callback_on_writable l) }}).
Proof. intros E. unfold on_writable. by rewrite E. Qed.

(** Asking for a writable callback changes nothing else. *)
Lemma writable_writes l : Writes l -> Writes (lws_callback_on_writable l) /\
  sent (lws_callback_on_writable l) = sent l /\ pending (lws_callback_on_writable l) = pending l.
Proof.
  intros [I ? ? ? ? ? ?]. unfold lws_callback_on_writable. split; [|split].
  - constructor; try (by destruct l). destruct I. constructor; by destruct l.
  - rewrite sent_emit. by rewrite app_nil_r.
  - unfold pending, ptr_data. by destruct l.
Qed.

(** Replacing the connection and the object. *)
Lemma sess_put a l l' c c' : SessInv a l c -> Writes l' -> wsi c' = w -> m_state c' = OPEN ->
  Forall buffer_ok (m_sendBuf c') -> forall a', conns a' = <[w := l']> (conns a) ->
  heap a' = <[p := c']> (heap a) -> WSClientSet a' = WSClientSet a -> SessInv a' l' c'.
Proof.
  intros [] W' Hw Ho Hq a' E1 E2 E3. constructor; rewrite ?E1, ?E2, ?E3; try done; apply lookup_insert_eq.
Qed.

(** Sending puts the message at the end of the queue. *)
Lemma sess_send a l c m a' : SessInv a l c -> zlen m < 2 ^ 31 - LWS_PRE -> Send a p m = Some a' ->
  exists l' c', SessInv a' l' c' /\ stream l' c' = stream l c ++ frame m.
Proof.
  intros I Hm E. unfold Send in E. rewrite (si_object _ _ _ I) in E. cbn [mbind option_bind] in E.
  set (c' := c {{ m_sendBuf ::= _ }}) in E.
  set (b := replicate (Z.to_nat LWS_PRE) 0 ++ m) in c'.
  assert (F : conns (set_client a p c') = conns a /\ heap (set_client a p c') = <[p := c']> (heap a) /\
    WSClientSet (set_client a p c') = WSClientSet a) by (by destruct a).
  destruct F as (F1 & F2 & F3). rewrite F3, (si_wsi _ _ _ I), (si_set _ _ _ I) in E.
  assert (G : wsi c' = wsi c /\ m_state c' = m_state c /\ m_sendBuf c' = m_sendBuf c ++ [b]) by (unfold c'; by destruct c).
  destruct G as (G1 & G2 & G3). rewrite (si_open _ _ _ I) in E.
  destruct (writable_writes l (si_writes _ _ _ I)) as (W' & Hs & Hp).
  assert (Hq : Forall buffer_ok (m_sendBuf c')).
  { rewrite G3. apply Forall_app. split; [apply I|]. constructor; [|done]. unfold buffer_ok, b.
    rewrite zlen_app. pose proof (zlen_nonneg m). change (zlen (replicate (Z.to_nat LWS_PRE) 0)) with LWS_PRE.
    unfold LWS_PRE in *. lia. }
  assert (Hst : forall l', sent l' = sent l -> pending l' = pending l -> stream l' c' = stream l c ++ frame m).
  { intros l' E1 E2. unfold stream. rewrite E1, E2, G3, map_app, frames_app, !app_assoc. f_equal. unfold frames. cbn.
    rewrite app_nil_r. done. }
  destruct (nz w && bool_decide (OPEN = OPEN)).
  - rewrite (on_writable_eq _ l) in E by (rewrite F1; apply I). cbn [mbind option_bind] in E. injection E as <-.
    exists (lws_callback_on_writable l), c'. split; [|by apply Hst].
    apply (sess_put a l _ c); try done; try (rewrite ?G1, ?G2; apply I); by destruct a.
  - injection E as <-. exists l, c'. split; [|by apply Hst].
    apply (sess_put a l _ c); try done; try (rewrite ?G1, ?G2; apply I).
    rewrite F1. symmetry. apply insert_id, I.
Qed.

Lemma length_content b : buffer_ok b -> zlen (content b) = zlen b - LWS_PRE.
Proof. unfold buffer_ok, content, zlen, LWS_PRE. intros Hb. rewrite length_drop. lia. Qed.

(** The first buffer goes to the writer as one frame and is used up. *)
Lemma sess_write_first a l c b a' b' ok : SessInv a l c -> buffer_ok b -> trunc_len (tx l) = 0 ->
  write_first (S fuel) a w b = Some (a', b', ok) -> ok = true ->
  zlen b' = LWS_PRE /\ exists l', Writes l' /\ a' = a {{ conns := <[w := l']> (conns a) }} /\
    sent l' ++ pending l' = sent l ++ frame (content b).
Proof.
  intros I Hb Ht E Hok. pose proof (length_content b Hb) as Hp. unfold buffer_ok in Hb.
  assert (Hpend : pending l = []) by (unfold pending; by rewrite Ht).
  unfold write_first in E. rewrite s32_small in E by (unfold LWS_PRE in *; lia).
  destruct (zlen b - LWS_PRE >? 0) eqn:Eg; zbool.
  - rewrite (si_conn _ _ _ I) in E. cbn [mbind option_bind] in E.
    destruct (lws_write (S fuel) l b (zlen b - LWS_PRE) LWS_WRITE_TEXT) as [[[l' n] b1]|] eqn:Ew; [|done].
    cbn [mbind option_bind] in E.
    destruct (writes_text fuel l b (zlen b - LWS_PRE) l' n b1 (si_writes _ _ _ I) Ht) as [Hz Hr];
      [unfold LWS_PRE in *; lia|unfold LWS_PRE in *; lia|done|].
    destruct (n >? 0) eqn:En; zbool; [|by injection E as <- <- <-].
    destruct (Hr ltac:(lia)) as (W' & -> & Hs). rewrite Hz in E.
    replace (LWS_PRE + (zlen b - LWS_PRE) >? zlen b) with false in E by lia. injection E as <- <- <-. split.
    + rewrite zlen_app. unfold zlen, LWS_PRE in *. rewrite length_take, length_drop. lia.
    + exists l'. split; [done|]. split; [by destruct a|]. rewrite Hs. f_equal. fold (content b).
      rewrite take_ge by (unfold zlen in *; lia). unfold frame.
      destruct (content b) eqn:Ep; [|done]. change (zlen []) with 0 in Hp. lia.
  - injection E as <- <- <-. split; [lia|]. exists l. split; [apply I|]. split.
    + rewrite insert_id by apply I. by destruct a.
    + rewrite Hpend. destruct (content b) eqn:Ep; [done|]. rewrite zlen_cons in Hp. pose proof (zlen_nonneg l0). lia.
Qed.

(** A writable callback takes one message from the queue to the writer. *)
Lemma sess_writable a l c user a' : SessInv a l c -> trunc_len (tx l) = 0 ->
  callback_lws (S fuel) a w LWS_CALLBACK_SERVER_WRITEABLE user None = Some (a', 0) ->
  exists l' c', SessInv a' l' c' /\ stream l' c' = stream l c /\ m_sendBuf c' = drop 1 (m_sendBuf c).
Proof.
  intros I Ht E. unfold callback_lws in E. rewrite (si_conn _ _ _ I) in E. cbn [mbind option_bind] in E.
  change (ws_write (S fuel) a w (WSClientSet a !! w) = Some (a', 0)) in E. rewrite (si_set _ _ _ I) in E.
  unfold ws_write in E. rewrite (si_object _ _ _ I) in E. cbn [mbind option_bind] in E.
  rewrite (si_open _ _ _ I), bool_decide_false in E by done.
  rewrite quiet_send in E by (eexists; apply I). cbn [mbind option_bind] in E.
  rewrite (si_object _ _ _ I) in E. cbn [mbind option_bind] in E.
  destruct (m_sendBuf c) as [|b q] eqn:Eq.
  { injection E as <-. exists l, c. by rewrite Eq. }
  pose proof (si_queue _ _ _ I) as Hq. rewrite Eq in Hq. apply Forall_cons in Hq as [Hb Hq].
  destruct (write_first (S fuel) a w b) as [[[a1 b1] ok]|] eqn:Ew; [|done]. cbn [mbind option_bind] in E.
  destruct ok; [|done]. cbn [negb] in E.
  destruct (sess_write_first a l c b a1 b1 true I Hb Ht Ew eq_refl) as (Hz & l' & W' & -> & Hs).
  rewrite Hz, Z.sub_diag in E. cbn [Z.eqb] in E. set (c' := c {{ m_sendBuf := q }}) in E.
  assert (G : wsi c' = wsi c /\ m_state c' = m_state c /\ m_sendBuf c' = q) by (unfold c'; by destruct c).
  destruct G as (G1 & G2 & G3). rewrite <- G3 in Hq.
  assert (Hst : forall l2, sent l2 = sent l' -> pending l2 = pending l' -> stream l2 c' = stream l c).
  { intros l2 E1 E2. unfold stream. rewrite E1, E2, G3, Eq, app_assoc, Hs. unfold frames. cbn.
    unfold pending. rewrite Ht. cbn. by rewrite <- !app_assoc. }
  destruct q as [|b2 q].
  - injection E as <-. exists l', c'. split; [|by split; [apply Hst|]].
    apply (sess_put a l _ c); try done; try (rewrite ?G1, ?G2; apply I); by destruct a.
  - destruct (writable_writes l' W') as (W2 & Hs2 & Hp2).
    rewrite (on_writable_eq _ l') in E by (destruct a; apply lookup_insert_eq). cbn [mbind option_bind] in E.
    injection E as <-. exists (lws_callback_on_writable l'), c'. split; [|by split; [apply Hst|]].
    apply (sess_put a l _ c); try done; try (rewrite ?G1, ?G2; apply I); try (by destruct a).
    destruct a. cbn. apply insert_insert_eq.
Qed.

(** The life of an open session: the application sends, the connection is writable
    with nothing waiting (the user's callback runs) or with something waiting (the
    library flushes), and anything that leaves the session alone. *)
Inductive sess_step : app * list bytes -> app * list bytes -> Prop :=
| ss_send a h m a' :
    zlen m < 2 ^ 31 - LWS_PRE -> Send a p m = Some a' -> sess_step (a, h) (a', h ++ [m])
| ss_writable a h l user a' :
    conns a !! w = Some l -> trunc_len (tx l) = 0 ->
    callback_lws (S fuel) a w LWS_CALLBACK_SERVER_WRITEABLE user None = Some (a', 0) ->
    sess_step (a, h) (a', h)
| ss_flush a h l l' fuel' pollfd r :
    conns a !! w = Some l -> trunc_len (tx l) <> 0 ->
    lws_handle_POLLOUT_event fuel' l pollfd = Some (l', r) -> r <> -1 ->
    sess_step (a, h) (a {{ conns := <[w := l']> (conns a) }}, h)
| ss_other a h a' :
    conns a' !! w = conns a !! w -> heap a' !! p = heap a !! p -> WSClientSet a' !! w = WSClientSet a !! w ->
    sess_step (a, h) (a', h).

Lemma sess_step_stream x y l c : sess_step x y -> SessInv x.1 l c -> stream l c = frames x.2 ->
  exists l' c', SessInv y.1 l' c' /\ stream l' c' = frames y.2.
Proof.
  intros Hs I E. destruct Hs as [a h m a' Hm Ha|a h l0 user a' Hl Ht Ha|a h l0 l' fuel' pollfd r Hl Ht Ha Hr|a h a' E1 E2 E3];
    cbn [fst snd] in *.
  - destruct (sess_send a l c m a' I Hm Ha) as (l' & c' & I' & S'). exists l', c'. split; [done|].
    rewrite S', E, frames_app. f_equal. unfold frames. cbn. by rewrite app_nil_r.
  - rewrite (si_conn _ _ _ I) in Hl. injection Hl as <-.
    destruct (sess_writable a l c user a' I Ht Ha) as (l' & c' & I' & S' & _). exists l', c'. split; [done|]. congruence.
  - rewrite (si_conn _ _ _ I) in Hl. injection Hl as <-.
    destruct (writes_flush fuel' l pollfd l' r (si_writes _ _ _ I) Ht Ha Hr) as [W' S']. exists l', c. split.
    + apply (sess_put a l _ c); try done; try apply I. symmetry. apply insert_id, I.
    + unfold stream in *. by rewrite app_assoc, S', <- app_assoc.
  - exists l, c. split; [|done]. destruct I. constructor; rewrite ?E1, ?E2, ?E3; done.
Qed.

(** C7: The queue of a connection is a reliable ordered channel. However Send calls,
    writable callbacks, flushes of partial writes and the events of other connections
    alternate, the bytes the socket took, the bytes the library still holds and the frames
    of the queued messages are together the text frames of all messages sent so far, in
    order, none lost, repeated or merged. An empty message has no frame: the code takes it
    from the queue without sending it. *)
Theorem session_fifo a0 l0 c0 a h : SessInv a0 l0 c0 -> stream l0 c0 = [] ->
  rtc sess_step (a0, []) (a, h) ->
  exists l c, conns a !! w = Some l /\ heap a !! p = Some c /\
    sent l ++ pending l ++ frames (map content (m_sendBuf c)) = frames h.
Proof.
  intros I E Hr.
  assert (Hi : forall x y, rtc sess_step x y -> forall l c, SessInv x.1 l c -> stream l c = frames x.2 ->
    exists l' c', SessInv y.1 l' c' /\ stream l' c' = frames y.2).
  { clear a0 l0 c0 a h I E Hr. intros x y Hr. induction Hr as [x|x y z Hxy _ IH]; intros l c I E; [by eauto|].
    destruct (sess_step_stream x y l c Hxy I E) as (l' & c' & I' & E'). by apply (IH l' c'). }
  destruct (Hi _ _ Hr l0 c0 I E) as (l & c & I' & E'). exists l, c. split; [apply I'|]. split; [apply I'|done].
Qed.

End Session.

(** ** Witness *)

#[local] Existing Instances demo_env.

#[local] Instance demo_socket : SocketOk.
Proof. constructor. intros w b. cbn. pose proof (zlen_nonneg b). right. right. lia. Qed.

#[local] Instance demo_random : RandomOk.
Proof. constructor. intros w m E. injection E as <-. split; [done|by repeat constructor]. Qed.

(** Addresses: one above all that are in use. *)
Definition above (h : gmap Z client) : Z := 1 + map_fold (fun k _ m => Z.max (Z.abs k) m) 0 h.

Lemma above_ok h : above h <> 0 /\ h !! above h = None.
Proof.
  assert (Hf : forall h : gmap Z client, 0 <= map_fold (fun k _ m => Z.max (Z.abs k) m) 0 h /\
    forall k, is_Some (h !! k) -> k <= map_fold (fun k _ m => Z.max (Z.abs k) m) 0 h).
  { apply (map_fold_weak_ind (fun r m => 0 <= r /\ forall k, is_Some (m !! k) -> k <= r)).
    - split; [done|]. intros k [? Hk]. by rewrite lookup_empty in Hk.
    - intros k c m r Hk [H0 H1]. split; [lia|]. intros j Hj. destruct (decide (j = k)) as [->|Hn]; [lia|].
      rewrite lookup_insert_ne in Hj by done. specialize (H1 j Hj). lia. }
  destruct (Hf h) as [H0 H1]. unfold above. split; [lia|].
  destruct (h !! (1 + _)) eqn:E; [|done]. assert (Hc := H1 _ (mk_is_Some _ _ E)). lia.
Qed.

#[local] Instance demo_alloc : Allocator := { new_address := above; new_address_ok := above_ok }.
#[local] Existing Instance base_client.

#[local] Instance demo_quiet_send : QuietSend.
Proof. constructor. intros a p [c Hc]. cbn. unfold log_only. by rewrite Hc. Qed.

(** One open session: connection 7, object 5. *)
Definition demo_app : app := {|
  heap := {[ 5 := mkClient 7 OPEN [] ]}; WSClientSet := {[ 7 := 5 ]}; g_WSClientSet := []; g_Instance := 0;
  g_pjsipReferce := 0; version := []; conns := {[ 7 := demo_wsi 4 ]}; calls := []
|}.

Lemma session_fifo_witness : exists a l c,
  rtc (sess_step 0 5 7) (demo_app, []) (a, [[104; 105]; [33]]) /\
  conns a !! 7 = Some l /\ heap a !! 5 = Some c /\
  sent l ++ pending l ++ frames (map content (m_sendBuf c)) = [129; 2; 104; 105; 129; 1; 33].
Proof.
  destruct (Send demo_app 5 [104; 105]) as [a1|] eqn:E1; [|by vm_compute in E1].
  destruct (Send a1 5 [33]) as [a2|] eqn:E2; [|vm_compute in E1; injection E1 as <-; by vm_compute in E2].
  destruct (callback_lws 1 a2 7 LWS_CALLBACK_SERVER_WRITEABLE 0 None) as [[a3 r]|] eqn:E3;
    [|vm_compute in E1; injection E1 as <-; vm_compute in E2; injection E2 as <-; by vm_compute in E3].
  assert (Hr : rtc (sess_step 0 5 7) (demo_app, []) (a3, [[104; 105]; [33]])).
  { apply rtc_l with (a1, [[104; 105]]); [by apply (ss_send 0 5 7 demo_app [])|].
    apply rtc_l with (a2, [[104; 105]; [33]]); [by apply (ss_send 0 5 7 a1 [[104; 105]])|]. apply rtc_once.
    vm_compute in E1. injection E1 as <-. vm_compute in E2. injection E2 as <-.
    eapply ss_writable; [reflexivity|reflexivity|]. rewrite E3. vm_compute in E3. injection E3 as _ <-. reflexivity. }
  destruct (session_fifo 0 5 7 demo_app (demo_wsi 4) (mkClient 7 OPEN []) a3 [[104; 105]; [33]])
    as (l & c & H1 & H2 & H3); [|reflexivity|exact Hr|].
  - constructor; try reflexivity; [|constructor]. constructor; try reflexivity. by constructor.
  - exists a3, l, c. split; [exact Hr|]. split; [exact H1|]. split; [exact H2|]. rewrite H3. reflexivity.
Defined.

End SessionProps.
