(* ===== verification/AppFacts.v ===== *)
(** * The invariant of the application's objects

    [WSClientSet], [g_WSClientSet] and [g_Instance] hold addresses; the invariant says
    that the objects behind them are alive, and that an open object has a connection.
    The operations of the sessions and the virtual methods keep it. *)

From stdpp Require Import gmap.
From S2P Require Import Prelude Ws WsRx WsTx Json JsonReader JsonFacts Session Commands.

Module AppFacts.
Export Commands ReaderFacts.

(** ** The invariant *)

Record AppInv (a : app) : Prop := {
  ai_null : heap a !! 0 = None;
  ai_map : forall w p, WSClientSet a !! w = Some p -> exists c, heap a !! p = Some c /\ wsi c = w;
  ai_list : Forall (fun p => is_Some (heap a !! p)) (g_WSClientSet a);
  ai_inst : g_Instance a = 0 \/ is_Some (heap a !! g_Instance a);
  ai_open : forall p c, heap a !! p = Some c -> m_state c = OPEN ->
    WSClientSet a !! wsi c = Some p /\ is_Some (conns a !! wsi c)
}.

(** Nothing but the log, the counter and the cached version differs. *)
Definition same_world (a a' : app) : Prop :=
  heap a' = heap a /\ WSClientSet a' = WSClientSet a /\ g_WSClientSet a' = g_WSClientSet a /\
  g_Instance a' = g_Instance a /\ conns a' = conns a.

#[global] Instance same_world_preorder : PreOrder same_world.
Proof. split; unfold same_world; [done|]. intros x y z ? ?. intuition congruence. Qed.

Lemma same_world_inv a a' : same_world a a' -> AppInv a -> AppInv a'.
Proof. intros (E1 & E2 & E3 & E4 & E5) []. constructor; rewrite ?E1, ?E2, ?E3, ?E4, ?E5; done. Qed.

Lemma log_same c a : same_world a (log_call c a).
Proof. by destruct a. Qed.

(** Objects may change, none disappears; no connection disappears. *)
Definition grows (a a' : app) : Prop :=
  (forall p, is_Some (heap a !! p) -> is_Some (heap a' !! p)) /\
  (forall w, is_Some (conns a !! w) -> is_Some (conns a' !! w)).

Lemma insert_some {A} (m : gmap Z A) k x j : is_Some (m !! j) -> is_Some (<[k := x]> m !! j).
Proof. intros Hj. destruct (decide (j = k)) as [->|]; [by rewrite lookup_insert_eq|by rewrite lookup_insert_ne]. Qed.

(** Changing an object without opening it, and a connection. *)
Lemma inv_update a a' p c c' : AppInv a -> heap a !! p = Some c -> wsi c' = wsi c ->
  (m_state c' = OPEN -> m_state c = OPEN) -> heap a' = <[p := c']> (heap a) ->
  WSClientSet a' = WSClientSet a -> g_WSClientSet a' = g_WSClientSet a -> g_Instance a' = g_Instance a ->
  (forall w, is_Some (conns a !! w) -> is_Some (conns a' !! w)) -> AppInv a' /\ grows a a'.
Proof.
  intros I Hp Hw Ho E1 E2 E3 E4 Hc. split; [|split; [|done]].
  - constructor; rewrite ?E1, ?E2, ?E3, ?E4.
    + rewrite lookup_insert_ne; [apply I|]. intros ->. by rewrite (ai_null _ I) in Hp.
    + intros w q Hq. destruct (ai_map _ I w q Hq) as (d & Hd & Hdw). destruct (decide (q = p)) as [->|Hn].
      * exists c'. rewrite lookup_insert_eq. split; [done|]. congruence.
      * exists d. by rewrite lookup_insert_ne.
    + eapply Forall_impl; [apply I|]. intros q. apply insert_some.
    + destruct (ai_inst _ I) as [|Hs]; [by left|right]. by apply insert_some.
    + intros q d. destruct (decide (q = p)) as [->|Hn].
      * rewrite lookup_insert_eq. intros E Hop. injection E as <-. rewrite Hw.
        destruct (ai_open _ I p c Hp (Ho Hop)). auto.
      * rewrite lookup_insert_ne by done. intros Hd Hop. destruct (ai_open _ I q d Hd Hop). auto.
  - intros q Hq. rewrite E1. by apply insert_some.
Qed.

(** ** Sessions *)

Lemma on_writable_some a w : is_Some (conns a !! w) ->
  exists l, on_writable a w = Some (a {{ conns ::= insert w l }}).
Proof. intros [l Hl]. unfold on_writable. rewrite Hl. by eexists. Qed.

Lemma send_ok a p m : AppInv a -> is_Some (heap a !! p) ->
  exists a', Send a p m = Some a' /\ AppInv a' /\ grows a a' /\ g_WSClientSet a' = g_WSClientSet a.
Proof.
  intros I [c Hc]. unfold Send. rewrite Hc. cbn [mbind option_bind].
  set (c' := c {{ m_sendBuf ::= _ }}).
  assert (G : wsi c' = wsi c /\ m_state c' = m_state c) by (unfold c'; by destruct c). destruct G as [G1 G2].
  assert (Hd : exists a', (a' = set_client a p c' \/ exists l, a' = log_call CallCancelService
     ((set_client a p c') {{ conns ::= insert (wsi c) l }})) /\ match WSClientSet (set_client a p c') !! wsi c with
    | Some _ => if nz (wsi c) && bool_decide (m_state c = OPEN) then
        a ← on_writable (set_client a p c') (wsi c); Some (log_call CallCancelService a) else Some (set_client a p c')
    | None => Some (set_client a p c') end = Some a').
  { destruct (WSClientSet _ !! wsi c); [|by eauto]. destruct (nz (wsi c) && _) eqn:E; [|by eauto].
    apply andb_prop in E as [_ E%bool_decide_eq_true]. destruct (ai_open _ I p c Hc E) as [_ Hl].
    destruct (on_writable_some (set_client a p c') (wsi c)) as [l ->]; [by destruct a|]. cbn. eauto. }
  destruct Hd as (a' & Ha' & ->). exists a'. split; [done|].
  assert (F : heap a' = <[p := c']> (heap a) /\ WSClientSet a' = WSClientSet a /\ g_WSClientSet a' = g_WSClientSet a /\
    g_Instance a' = g_Instance a /\ forall w, is_Some (conns a !! w) -> is_Some (conns a' !! w)).
  { destruct Ha' as [->|[l ->]]; destruct a; cbn; split_and!; try done. intros w. apply insert_some. }
  destruct F as (F1 & F2 & F3 & F4 & F5).
  destruct (inv_update a a' p c c') as [I' Hg]; try done; try congruence.
Qed.

Lemma close_ok a p : AppInv a -> is_Some (heap a !! p) ->
  exists a', Close a p = Some a' /\ AppInv a' /\ grows a a' /\ g_WSClientSet a' = g_WSClientSet a.
Proof.
  intros I [c Hc]. unfold Close. rewrite Hc. cbn [mbind option_bind].
  assert (Hsame : exists a', Some a = Some a' /\ AppInv a' /\ grows a a' /\ g_WSClientSet a' = g_WSClientSet a)
    by (by exists a).
  destruct (WSClientSet a !! wsi c); [|done]. destruct (nz (wsi c) && _) eqn:E; [|done].
  apply andb_prop in E as [_ E%bool_decide_eq_true]. destruct (ai_open _ I p c Hc E) as [_ Hl].
  set (c' := c {{ m_state := CLOSING }}).
  assert (G : wsi c' = wsi c /\ m_state c' = CLOSING) by (unfold c'; by destruct c). destruct G as [G1 G2].
  destruct (on_writable_some (set_client a p c') (wsi c)) as [l ->]; [by destruct a|]. cbn [mbind option_bind].
  eexists. split; [done|]. rewrite (and_assoc (AppInv _)). split; [|by destruct a].
  apply (inv_update a _ p c c'); try done; try congruence; destruct a; cbn; try done. intros w. apply insert_some.
Qed.

(** Freeing an object that is not open and not in the globals. *)
Lemma delete_ok a p c : AppInv a -> heap a !! p = Some c -> m_state c <> OPEN -> (p ∉ g_WSClientSet a) ->
  g_Instance a <> p -> (forall w, WSClientSet a !! w = Some p -> w = wsi c) ->
  (forall q, WSClientSet a !! wsi c = Some q -> q = p) ->
  exists a', WebSocketClient_delete a p = Some a' /\ AppInv a' /\ conns a' = conns a.
Proof.
  intros I Hp Hno Hnl Hni Hw1 Hw2. unfold WebSocketClient_delete. rewrite Hp. cbn [mbind option_bind].
  assert (Ec : match WSClientSet a !! wsi c with Some _ => Close a p | None => Some a end = Some a).
  { destruct (WSClientSet a !! wsi c); [|done]. unfold Close. rewrite Hp. cbn [mbind option_bind].
    rewrite (bool_decide_false (m_state c = OPEN)) by done. rewrite andb_false_r. by case_match. }
  rewrite Ec. cbn [mbind option_bind]. eexists. split; [done|]. split; [|by destruct a].
  assert (Hl : forall q, q <> p -> is_Some (heap a !! q) -> is_Some (delete p (heap a) !! q))
    by (intros q Hq; by rewrite lookup_delete_ne).
  destruct I as [I0 I1 I2 I3 I4]. constructor.
  - replace (heap _) with (delete p (heap a)) by (by destruct a). rewrite lookup_delete_None. by right.
  - intros w q. replace (WSClientSet _) with (delete (wsi c) (WSClientSet a)) by (by destruct a).
    replace (heap _) with (delete p (heap a)) by (by destruct a). intros Hq.
    destruct (decide (w = wsi c)) as [->|Hn]; [by rewrite lookup_delete_eq in Hq|].
    rewrite lookup_delete_ne in Hq by done. destruct (decide (q = p)) as [->|Hqp]; [by apply Hw1 in Hq|].
    destruct (I1 w q Hq) as (d & Hd & Hdw). exists d. by rewrite lookup_delete_ne.
  - replace (g_WSClientSet _) with (g_WSClientSet a) by (by destruct a).
    replace (heap _) with (delete p (heap a)) by (by destruct a). rewrite Forall_forall in *.
    intros q Hq. apply Hl; [by intros ->|by apply I2].
  - replace (g_Instance _) with (g_Instance a) by (by destruct a).
    replace (heap _) with (delete p (heap a)) by (by destruct a). destruct I3 as [|I3]; [by left|right]. by apply Hl.
  - intros q d. replace (WSClientSet _) with (delete (wsi c) (WSClientSet a)) by (by destruct a).
    replace (heap _) with (delete p (heap a)) by (by destruct a).
    replace (conns _) with (conns a) by (by destruct a). intros Hd Ho.
    destruct (decide (q = p)) as [->|Hqp]; [by rewrite lookup_delete_eq in Hd|].
    rewrite lookup_delete_ne in Hd by done. destruct (I4 q d Hd Ho) as [H1 H2]. split; [|done].
    rewrite lookup_delete_ne; [done|]. intros E. rewrite <- E in H1. by apply Hw2 in H1.
Qed.

(** ** The virtual methods *)

(** What [callback_lws] relies on: the methods succeed on live objects and keep the
    invariant; [Msg] are the messages [OnMessage] can handle in a state. *)
Class ClientOk `{Client} (Msg : app -> bytes -> Prop) : Prop := {
  not_base : is_WebSocketClient = false;
  accept_ok a w : AppInv a -> is_Some (conns a !! w) ->
    exists a', OnAccept a w = Some a' /\ AppInv a' /\ conns a' = conns a;
  open_ok a p : AppInv a -> is_Some (heap a !! p) -> exists a', OnOpen a p = Some a' /\ AppInv a' /\ grows a a';
  onsend_ok a p : is_Some (heap a !! p) -> OnSend a p = Some a;
  onclose_ok a p c e : AppInv a -> heap a !! p = Some c -> m_state c = CLOSED -> WSClientSet a !! wsi c = None ->
    exists a', OnClose a p e = Some a' /\ AppInv a' /\ conns a' = conns a;
  onerror_ok a p e : is_Some (heap a !! p) -> OnError a p e = Some a;
  message_ok a p m : AppInv a -> is_Some (heap a !! p) -> Msg a m ->
    exists a', OnMessage a p m = Some a' /\ AppInv a' /\ grows a a'
}.

Section Callback.
Context `{LwsEnv} `{ClientOk} (fuel : nat).

Lemma established_ok a w : AppInv a -> is_Some (conns a !! w) ->
  exists a', established a w (WSClientSet a !! w) = Some a' /\ AppInv a'.
Proof.
  intros I Hw. unfold established. destruct (WSClientSet a !! w) as [p|] eqn:Ep; [|by eauto].
  destruct (ai_map _ I w p Ep) as (c & Hc & Hcw). unfold set_state. rewrite Hc. cbn [mbind option_bind].
  set (c' := c {{ m_state := OPEN }}). set (a1 := set_client a p c').
  assert (G : wsi c' = wsi c) by (unfold c'; by destruct c).
  assert (F : heap a1 = <[p := c']> (heap a) /\ WSClientSet a1 = WSClientSet a /\ g_WSClientSet a1 = g_WSClientSet a /\
    g_Instance a1 = g_Instance a /\ conns a1 = conns a) by (by destruct a). destruct F as (F1 & F2 & F3 & F4 & F5).
  assert (I1 : AppInv a1).
  { destruct I as [I0 I1 I2 I3 I4]. constructor; rewrite ?F1, ?F2, ?F3, ?F4, ?F5.
    - rewrite lookup_insert_ne; [done|]. intros ->. congruence.
    - intros v q Hq. destruct (I1 v q Hq) as (d & Hd & Hdw). destruct (decide (q = p)) as [->|Hn].
      + exists c'. rewrite lookup_insert_eq. split; [done|]. congruence.
      + exists d. by rewrite lookup_insert_ne.
    - eapply Forall_impl; [exact I2|]. intros q. apply insert_some.
    - destruct I3 as [|I3]; [by left|right]. by apply insert_some.
    - intros q d. destruct (decide (q = p)) as [->|Hn].
      + rewrite lookup_insert_eq. intros E _. injection E as <-. by rewrite G, Hcw.
      + rewrite lookup_insert_ne by done. apply I4. }
  destruct (open_ok a1 p I1) as (a2 & -> & I2 & G1 & G2); [rewrite F1, lookup_insert_eq; by eexists|].
  cbn [mbind option_bind]. destruct (on_writable_some a2 w) as [l ->]; [apply G2; by rewrite F5|].
  eexists. split; [done|]. destruct I2 as [J0 J1 J2 J3 J4]. constructor; destruct a2; cbn in *; try done.
  intros q d Hd Ho. destruct (J4 q d Hd Ho) as [K1 K2]. split; [done|]. by apply insert_some.
Qed.

(** Taking the object out of the set and marking it closed. *)
Lemma erase_closed a w p c : AppInv a -> WSClientSet a !! w = Some p -> heap a !! p = Some c ->
  let c' := c {{ m_state := CLOSED }} in
  AppInv (set_client (erase w a) p c') /\ WSClientSet (set_client (erase w a) p c') !! wsi c' = None /\
  conns (set_client (erase w a) p c') = conns a /\ heap (set_client (erase w a) p c') !! p = Some c' /\ m_state c' = CLOSED.
Proof.
  intros I Hw Hp c'. assert (G : wsi c' = w /\ m_state c' = CLOSED).
  { destruct (ai_map _ I w p Hw) as (d & Hd & Hdw). assert (Ec : wsi c = w) by congruence.
    unfold c'. by destruct c. }
  destruct G as [G1 G2]. set (a1 := set_client _ _ _).
  assert (F : heap a1 = <[p := c']> (heap a) /\ WSClientSet a1 = delete w (WSClientSet a) /\
    g_WSClientSet a1 = g_WSClientSet a /\ g_Instance a1 = g_Instance a /\ conns a1 = conns a) by (by destruct a).
  destruct F as (F1 & F2 & F3 & F4 & F5).
  split; [|rewrite F1, F2, F5, G1; by rewrite lookup_delete_eq, lookup_insert_eq].
  destruct I as [I0 I1 I2 I3 I4]. constructor; rewrite ?F1, ?F2, ?F3, ?F4, ?F5.
  - rewrite lookup_insert_ne; [done|]. intros ->. congruence.
  - intros v q Hq. apply lookup_delete_Some in Hq as [Hn Hq]. destruct (I1 v q Hq) as (d & Hd & Hdw).
    destruct (decide (q = p)) as [->|Hqp]; [|exists d; by rewrite lookup_insert_ne].
    destruct (I1 w p Hw) as (d' & Hd' & Hdw'). congruence.
  - eapply Forall_impl; [exact I2|]. intros q. apply insert_some.
  - destruct I3 as [|I3]; [by left|right]. by apply insert_some.
  - intros q d. destruct (decide (q = p)) as [->|Hn].
    + rewrite lookup_insert_eq. intros E Ho. injection E as <-. congruence.
    + rewrite lookup_insert_ne by done. intros Hd Ho. destruct (I4 q d Hd Ho) as [K1 K2]. split; [|done].
      rewrite lookup_delete_ne; [done|]. intros E. rewrite <- E in K1. congruence.
Qed.

Lemma erase_inv a w : AppInv a -> WSClientSet a !! w = None \/
  (exists p c, WSClientSet a !! w = Some p /\ heap a !! p = Some c /\ m_state c <> OPEN) -> AppInv (erase w a).
Proof.
  intros I Hw. assert (F : heap (erase w a) = heap a /\ WSClientSet (erase w a) = delete w (WSClientSet a) /\
    g_WSClientSet (erase w a) = g_WSClientSet a /\ g_Instance (erase w a) = g_Instance a /\
    conns (erase w a) = conns a) by (by destruct a). destruct F as (F1 & F2 & F3 & F4 & F5).
  destruct I as [I0 I1 I2 I3 I4]. constructor; rewrite ?F1, ?F2, ?F3, ?F4, ?F5; try done.
  - intros v q Hq. apply lookup_delete_Some in Hq as [_ Hq]. by apply I1.
  - intros q d Hd Ho. destruct (I4 q d Hd Ho) as [K1 K2]. split; [|done]. rewrite lookup_delete_ne; [done|].
    intros E. rewrite <- E in K1. destruct Hw as [Hw|(p & c & Hw & Hc & Hn)]; congruence.
Qed.

Lemma closed_ok a w inp : AppInv a -> exists a', closed a w (WSClientSet a !! w) inp = Some a' /\ AppInv a' /\ conns a' = conns a.
Proof.
  intros I. unfold closed. destruct (WSClientSet a !! w) as [p|] eqn:Ep.
  2: { eexists. split; [done|]. split; [by apply erase_inv; [|left]|by destruct a]. }
  destruct (ai_map _ I w p Ep) as (c & Hc & Hcw).
  assert (Eh : heap (erase w a) !! p = Some c) by (by destruct a). rewrite Eh. cbn [mbind option_bind].
  destruct (decide (m_state c = CLOSED)) as [Hcl|Hcl].
  { rewrite bool_decide_true by done. eexists. split; [done|]. split; [|by destruct a].
    apply erase_inv; [done|]. right. exists p, c. rewrite Hcl. done. }
  rewrite bool_decide_false by done. unfold set_state. rewrite Eh. cbn [mbind option_bind].
  destruct (erase_closed a w p c I Ep Hc) as (I' & E1 & E2 & E3 & E4).
  destruct (onclose_ok _ _ _ (assign_in inp) I' E3 E4 E1) as (a' & -> & I'' & Ec).
  exists a'. split; [done|]. split; [done|]. congruence.
Qed.

Lemma connection_error_ok a w inp : AppInv a ->
  exists a', connection_error a w (WSClientSet a !! w) inp = Some a' /\ AppInv a' /\ conns a' = conns a.
Proof.
  intros I. unfold connection_error. destruct (WSClientSet a !! w) as [p|] eqn:Ep.
  2: { eexists. split; [done|]. split; [by apply erase_inv; [|left]|by destruct a]. }
  destruct (ai_map _ I w p Ep) as (c & Hc & Hcw).
  assert (Eh : heap (erase w a) !! p = Some c) by (by destruct a). unfold set_state. rewrite Eh. cbn [mbind option_bind].
  destruct (erase_closed a w p c I Ep Hc) as (I' & E1 & E2 & E3 & E4).
  rewrite onerror_ok by (by eexists). cbn [mbind option_bind].
  destruct (onclose_ok _ _ _ (assign_in inp) I' E3 E4 E1) as (a' & -> & I'' & Ec).
  exists a'. split; [done|]. split; [done|]. congruence.
Qed.

Lemma received_ok a w inp : AppInv a -> Msg a (assign_in inp) ->
  exists a', received a (WSClientSet a !! w) inp = Some a' /\ AppInv a' /\ grows a a'.
Proof.
  intros I Hm. unfold received. destruct (WSClientSet a !! w) as [p|] eqn:Ep; [|by exists a].
  destruct (ai_map _ I w p Ep) as (c & Hc & Hcw). apply message_ok; [done|by eexists|done].
Qed.

End Callback.

End AppFacts.
