(* ===== verification/CommandFacts.v ===== *)
(** * Which commands answer

    The commands of [OnMessage] run to their end, touch nothing but the log of calls
    and keep the answer well formed, except in two cases: [param] is neither an object
    nor missing and the command reads it, or the current call ends between the two
    questions of a command for it. *)

From stdpp Require Import gmap.
From S2P Require Import Prelude Json JsonReader JsonFacts Session Commands AppFacts.

Module CommandFacts.
Export AppFacts.

(** What the SDK promises: the version is a string (CCPClient.h, getVersion). *)
Class SdkOk `{Sdk} : Prop := { version_ok : forall l, is_Some (sdk_str l "getVersion") }.

(** The commands that read [param]. *)
Definition param_commands : list string := [
  "connectToCCPServer"; "setTraceFlag"; "makeCall"; "acceptCall"; "pauseCall"; "resumeCall"; "releaseCall"; "sendDTMF";
  "setMute"; "transferCall"; "consultTransferCall"; "transferMeeting"; "setUserData"; "setSipTransportType";
  "setSrtpEnabled"; "setCodecEnabled"; "getCodecEnabled"; "selectMicroPhone"; "selectSpeaker"; "setAudioRecordStatus";
  "selectAudioRecordDevice"; "selectAudioPlayoutDevice"; "setAudioPlayoutVolume"; "enableGlobalAudioInDevice"; "setRegConfig"].

Definition reads_param (cmd : bytes) : bool := existsb (fun n => beqb cmd (bstr n)) param_commands.

Section Facts.
Context `{CDouble} `{SdkOk}.

(** ** When a command stops the application *)

(** [param] is an object, or is missing. *)
Definition param_ok (ev : value) : bool :=
  match member ev (bstr "param") with Some p => isObject p | None => false end.

(** The command reads members of a [param] that has none. *)
Definition bad_param (cmd : bytes) (ev : value) : bool := reads_param cmd && negb (param_ok ev).

(** After the calls [l] there is a current call, and none when asked again. *)
Definition call_lost (l : list call) : bool :=
  match sdk_str l "getCurrentCall", sdk_str (l ++ [CallSdk "getCurrentCall" []]) "getCurrentCall" with
  | Some _, None => true
  | _, _ => false
  end.

(** The command asks twice for the current call, which ends in between. *)
Definition loses_call (cmd : bytes) (a : app) (ev : value) : bool :=
  if beqb cmd (bstr "getCurrentCall") then call_lost (calls a)
  else if beqb cmd (bstr "makeCall") then
    match str_param ev "called" with
    | Some s => call_lost (calls a ++ [CallSdk "makeCall" [AInt 0; AStr s]])
    | None => false
    end
  else false.


(** ** Members *)

Lemma beqb_refl k : beqb k k = true.
Proof. unfold beqb. by rewrite bool_decide_true. Qed.

Lemma find_put k v m : find_member k (put_member k v m) = Some v.
Proof.
  induction m as [|[k' v'] m IH]; cbn [put_member find_member]; [by rewrite beqb_refl|].
  destruct (beqb k k') eqn:E; cbn [find_member]; [by rewrite beqb_refl|].
  destruct (strlt k k'); cbn [find_member]; [by rewrite beqb_refl|]. by rewrite E.
Qed.

Lemma find_put_ne k j v m : k <> j -> find_member j (put_member k v m) = find_member j m.
Proof.
  intros Hn. assert (Hb : beqb j k = false) by (unfold beqb; rewrite bool_decide_false; [done|congruence]).
  induction m as [|[k' v'] m IH]; cbn [put_member find_member]; [by rewrite Hb|].
  destruct (beqb k k') eqn:E; cbn [find_member].
  - apply bool_decide_eq_true in E as <-. by rewrite Hb.
  - destruct (strlt k k'); cbn [find_member]; [by rewrite Hb|]. destruct (beqb j k'); [done|exact IH].
Qed.

(** A command whose parameters are an object. *)
Definition ParamOk (ev : value) : Prop := exists p, member ev (bstr "param") = Some p /\ isObject p = true.

Lemma param_ok_spec ev : param_ok ev = true -> ParamOk ev.
Proof. unfold param_ok. destruct (member ev (bstr "param")) as [p|] eqn:E; [|done]. intros Ho. by exists p. Qed.

Lemma pmember_ok ev k : ParamOk ev -> is_Some (pmember ev k).
Proof. intros (p & Ep & Ho). unfold pmember. rewrite Ep. cbn. destruct p; try done; by eexists. Qed.

(** JSON_ASSERT of [resolveReference] for a member of anything else. *)
Lemma pmember_bad ev k : param_ok ev = false -> pmember ev k = None.
Proof.
  unfold param_ok, pmember. destruct (member ev (bstr "param")) as [p|]; [|done]. cbn [mbind option_bind]. by destruct p.
Qed.

Lemma str_param_bad ev k : param_ok ev = false -> str_param ev k = None.
Proof. intros Hp. unfold str_param. by rewrite pmember_bad. Qed.

Lemma ptr_param_bad ev k : param_ok ev = false -> ptr_param ev k = None.
Proof. intros Hp. unfold ptr_param. by rewrite pmember_bad. Qed.

Lemma uint_param_bad ev k d : param_ok ev = false -> uint_param ev k d = None.
Proof. intros Hp. unfold uint_param. by rewrite pmember_bad. Qed.

Lemma str_param_ok ev k : ParamOk ev -> is_Some (str_param ev k).
Proof. intros Hp. unfold str_param. destruct (pmember_ok ev k Hp) as [v ->]. by eexists. Qed.

Lemma ptr_param_ok ev k : ParamOk ev -> is_Some (ptr_param ev k).
Proof. intros Hp. unfold ptr_param. destruct (pmember_ok ev k Hp) as [v ->]. by eexists. Qed.

Lemma uint_param_ok ev k d : ParamOk ev -> is_Some (uint_param ev k d).
Proof. intros Hp. unfold uint_param. destruct (pmember_ok ev k Hp) as [v ->]. by eexists. Qed.

(** An answer: the type, the name of the command and, possibly, results. *)
Definition Answer (cmd : bytes) (res : value) : Prop := exists m, res = objectValue m /\
  find_member (bstr "type") m = Some (stringValue (bstr "cmdresult")) /\
  find_member (bstr "cmdresult") m = Some (of_string cmd) /\
  isObject (default nullValue (find_member (bstr "param") m)) = true.

Lemma answer_start cmd : Answer cmd (cmdresult cmd).
Proof. by eexists. Qed.

Lemma set_param_ok cmd res k v : Answer cmd res -> exists res', set_param res k v = Some res' /\ Answer cmd res'.
Proof.
  intros (m & -> & M1 & M2 & M3). unfold set_param. cbn [member mbind option_bind]. change (c_str (bstr "param")) with (bstr "param").
  destruct (default nullValue (find_member (bstr "param") m)) as [| | | | | | |pm] eqn:Ep; try done;
    cbn [set_member mbind option_bind]; change (c_str (bstr "param")) with (bstr "param").
  all: eexists; split; [done|]; eexists; split; [done|]; rewrite !find_put, !find_put_ne by done; done.
Qed.

(** ** Commands *)

(** It runs to its end with a [param] that can be read. *)
Definition command_ok (f : command) : Prop := forall cmd a ev res, ParamOk ev -> Answer cmd res ->
  exists a' res', f a ev res = Some (a', res') /\ same_world a a' /\ Answer cmd res'.

(** It does not look at [param]. *)
Definition command_free (f : command) : Prop := forall cmd a ev res, Answer cmd res ->
  exists a' res', f a ev res = Some (a', res') /\ same_world a a' /\ Answer cmd res'.

(** It stops the application at any other [param]. *)
Definition command_stuck (f : command) : Prop := forall a ev res, param_ok ev = false -> f a ev res = None.

Lemma sdk_same f args a : same_world a (sdk f args a).1.
Proof. apply log_same. Qed.

(** Run a command: parameters are read, calls are logged, results are set. *)
Ltac cmd_step :=
  match goal with
  | |- context [mbind _ (str_param ?ev ?k)] => let x := fresh "s" in destruct (str_param_ok ev k ltac:(assumption)) as [x ->]; cbn [mbind option_bind]
  | |- context [mbind _ (ptr_param ?ev ?k)] => let x := fresh "s" in destruct (ptr_param_ok ev k ltac:(assumption)) as [x ->]; cbn [mbind option_bind]
  | |- context [mbind _ (uint_param ?ev ?k ?d)] => let x := fresh "n" in destruct (uint_param_ok ev k d ltac:(assumption)) as [x ->]; cbn [mbind option_bind]
  | |- context [mbind _ (pmember ?ev ?k)] => let x := fresh "v" in destruct (pmember_ok ev k ltac:(assumption)) as [x ->]; cbn [mbind option_bind]
  | HA : Answer ?cmd ?res |- context [mbind _ (set_param ?res ?k ?v)] =>
      let r := fresh "res" in let Hr := fresh "HA" in
      destruct (set_param_ok cmd res k v HA) as (r & -> & Hr); cbn [mbind option_bind]
  end.

Ltac cmd_run := intros cmd a ev res Hp HA; unfold set_return, sdk, devices, getCurrentCall; cbv beta iota; repeat cmd_step;
  try (eexists _, _; split; [done|]; split; [apply log_same || reflexivity|done]).

(** The same for a command that does not read parameters, and for one that cannot. *)
Ltac free_run := intros cmd a ev res HA; unfold set_return, sdk, devices, getCurrentCall; cbv beta iota; repeat cmd_step;
  try (eexists _, _; split; [done|]; split; [apply log_same || reflexivity|done]).

Ltac stuck_run := intros a ev res Hp; unfold set_return; cbv beta iota;
  rewrite ?str_param_bad, ?ptr_param_bad, ?uint_param_bad, ?pmember_bad by done; done.

Lemma return_zero_ok : command_free return_zero.
Proof. unfold return_zero. free_run. Qed.

Lemma call_command_ok f extra : command_ok (call_command f extra).
Proof. unfold call_command. cmd_run. Qed.

Lemma int_command_ok f k : command_ok (int_command f k).
Proof. unfold int_command. cmd_run. Qed.

Lemma reg_command_ok f k d : command_ok (reg_command f k d).
Proof. unfold reg_command. cmd_run. Qed.

Lemma device_command_ok f : command_free (device_command f).
Proof. unfold device_command. free_run. Qed.

Lemma no_operation_ok : command_free no_operation.
Proof. unfold no_operation. free_run. Qed.

Lemma connect_ok : command_ok cmd_connectToCCPServer.
Proof. unfold cmd_connectToCCPServer, connectToCCPServer. cmd_run. Qed.

Lemma disconnect_ok : command_free cmd_disConnectToCCP.
Proof. unfold cmd_disConnectToCCP. free_run. Qed.

Lemma trace_ok : command_ok cmd_setTraceFlag.
Proof. unfold cmd_setTraceFlag, setTraceFlag. cmd_run. Qed.

Lemma calls_log c a : calls (log_call c a) = calls a ++ [c].
Proof. by destruct a. Qed.

Lemma current_call_ok cmd a ev res : Answer cmd res ->
  if call_lost (calls a) then cmd_getCurrentCall a ev res = None
  else exists a' res', cmd_getCurrentCall a ev res = Some (a', res') /\ same_world a a' /\ Answer cmd res'.
Proof.
  intros HA. unfold cmd_getCurrentCall, getCurrentCall, call_lost. cbv beta iota. rewrite calls_log.
  destruct (sdk_str (calls a) "getCurrentCall") as [s|].
  2: { repeat cmd_step. eexists _, _. split; [done|]. split; [apply log_same|done]. }
  destruct (sdk_str _ "getCurrentCall") as [s'|]; [|done]. cbn [mbind option_bind]. repeat cmd_step.
  eexists _, _. split; [done|]. split; [|done]. etrans; apply log_same.
Qed.

Lemma makeCall_ok cmd a ev res called : ParamOk ev -> Answer cmd res -> str_param ev "called" = Some called ->
  if call_lost (calls a ++ [CallSdk "makeCall" [AInt 0; AStr called]]) then cmd_makeCall a ev res = None
  else exists a' res', cmd_makeCall a ev res = Some (a', res') /\ same_world a a' /\ Answer cmd res'.
Proof.
  intros Hp HA Hc. unfold cmd_makeCall. rewrite Hc. unfold set_return, sdk, getCurrentCall. cbv beta iota. repeat cmd_step.
  rewrite !calls_log. unfold call_lost. destruct (sdk_str (calls a ++ _) "getCurrentCall") as [s'|].
  - destruct (sdk_str _ "getCurrentCall") as [s2|]; [|done]. cbn [mbind option_bind]. repeat cmd_step.
    eexists _, _. split; [done|]. split; [|done]. etrans; [apply log_same|]. etrans; apply log_same.
  - eexists _, _. split; [done|]. split; [|done]. etrans; apply log_same.
Qed.

Lemma releaseCall_ok : command_ok cmd_releaseCall.
Proof.
  unfold cmd_releaseCall. cmd_run. destruct s; repeat cmd_step;
    (eexists _, _; split; [done|]; split; [apply log_same|done]).
Qed.

Lemma dtmf_loop_ok cmd callid dtmf : forall a res, Answer cmd res ->
  exists a' res', dtmf_loop callid dtmf a res = Some (a', res') /\ same_world a a' /\ Answer cmd res'.
Proof.
  induction dtmf as [|c r IH]; intros a res HA; cbn [dtmf_loop]; [by eexists _, _|].
  unfold set_return, sdk. cmd_step. destruct (IH (log_call (CallSdk "sendDTMF" [AStr callid; AInt (s8 c)]) a) res0 HA0)
    as (a' & res' & -> & Hs & Ha). eexists _, _. split; [done|]. split; [|done]. etrans; [apply log_same|done].
Qed.

Lemma sendDTMF_ok : command_ok cmd_sendDTMF.
Proof.
  unfold cmd_sendDTMF. intros cmd a ev res Hp HA. repeat cmd_step.
  destruct (dtmf_loop_ok cmd s s0 a res HA) as (a' & res' & -> & Hs & Ha). cbn [mbind option_bind]. repeat cmd_step.
  by eexists _, _.
Qed.

Lemma getVersion_ok a : exists a' v, getVersion a = Some (a', v) /\ same_world a a'.
Proof.
  unfold getVersion. destruct (negb _); [by eexists _, _|]. destruct (version_ok (calls a)) as [v ->]. cbn.
  eexists _, _. split; [done|]. by destruct a.
Qed.

Lemma cmd_getVersion_ok : command_free cmd_getVersion.
Proof.
  intros cmd a ev res HA. unfold cmd_getVersion. destruct (getVersion_ok a) as (a' & v & -> & Hs).
  cbn [mbind option_bind]. repeat cmd_step. by eexists _, _.
Qed.

Lemma reg_loop_same m : forall a, same_world a (reg_loop m a).
Proof.
  induction m as [|[k v] m IH]; intros a; cbn [reg_loop]; [reflexivity|].
  etrans; [|apply IH]. destruct v; try reflexivity; apply log_same.
Qed.

Lemma setRegConfig_ok : command_ok cmd_setRegConfig.
Proof.
  intros cmd a ev res Hp HA. unfold cmd_setRegConfig, set_return. cmd_step. destruct Hp as (p & -> & Ho).
  cbn [mbind option_bind]. destruct p; try done; cbn; eexists _, _; (split; [done|]); (split; [first [apply reg_loop_same|done]|done]).
Qed.

Lemma setRegConfig_stuck : command_stuck cmd_setRegConfig.
Proof.
  intros a ev res Hp. unfold cmd_setRegConfig, set_return. destruct (set_param res _ _); [|done]. cbn [mbind option_bind].
  unfold param_ok in Hp. destruct (member ev (bstr "param")) as [p|]; [|done]. cbn [mbind option_bind]. by destruct p.
Qed.

(** The command [f] that is listed under the name [n]. *)
Definition command_spec (n : string) (f : command) : Prop := forall cmd a ev res, Answer cmd res ->
  if bad_param (bstr n) ev || loses_call (bstr n) a ev then f a ev res = None
  else exists a' res', f a ev res = Some (a', res') /\ same_world a a' /\ Answer cmd res'.

(** It does not ask for the current call. *)
Definition asks_call (cmd : bytes) : bool := beqb cmd (bstr "getCurrentCall") || beqb cmd (bstr "makeCall").

Lemma asks_not cmd a ev : asks_call cmd = false -> loses_call cmd a ev = false.
Proof. unfold asks_call, loses_call. intros [-> ->]%orb_false_iff. done. Qed.

Lemma spec_free n f : reads_param (bstr n) = false -> asks_call (bstr n) = false ->
  command_free f -> command_spec n f.
Proof. intros Hr Hl Hf cmd a ev res HA. pose proof (asks_not _ a ev Hl) as Hl'. unfold bad_param. rewrite Hr, Hl'. by apply Hf. Qed.

Lemma spec_param n f : reads_param (bstr n) = true -> asks_call (bstr n) = false ->
  command_ok f -> command_stuck f -> command_spec n f.
Proof.
  intros Hr Hl Hf Hs cmd a ev res HA. pose proof (asks_not _ a ev Hl) as Hl'. unfold bad_param. rewrite Hr, Hl'. cbn [andb]. rewrite orb_false_r.
  destruct (param_ok ev) eqn:Hp; cbn [negb]; [by apply Hf, HA; apply param_ok_spec|by apply Hs].
Qed.

Lemma spec_current : command_spec "getCurrentCall" cmd_getCurrentCall.
Proof. intros cmd a ev res HA. exact (current_call_ok cmd a ev res HA). Qed.

Lemma spec_makeCall : command_spec "makeCall" cmd_makeCall.
Proof.
  intros cmd a ev res HA. change (bad_param (bstr "makeCall") ev) with (negb (param_ok ev)).
  destruct (param_ok ev) eqn:Hp; cbn [negb orb].
  - apply param_ok_spec in Hp. destruct (str_param_ok ev "called" Hp) as [s Hs]. pose proof (makeCall_ok cmd a ev res s Hp HA Hs) as M.
    change (loses_call (bstr "makeCall") a ev) with (match str_param ev "called" with
      | Some s => call_lost (calls a ++ [CallSdk "makeCall" [AInt 0; AStr s]]) | None => false end). by rewrite Hs.
  - unfold cmd_makeCall. rewrite !str_param_bad by done. done.
Qed.

Ltac unfold_commands := unfold call_command, int_command, reg_command, cmd_connectToCCPServer, cmd_setTraceFlag, cmd_releaseCall, cmd_sendDTMF,
  cmd_setMute, cmd_transferCall, cmd_consultTransferCall, cmd_transferMeeting, cmd_setUserData, cmd_setSrtpEnabled, cmd_setCodecEnabled,
  cmd_getCodecEnabled, cmd_setAudioRecordStatus, cmd_enableGlobalAudioInDevice, return_zero.

(** The lemmas of the commands by their shape. *)
Ltac free_command := lazymatch goal with
  | |- command_free return_zero => apply return_zero_ok
  | |- command_free (device_command _) => apply device_command_ok
  | |- command_free no_operation => apply no_operation_ok
  | |- command_free cmd_disConnectToCCP => apply disconnect_ok
  | |- command_free cmd_getVersion => apply cmd_getVersion_ok
  end.

Ltac param_command := lazymatch goal with
  | |- command_ok (call_command _ _) => apply call_command_ok
  | |- command_ok (int_command _ _) => apply int_command_ok
  | |- command_ok (reg_command _ _ _) => apply reg_command_ok
  | |- command_ok cmd_connectToCCPServer => apply connect_ok
  | |- command_ok cmd_setTraceFlag => apply trace_ok
  | |- command_ok cmd_releaseCall => apply releaseCall_ok
  | |- command_ok cmd_sendDTMF => apply sendDTMF_ok
  | |- command_ok cmd_setRegConfig => apply setRegConfig_ok
  | |- command_stuck cmd_setRegConfig => apply setRegConfig_stuck
  | |- command_ok _ => unfold_commands; cmd_run; done
  | |- command_stuck _ => unfold_commands; stuck_run
  end.

Ltac listed_command := lazymatch goal with
  | |- command_spec _ cmd_getCurrentCall => apply spec_current
  | |- command_spec _ cmd_makeCall => apply spec_makeCall
  | |- command_spec ?n _ =>
      let b := eval vm_compute in (reads_param (bstr n)) in
      lazymatch b with
      | true => apply spec_param; [vm_compute; reflexivity|vm_compute; reflexivity|param_command|param_command]
      | false => apply spec_free; [vm_compute; reflexivity|vm_compute; reflexivity|free_command]
      end
  end.

Lemma commands_ok : Forall (fun nc => command_spec nc.1 nc.2) commands.
Proof. unfold commands. repeat (apply List.Forall_cons; [cbn [fst snd]; listed_command|]). apply List.Forall_nil. Qed.

(** The chain of comparisons finds the command of a name, or nothing. *)
Lemma lookup_command_cases cmd l : (exists n f, In (n, f) l /\ cmd = bstr n /\ lookup_command cmd l = f) \/
  (Forall (fun nc => beqb cmd (bstr nc.1) = false) l /\ lookup_command cmd l = no_operation).
Proof.
  induction l as [|[n f] l IH]; cbn [lookup_command]; [by right|]. destruct (beqb cmd (bstr n)) eqn:E.
  - left. apply bool_decide_eq_true in E. exists n, f. split_and!; [by left|done|done].
  - destruct IH as [(n' & f' & Hin & Hc)|[Hf Hl]]; [left; exists n', f'; split; [by right|done]|right; by split; [constructor|]].
Qed.

Lemma unknown_quiet cmd a ev : Forall (fun nc => beqb cmd (bstr nc.1) = false) commands ->
  bad_param cmd ev || loses_call cmd a ev = false.
Proof.
  intros Hf. assert (Hn : forall n, existsb (String.eqb n) (map fst commands) = true -> beqb cmd (bstr n) = false).
  { intros n (n' & Hin & <-%String.eqb_eq)%existsb_exists. apply in_map_iff in Hin as ([n' f] & <- & Hin).
    rewrite List.Forall_forall in Hf. by apply (Hf _ Hin). }
  assert (Hr : reads_param cmd = false).
  { unfold reads_param. apply not_true_iff_false. intros (n & Hin & E)%existsb_exists. rewrite Hn in E; [done|].
    assert (Ha : forallb (fun n => existsb (String.eqb n) (map fst commands)) param_commands = true) by (vm_compute; reflexivity).
    rewrite forallb_forall in Ha. by apply Ha. }
  unfold bad_param, loses_call. rewrite Hr, !Hn by (vm_compute; reflexivity). done.
Qed.

(** Every command: when it stops the application, and what it does otherwise. *)
Lemma dispatch_ok cmd a ev : 
  if bad_param cmd ev || loses_call cmd a ev then lookup_command cmd commands a ev (cmdresult cmd) = None
  else exists a' res, lookup_command cmd commands a ev (cmdresult cmd) = Some (a', res) /\ same_world a a' /\ Answer cmd res.
Proof.
  destruct (lookup_command_cases cmd commands) as [(n & f & Hin & -> & ->)|[Hf ->]].
  - pose proof commands_ok as Hc. rewrite List.Forall_forall in Hc. apply (Hc (n, f) Hin), answer_start.
  - rewrite unknown_quiet by done. apply no_operation_ok, answer_start.
Qed.

End Facts.
End CommandFacts.
