(* ===== verification/AppProps.v ===== *)
(** * Properties of the application

    Commands are answered, events reach every open connection, and no sequence of
    callbacks makes the application touch an object that is gone. *)

From stdpp Require Import gmap relations.
From S2P Require Import Prelude Ws WsRx WsRxProps WsTx WsTxFacts Json JsonReader JsonFacts JsonProps.
From S2P Require Import Session Commands SessionFacts SessionProps AppFacts CommandFacts.

Module AppProps.
Export CommandFacts.

(** ** Commands *)

Section Messages.
Context `{CDouble} `{SdkOk}.

(** The command in a message: its document and its name, which is empty when it is
    not a string. *)
Definition command_of (m : bytes) : option (value * bytes) :=
  match parse m with
  | Read true ev _ =>
      match isObject ev, member ev (bstr "type") with
      | true, Some (stringValue s) =>
          if beqb s (bstr "cmd")
          then Some (ev, match member ev (bstr "cmd") with Some (stringValue c) => c | _ => [] end) else None
      | _, _ => None
      end
  | _ => None
  end.

(** One more message in the queue of [p], and nothing else of the sessions changed. *)
Definition queued (a a' : app) (p : Z) (msg : bytes) : Prop :=
  (exists c c', heap a !! p = Some c /\ heap a' !! p = Some c' /\ wsi c' = wsi c /\ m_state c' = m_state c /\
     m_sendBuf c' = m_sendBuf c ++ [replicate (Z.to_nat LWS_PRE) 0 ++ msg]) /\
  (forall q, q <> p -> heap a' !! q = heap a !! q) /\
  WSClientSet a' = WSClientSet a /\ g_WSClientSet a' = g_WSClientSet a /\ g_Instance a' = g_Instance a.

Lemma send_queued a p m a' : Send a p m = Some a' -> queued a a' p m.
Proof.
  unfold Send. destruct (heap a !! p) as [c|] eqn:Hc; [|done]. cbn [mbind option_bind].
  set (c' := c {{ m_sendBuf ::= _ }}). set (a1 := set_client a p c').
  assert (G : wsi c' = wsi c /\ m_state c' = m_state c /\
    m_sendBuf c' = m_sendBuf c ++ [replicate (Z.to_nat LWS_PRE) 0 ++ m]) by (unfold c'; by destruct c).
  assert (Q : forall l k, queued a (mkApp (heap a1) (WSClientSet a) (g_WSClientSet a) (g_Instance a)
    (g_pjsipReferce a) (version a) l k) p m).
  { intros l k. assert (Eh : heap a1 = <[p := c']> (heap a)) by (by destruct a). split; [|split].
    - exists c, c'. cbn [heap]. by rewrite Eh, lookup_insert_eq.
    - intros q Hq. cbn [heap]. by rewrite Eh, lookup_insert_ne.
    - done. }
  assert (Qs : queued a a1 p m) by (specialize (Q (conns a) (calls a)); unfold a1 in *; by destruct a).
  destruct (WSClientSet a1 !! wsi c); [|by intros E; injection E as <-].
  destruct (nz (wsi c) && _); [|by intros E; injection E as <-].
  unfold on_writable. destruct (conns a1 !! wsi c) as [l|]; [|done]. cbn [mbind option_bind].
  intros E; injection E as <-. specialize (Q (<[wsi c := lws_callback_on_writable l]> (conns a)) (calls a ++ [CallCancelService])).
  unfold a1 in *. by destruct a.
Qed.

(** The rest of the application: connections were asked to be writable and the service
    was woken, nothing else. *)
Definition rest_same (a a' : app) : Prop :=
  WSClientSet a' = WSClientSet a /\ g_WSClientSet a' = g_WSClientSet a /\ g_Instance a' = g_Instance a /\
  g_pjsipReferce a' = g_pjsipReferce a /\ version a' = version a /\
  (forall w, exists k, conns a' !! w = Nat.iter k lws_callback_on_writable <$> conns a !! w) /\
  exists l, calls a' = calls a ++ l /\ Forall (eq CallCancelService) l.

#[global] Instance rest_same_preorder : PreOrder rest_same.
Proof.
  split.
  - intros a. split_and!; try done; [intros w; exists 0%nat; by destruct (conns a !! w)|]. exists []. by rewrite app_nil_r.
  - intros a b c (A1 & A2 & A3 & A4 & A5 & A6 & l & A7 & A8) (B1 & B2 & B3 & B4 & B5 & B6 & l' & B7 & B8).
    split_and!; try congruence.
    + intros w. destruct (A6 w) as [k E], (B6 w) as [k' E']. exists (k' + k)%nat. rewrite E', E.
      destruct (conns a !! w); [|done]. cbn. by rewrite Nat.iter_add.
    + exists (l ++ l'). rewrite B7, A7, app_assoc. split; [done|]. by apply Forall_app.
Qed.

Lemma send_rest a p m a' : Send a p m = Some a' -> rest_same a a'.
Proof.
  unfold Send. destruct (heap a !! p) as [c|]; [|done]. cbn [mbind option_bind]. set (a1 := set_client a p _).
  assert (S1 : rest_same a a1).
  { assert (Ec : conns a1 = conns a) by (unfold a1; by destruct a).
    split_and!; try (unfold a1; by destruct a); [|exists []; rewrite app_nil_r; unfold a1; by destruct a].
    intros w. exists 0%nat. rewrite Ec. by destruct (conns a !! w). }
  destruct (WSClientSet a1 !! wsi c); [|by intros [= <-]]. destruct (nz (wsi c) && _); [|by intros [= <-]].
  unfold on_writable. destruct (conns a1 !! wsi c) as [l|] eqn:El; [|done]. cbn [mbind option_bind]. clearbody a1. intros [= <-].
  etrans; [exact S1|]. clear S1. split_and!; try (by destruct a1); [|exists [CallCancelService]; split; [by destruct a1|by repeat constructor]].
  intros w. replace (conns _) with (<[wsi c := lws_callback_on_writable l]> (conns a1)) by (by destruct a1).
  destruct (decide (w = wsi c)) as [->|Hn].
  - exists 1%nat. by rewrite lookup_insert_eq, El.
  - exists 0%nat. rewrite lookup_insert_ne by done. by destruct (conns a1 !! w).
Qed.

Lemma onmessage_eq a p m : is_Some (heap a !! p) -> NoLongNumber m ->
  OnMessage_uc a p m =
    match command_of m with
    | None => Some a
    | Some (ev, cmd) =>
        '(a, res) ← lookup_command cmd commands a ev (cmdresult cmd); Send a p (writeValue res)
    end.
Proof.
  intros [c Hc] Hn. unfold OnMessage_uc, command_of. rewrite Hc. cbn [mbind option_bind].
  pose proof (parse_forward m) as Hf. destruct (parse m) as [| |ok ev cur]; [done..|]. destruct ok; [|done].
  destruct (isObject ev) eqn:Eo; [|done]. cbn [negb].
  assert (Hm : forall k, is_Some (member ev k)) by (intros k; destruct ev; try done; by eexists).
  destruct (Hm (bstr "type")) as [t ->]. cbn [mbind option_bind]. destruct t; try done.
  destruct (beqb s (bstr "cmd")); [|done]. cbn [negb]. by destruct (Hm (bstr "cmd")) as [t ->].
Qed.

(** C14: Which commands are answered.  For every message without a run of 32 characters
    of numbers, at a live client, with an SDK whose version is a string: a message that is
    not a command (not JSON, not an object, another type) changes nothing.  A command,
    known or not, runs to its end and puts exactly one message into the queue of the
    connection it came from, a JSON object with the type cmdresult and the name of the
    command, and touches no other queue; except in two cases, in which it stops the
    application: the command reads its param and that is neither an object nor missing,
    or it is getCurrentCall or makeCall and the SDK, asked twice, reports a current call
    and then none. *)
Theorem command_answered a p m : AppInv a -> is_Some (heap a !! p) -> NoLongNumber m ->
  match command_of m with
  | None => OnMessage_uc a p m = Some a
  | Some (ev, cmd) =>
      if bad_param cmd ev || loses_call cmd a ev then OnMessage_uc a p m = None
      else exists a' res, OnMessage_uc a p m = Some a' /\ Answer cmd res /\ queued a a' p (writeValue res)
  end.
Proof.
  intros I Hp Hn. rewrite (onmessage_eq a p m Hp Hn). destruct (command_of m) as [[ev cmd]|]; [|done].
  pose proof (dispatch_ok cmd a ev) as D. destruct (bad_param cmd ev || loses_call cmd a ev); [by rewrite D|].
  destruct D as (a1 & res & -> & Hs & Ha). cbn [mbind option_bind]. pose proof Hs as (E1 & E2 & E3 & E4 & E5).
  destruct (send_ok a1 p (writeValue res) (same_world_inv _ _ Hs I)) as (a' & Es & _); [by rewrite E1|].
  exists a', res. split; [done|]. split; [done|]. apply send_queued in Es. unfold queued in *.
  by rewrite E1, E2, E3, E4 in Es.
Qed.

(** ** The virtual methods of UCClientWSclient *)

Context `{Allocator}.
#[local] Existing Instance uc_client.

(** Messages the application can handle in the state [a]. *)
Definition Handled (a : app) (m : bytes) : Prop :=
  NoLongNumber m /\ forall ev cmd, command_of m = Some (ev, cmd) -> bad_param cmd ev || loses_call cmd a ev = false.

Lemma uc_accept a w : AppInv a -> is_Some (conns a !! w) ->
  exists a', OnAccept a w = Some a' /\ AppInv a' /\ conns a' = conns a.
Proof.
  intros I [l Hl]. cbn. unfold UCClientWSclient_new, WebSocketClient_new. rewrite Hl. cbn [mbind option_bind].
  destruct (new_address_ok (heap a)) as [Hp0 Hpn]. set (p := new_address (heap a)) in *. clearbody p.
  set (c := mkClient w CONNECTING []). set (a1 := match _ with Some _ => _ | None => _ end).
  assert (F : heap a1 = <[p := c]> (heap a) /\ g_WSClientSet a1 = g_WSClientSet a /\ conns a1 = conns a /\
    (WSClientSet a1 = WSClientSet a \/ WSClientSet a !! w = None /\ WSClientSet a1 = <[w := p]> (WSClientSet a))).
  { unfold a1. assert (Ew : WSClientSet (set_client a p c) = WSClientSet a) by (by destruct a). rewrite Ew.
    destruct (WSClientSet a !! w); destruct a; cbn; split_and!; auto. }
  destruct F as (F1 & F2 & F3 & F4). destruct (getVersion_ok a1) as (a2 & v & -> & (E1 & E2 & E3 & E4 & E5)).
  cbn [mbind option_bind]. eexists. split; [done|]. split; [|destruct a2; cbn in *; congruence].
  assert (Hne : forall q d, heap a !! q = Some d -> q <> p) by (intros q d Hq ->; congruence).
  destruct I as [I0 I1 I2 I3 I4]. constructor.
  all: replace (heap _) with (<[p := c]> (heap a)) by (destruct a2; cbn in *; congruence).
  - by rewrite lookup_insert_ne.
  - intros v' q. replace (WSClientSet _) with (WSClientSet a1) by (destruct a2; cbn in *; congruence). intros Hq.
    assert (Hc : (v' = w /\ q = p) \/ WSClientSet a !! v' = Some q).
    { destruct F4 as [->|[_ ->]] in Hq; [by right|]. destruct (decide (v' = w)) as [->|Hn].
      - rewrite lookup_insert_eq in Hq. injection Hq as <-. by left.
      - rewrite lookup_insert_ne in Hq by done. by right. }
    destruct Hc as [[-> ->]|Hc]; [exists c; by rewrite lookup_insert_eq|].
    destruct (I1 v' q Hc) as (d & Hd & Hdw). exists d. split; [|done]. rewrite lookup_insert_ne; [done|].
    intros E. by apply (Hne q d).
  - replace (g_WSClientSet _) with (g_WSClientSet a) by (destruct a2; cbn in *; congruence).
    eapply Forall_impl; [exact I2|]. intros q. apply insert_some.
  - right. replace (g_Instance _) with p by (by destruct a2). by rewrite lookup_insert_eq.
  - intros q d. replace (WSClientSet _) with (WSClientSet a1) by (destruct a2; cbn in *; congruence).
    replace (conns _) with (conns a) by (destruct a2; cbn in *; congruence).
    destruct (decide (q = p)) as [->|Hn]; [rewrite lookup_insert_eq; intros E Ho; by injection E as <-|].
    rewrite lookup_insert_ne by done. intros Hd Ho. destruct (I4 q d Hd Ho) as [K1 K2]. split; [|done].
    destruct F4 as [->|[Hw ->]]; [done|]. rewrite lookup_insert_ne; [done|]. intros E. congruence.
Qed.

Lemma uc_close a p c e : AppInv a -> heap a !! p = Some c -> m_state c = CLOSED -> WSClientSet a !! wsi c = None ->
  exists a', OnClose a p e = Some a' /\ AppInv a' /\ conns a' = conns a.
Proof.
  intros I Hc Hs Hw. cbn. unfold UCClientWSclient_delete. rewrite Hc. cbn [mbind option_bind].
  set (a1 := (_ {{ g_Instance := 0 }})).
  assert (F : heap a1 = heap a /\ WSClientSet a1 = WSClientSet a /\
    g_WSClientSet a1 = filter (fun q => q <> p) (g_WSClientSet a) /\ g_Instance a1 = 0 /\ conns a1 = conns a)
    by (unfold a1; by destruct a). destruct F as (F1 & F2 & F3 & F4 & F5).
  assert (I' : AppInv a1).
  { destruct I as [I0 I1 I2 I3 I4]. constructor; rewrite ?F1, ?F2, ?F3, ?F4, ?F5; try done; [|by left].
    rewrite Forall_forall in *. intros q Hq. apply list_elem_of_filter in Hq as [_ Hq]. by apply I2. }
  destruct (delete_ok a1 p c I') as (a' & E & I'' & Ec); rewrite ?F1, ?F2, ?F3, ?F4; try done.
  - by rewrite Hs.
  - intros Hq. by apply list_elem_of_filter in Hq as [Hq _].
  - intros E0. rewrite <- E0, (ai_null _ I) in Hc. done.
  - intros w Hq. destruct (ai_map _ I w p Hq) as (d & Hd & Hdw). congruence.
  - intros q Hq. congruence.
  - exists a'. split; [done|]. split; [done|]. congruence.
Qed.

#[export] Instance uc_ok : ClientOk Handled.
Proof.
  constructor.
  - done.
  - apply uc_accept.
  - intros a p I [c Hc]. cbn. rewrite Hc. cbn [mbind option_bind]. eexists. split; [done|].
    split; [|by split; intros ?; destruct a].
    destruct I as [I0 I1 I2 I3 I4]. constructor; destruct a; cbn in *; try done.
    apply Forall_app. split; [done|]. constructor; [by eexists|done].
  - intros a p [c Hc]. cbn. unfold log_only. by rewrite Hc.
  - apply uc_close.
  - intros a p e [c Hc]. cbn. unfold log_only. by rewrite Hc.
  - intros a p m I Hp [Hn Hcmd]. cbn. rewrite (onmessage_eq a p m Hp Hn).
    destruct (command_of m) as [[ev cmd]|]; [|by exists a]. specialize (Hcmd ev cmd eq_refl).
    pose proof (dispatch_ok cmd a ev) as D. rewrite Hcmd in D. destruct D as (a1 & res & -> & Hs & Ha).
    cbn [mbind option_bind]. pose proof Hs as (E1 & E2 & E3 & E4 & E5).
    destruct (send_ok a1 p (writeValue res) (same_world_inv _ _ Hs I)) as (a' & Es & I' & [G1 G2] & _); [by rewrite E1|].
    exists a'. split; [done|]. split; [done|]. rewrite E1 in G1. rewrite E5 in G2. by split.
Qed.

(** ** What libwebsockets gets to see of [callback_lws] *)

Lemma message_conns a p m a' : OnMessage_uc a p m = Some a' ->
  forall w, exists k, conns a' !! w = Nat.iter k lws_callback_on_writable <$> conns a !! w.
Proof.
  assert (Hid : forall b, conns b = conns a -> forall w, exists k, conns b !! w = Nat.iter k lws_callback_on_writable <$> conns a !! w)
    by (intros b E w; exists 0%nat; rewrite E; by destruct (conns a !! w)).
  unfold OnMessage_uc. destruct (heap a !! p); [|done]. cbn [mbind option_bind]. destruct (parse m) as [| |[] ev cur]; try done.
  2: { intros [= <-]. by apply Hid. }
  destruct (negb (isObject ev)); [intros [= <-]; by apply Hid|]. destruct (member ev (bstr "type")) as [t|]; [|done]. cbn [mbind option_bind].
  destruct (negb _); [intros [= <-]; by apply Hid|]. destruct (member ev (bstr "cmd")) as [cv|]; [|done]. cbn [mbind option_bind].
  set (cmd := match cv with stringValue s => s | _ => [] end). pose proof (dispatch_ok cmd a ev) as D.
  destruct (bad_param cmd ev || loses_call cmd a ev); [by rewrite D|]. destruct D as (a1 & res & -> & (_ & _ & _ & _ & E) & _).
  cbn [mbind option_bind]. intros (_ & _ & _ & _ & _ & Hc & _)%send_rest. by rewrite E in Hc.
Qed.

(** For what was received the application returns 0 and does nothing to a connection but
    ask to be called when it is writable: it takes what it is given ([TakingCallback]). *)
Lemma callback_takes `{LwsEnv} fuel a w r user inp a' n : rx_reason r -> callback_lws fuel a w r user inp = Some (a', n) ->
  n = 0 /\ forall x l, conns a !! x = Some l -> exists l', conns a' !! x = Some l' /\ user_acts r l l'.
Proof.
  intros Hr. unfold callback_lws. destruct (conns a !! w) as [lw|]; [|done]. cbn [mbind option_bind].
  assert (Hid : Some (a, 0) = Some (a', n) -> n = 0 /\ forall x l, conns a !! x = Some l -> exists l', conns a' !! x = Some l' /\ user_acts r l l').
  { intros [= <- <-]. split; [done|]. intros x l Hx. exists l. split; [done|apply acts_refl]. }
  assert (Hm : (a ← received a (WSClientSet a !! w) inp; Some (a, 0)) = Some (a', n) ->
    n = 0 /\ forall x l, conns a !! x = Some l -> exists l', conns a' !! x = Some l' /\ user_acts r l l').
  { unfold received. destruct (WSClientSet a !! w) as [p|]; [|exact Hid]. cbn [OnMessage uc_client].
    destruct (OnMessage_uc a p _) as [a1|] eqn:E; [|done]. intros [= <- <-]. split; [done|]. intros x l Hx.
    destruct (message_conns _ _ _ _ E x) as [k ->]. rewrite Hx. cbn. eexists. split; [done|apply acts_iter]. }
  destruct Hr as [->|[->|[->|[->| ->]]]]; first [exact Hm|exact Hid].
Qed.

(** The callbacks of the poll table are answered with 0. *)
Lemma callback_poll `{LwsEnv} fuel a w r user inp : is_Some (conns a !! w) -> 31 <= r <= 36 ->
  callback_lws fuel a w r user inp = Some (a, 0).
Proof.
  intros [l Hl] Hr. unfold callback_lws. rewrite Hl. cbn [mbind option_bind].
  assert (r = 31 \/ r = 32 \/ r = 33 \/ r = 34 \/ r = 35 \/ r = 36) as Hc by lia.
  by destruct Hc as [->|[->|[->|[->|[->| ->]]]]].
Qed.

End Messages.

(** ** Witness *)

Import SessionProps.

#[local] Existing Instance JsonProps.demo_double.

(** An SDK without devices and without a call. *)
#[local] Instance demo_sdk : Sdk := {
  sdk_int _ _ _ := 0;
  sdk_str _ f := if bool_decide (f = "getVersion"%string) then Some (bstr "5.3") else None;
  sdk_devices _ _ := [];
  uninit := 0
}.

#[local] Instance demo_sdk_ok : SdkOk.
Proof. constructor. by eexists. Qed.

Lemma demo_app_inv : AppInv demo_app.
Proof.
  constructor; try done.
  - intros w p E. cbn in E. apply lookup_singleton_Some in E as [<- <-]. by eexists.
  - by left.
  - intros p c E _. cbn in E. apply lookup_singleton_Some in E as [<- <-]. split; [done|]. by eexists.
Qed.

(** Windows of 32 bytes, as a test. *)
Lemma no_long_check doc :
  forallb (fun i => negb (forallb num_char (take 32 (drop i doc)))) (seq 0 (length doc - 31)) = true -> NoLongNumber doc.
Proof.
  intros Hf pre t post E Ht. rewrite forallb_forall in Hf. specialize (Hf (length pre)).
  rewrite E, drop_app_length, take_app_le, take_ge in Hf by lia. apply negb_true_iff, Hf, in_seq.
  rewrite !length_app. lia.
Qed.

Definition demo_message : bytes := writeValue (objectValue [
  (bstr "cmd", stringValue (bstr "setMute")); (bstr "param", objectValue [(bstr "on", intValue 1)]);
  (bstr "type", stringValue (bstr "cmd"))]).

Lemma command_answered_witness : NoLongNumber demo_message /\
  exists a' res, OnMessage_uc demo_app 5 demo_message = Some a' /\
    Answer (bstr "setMute") res /\ queued demo_app a' 5 (writeValue res).
Proof.
  assert (Hn : NoLongNumber demo_message) by (apply no_long_check; vm_compute; reflexivity). split; [exact Hn|].
  assert (Hp : is_Some (heap demo_app !! 5)) by (by eexists).
  pose proof (command_answered demo_app 5 demo_message demo_app_inv Hp Hn) as Hc.
  destruct (command_of demo_message) as [[ev cmd]|] eqn:E; vm_compute in E; [|discriminate]. injection E as <- <-.
  vm_compute bad_param in Hc. exact Hc.
Defined.

End AppProps.
