(* ===== verification/AppSafety.v ===== *)
(** * Safety of the application and delivery of events

    The callbacks of libwebsockets and the reports of the SDK, in any order the two
    libraries can produce, never make the application use an object that is gone. *)

From stdpp Require Import gmap relations.
From S2P Require Import Prelude Ws WsRx WsRxProps WsTx WsTxFacts WsTxProps Json JsonReader JsonFacts JsonProps.
From S2P Require Import Session Commands SessionFacts SessionProps AppFacts CommandFacts AppProps.

Module AppSafety.
Export SessionProps AppProps.

(** ** Writable callbacks *)

Section Writable.
Context `{SocketOk} `{!RandomOk} `{ClientOk} (fuel : nat).

(** The first buffer goes to the connection, or stays. *)
Lemma write_first_total a w l b : conns a !! w = Some l -> Writes l -> trunc_len (tx l) = 0 -> buffer_ok b ->
  exists l' b' ok, write_first (S fuel) a w b = Some (a {{ conns := <[w := l']> (conns a) }}, b', ok).
Proof.
  intros Hl W Ht [Hb1 Hb2]. unfold write_first. rewrite s32_small by (unfold LWS_PRE in *; lia).
  destruct (zlen b - LWS_PRE >? 0) eqn:Eg; zbool.
  2: { exists l, b, true. rewrite insert_id by done. by destruct a. }
  rewrite Hl. cbn [mbind option_bind].
  destruct (lws_write_total fuel l b (zlen b - LWS_PRE) LWS_WRITE_TEXT LWSWSOPC_TEXT_FRAME (writes_can l W Ht) eq_refl
    (or_introl (wr_state _ W))) as [[[l' n] b1] Ew].
  rewrite Ew. cbn [mbind option_bind].
  destruct (writes_text fuel l b (zlen b - LWS_PRE) l' n b1 W Ht) as [Hz Hr];
    [unfold LWS_PRE in *; lia|unfold LWS_PRE in *; lia|done|].
  destruct (n >? 0) eqn:En; zbool; [|exists l', b1, false; by destruct a].
  destruct (Hr ltac:(lia)) as (_ & -> & _). rewrite Hz.
  replace (LWS_PRE + (zlen b - LWS_PRE) >? zlen b) with false by lia. eexists l', _, true. by destruct a.
Qed.

Lemma ws_write_ok a w l : AppInv a -> conns a !! w = Some l -> Writes l -> trunc_len (tx l) = 0 ->
  (forall p c, WSClientSet a !! w = Some p -> heap a !! p = Some c -> Forall buffer_ok (m_sendBuf c)) ->
  exists a' r, ws_write (S fuel) a w (WSClientSet a !! w) = Some (a', r) /\ AppInv a'.
Proof.
  intros I Hl W Ht Hq. unfold ws_write. destruct (WSClientSet a !! w) as [p|] eqn:Ep; [|by eexists _, _].
  destruct (ai_map _ I w p Ep) as (c & Hc & Hcw). specialize (Hq p c eq_refl Hc). rewrite Hc. cbn [mbind option_bind].
  case_bool_decide; [by eexists _, _|]. rewrite onsend_ok by (by eexists). cbn [mbind option_bind].
  rewrite Hc. cbn [mbind option_bind]. destruct (m_sendBuf c) as [|b q]; [by eexists _, _|].
  apply Forall_cons in Hq as [Hb _].
  destruct (write_first_total a w l b Hl W Ht Hb) as (l' & b' & ok & ->). cbn [mbind option_bind].
  assert (K : forall l2 q', AppInv ((set_client (a {{ conns := <[w := l']> (conns a) }}) p (c {{ m_sendBuf := q' }}))
    {{ conns := <[w := l2]> (<[w := l']> (conns a)) }})).
  { intros l2 q'. set (c' := c {{ m_sendBuf := q' }}). match goal with |- AppInv ?x => set (a' := x) end.
    apply (inv_update a a' p c c'); unfold a', c'; try done; try (by destruct c); try (by destruct a).
    intros v Hv. destruct a; cbn in *. by apply insert_some, insert_some. }
  assert (K1 : forall q', AppInv (set_client (a {{ conns := <[w := l']> (conns a) }}) p (c {{ m_sendBuf := q' }}))).
  { intros q'. specialize (K l' q'). rewrite insert_insert_eq in K. by destruct a. }
  destruct ok; cbn [negb]; [|by eexists _, _].
  destruct (if zlen b' - LWS_PRE =? 0 then q else b' :: q) as [|b2 q2]; [by eexists _, _|].
  unfold on_writable. replace (conns (set_client _ _ _) !! w) with (Some l') by (destruct a; symmetry; apply lookup_insert_eq).
  cbn [mbind option_bind]. eexists _, _. split; [done|]. specialize (K (lws_callback_on_writable l') (b2 :: q2)).
  by destruct a.
Qed.

End Writable.

(** ** What the libraries can do *)

Section Safety.
Context `{CDouble} `{SdkOk} `{Allocator} `{SocketOk} `{!RandomOk} (fuel : nat).
#[local] Existing Instance uc_client.

(** One event at the border of the application.  [IConnection] is the library's own
    work on a connection (bytes received, a partial send): any new state of it. *)
Inductive input :=
| IAccept (w : Z) (l : lws)
| IEstablished (w : Z)
| IReceive (w : Z) (inp : option bytes)
| IWritable (w : Z)
| IClosed (w : Z) (inp : option bytes)
| IError (w : Z) (inp : option bytes)
| IDestroy (w : Z)
| IConnection (w : Z) (l : lws)
| IReport (e : sdk_event).

Definition call_back (a : app) (w reason : Z) (inp : option bytes) : option app :=
  fst <$> callback_lws (S fuel) a w reason 0 inp.

(** What the application does for it; [None] is a use of an object or a connection
    that is gone, a failed assertion, or a recursion that does not end. *)
Definition run (a : app) (i : input) : option app :=
  match i with
  | IAccept w l => call_back (a {{ conns ::= insert w l }}) w LWS_CALLBACK_WSI_CREATE None
  | IEstablished w => call_back a w LWS_CALLBACK_ESTABLISHED None
  | IReceive w inp => call_back a w LWS_CALLBACK_RECEIVE inp
  | IWritable w => call_back a w LWS_CALLBACK_SERVER_WRITEABLE None
  | IClosed w inp => call_back a w LWS_CALLBACK_CLOSED inp
  | IError w inp => call_back a w LWS_CALLBACK_CLIENT_CONNECTION_ERROR inp
  | IDestroy w =>
      a ← call_back a w LWS_CALLBACK_WSI_DESTROY None; Some (a {{ conns ::= delete w }})
  | IConnection w l => _ ← conns a !! w; Some (a {{ conns ::= insert w l }})
  | IReport e => match report (S fuel) a e with Reported a => Some a | _ => None end
  end.

(** The rules of the libraries: callbacks are for connections that exist; a writable
    callback comes when nothing is waiting to be sent; a connection is reported
    closed before it is destroyed.  Of the messages, those with long numbers are left
    out, commands that read a param that is not an object, commands whose current call
    ends while they run, and messages of 2 GiB; of the reports, the one for
    onSwitchCallMediaTypeRequest. *)
Definition Allowed (a : app) (i : input) : Prop :=
  match i with
  | IAccept w l => True
  | IEstablished w | IClosed w _ | IError w _ | IConnection w _ => is_Some (conns a !! w)
  | IReceive w inp => is_Some (conns a !! w) /\ Handled a (assign_in inp)
  | IWritable w => exists l, conns a !! w = Some l /\ Writes l /\ trunc_len (tx l) = 0 /\
      forall p c, WSClientSet a !! w = Some p -> heap a !! p = Some c -> Forall buffer_ok (m_sendBuf c)
  | IDestroy w => is_Some (conns a !! w) /\
      forall p c, WSClientSet a !! w = Some p -> heap a !! p = Some c -> m_state c <> OPEN
  | IReport e => match e with onSwitchCallMediaTypeRequest _ _ _ => False | _ => True end
  end.

Lemma inv_conns a w l : AppInv a -> AppInv (a {{ conns ::= insert w l }}).
Proof.
  intros [I0 I1 I2 I3 I4]. constructor; destruct a; cbn in *; try done.
  intros p c Hp Ho. destruct (I4 p c Hp Ho). split; [done|]. by apply insert_some.
Qed.

Lemma send_all_ok l text a : AppInv a -> Forall (fun p => is_Some (heap a !! p)) l ->
  exists a', send_all l text a = Some a' /\ AppInv a'.
Proof.
  revert a. induction l as [|p l IH]; intros a I Hl; cbn [send_all]; [by eauto|].
  apply Forall_cons in Hl as [Hp Hl]. destruct (send_ok a p text I Hp) as (a1 & -> & I1 & [G _] & _).
  cbn [mbind option_bind]. apply IH; [done|]. eapply Forall_impl; [exact Hl|]. cbn. auto.
Qed.

(** The call an incoming call makes before it is reported. *)
Definition alerted (e : sdk_event) (a : app) : app :=
  match e with onIncomingCallReceived _ _ callid _ => log_call (CallSdk "alertingCall" [AStr callid]) a | _ => a end.

Lemma alerted_same e a : same_world a (alerted e a).
Proof. destruct e; try reflexivity; apply log_same. Qed.

(** A report runs its function once; nothing happens without an instance. *)
Lemma report_eq a e : AppInv a -> Allowed a (IReport e) ->
  report (S fuel) a e =
    match e with
    | onLogInfo _ => Reported a
    | _ =>
        let a := match e with onIncomingCallReceived _ _ callid _ => (sdk "alertingCall" [AStr callid] a).1 | _ => a end in
        if g_Instance a =? 0 then Reported a
        else match on_event a e with Some a => Reported a | None => Crash end
    end.
Proof.
  intros I He. destruct e; try done; cbn [report].
  all: match goal with |- context [g_Instance ?x] =>
    assert (Ii : g_Instance x = 0 \/ is_Some (heap x !! g_Instance x)) by (destruct (ai_inst _ I); destruct a; auto) end.
  all: cbv zeta; destruct (g_Instance _ =? 0) eqn:E; [done|]; zbool; destruct Ii as [Ei|[c ->]]; [congruence|done].
Qed.

Lemma report_ok a e : AppInv a -> Allowed a (IReport e) ->
  exists a', report (S fuel) a e = Reported a' /\ AppInv a'.
Proof.
  intros I He. rewrite (report_eq a e I He).
  assert (Hs : forall b text, AppInv b -> exists a', (match send_all (g_WSClientSet b) text b with
    | Some a => Reported a | None => Crash end) = Reported a' /\ AppInv a').
  { intros b text Ib. destruct (send_all_ok (g_WSClientSet b) text b Ib (ai_list _ Ib)) as (a' & -> & I'). by exists a'. }
  assert (Hl : forall c, AppInv (log_call c a)) by (intros c; by apply (same_world_inv a), I; apply log_same).
  destruct e; try done; cbv zeta; try (by exists a).
  all: destruct (g_Instance _ =? 0); [eexists; split; [done|]; first [exact I|apply Hl]|]; unfold on_event; apply Hs; first [exact I|apply Hl].
Qed.

(** The branch of [callback_lws] for a reason. *)
Lemma call_back_eq a w reason inp : is_Some (conns a !! w) -> call_back a w reason inp =
  (if (reason =? LWS_CALLBACK_ESTABLISHED) then established a w (WSClientSet a !! w)
   else if (reason =? LWS_CALLBACK_CLIENT_CONNECTION_ERROR) then connection_error a w (WSClientSet a !! w) inp
   else if (reason =? LWS_CALLBACK_CLOSED) then closed a w (WSClientSet a !! w) inp
   else if (reason =? LWS_CALLBACK_RECEIVE) then received a (WSClientSet a !! w) inp
   else if (reason =? LWS_CALLBACK_SERVER_WRITEABLE) then fst <$> ws_write (S fuel) a w (WSClientSet a !! w)
   else if (reason =? LWS_CALLBACK_WSI_CREATE) then OnAccept a w
   else if (reason =? LWS_CALLBACK_WSI_DESTROY) then
     match WSClientSet a !! w with Some p => _ ← heap a !! p; Some a | None => Some a end
   else call_back a w reason inp).
Proof.
  intros [l Hl].
  assert (Hr : forall o : option app, fst <$> (a ← o; Some (a, 0)) = o) by (by intros [?|]).
  repeat match goal with |- _ = if reason =? ?r then _ else _ =>
    destruct (Z.eqb_spec reason r) as [->|]; [unfold call_back, callback_lws; rewrite Hl; cbn [mbind option_bind]|] end.
  1-4, 6: apply Hr. 1: done. 2: done.
  cbv zeta. change (fst <$> match WSClientSet a !! w with Some p => _ ← heap a !! p; Some (a, 0) | None => Some (a, 0) end =
    match WSClientSet a !! w with Some p => _ ← heap a !! p; Some a | None => Some a end).
  destruct (WSClientSet a !! w) as [p|]; [|done]. by destruct (heap a !! p).
Qed.

(** Every allowed event is handled, and the invariant stays. *)
Lemma run_ok a i : AppInv a -> Allowed a i -> exists a', run a i = Some a' /\ AppInv a'.
Proof.
  intros I Hi. destruct i as [w l|w|w inp|w|w inp|w inp|w|w l|e]; cbn [run].
  - pose proof (inv_conns a w l I) as I'.
    assert (Hl : is_Some (conns (a {{ conns ::= insert w l }}) !! w)) by (destruct a; cbn; rewrite lookup_insert_eq; by eexists).
    rewrite call_back_eq by done. cbn [Z.eqb Pos.eqb]. destruct (accept_ok _ w I' Hl) as (a' & -> & ? & _). by exists a'.
  - rewrite call_back_eq by done. by apply established_ok.
  - rewrite call_back_eq by apply Hi. destruct (received_ok a w inp I) as (a' & E & I' & _); [apply Hi|]. by exists a'.
  - destruct Hi as (l & Hl & W & Ht & Hq). rewrite call_back_eq by (by eexists).
    destruct (ws_write_ok fuel a w l I Hl W Ht Hq) as (a' & r & E & I'). exists a'. split; [|done].
    change (fst <$> ws_write (S fuel) a w (WSClientSet a !! w) = Some a'). by rewrite E.
  - rewrite call_back_eq by done. destruct (closed_ok a w inp I) as (a' & E & I' & _). by exists a'.
  - rewrite call_back_eq by done. destruct (connection_error_ok a w inp I) as (a' & E & I' & _). by exists a'.
  - destruct Hi as [Hw Ho]. rewrite call_back_eq by done. cbn [Z.eqb Pos.eqb].
    assert (E : match WSClientSet a !! w with Some p => _ ← heap a !! p; Some a | None => Some a end = Some a).
    { destruct (WSClientSet a !! w) as [p|] eqn:Ep; [|done]. destruct (ai_map _ I w p Ep) as (c & -> & _). done. }
    rewrite E. cbn [mbind option_bind]. eexists. split; [done|].
    destruct I as [I0 I1 I2 I3 I4]. constructor; destruct a; cbn in *; try done.
    intros p c Hp Hs. destruct (I4 p c Hp Hs) as [K1 K2]. split; [done|]. rewrite lookup_delete_ne; [done|].
    intros ->. by apply (Ho p c).
  - destruct Hi as [l0 Hl]. rewrite Hl. cbn [mbind option_bind]. eexists. split; [done|]. by apply inv_conns.
  - destruct (report_ok a e I Hi) as (a' & -> & I'). by exists a'.
Qed.

Definition app_step (a a' : app) : Prop := exists i, Allowed a i /\ run a i = Some a'.

(** The application before its first connection. *)
Definition app0 : app := mkApp ∅ ∅ [] 0 0 [] ∅ [].

Lemma app0_inv : AppInv app0.
Proof. constructor; try done; [by left]. Qed.

(** C6: The application never uses an object that is gone. From its start, however accepted
    connections, messages, writable callbacks, errors, closes and reports of the SDK follow
    each other, every pointer the application keeps (in the map of connections, in the list
    of open clients, as the receiver of events) is that of a live object, an open client has
    its connection, and the next event the libraries may raise ([Allowed]) is handled to its
    end. Not among them are messages with 32 characters of a number in a row, the commands
    that stop the application (see [command_answered]) and the report
    onSwitchCallMediaTypeRequest (see [event_reaches_all]), none of which touches a freed
    object. *)
Theorem app_safe a : rtc app_step app0 a -> AppInv a /\ forall i, Allowed a i -> is_Some (run a i).
Proof.
  intros Hr. assert (I : AppInv a).
  { revert Hr. generalize app0_inv. generalize app0. intros b Ib Hr. induction Hr as [|x y z (i & Hi & E) _ IH]; [done|].
    apply IH. destruct (run_ok x i Ib Hi) as (a' & E' & I'). congruence. }
  split; [done|]. intros i Hi. destruct (run_ok a i I Hi) as (a' & -> & _). by eexists.
Qed.

(** ** Events *)

(** Sending to every object of a list: each gets the text as often as it is listed. *)
Lemma send_all_rest l text a a' : send_all l text a = Some a' -> rest_same a a'.
Proof.
  revert a. induction l as [|q l IH]; intros a E; cbn [send_all] in E; [by injection E as <-|].
  destruct (Send a q text) as [a1|] eqn:Es; [|done]. etrans; [by apply (send_rest _ _ _ _ Es)|by apply IH].
Qed.

Lemma send_all_queues l text a a' : send_all l text a = Some a' ->
  (forall p c, heap a !! p = Some c -> exists c', heap a' !! p = Some c' /\ wsi c' = wsi c /\ m_state c' = m_state c /\
     m_sendBuf c' = m_sendBuf c ++ replicate (count_occ Z.eq_dec l p) (replicate (Z.to_nat LWS_PRE) 0 ++ text)) /\
  (forall p, heap a !! p = None -> heap a' !! p = None).
Proof.
  revert a. induction l as [|q l IH]; intros a E; cbn [send_all] in E.
  { injection E as <-. split; [|done]. intros p c Hc. exists c. by rewrite app_nil_r. }
  destruct (Send a q text) as [a1|] eqn:Es; [|done]. cbn [mbind option_bind] in E. apply IH in E as [E1 E2].
  apply send_queued in Es as ((c0 & c1 & Hc0 & Hc1 & W1 & S1 & B1) & Ho & _). split.
  - intros p c Hc. cbn [count_occ]. destruct (Z.eq_dec q p) as [->|Hn].
    + rewrite Hc in Hc0. injection Hc0 as <-. destruct (E1 p c1 Hc1) as (c' & K1 & K2 & K3 & K4). exists c'.
      split; [done|]. split; [congruence|]. split; [congruence|]. rewrite K4, B1, <- app_assoc. done.
    + apply E1. rewrite Ho; [done|congruence].
  - intros p Hp. apply E2. destruct (decide (p = q)) as [->|Hn]; [congruence|]. by rewrite Ho.
Qed.

Lemma report_alerted a e : AppInv a -> Allowed a (IReport e) -> (forall s, e <> onLogInfo s) ->
  report (S fuel) a e = if g_Instance a =? 0 then Reported (alerted e a)
    else match on_event (alerted e a) e with Some a => Reported a | None => Crash end.
Proof.
  intros I He Hl. pose proof (alerted_same e a) as (_ & _ & _ & Ei & _). rewrite (report_eq a e I He), <- Ei.
  destruct e; try done. by destruct (Hl loginfo).
Qed.

(** The function of onSwitchCallMediaTypeRequest calls itself. *)
Lemma switch_request_recurs n a callid video reason : g_Instance a <> 0 -> is_Some (heap a !! g_Instance a) ->
  report n a (onSwitchCallMediaTypeRequest callid video reason) = StackOverflow.
Proof.
  intros Hi [c Hc]. induction n as [|n IH]; [done|]. cbn [report]. by rewrite (proj2 (Z.eqb_neq _ 0)), Hc by done.
Qed.

(** C15: Where the reports of the SDK go.  In every state the callbacks can lead to,
    whatever the report (its strings not being null): onLogInfo changes nothing, and
    without a registered instance no report changes anything but that an incoming call is
    answered with alertingCall.  With an instance, onSwitchCallMediaTypeRequest recurs
    until the stack is used up.  Any other report is written as one JSON text and put at
    the end of the queue of every client of the list of open clients, once for each
    time it is listed; all other queues stay, no client appears, disappears or changes
    its state, the map of connections, the list of open clients, the instance, the counter
    and the version stay, connections are asked to be writable and the service is
    woken, and the SDK is called for nothing but alertingCall. *)
Theorem event_reaches_all a e : AppInv a ->
  match e with
  | onLogInfo _ => report (S fuel) a e = Reported a
  | onSwitchCallMediaTypeRequest _ _ _ =>
      if g_Instance a =? 0 then report (S fuel) a e = Reported a else forall n, report n a e = StackOverflow
  | _ =>
      if g_Instance a =? 0 then report (S fuel) a e = Reported (alerted e a) else
      exists a', report (S fuel) a e = Reported a' /\
        (forall p c, heap a !! p = Some c -> exists c', heap a' !! p = Some c' /\ wsi c' = wsi c /\ m_state c' = m_state c /\
           m_sendBuf c' = m_sendBuf c ++ replicate (count_occ Z.eq_dec (g_WSClientSet a) p)
                                           (replicate (Z.to_nat LWS_PRE) 0 ++ writeValue (event_json e))) /\
        (forall p, heap a !! p = None -> heap a' !! p = None) /\
        rest_same (alerted e a) a'
  end.
Proof.
  intros I. assert (Hs : forall e, report (S fuel) a e = match on_event (alerted e a) e with Some a => Reported a | None => Crash end ->
     exists a', report (S fuel) a e = Reported a' /\
        (forall p c, heap a !! p = Some c -> exists c', heap a' !! p = Some c' /\ wsi c' = wsi c /\ m_state c' = m_state c /\
           m_sendBuf c' = m_sendBuf c ++ replicate (count_occ Z.eq_dec (g_WSClientSet a) p)
                                           (replicate (Z.to_nat LWS_PRE) 0 ++ writeValue (event_json e))) /\
        (forall p, heap a !! p = None -> heap a' !! p = None) /\ rest_same (alerted e a) a').
  { clear e. intros e ->. pose proof (alerted_same e a) as Hb. pose proof Hb as (B1 & _ & B3 & _). pose proof (same_world_inv _ _ Hb I) as Ib.
    unfold on_event. destruct (send_all_ok (g_WSClientSet (alerted e a)) (writeValue (event_json e)) _ Ib (ai_list _ Ib)) as (a' & E & _).
    rewrite E. exists a'. split; [done|]. pose proof (send_all_rest _ _ _ _ E) as Er. apply send_all_queues in E as [E1 E2].
    rewrite B1, B3 in E1. rewrite B1 in E2. done. }
  destruct e; try reflexivity;
    lazymatch goal with
    | |- context [StackOverflow] =>
        destruct (g_Instance a =? 0) eqn:E; [by cbn [report]; rewrite E|]; apply Z.eqb_neq in E; intros n;
        apply switch_request_recurs; [done|]; by destruct (ai_inst _ I)
    | |- context [report (S fuel) a ?e] =>
        pose proof (report_alerted a e I Logic.I ltac:(done)) as R; 
        destruct (g_Instance a =? 0); [exact R|exact (Hs e R)]
    end.
Qed.

Fixpoint runs (a : app) (l : list input) : option app :=
  match l with [] => Some a | i :: r => a ← run a i; runs a r end.

End Safety.

(** ** Witnesses and gaps *)

#[local] Existing Instances demo_env demo_socket demo_random demo_alloc JsonProps.demo_double demo_sdk demo_sdk_ok.

(** The application after [l], from its start. *)
Definition after (l : list input) : app := default app0 (runs 0 app0 l).

Definition two_pages : list input :=
  [IAccept 7 (demo_wsi 4); IAccept 8 (demo_wsi 4); IEstablished 7; IEstablished 8].

Lemma handled_demo a : Handled a demo_message.
Proof.
  split; [apply no_long_check; vm_compute; reflexivity|]. intros ev cmd E. vm_compute in E. by injection E as <- <-.
Qed.

(** One step of a concrete run. *)
Lemma app_step_run a i a' b : Allowed a i -> run 0 a i = Some a' -> rtc (app_step 0) a' b -> rtc (app_step 0) a b.
Proof. intros Hi E. apply rtc_l. by exists i. Qed.

Lemma demo_writes : Writes (demo_wsi 4).
Proof. constructor; try reflexivity. by constructor. Qed.

Lemma demo_asked_writes : Writes (lws_callback_on_writable (lws_callback_on_writable (demo_wsi 4))).
Proof. by apply writable_writes, writable_writes, demo_writes. Qed.

(** Three ways in which pages lose the service, on concrete runs.  A report of
    onSwitchCallMediaTypeRequest never ends, whatever the stack: its function calls
    itself.  When one of two open pages closes, the receiver of events is
    forgotten, and the page that is still open gets no event any more.  A command
    whose param is a string stops the application. *)
Lemma event_gaps :
  (forall fuel callid, report fuel (after two_pages) (onSwitchCallMediaTypeRequest callid 1 0) = StackOverflow) /\
  (let a := after (two_pages ++ [IClosed 7 None]) in
   g_WSClientSet a = [2] /\ (m_state <$> heap a !! 2) = Some OPEN /\
   report 1 a (onSipConnect 3) = Reported a) /\
  OnMessage_uc (after two_pages) 2 (writeValue (objectValue [(bstr "cmd", stringValue (bstr "setMute"));
    (bstr "param", stringValue (bstr "on")); (bstr "type", stringValue (bstr "cmd"))])) = None.
Proof.
  split; [|split].
  - assert (Hi : exists c, (g_Instance (after two_pages) =? 0) = false /\
      heap (after two_pages) !! g_Instance (after two_pages) = Some c) by (eexists; split; vm_compute; reflexivity).
    destruct Hi as (c & E1 & E2). generalize dependent (after two_pages). intros a E1 E2 fuel callid.
    induction fuel as [|fuel IH]; [done|]. cbn [report]. by rewrite E1, E2.
  - vm_compute. done.
  - vm_compute. done.
Qed.

Lemma event_reaches_all_witness : AppInv (after two_pages) /\
  exists a', report 1 (after two_pages) (onSipConnect 3) = Reported a' /\
    exists c', heap a' !! 2 = Some c' /\
      map content (m_sendBuf c') = [writeValue (event_json (onSipConnect 3))].
Proof.
  assert (I : AppInv (after two_pages)).
  { destruct (run_ok 0 app0 (IAccept 7 (demo_wsi 4)) app0_inv I) as (a1 & E1 & I1).
    destruct (run_ok 0 a1 (IAccept 8 (demo_wsi 4)) I1 I) as (a2 & E2 & I2).
    vm_compute in E1. injection E1 as <-. vm_compute in E2. injection E2 as <-.
    destruct (run_ok 0 _ (IEstablished 7) I2) as (a3 & E3 & I3); [by eexists|]. vm_compute in E3. injection E3 as <-.
    destruct (run_ok 0 _ (IEstablished 8) I3) as (a4 & E4 & I4); [by eexists|]. vm_compute in E4. injection E4 as <-.
    exact I4. }
  split; [exact I|].
  destruct (event_reaches_all 0 (after two_pages) (onSipConnect 3) I) as (a' & E & Hq & _).
  exists a'. split; [exact E|]. destruct (Hq 2 (mkClient 8 OPEN [])) as (c' & E1 & _ & _ & E2); [vm_compute; reflexivity|].
  exists c'. split; [exact E1|]. rewrite E2. vm_compute. reflexivity.
Defined.

Lemma app_safe_witness : exists a, rtc (app_step 0) app0 a /\ heap a = ∅ /\ length (calls a) = 4%nat /\ AppInv a /\
  is_Some (run 0 a (IAccept 7 (demo_wsi 4))).
Proof.
  assert (Hr : exists a, rtc (app_step 0) app0 a /\ heap a = ∅ /\ length (calls a) = 4%nat).
  { eexists. split.
    - eapply (app_step_run _ (IAccept 7 (demo_wsi 4))); [exact I|vm_compute; reflexivity|].
      eapply (app_step_run _ (IEstablished 7)); [by eexists|vm_compute; reflexivity|].
      eapply (app_step_run _ (IReceive 7 (Some demo_message))); [split; [by eexists|apply handled_demo]|vm_compute; reflexivity|].
      eapply (app_step_run _ (IWritable 7)); [|vm_compute; reflexivity|].
      { exists (lws_callback_on_writable (lws_callback_on_writable (demo_wsi 4))). split; [reflexivity|].
        split; [apply demo_asked_writes|]. split; [reflexivity|]. intros p c E1 E2. vm_compute in E1. injection E1 as <-.
        vm_compute in E2. injection E2 as <-. repeat constructor; vm_compute; done. }
      eapply (app_step_run _ (IReport (onSipConnect 3))); [exact I|vm_compute; reflexivity|].
      eapply (app_step_run _ (IClosed 7 None)); [by eexists|vm_compute; reflexivity|].
      eapply (app_step_run _ (IDestroy 7)); [split; [by eexists|by intros p c E]|vm_compute; reflexivity|].
      apply rtc_refl.
    - split; reflexivity. }
  destruct Hr as (a & Hr & Hh & Hc). exists a. destruct (app_safe 0 a Hr) as [HI Hn].
  split; [exact Hr|]. split; [exact Hh|]. split; [exact Hc|]. split; [exact HI|]. by apply Hn.
Defined.

End AppSafety.
